(** * BOM import Map/Reduce script: a shallow embedding

    The development follows [item_bom_create_mr.js] (the v3 Map/Reduce
    script): the CSV tokenizer [parseRow], the row mapper and hierarchy
    classifier of [getInputData], their copy in [reParseCSVForSummarize],
    the item stage [reduce] and the structure stage [summarize] with the
    helpers they call.
    The older script kept beside it has the same [parseRow] and the same
    rule for [isAssembly] and [parentHierarchy].

    JavaScript strings are modelled as [string]; a character stands for a
    code unit below 256.  JavaScript numbers are binary64 values
    ([spec_float] with 53 bits of precision), with the rounding, the
    infinities and the NaN of [parseFloat] and [parseInt].  A plain object
    used as a map is a [gmap] read through the prototype chain.  The record
    store (N/record, N/search) is an append-only table per record type; a
    record's internal id is its position in the table plus one, so an
    internal id is never falsy. *)

From Stdlib Require Import String Ascii ZArith Lia.
From Stdlib Require Import SpecFloat.
From stdpp Require Import gmap strings list fin_maps.
From stdpp Require Import pretty.
From Stdlib Require Import Sorted.

Local Open Scope string_scope.

(* ===================================================================== *)
(** ** JavaScript string primitives *)
(* ===================================================================== *)

Module Js.

Definition LF : ascii := ascii_of_nat 10.
Definition CR : ascii := ascii_of_nat 13.
Definition TAB : ascii := ascii_of_nat 9.
Definition COMMA : ascii := ","%char.
Definition DQUOTE : ascii := ascii_of_nat 34.
Definition DOT : ascii := "."%char.

(** [WhiteSpace] and [LineTerminator] code units below 256, the ones
    [String.prototype.trim] strips. *)
Definition isWhite (c : ascii) : bool :=
  let n := nat_of_ascii c in
  (Nat.eqb n 9 || Nat.eqb n 10 || Nat.eqb n 11 || Nat.eqb n 12
   || Nat.eqb n 13 || Nat.eqb n 32 || Nat.eqb n 160)%bool.

Fixpoint trimStart (s : string) : string :=
  match s with
  | String c rest => if isWhite c then trimStart rest else s
  | EmptyString => EmptyString
  end.

(** [trimEnd] keeps a character when it is not white or when something
    that survives follows it. *)
Fixpoint trimEnd (s : string) : string :=
  match s with
  | EmptyString => EmptyString
  | String c rest =>
      match trimEnd rest with
      | EmptyString => if isWhite c then EmptyString else String c EmptyString
      | kept => String c kept
      end
  end.

(** [s.trim()] *)
Definition trim (s : string) : string := trimEnd (trimStart s).

(** Truthiness of a string: non-empty. *)
Definition truthy (s : string) : bool :=
  match s with EmptyString => false | String _ _ => true end.

(** [h.startsWith(p)] *)
Fixpoint startsWith (h p : string) : bool :=
  match p, h with
  | EmptyString, _ => true
  | String a p', String b h' => if Ascii.eqb a b then startsWith h' p' else false
  | String _ _, EmptyString => false
  end.

(** [s.split(sep)] for a one-character separator: never the empty list;
    the pieces hold no separator. *)
Fixpoint split (sep : ascii) (s : string) : list string :=
  match s with
  | EmptyString => [EmptyString]
  | String c rest =>
      if Ascii.eqb c sep then EmptyString :: split sep rest
      else match split sep rest with
           | piece :: more => String c piece :: more
           | [] => [String c EmptyString]
           end
  end.

(** [parts.join(sep)] *)
Fixpoint join (sep : string) (parts : list string) : string :=
  match parts with
  | [] => EmptyString
  | [p] => p
  | p :: more => p ++ sep ++ join sep more
  end.

(** [parts.pop()]: the array without its last element. *)
Definition pop (parts : list string) : list string := removelast parts.

(** A plain object used as a map ([{}], or an object [JSON.parse] made) is
    modelled by its own properties.  It inherits the properties of
    [Object.prototype]: a read of one of these names that is not an own
    property yields the inherited member, and an assignment of a string or a
    number to [__proto__] stores nothing. *)
Definition PROTO : string := "__proto__".

Definition objectPrototype : list string :=
  ["constructor"; "__defineGetter__"; "__defineSetter__"; "hasOwnProperty";
   "__lookupGetter__"; "__lookupSetter__"; "isPrototypeOf"; "propertyIsEnumerable";
   "toString"; "valueOf"; "__proto__"; "toLocaleString"].

(** [obj[name] = value] for a string or a number [value]. *)
Definition setProperty {A : Type} (name : string) (value : A) (obj : gmap string A)
    : gmap string A :=
  if name =? PROTO then obj else <[name := value]> obj.

End Js.

(* ===================================================================== *)
(** ** CSV tokenizer: [parseRow] and the line filter *)
(* ===================================================================== *)

(** The [for] loop of [parseRow]: [values], [current] and [inQuotes] are the
    loop's variables, the string is what is left from index [i] on.  A
    doubled quote inside a quoted span consumes two characters ([i++]). *)
Fixpoint parseRow_loop (rowText : string) (values : list string)
    (current : string) (inQuotes : bool) : list string :=
  match rowText with
  | EmptyString => values ++ [current]
  | String char rest =>
      if Ascii.eqb char Js.DQUOTE then
        match rest with
        | String nextChar rest' =>
            if (inQuotes && Ascii.eqb nextChar Js.DQUOTE)%bool
            then parseRow_loop rest' values (current ++ String Js.DQUOTE EmptyString) inQuotes
            else parseRow_loop rest values current (negb inQuotes)
        | EmptyString => parseRow_loop rest values current (negb inQuotes)
        end
      else if ((Ascii.eqb char Js.COMMA || Ascii.eqb char Js.TAB) && negb inQuotes)%bool
      then parseRow_loop rest (values ++ [current]) EmptyString inQuotes
      else if negb (Ascii.eqb char Js.CR)
      then parseRow_loop rest values (current ++ String char EmptyString) inQuotes
      else parseRow_loop rest values current inQuotes
  end.

Definition parseRow (rowText : string) : list string :=
  parseRow_loop rowText [] EmptyString false.

(** [csvContent.split('\n').filter(line => line.trim())] *)
Definition csvLines (csvContent : string) : list string :=
  List.filter (fun line => Js.truthy (Js.trim line)) (Js.split Js.LF csvContent).

(** A parsed data line with the row number the scripts give it. *)
Record RawRow := mkRawRow { rowNumber : nat; cells : list string }.

(** The data-row loop shared by [getInputData] and
    [reParseCSVForSummarize]: [i] runs over [lines] from index 1; a line
    none of whose cells is non-blank is not pushed. *)
Fixpoint dataRows_from (i : nat) (lines : list string) : list RawRow :=
  match lines with
  | [] => []
  | line :: more =>
      let rowData := parseRow line in
      if existsb (fun cell => Js.truthy (Js.trim cell)) rowData
      then mkRawRow (i + 1) rowData :: dataRows_from (S i) more
      else dataRows_from (S i) more
  end.

Definition dataRows (lines : list string) : list RawRow :=
  dataRows_from 1 (tail lines).

(** The tokenizer of the specification: the fields of every line that is
    not blank. *)
Definition tokenize (rawText : string) : list (list string) :=
  List.map parseRow (csvLines rawText).

(* ===================================================================== *)
(** ** Numbers: [parseFloat] *)
(* ===================================================================== *)

(** A JavaScript number is an IEEE 754 binary64 value: [NaN], an infinity,
    a signed zero or a finite number [m * 2^e], as [spec_float] of the
    Standard Library has them. *)
Definition jsnum : Type := spec_float.

Definition JNaN : jsnum := S754_nan.

(** The number 1: [2^52 * 2^-52]. *)
Definition JOne : jsnum := S754_finite false 4503599627370496 (-52).

(** Truthiness of a number: neither [NaN] nor a zero. *)
Definition num_truthy (x : jsnum) : bool :=
  match x with
  | S754_nan | S754_zero _ => false
  | S754_infinity _ | S754_finite _ _ _ => true
  end.

(** [x || 1] on numbers. *)
Definition orOne (x : jsnum) : jsnum := if num_truthy x then x else JOne.

(** A number that is neither [NaN] nor infinite. *)
Definition num_finite (x : jsnum) : bool :=
  match x with
  | S754_nan | S754_infinity _ => false
  | S754_zero _ | S754_finite _ _ _ => true
  end.

(** The binary64 value of the decimal [mant * 10^e10], [mant] not negative:
    the nearest one, ties to even, an infinity past the largest finite
    value.  (For a literal of more than 20 significant digits ECMAScript
    lets an implementation round the digits after the 20th first; the
    nearest value is what this model takes.) *)
Definition ofDecimal (neg : bool) (mant e10 : Z) : jsnum :=
  if (mant =? 0)%Z then S754_zero neg
  else if (0 <=? e10)%Z
  then binary_normalize 53 1024 (if neg then - (mant * 10 ^ e10) else mant * 10 ^ e10)%Z 0 false
  else SFdiv 53 1024 (S754_finite neg (Z.to_pos mant) 0)
                     (S754_finite false (Z.to_pos (10 ^ (- e10))) 0).

Definition digitVal (c : ascii) : option Z :=
  let n := nat_of_ascii c in
  if (Nat.leb 48 n && Nat.leb n 57)%bool then Some (Z.of_nat (n - 48)) else None.

(** Reads the longest run of decimal digits: the accumulated value, the
    number of digits read, the rest. *)
Fixpoint readDigits (s : string) (acc : Z) (n : nat) : Z * nat * string :=
  match s with
  | String c rest =>
      match digitVal c with
      | Some d => readDigits rest (10 * acc + d)%Z (S n)
      | None => (acc, n, s)
      end
  | EmptyString => (acc, n, s)
  end.

Definition readSign (s : string) : bool * string :=
  match s with
  | String "-" rest => (true, rest)
  | String "+" rest => (false, rest)
  | _ => (false, s)
  end.

(** The exponent part, read only when it is complete. *)
Definition readExponent (s : string) : Z :=
  match s with
  | String c rest =>
      if (Ascii.eqb c "e" || Ascii.eqb c "E")%bool then
        let '(neg, rest1) := readSign rest in
        let '(e, ne, _) := readDigits rest1 0%Z 0 in
        match ne with
        | O => 0%Z
        | S _ => if neg then (- e)%Z else e
        end
      else 0%Z
  | EmptyString => 0%Z
  end.

(** [parseFloat(s)]: leading white space is skipped, the longest prefix that
    is a decimal literal ([Infinity] or digits with an optional fraction and
    exponent, after an optional sign) is read, anything after it is ignored;
    [NaN] when there is no such prefix. *)
Definition parseFloat (s : string) : jsnum :=
  let '(neg, s1) := readSign (Js.trimStart s) in
  if Js.startsWith s1 "Infinity" then S754_infinity neg
  else
    let '(ip, ni, s2) := readDigits s1 0%Z 0 in
    let '(mant, nf, s3) :=
      match s2 with
      | String "." rest => readDigits rest ip 0
      | _ => (ip, 0, s2)
      end in
    match ni, nf with
    | O, O => JNaN
    | _, _ => ofDecimal neg mant (readExponent s3 - Z.of_nat nf)
    end.

(** The number of an integer: the nearest binary64 value. *)
Definition numOf (z : Z) : jsnum := binary_normalize 53 1024 z 0 false.

(** [0 < x]: false for [NaN]. *)
Definition num_positive (x : jsnum) : bool := SFltb (S754_zero false) x.

(** [x || fallback] on numbers. *)
Definition numOr (x fallback : jsnum) : jsnum := if num_truthy x then x else fallback.

(** What [JSON.parse(JSON.stringify(x))] gives for a number: [null]
    ([None]) for [NaN] and the infinities, the number itself otherwise (a
    negative zero is written [0]). *)
Definition jsonNumber (x : jsnum) : option jsnum :=
  match x with
  | S754_nan | S754_infinity _ => None
  | S754_zero _ => Some (S754_zero false)
  | S754_finite _ _ _ => Some x
  end.

(* ===================================================================== *)
(** ** Run configuration *)
(* ===================================================================== *)

Inductive RecordType : Type := inventoryitem | assemblyitem.

Definition RecordType_eqb (a b : RecordType) : bool :=
  match a, b with
  | inventoryitem, inventoryitem | assemblyitem, assemblyitem => true
  | _, _ => false
  end.

(** [config.defaults] after the fall-backs of [getInputData] are applied.
    References to records of the store (locations, subsidiaries) are
    internal ids; [vendorId] is a number, [0] standing for no vendor;
    [leadtime] is [itemLocationDefaults.leadtime], [0] when it is missing. *)
Record Defaults : Type := mkDefaults {
  locationIds : list positive;
  subsidiaryId : option positive;
  vendorSubsidiaryId : option positive;
  vendorId : Z;
  setupMRP : bool;
  createVendors : bool;
  leadtime : Z
}.

Definition DEFAULT_CONFIG : Defaults :=
  {| locationIds := [2%positive; 13%positive];
     subsidiaryId := Some 2%positive;
     vendorSubsidiaryId := None;
     vendorId := 625%Z;
     setupMRP := true;
     createVendors := false;
     leadtime := 7%Z |}.

(** The JSON configuration file.  [mappings] lists the entries of the
    object in the order [Object.keys] yields them, each with the column
    [parseInt] reads from its key; a missing [prospectName], [mappings] or
    [defaults] is [None]. *)
Record Config : Type := mkConfig {
  prospectName : option string;
  csvFileId : positive;
  mappings : option (list (nat * string));
  defaults : option Defaults
}.

(** The entries of [config.mappings]; none when it is missing. *)
Definition mappingsOf (config : Config) : list (nat * string) :=
  default [] (mappings config).

(** String conversion of a possibly missing value in a concatenation. *)
Definition strOf (v : option string) : string := default "undefined" v.

(* ===================================================================== *)
(** ** Row mapper *)
(* ===================================================================== *)

(** The object [mapped] of [getInputData]. *)
Record MappedRow : Type := mkMapped {
  m_rowNumber : nat;
  m_hierarchy : option string;
  m_itemFields : gmap string string;
  m_quantity : option jsnum;
  m_memo : option string;
  m_vendorName : option string
}.

Definition newMapped (n : nat) : MappedRow :=
  mkMapped n None ∅ None None None.

(** [mapped.itemFields[f] = v] *)
Definition setItemField (f v : string) (m : MappedRow) : MappedRow :=
  mkMapped (m_rowNumber m) (m_hierarchy m) (Js.setProperty f v (m_itemFields m))
           (m_quantity m) (m_memo m) (m_vendorName m).

(** The body of [Object.keys(config.mappings).forEach] in [getInputData]. *)
Definition mapCell (fieldName value : string) (m : MappedRow) : MappedRow :=
  if negb (Js.truthy (Js.trim value)) then m
  else if fieldName =? "hierarchy" then
    mkMapped (m_rowNumber m) (Some (Js.trim value)) (m_itemFields m)
             (m_quantity m) (m_memo m) (m_vendorName m)
  else if fieldName =? "quantity" then
    mkMapped (m_rowNumber m) (m_hierarchy m) (m_itemFields m)
             (Some (orOne (parseFloat value))) (m_memo m) (m_vendorName m)
  else if fieldName =? "memo" then
    mkMapped (m_rowNumber m) (m_hierarchy m) (m_itemFields m)
             (m_quantity m) (Some (Js.trim value)) (m_vendorName m)
  else if fieldName =? "vendor" then
    mkMapped (m_rowNumber m) (m_hierarchy m) (m_itemFields m)
             (m_quantity m) (m_memo m) (Some (Js.trim value))
  else if fieldName =? "displayname" then
    setItemField "purchasedescription" (Js.trim value)
      (setItemField "salesdescription" (Js.trim value)
         (setItemField "displayname" (Js.trim value) m))
  else setItemField fieldName (Js.trim value) m.

(** The same loop body in [reParseCSVForSummarize]: three fields only. *)
Definition mapCell_reparse (fieldName value : string) (m : MappedRow) : MappedRow :=
  if negb (Js.truthy (Js.trim value)) then m
  else if fieldName =? "hierarchy" then
    mkMapped (m_rowNumber m) (Some (Js.trim value)) (m_itemFields m)
             (m_quantity m) (m_memo m) (m_vendorName m)
  else if fieldName =? "quantity" then
    mkMapped (m_rowNumber m) (m_hierarchy m) (m_itemFields m)
             (Some (orOne (parseFloat value))) (m_memo m) (m_vendorName m)
  else if fieldName =? "itemid" then setItemField "itemid" (Js.trim value) m
  else m.

(** [row.cells[parseInt(colIndex)] || ''] *)
Definition cellAt (cs : list string) (col : nat) : string := nth col cs EmptyString.

Definition mapRowWith (cell : string -> string -> MappedRow -> MappedRow)
    (maps : list (nat * string)) (raw : RawRow) : MappedRow :=
  fold_left (fun m (e : nat * string) => cell (snd e) (cellAt (cells raw) (fst e)) m)
            maps (newMapped (rowNumber raw)).

(** A row of the list the stages work on.  The fields below [vendorName]
    are the ones the classifier adds; [recordType] and [mrpRotationIndex]
    stay unset in the rows of [reParseCSVForSummarize]. *)
Record Row : Type := mkRow {
  r_rowNumber : nat;
  hierarchy : string;
  itemFields : gmap string string;
  quantity : option jsnum;
  memo : option string;
  vendorName : option string;
  isAssembly : bool;
  recordType : option RecordType;
  mrpRotationIndex : option nat;
  parentHierarchy : option string
}.

(** [rowData.itemFields.itemid] as it enters a string concatenation. *)
Definition itemid (r : Row) : string := strOf (itemFields r !! "itemid").

(** A row after [JSON.parse(JSON.stringify(row))], which is how the cache
    and the stages [map] and [reduce] get it: JSON text has no infinite
    number, so an infinite quantity comes back as [null]; strings, booleans
    and the other numbers of a row come back as they were. *)
Definition jsonRow (r : Row) : Row :=
  mkRow (r_rowNumber r) (hierarchy r) (itemFields r) (quantity r ≫= jsonNumber)
        (memo r) (vendorName r) (isAssembly r) (recordType r) (mrpRotationIndex r)
        (parentHierarchy r).

(** [.filter(row => row.hierarchy && row.itemFields.itemid)]: both are
    non-empty strings when set. *)
Definition keepMapped (m : MappedRow) : option Row :=
  match m_hierarchy m, m_itemFields m !! "itemid" with
  | Some h, Some i =>
      if (Js.truthy h && Js.truthy i)%bool
      then Some (mkRow (m_rowNumber m) h (m_itemFields m) (m_quantity m) (m_memo m)
                       (m_vendorName m) false None None None)
      else None
  | _, _ => None
  end.

Definition mappedRows (cell : string -> string -> MappedRow -> MappedRow)
    (maps : list (nat * string)) (raws : list RawRow) : list Row :=
  omap (fun raw => keepMapped (mapRowWith cell maps raw)) raws.

(* ===================================================================== *)
(** ** Hierarchy classifier *)
(* ===================================================================== *)

(** [new Set(keys)] listed by [Array.from]: first occurrences, in order. *)
Fixpoint setFrom (seen keys : list string) : list string :=
  match keys with
  | [] => []
  | k :: more =>
      if existsb (String.eqb k) seen then setFrom seen more
      else k :: setFrom (seen ++ [k]) more
  end.

Definition hierarchySetOf (rows : list Row) : list string :=
  setFrom [] (List.map hierarchy rows).

(** [Array.from(hierarchySet).some(h => h !== key && h.startsWith(key + '.'))] *)
Definition hasDescendant (hierarchySet : list string) (key : string) : bool :=
  existsb (fun h => (negb (h =? key) && Js.startsWith h (key ++ "."))%bool) hierarchySet.

(** The parent hierarchy: split on the dot, drop the last part, join. *)
Definition parentOf (key : string) : option string :=
  let parts := Js.split Js.DOT key in
  if Nat.ltb 1 (length parts) then Some (Js.join "." (Js.pop parts)) else None.

(** The classifying [forEach] of [getInputData]; [inventoryIndex] is the
    counter it threads through the rows. *)
Fixpoint classify_loop (hierarchySet : list string) (inventoryIndex : nat)
    (rows : list Row) : list Row :=
  match rows with
  | [] => []
  | row :: more =>
      let asm := hasDescendant hierarchySet (hierarchy row) in
      mkRow (r_rowNumber row) (hierarchy row) (itemFields row) (quantity row)
            (memo row) (vendorName row) asm
            (Some (if asm then assemblyitem else inventoryitem))
            (if asm then None else Some inventoryIndex)
            (parentOf (hierarchy row))
      :: classify_loop hierarchySet (if asm then inventoryIndex else S inventoryIndex) more
  end.

Definition classify (rows : list Row) : list Row :=
  classify_loop (hierarchySetOf rows) 0 rows.

(** The classifying [forEach] of [reParseCSVForSummarize]. *)
Definition classify_reparse (rows : list Row) : list Row :=
  let hierarchySet := hierarchySetOf rows in
  List.map (fun row =>
    mkRow (r_rowNumber row) (hierarchy row) (itemFields row) (quantity row)
          (memo row) (vendorName row) (hasDescendant hierarchySet (hierarchy row))
          None None (parentOf (hierarchy row))) rows.

(** The row list [getInputData] computes from the lines of the file. *)
Definition inputRows (maps : list (nat * string)) (lines : list string) : list Row :=
  classify (mappedRows mapCell maps (dataRows lines)).

(** [reParseCSVForSummarize(config)] on the content of the CSV file. *)
Definition reParseCSVForSummarize (maps : list (nat * string)) (csvContent : string)
    : list Row :=
  classify_reparse (mappedRows mapCell_reparse maps (dataRows (csvLines csvContent))).

(* ===================================================================== *)
(** ** External identities *)
(* ===================================================================== *)

Inductive EntityRole : Type := RoleItem | RoleBOM | RoleRevision.

(** [prospectName + '_' + itemid] in [reduce], [createItem] and [summarize] *)
Definition itemExternalId (ns itemId : string) : string := ns ++ "_" ++ itemId.

(** [createOrGetBOM]: [bomName = assemblyItemId + '_BOM'] *)
Definition bomName (assemblyItemId : string) : string := assemblyItemId ++ "_BOM".
Definition bomExternalId (ns assemblyItemId : string) : string :=
  ns ++ "_" ++ bomName assemblyItemId.

(** [createOrGetBOMRevision]: [revisionName = assemblyItemId + '_REV_A'] *)
Definition revisionName (assemblyItemId : string) : string := assemblyItemId ++ "_REV_A".
Definition revisionExternalId (ns assemblyItemId : string) : string :=
  ns ++ "_" ++ revisionName assemblyItemId.

Definition externalIdentity (ns naturalId : string) (role : EntityRole) : string :=
  match role with
  | RoleItem => itemExternalId ns naturalId
  | RoleBOM => bomExternalId ns naturalId
  | RoleRevision => revisionExternalId ns naturalId
  end.

(* ===================================================================== *)
(** ** The record store *)
(* ===================================================================== *)

(** What the script puts in the [vendor] field of a vendor line: a number
    (a vendor's internal id, or [defaults.vendorId]), or the member of
    [Object.prototype] that a read of the vendor cache under an inherited
    name gave. *)
Inductive VendorRef : Type :=
| VendorNumber (id : Z)
| PrototypeMember (name : string).

(** A line of the [itemvendor] sublist. *)
Record VendorLine : Type := mkVendorLine {
  vl_vendor : VendorRef;
  vl_subsidiary : option positive
}.

(** A line of the [billofmaterials] sublist of an assembly item: the link
    from the item to a BOM with its [masterdefault] flag. *)
Record BomLink : Type := mkBomLink {
  bl_bom : positive;
  bl_masterdefault : bool
}.

Record Item : Type := mkItem {
  it_type : RecordType;
  it_externalid : string;
  it_fields : gmap string string;
  it_planningitemcategory : option positive;
  it_replenishment : option string;
  it_vendors : list VendorLine;
  it_boms : list BomLink
}.

(** An [itemlocationconfiguration] record. *)
Record LocConfig : Type := mkLocConfig {
  lc_item : positive;
  lc_location : positive;
  lc_supplytype : option string;
  lc_lotsizing : option string;
  lc_leadtime : option Z
}.

Record Bom : Type := mkBom {
  bom_externalid : string;
  bom_name : string;
  bom_subsidiary : option positive
}.

(** An entry of [components] in [summarize]. *)
Record Component : Type := mkComponent {
  c_itemId : string;
  c_internalId : positive;
  c_quantity : jsnum
}.

Record BomRevision : Type := mkRevision {
  rev_externalid : string;
  rev_name : string;
  rev_bom : positive;
  rev_components : list (positive * jsnum)
}.

(** A call of N/record the store may refuse, that is, answer by throwing:
    the set of a field or the commit of a sublist line that the script wraps
    in a [try] of its own, and the [save()] of a record.  A set is refused
    or not by the type of the record, the field and the value, whether the
    record is new or loaded; a new location configuration by the whole
    record it would be. *)
Inductive WriteOp : Type :=
| SetField (ty : RecordType) (field value : string)
| SetPlanningCategory (ty : RecordType) (category : positive)
| SetReplenishment (ty : RecordType) (method : string)
| AddVendorLine (vendor : VendorRef) (subsidiary : option positive)
| SaveItem (ty : RecordType) (externalid : string)
| SaveItemUpdate (id : positive)
| SaveLocConfig (record : LocConfig)
| SaveLocConfigUpdate (configId : positive)
| SaveBOM (externalid : string)
| SaveRevision (externalid : string)
| CommitComponent (item : positive) (quantity : jsnum)
| SaveLink (assembly bom : positive)
| SaveCategory (name : string)
| SaveVendor (name : string).

Record Store : Type := mkStore {
  items : list Item;
  locconfigs : list LocConfig;
  boms : list Bom;
  revisions : list BomRevision;
  categories : list string;
  vendors : list string;
  refuses : WriteOp -> bool
}.

(** An empty store that refuses nothing. *)
Definition emptyStore : Store := mkStore [] [] [] [] [] [] (fun _ => false).

(** Internal ids: position in the table plus one. *)
Definition idOf (i : nat) : positive := Pos.of_succ_nat i.
Definition indexOf (id : positive) : nat := Nat.pred (Pos.to_nat id).

(** A search on an exact key, first result
    ([getRange({start: 0, end: 1})]); [i] is the position of the head of
    [table] in the whole table. *)
Fixpoint findFirst_from {A : Type} (key : A -> string) (externalId : string) (i : nat)
    (table : list A) : option positive :=
  match table with
  | [] => None
  | x :: more =>
      if String.eqb (key x) externalId then Some (idOf i)
      else findFirst_from key externalId (S i) more
  end.

Definition findFirst {A : Type} (key : A -> string) (externalId : string)
    (table : list A) : option positive :=
  findFirst_from key externalId 0 table.

Definition withItems (f : list Item -> list Item) (s : Store) : Store :=
  mkStore (f (items s)) (locconfigs s) (boms s) (revisions s) (categories s) (vendors s) (refuses s).
Definition withLocConfigs (f : list LocConfig -> list LocConfig) (s : Store) : Store :=
  mkStore (items s) (f (locconfigs s)) (boms s) (revisions s) (categories s) (vendors s) (refuses s).
Definition withBoms (f : list Bom -> list Bom) (s : Store) : Store :=
  mkStore (items s) (locconfigs s) (f (boms s)) (revisions s) (categories s) (vendors s) (refuses s).
Definition withRevisions (f : list BomRevision -> list BomRevision) (s : Store) : Store :=
  mkStore (items s) (locconfigs s) (boms s) (f (revisions s)) (categories s) (vendors s) (refuses s).
Definition withCategories (f : list string -> list string) (s : Store) : Store :=
  mkStore (items s) (locconfigs s) (boms s) (revisions s) (f (categories s)) (vendors s) (refuses s).
Definition withVendors (f : list string -> list string) (s : Store) : Store :=
  mkStore (items s) (locconfigs s) (boms s) (revisions s) (categories s) (f (vendors s)) (refuses s).

(** [findItemByExternalId]: a search over every item type; a search error
    is logged and gives [null] like an empty result. *)
Definition findItemByExternalId (externalId : string) (s : Store) : option positive :=
  findFirst it_externalid externalId (items s).

Definition findBOMByExternalId (externalId : string) (s : Store) : option positive :=
  findFirst bom_externalid externalId (boms s).

Definition findBOMRevisionByExternalId (externalId : string) (s : Store) : option positive :=
  findFirst rev_externalid externalId (revisions s).

(** [record.load({type, id})]: throws ([None]) when there is no record of
    that type with that id. *)
Definition loadItem (ty : option RecordType) (id : positive) (s : Store) : option Item :=
  match ty, items s !! indexOf id with
  | Some t, Some it => if RecordType_eqb (it_type it) t then Some it else None
  | _, _ => None
  end.

(** [getExistingItemLocations]: the locations of the item's
    [itemlocationconfiguration] records. *)
Definition getExistingItemLocations (itemId : positive) (s : Store) : list positive :=
  List.map lc_location
    (List.filter (fun lc => Pos.eqb (lc_item lc) itemId) (locconfigs s)).

(** The context [getInputData] copies onto every row. *)
Record Context : Type := mkContext {
  c_prospectName : option string;
  c_defaults : option Defaults;
  c_planningItemCategoryId : option positive;
  c_vendorCache : gmap string positive
}.

(** [rowData.defaults || DEFAULT_CONFIG] *)
Definition defaultsOf (ctx : Context) : Defaults := default DEFAULT_CONFIG (c_defaults ctx).

(** [defaults.subsidiaryId || DEFAULT_CONFIG.subsidiaryId] *)
Definition subsidiaryOf (d : Defaults) : option positive :=
  match subsidiaryId d with
  | Some x => Some x
  | None => subsidiaryId DEFAULT_CONFIG
  end.

(** [defaults.vendorSubsidiaryId || defaults.subsidiaryId] *)
Definition vendorSubsidiaryOf (d : Defaults) : option positive :=
  match vendorSubsidiaryId d with
  | Some x => Some x
  | None => subsidiaryId d
  end.

Module MRP_LOCATION_ROTATION.
Definition leadTimes : list Z := [5; 14; 30; 100]%Z.
Definition lotSizingMethods : list string :=
  ["LOT_FOR_LOT"; "FIXED_LOT_SIZE"; "FIXED_LOT_MULTIPLE"; "PERIODIC_LOT_SIZE"].
End MRP_LOCATION_ROTATION.

Definition expectedSupplyType (isAsm : bool) : string :=
  if isAsm then "BUILD" else "PURCHASE".

Definition expectedLeadTime (rotationIndex locIndex : nat) : option Z :=
  MRP_LOCATION_ROTATION.leadTimes
    !! ((rotationIndex + locIndex) mod length MRP_LOCATION_ROTATION.leadTimes).

Definition expectedLotSizing (rotationIndex : nat) : option string :=
  MRP_LOCATION_ROTATION.lotSizingMethods
    !! (rotationIndex mod length MRP_LOCATION_ROTATION.lotSizingMethods).

(* ===================================================================== *)
(** ** Stage [reduce]: items and their locations *)
(* ===================================================================== *)

(** [locDefaults.leadtime || 7] *)
Definition leadtimeOf (d : Defaults) : Z :=
  if Z.eqb (leadtime d) 0 then 7%Z else leadtime d.

(** [rowData.vendorCache[name]]: an own property holds a vendor's internal
    id; a name the object inherits yields the inherited member; anything
    else is [undefined]. *)
Definition cachedVendor (vendorCache : gmap string positive) (name : string)
    : option VendorRef :=
  match vendorCache !! name with
  | Some vendor => Some (VendorNumber (Zpos vendor))
  | None =>
      if existsb (String.eqb name) Js.objectPrototype then Some (PrototypeMember name)
      else None
  end.

(** [getVendorForItem]: whatever the cache read yields is truthy. *)
Definition getVendorForItem (ctx : Context) (row : Row) (d : Defaults) : option VendorRef :=
  match (if createVendors d
         then match vendorName row with
              | Some name =>
                  if Js.truthy name then cachedVendor (c_vendorCache ctx) name else None
              | None => None
              end
         else None) with
  | Some vendor => Some vendor
  | None => if Z.ltb 0 (vendorId d) then Some (VendorNumber (vendorId d)) else None
  end.

(** The new [itemlocationconfiguration] of [createItemLocations]. *)
Definition newLocConfig (itemId locationId : positive) (d : Defaults)
    (isAsm : bool) (rotationIndex locIndex : nat) : LocConfig :=
  if setupMRP d
  then mkLocConfig itemId locationId (Some (expectedSupplyType isAsm))
                   (expectedLotSizing rotationIndex)
                   (expectedLeadTime rotationIndex locIndex)
  else mkLocConfig itemId locationId None None (Some (leadtimeOf d)).

(** The [forEach] of [createItemLocations], from location index [locIndex]
    on; the sets and the [save()] of a location are in one [try]: when the
    store refuses the record, the error is caught and logged and the
    location is left out. *)
Fixpoint createItemLocations_loop (itemId : positive) (d : Defaults) (isAsm : bool)
    (rotationIndex locIndex : nat) (locs : list positive) (s : Store) : Store :=
  match locs with
  | [] => s
  | locationId :: more =>
      let new := newLocConfig itemId locationId d isAsm rotationIndex locIndex in
      let s' :=
        if refuses s (SaveLocConfig new) then s
        else withLocConfigs (fun t => (t ++ [new])%list) s
      in createItemLocations_loop itemId d isAsm rotationIndex (S locIndex) more s'
  end.

Definition createItemLocations (itemId : positive) (ctx : Context) (row : Row)
    (s : Store) : Store :=
  let d := defaultsOf ctx in
  createItemLocations_loop itemId d (isAssembly row)
    (default 0 (mrpRotationIndex row)) 0 (locationIds d) s.

(** The mapped fields that end on the new record: [createItem] sets each
    field in a [try] of its own, skips an empty value, and logs and leaves
    out a field whose set throws. *)
Definition acceptedFields (ty : RecordType) (fields : gmap string string) (s : Store)
    : gmap string string :=
  filter (fun fv : string * string =>
            (Js.truthy (snd fv) && negb (refuses s (SetField ty (fst fv) (snd fv))))%bool
            = true)
         fields.

(** The planning item category and the replenishment method as [createItem]
    and [ensureMRPSettings] set them: each set is in a [try] of its own,
    and a set that throws leaves the field as it was. *)
Definition acceptedCategory (ty : RecordType) (category : option positive) (s : Store)
    : option positive :=
  match category with
  | Some c => if refuses s (SetPlanningCategory ty c) then None else Some c
  | None => None
  end.

Definition acceptedMethod (ty : RecordType) (method : string) (s : Store) : option string :=
  if refuses s (SetReplenishment ty method) then None else Some method.

(** [createItem]: the sets of the mapped fields, of the planning settings
    and of the vendor line are each in a [try] of their own, so a refused
    one is left out of the record; the other calls on the new record are
    not, and when one of them throws ([record.create] without a type, the
    unguarded sets of [externalid], [includechildren] and [taxschedule], a
    refused [save()]) the item is not created ([None]): the refusal of
    [SaveItem] stands for all of them.  The standard fields
    ([includechildren], [taxschedule], [unitstype], [weight]) are not
    tracked.  The external id is set before the mapped fields; no mapped
    field is taken to be named [externalid] (the suitelet offers no such
    target field), so the id set first is the one saved.  The locations are
    added after the item is saved. *)
Definition createItem (ctx : Context) (row : Row) (s : Store)
    : option positive * Store :=
  let d := defaultsOf ctx in
  match recordType row with
  | None => (None, s)
  | Some ty =>
      let externalId := itemExternalId (strOf (c_prospectName ctx)) (itemid row) in
      let vendorLines :=
        match getVendorForItem ctx row d with
        | Some vendor =>
            if RecordType_eqb ty inventoryitem
            then if refuses s (AddVendorLine vendor (vendorSubsidiaryOf d)) then []
                 else [mkVendorLine vendor (vendorSubsidiaryOf d)]
            else []
        | None => []
        end in
      let itemRec :=
        mkItem ty externalId (acceptedFields ty (itemFields row) s)
               (if setupMRP d then acceptedCategory ty (c_planningItemCategoryId ctx) s
                else None)
               (if setupMRP d
                then acceptedMethod ty (if isAssembly row then "MPS" else "MRP") s
                else None)
               vendorLines [] in
      if refuses s (SaveItem ty externalId) then (None, s)
      else
        let itemId := idOf (length (items s)) in
        (Some itemId, createItemLocations itemId ctx row (withItems (fun t => (t ++ [itemRec])%list) s))
  end.

(** The [itemlocationconfiguration] [ensureItemLocations] adds to an
    existing item: no MRP field, the lead time of the defaults. *)
Definition plainLocConfig (itemId locationId : positive) (d : Defaults) : LocConfig :=
  mkLocConfig itemId locationId None None (Some (leadtimeOf d)).

(** The [forEach] of [ensureItemLocations]: [existing] is read once, before
    the loop; the sets and the [save()] of a location are in one [try]. *)
Fixpoint ensureItemLocations_loop (itemId : positive) (d : Defaults)
    (existing locs : list positive) (added : nat) (s : Store) : nat * Store :=
  match locs with
  | [] => (added, s)
  | locationId :: more =>
      if existsb (Pos.eqb locationId) existing
      then ensureItemLocations_loop itemId d existing more added s
      else if refuses s (SaveLocConfig (plainLocConfig itemId locationId d))
      then ensureItemLocations_loop itemId d existing more added s
      else ensureItemLocations_loop itemId d existing more (S added)
             (withLocConfigs (fun t => (t ++ [plainLocConfig itemId locationId d])%list) s)
  end.

Definition ensureItemLocations (itemId : positive) (ctx : Context) (s : Store)
    : nat * Store :=
  let d := defaultsOf ctx in
  ensureItemLocations_loop itemId d (getExistingItemLocations itemId s) (locationIds d) 0 s.

(** [ensureMRPSettings]: [setCategory] and [setMethod] tell which of the two
    sets went through; each is in a [try] of its own and sets [needsSave]
    only when it did not throw. *)
Definition ensureMRPSettings (itemId : positive) (ctx : Context) (row : Row)
    (s : Store) : bool * Store :=
  let d := defaultsOf ctx in
  if negb (setupMRP d) then (false, s)
  else
    match loadItem (recordType row) itemId s with
    | None => (false, s)
    | Some itemRec =>
        let setCategory :=
          match c_planningItemCategoryId ctx, it_planningitemcategory itemRec with
          | Some category, None =>
              negb (refuses s (SetPlanningCategory (it_type itemRec) category))
          | _, _ => false
          end in
        let expectedMethod := if isAssembly row then "MPS" else "MRP" in
        let setMethod :=
          (match it_replenishment itemRec with
           | None => true
           | Some currentMethod =>
               ((currentMethod =? "REORDER_POINT")
                || negb (currentMethod =? expectedMethod))%bool
           end
           && negb (refuses s (SetReplenishment (it_type itemRec) expectedMethod)))%bool in
        let needsSave := (setCategory || setMethod)%bool in
        if needsSave then
          if refuses s (SaveItemUpdate itemId) then (false, s)
          else
            let saved :=
              mkItem (it_type itemRec) (it_externalid itemRec) (it_fields itemRec)
                     (if setCategory then c_planningItemCategoryId ctx
                      else it_planningitemcategory itemRec)
                     (if setMethod then Some expectedMethod else it_replenishment itemRec)
                     (it_vendors itemRec) (it_boms itemRec) in
            (true, withItems (fun t => <[indexOf itemId := saved]> t) s)
        else (false, s)
    end.

(** The search of [ensureLocationMRPSettings]: the item's configuration
    records with their ids, in table order. *)
Definition locConfigsOf (itemId : positive) (s : Store) : list (positive * LocConfig) :=
  List.filter (fun e : positive * LocConfig => Pos.eqb (lc_item (snd e)) itemId)
    (imap (fun i lc => (idOf i, lc)) (locconfigs s)).

Definition needsUpdate (isAsm : bool) (rotationIndex locIndex : nat) (lc : LocConfig) : bool :=
  (negb (bool_decide (lc_supplytype lc = Some (expectedSupplyType isAsm)))
   || negb (bool_decide (is_Some (lc_lotsizing lc)))
   || negb (bool_decide (lc_lotsizing lc = expectedLotSizing rotationIndex))
   || negb (bool_decide (is_Some (lc_leadtime lc)))
   || negb (bool_decide (lc_leadtime lc = expectedLeadTime rotationIndex locIndex)))%bool.

(** The [results.forEach] of [ensureLocationMRPSettings]. *)
Fixpoint ensureLocationMRPSettings_loop (isAsm : bool) (rotationIndex locIndex : nat)
    (results : list (positive * LocConfig)) (updated : nat) (s : Store) : nat * Store :=
  match results with
  | [] => (updated, s)
  | (configId, locConfig) :: more =>
      if negb (needsUpdate isAsm rotationIndex locIndex locConfig)
      then ensureLocationMRPSettings_loop isAsm rotationIndex (S locIndex) more updated s
      else if refuses s (SaveLocConfigUpdate configId)
      then ensureLocationMRPSettings_loop isAsm rotationIndex (S locIndex) more updated s
      else
        let saved :=
          mkLocConfig (lc_item locConfig) (lc_location locConfig)
                      (Some (expectedSupplyType isAsm))
                      (expectedLotSizing rotationIndex)
                      (expectedLeadTime rotationIndex locIndex) in
        ensureLocationMRPSettings_loop isAsm rotationIndex (S locIndex) more (S updated)
          (withLocConfigs (fun t => <[indexOf configId := saved]> t) s)
  end.

Definition ensureLocationMRPSettings (itemId : positive) (ctx : Context) (row : Row)
    (s : Store) : nat * Store :=
  let d := defaultsOf ctx in
  if negb (setupMRP d) then (0, s)
  else ensureLocationMRPSettings_loop (isAssembly row) (default 0 (mrpRotationIndex row)) 0
         (locConfigsOf itemId s) 0 s.

(** [ensureVendorSubsidiary] *)
Definition ensureVendorSubsidiary (itemId : positive) (ty : option RecordType)
    (ctx : Context) (s : Store) : bool * Store :=
  let d := defaultsOf ctx in
  match vendorSubsidiaryOf d with
  | None => (false, s)
  | Some expectedSubsidiary =>
      match loadItem ty itemId s with
      | None => (false, s)
      | Some itemRec =>
          let updated :=
            existsb (fun l => negb (bool_decide (vl_subsidiary l = Some expectedSubsidiary)))
                    (it_vendors itemRec) in
          if updated then
            if refuses s (SaveItemUpdate itemId) then (false, s)
            else
              let saved :=
                mkItem (it_type itemRec) (it_externalid itemRec) (it_fields itemRec)
                       (it_planningitemcategory itemRec) (it_replenishment itemRec)
                       (List.map (fun l => mkVendorLine (vl_vendor l) (Some expectedSubsidiary))
                                 (it_vendors itemRec))
                       (it_boms itemRec) in
              (true, withItems (fun t => <[indexOf itemId := saved]> t) s)
          else (false, s)
      end
  end.

(** The counters of [reduce]. *)
Record ReduceStats : Type := mkReduceStats {
  created : nat;
  skipped : nat;
  failed : nat;
  locationsCreated : nat;
  mrpUpdatesCount : nat;
  locationMRPUpdated : nat;
  vendorSubsidiaryUpdated : nat
}.

Definition noReduceStats : ReduceStats := mkReduceStats 0 0 0 0 0 0 0.

(** The body of [records.forEach] in [reduce], with its [try]/[catch]. *)
Definition reduceRow (ctx : Context) (rowData : Row) (acc : ReduceStats * Store)
    : ReduceStats * Store :=
  let '(st, s) := acc in
  let externalId := itemExternalId (strOf (c_prospectName ctx)) (itemid rowData) in
  match findItemByExternalId externalId s with
  | Some existingItemId =>
      let '(locsAdded, s1) := ensureItemLocations existingItemId ctx s in
      let '(mrpUpdated, s2) := ensureMRPSettings existingItemId ctx rowData s1 in
      let '(locsUpdated, s3) := ensureLocationMRPSettings existingItemId ctx rowData s2 in
      let '(vendorUpdated, s4) :=
        ensureVendorSubsidiary existingItemId (recordType rowData) ctx s3 in
      (mkReduceStats (created st) (S (skipped st)) (failed st)
                     (locationsCreated st + locsAdded)
                     (if mrpUpdated then S (mrpUpdatesCount st) else mrpUpdatesCount st)
                     (locationMRPUpdated st + locsUpdated)
                     (if vendorUpdated then S (vendorSubsidiaryUpdated st)
                      else vendorSubsidiaryUpdated st),
       s4)
  | None =>
      match createItem ctx rowData s with
      | (Some _, s1) =>
          (mkReduceStats (S (created st)) (skipped st) (failed st) (locationsCreated st)
                         (mrpUpdatesCount st) (locationMRPUpdated st)
                         (vendorSubsidiaryUpdated st), s1)
      | (None, s1) =>
          (mkReduceStats (created st) (skipped st) (S (failed st)) (locationsCreated st)
                         (mrpUpdatesCount st) (locationMRPUpdated st)
                         (vendorSubsidiaryUpdated st), s1)
      end
  end.

(** [reduce] for one key: the counters start at zero. *)
Definition reduce (ctx : Context) (records : list Row) (s : Store) : ReduceStats * Store :=
  fold_left (fun acc rowData => reduceRow ctx rowData acc) records (noReduceStats, s).

(** Stage [map] writes a row under ['2_assembly'] or ['1_inventory']; the
    executor calls [reduce] once per key. *)
Definition mapStage (rows : list Row) : list Row * list Row :=
  (List.filter (fun r => negb (isAssembly r)) rows, List.filter isAssembly rows).

Definition reducePhase (ctx : Context) (rows : list Row) (s : Store)
    : ReduceStats * ReduceStats * Store :=
  let '(inventory, assembly) := mapStage rows in
  let '(st1, s1) := reduce ctx inventory s in
  let '(st2, s2) := reduce ctx assembly s1 in
  (st1, st2, s2).

(* ===================================================================== *)
(** ** Stage [summarize]: BOMs, revisions and links *)
(* ===================================================================== *)

(** [createOrGetBOM]: the BOM id ([None] when creation failed) and whether
    it was created. *)
Definition createOrGetBOM (assemblyItemId : string) (ns : string) (d : Defaults)
    (s : Store) : option positive * bool * Store :=
  let externalId := bomExternalId ns assemblyItemId in
  match findBOMByExternalId externalId s with
  | Some existingBom => (Some existingBom, false, s)
  | None =>
      if refuses s (SaveBOM externalId) then (None, false, s)
      else
        (Some (idOf (length (boms s))), true,
         withBoms (fun t => (t ++ [mkBom externalId (bomName assemblyItemId) (subsidiaryOf d)])%list) s)
  end.

(** The result object of [createOrGetBOMRevision]. *)
Record RevisionResult : Type := mkRevisionResult {
  revisionId : option positive;
  rr_created : bool;
  rr_exists : bool
}.

(** [createOrGetBOMRevision]: a component line whose commit is refused is
    logged and left out; a refused [save()] fails the revision. *)
Definition createOrGetBOMRevision (bomId : positive) (assemblyItemId : string)
    (components : list Component) (ns : string) (s : Store) : RevisionResult * Store :=
  let externalId := revisionExternalId ns assemblyItemId in
  match findBOMRevisionByExternalId externalId s with
  | Some existingRevision => (mkRevisionResult (Some existingRevision) false true, s)
  | None =>
      let lines :=
        List.map (fun c => (c_internalId c, c_quantity c))
          (List.filter
             (fun c => negb (refuses s (CommitComponent (c_internalId c) (c_quantity c))))
             components) in
      if refuses s (SaveRevision externalId)
      then (mkRevisionResult None false false, s)
      else
        (mkRevisionResult (Some (idOf (length (revisions s)))) true false,
         withRevisions
           (fun t => (t ++ [mkRevision externalId (revisionName assemblyItemId) bomId lines])%list) s)
  end.

(** The [for] loop of [ensureBOMLinkedToAssembly] over the
    [billofmaterials] lines: the index of the first line of the BOM. *)
Fixpoint findLinkLine (bomId : positive) (i : nat) (lines : list BomLink)
    : option (nat * BomLink) :=
  match lines with
  | [] => None
  | l :: more =>
      if Pos.eqb (bl_bom l) bomId then Some (i, l) else findLinkLine bomId (S i) more
  end.

Definition setItemBoms (itemRec : Item) (lines : list BomLink) : Item :=
  mkItem (it_type itemRec) (it_externalid itemRec) (it_fields itemRec)
         (it_planningitemcategory itemRec) (it_replenishment itemRec)
         (it_vendors itemRec) lines.

(** The sublist of the loaded assembly record after
    [ensureBOMLinkedToAssembly] has edited it, and the value it returns when
    the record is then saved; [None]: nothing to save, it returns [false]. *)
Definition linkEdit (bomId : positive) (lines : list BomLink) : option (list BomLink) :=
  match findLinkLine bomId 0 lines with
  | Some (i, l) =>
      if bl_masterdefault l then None
      else Some (<[i := mkBomLink (bl_bom l) true]> lines)
  | None => Some (lines ++ [mkBomLink bomId true])%list
  end.

(** [ensureBOMLinkedToAssembly]: [true] when the link was created or
    updated; a failing [record.load] or [save()] is caught and gives
    [false]. *)
Definition ensureBOMLinkedToAssembly (assemblyInternalId bomId : positive) (s : Store)
    : bool * Store :=
  match loadItem (Some assemblyitem) assemblyInternalId s with
  | None => (false, s)
  | Some assemblyRec =>
      match linkEdit bomId (it_boms assemblyRec) with
      | None => (false, s)
      | Some lines =>
          if refuses s (SaveLink assemblyInternalId bomId) then (false, s)
          else (true,
                withItems
                  (fun t => <[indexOf assemblyInternalId := setItemBoms assemblyRec lines]> t) s)
      end
  end.

(** The counters of [summarize]. *)
Record SummaryStats : Type := mkSummaryStats {
  bomsCreated : nat;
  bomsFailed : nat;
  revisionsCreated : nat;
  revisionsFailed : nat;
  linksCreated : nat
}.

Definition noSummaryStats : SummaryStats := mkSummaryStats 0 0 0 0 0.

Definition bomFailure (st : SummaryStats) : SummaryStats :=
  mkSummaryStats (bomsCreated st) (S (bomsFailed st)) (revisionsCreated st)
                 (revisionsFailed st) (linksCreated st).

(** [allRows.filter(row => row.parentHierarchy === assemblyHierarchy)] *)
Definition directChildrenOf (allRows : list Row) (assemblyHierarchy : string) : list Row :=
  List.filter (fun row => bool_decide (parentHierarchy row = Some assemblyHierarchy)) allRows.

(** [child.bomFields.quantity || 1] *)
Definition componentQuantity (child : Row) : jsnum :=
  match quantity child with
  | Some q => orOne q
  | None => JOne
  end.

(** The component list built by [directChildren.forEach]: a child whose
    item is not found is logged and left out. *)
Definition componentsOf (ns : string) (directChildren : list Row) (s : Store)
    : list Component :=
  omap (fun child =>
          match findItemByExternalId (itemExternalId ns (itemid child)) s with
          | Some childInternalId =>
              Some (mkComponent (itemid child) childInternalId (componentQuantity child))
          | None => None
          end) directChildren.

(** The body of [assemblies.forEach] in [summarize]. *)
Definition summarizeAssembly (ns : string) (d : Defaults) (allRows : list Row)
    (assembly : Row) (acc : SummaryStats * Store) : SummaryStats * Store :=
  let '(st, s) := acc in
  let assemblyItemId := itemid assembly in
  match findItemByExternalId (itemExternalId ns assemblyItemId) s with
  | None => (bomFailure st, s)
  | Some assemblyInternalId =>
      let directChildren := directChildrenOf allRows (hierarchy assembly) in
      if Nat.eqb (length directChildren) 0 then (st, s)
      else
        let components := componentsOf ns directChildren s in
        if Nat.eqb (length components) 0 then (bomFailure st, s)
        else
          match createOrGetBOM assemblyItemId ns d s with
          | (Some bomId, bomCreated, s1) =>
              let '(revisionResult, s2) :=
                createOrGetBOMRevision bomId assemblyItemId components ns s1 in
              let '(linked, s3) := ensureBOMLinkedToAssembly assemblyInternalId bomId s2 in
              (mkSummaryStats
                 (if bomCreated then S (bomsCreated st) else bomsCreated st)
                 (bomsFailed st)
                 (if rr_created revisionResult then S (revisionsCreated st)
                  else revisionsCreated st)
                 (if rr_created revisionResult then revisionsFailed st
                  else if rr_exists revisionResult then revisionsFailed st
                  else S (revisionsFailed st))
                 (if linked then S (linksCreated st) else linksCreated st),
               s3)
          | (None, _, s1) => (bomFailure st, s1)
          end
  end.

(** [summarize] once it holds the row list: the assemblies are filtered out
    of it and processed in order. *)
Definition summarizeRows (ns : string) (d : Defaults) (allRows : list Row) (s : Store)
    : SummaryStats * Store :=
  fold_left (fun acc assembly => summarizeAssembly ns d allRows assembly acc)
            (List.filter isAssembly allRows) (noSummaryStats, s).

(* ===================================================================== *)
(** ** Stage [getInputData] and the whole run *)
(* ===================================================================== *)

(** What a run reads besides the record store: the script parameter
    [custscript_bom_config_file_id], the files of the file cabinet whose
    content parses as a configuration, and the CSV files.  [file.load] of
    an id that is in neither map throws. *)
Record Env : Type := mkEnv {
  scriptParameter : option positive;
  configFiles : gmap positive Config;
  csvFiles : gmap positive string
}.

(** The result of a stage that can throw. *)
Inductive Outcome (A : Type) : Type :=
| Returned (a : A)
| Thrown (message : string).
Arguments Returned {A} a.
Arguments Thrown {A} message.

(** [DEFAULTS] of [getInputData]: [config.defaults || DEFAULT_CONFIG] with
    the fall-back for each missing property. *)
Definition applyDefaults (config : Config) : Defaults :=
  let d := default DEFAULT_CONFIG (defaults config) in
  mkDefaults (locationIds d) (subsidiaryOf d) (vendorSubsidiaryId d) (vendorId d)
             (setupMRP d) (createVendors d) (leadtime d).

(** [createOrGetPlanningItemCategory]: every error is caught and gives
    [null]; without a name neither the search nor the new record's [save()]
    goes through. *)
Definition createOrGetPlanningItemCategory (name : option string) (s : Store)
    : option positive * Store :=
  match name with
  | None => (None, s)
  | Some n =>
      match findFirst (fun c : string => c) n (categories s) with
      | Some categoryId => (Some categoryId, s)
      | None =>
          if refuses s (SaveCategory n) then (None, s)
          else (Some (idOf (length (categories s))),
                withCategories (fun t => (t ++ [n])%list) s)
      end
  end.

(** The column the last ['vendor'] entry of the mappings names. *)
Definition vendorColumn (maps : list (nat * string)) : option nat :=
  fold_left (fun acc (e : nat * string) => if snd e =? "vendor" then Some (fst e) else acc)
            maps None.

(** The vendor names of the data lines, each once, in order of first
    occurrence. *)
Definition vendorNamesOf (col : nat) (lines : list string) : list string :=
  setFrom []
    (omap (fun line =>
             match parseRow line !! col with
             | Some name => if Js.truthy (Js.trim name) then Some (Js.trim name) else None
             | None => None
             end) (tail lines)).

(** The [vendorNames.forEach] of [createVendorsFromCSV]; a vendor record is
    found again under the name it was created with.  [vendorCache[name] = id]
    is an assignment on a plain object. *)
Fixpoint createVendors_loop (names : list string) (vendorCache : gmap string positive)
    (s : Store) : gmap string positive * Store :=
  match names with
  | [] => (vendorCache, s)
  | name :: more =>
      match findFirst (fun v : string => v) name (vendors s) with
      | Some vendor => createVendors_loop more (Js.setProperty name vendor vendorCache) s
      | None =>
          if refuses s (SaveVendor name) then createVendors_loop more vendorCache s
          else createVendors_loop more
                 (Js.setProperty name (idOf (length (vendors s))) vendorCache)
                 (withVendors (fun t => (t ++ [name])%list) s)
      end
  end.

(** [createVendorsFromCSV]: every error is caught and leaves the cache
    empty, also the [TypeError] of [Object.keys] on missing mappings and the
    failing load of the CSV file. *)
Definition createVendorsFromCSV (env : Env) (csvFile : positive)
    (maps : option (list (nat * string))) (s : Store) : gmap string positive * Store :=
  match maps ≫= vendorColumn with
  | None => (∅, s)
  | Some col =>
      match csvFiles env !! csvFile with
      | None => (∅, s)
      | Some csvContent => createVendors_loop (vendorNamesOf col (csvLines csvContent)) ∅ s
      end
  end.

(** The message of the [TypeError] that [Object.keys(config.mappings)]
    throws when the configuration has no mappings. *)
Definition MAPPINGS_MISSING : string := "TypeError: Cannot convert undefined or null to object".

(** [getInputData]: the rows it returns with the context it copies onto
    each of them, or the error it rethrows.  The returned rows are also what
    it puts in the cache under ['ALL_ROWS'].  [Object.keys(config.mappings)]
    is called once per data row, so missing mappings throw when the file has
    a data row.  The calls of N/cache and N/log are taken not to throw. *)
Definition getInputData (env : Env) (s : Store) : Outcome (list Row * Context) * Store :=
  match scriptParameter env with
  | None => (Thrown "Config file ID parameter is required", s)
  | Some configFileId =>
      match configFiles env !! configFileId with
      | None => (Thrown "config file cannot be loaded", s)
      | Some config =>
          let DEFAULTS := applyDefaults config in
          let '(planningItemCategoryId, s1) :=
            if setupMRP DEFAULTS
            then createOrGetPlanningItemCategory (prospectName config) s
            else (None, s) in
          let '(vendorCache, s2) :=
            if createVendors DEFAULTS
            then createVendorsFromCSV env (csvFileId config) (mappings config) s1
            else (∅, s1) in
          match csvFiles env !! csvFileId config with
          | None => (Thrown "CSV file cannot be loaded", s2)
          | Some csvContent =>
              let lines := csvLines csvContent in
              if Nat.ltb (length lines) 2
              then (Thrown "CSV must have at least a header row and one data row", s2)
              else
                let ctx := mkContext (prospectName config) (Some DEFAULTS)
                                     planningItemCategoryId vendorCache in
                match mappings config, dataRows lines with
                | Some maps, _ => (Returned (inputRows maps lines, ctx), s2)
                | None, [] => (Returned ([], ctx), s2)
                | None, _ :: _ => (Thrown MAPPINGS_MISSING, s2)
                end
          end
      end
  end.

(** The fallback of [summarize] on a cache miss: [None] when
    [reParseCSVForSummarize] throws, as it does for missing mappings at the
    first data row. *)
Definition reParse (config : Config) (csvContent : string) : option (list Row) :=
  match mappings config, dataRows (csvLines csvContent) with
  | Some maps, _ => Some (reParseCSVForSummarize maps csvContent)
  | None, [] => Some []
  | None, _ :: _ => None
  end.

(** [summarize]: [cached] is the row list the cache holds under
    ['ALL_ROWS'] when the stage runs, [None] after the entry expired; the
    cache holds it as JSON text.  An error outside the per-assembly loop is
    caught by the outer handler, which only logs. *)
Definition summarize (env : Env) (cached : option (list Row)) (s : Store)
    : SummaryStats * Store :=
  match scriptParameter env ≫= (fun configFileId => configFiles env !! configFileId) with
  | None => (noSummaryStats, s)
  | Some config =>
      let ns := strOf (prospectName config) in
      let d := default DEFAULT_CONFIG (defaults config) in
      let allRows :=
        match cached with
        | Some rows => Some (List.map jsonRow rows)
        | None => csvFiles env !! csvFileId config ≫= reParse config
        end in
      match allRows with
      | None => (noSummaryStats, s)
      | Some rows => summarizeRows ns d rows s
      end
  end.

(** The row list [summarize] works on: what the cache holds of the rows of
    [getInputData], or the rows parsed again. *)
Definition rowsRead (config : Config) (csvContent : string) (cacheHit : bool) : list Row :=
  if cacheHit
  then List.map jsonRow (inputRows (mappingsOf config) (csvLines csvContent))
  else reParseCSVForSummarize (mappingsOf config) csvContent.

(** What a run reports. *)
Inductive RunReport : Type :=
| Aborted (message : string)
| Completed (inventory assembly : ReduceStats) (structures : SummaryStats).

(** One run of the script: [getInputData], [map], [reduce] per key, then
    [summarize]; the rows reach [map] and [reduce] as JSON text; [cacheHit]
    tells whether the cache still holds the rows when [summarize] asks for
    them. *)
Definition runPipeline (env : Env) (cacheHit : bool) (s : Store) : RunReport * Store :=
  match getInputData env s with
  | (Thrown message, s1) => (Aborted message, s1)
  | (Returned (rows, ctx), s1) =>
      let '(st1, st2, s2) := reducePhase ctx (List.map jsonRow rows) s1 in
      let '(st3, s3) := summarize env (if cacheHit then Some rows else None) s2 in
      (Completed st1 st2 st3, s3)
  end.



(* ===================================================================== *)
(** ** Vocabulary of the statements *)
(* ===================================================================== *)

(** *** CSV syntax *)

Fixpoint stringForall (p : ascii -> bool) (s : string) : bool :=
  match s with
  | EmptyString => true
  | String c rest => (p c && stringForall p rest)%bool
  end.

Definition isSeparator (c : ascii) : bool :=
  (Ascii.eqb c Js.COMMA || Ascii.eqb c Js.TAB)%bool.

(** A bare field holds no quote and no separator. *)
Definition bareText (s : string) : bool :=
  stringForall (fun c => negb (Ascii.eqb c Js.DQUOTE || isSeparator c)) s.

(** Writing a text inside quotes: every quote is doubled. *)
Fixpoint escapeQuotes (s : string) : string :=
  match s with
  | EmptyString => EmptyString
  | String c rest =>
      if Ascii.eqb c Js.DQUOTE then String Js.DQUOTE (String Js.DQUOTE (escapeQuotes rest))
      else String c (escapeQuotes rest)
  end.

Fixpoint stripCR (s : string) : string :=
  match s with
  | EmptyString => EmptyString
  | String c rest => if Ascii.eqb c Js.CR then stripCR rest else String c (stripCR rest)
  end.

Definition separator (tab : bool) : ascii := if tab then Js.TAB else Js.COMMA.

(** What a line is made of, from left to right: text outside quotes; a
    quoted span, from its opening quote to its closing quote; a span whose
    quote is never closed; a comma or a tab outside quotes. *)
Inductive Token : Type :=
| Plain (text : string)
| Span (text : string)
| Open (text : string)
| Sep (tab : bool).

(** A token as it is written: the text of a span stands between quotes with
    each of its quotes doubled. *)
Definition renderToken (t : Token) : string :=
  match t with
  | Plain text => text
  | Span text => String Js.DQUOTE (escapeQuotes text ++ String Js.DQUOTE EmptyString)
  | Open text => String Js.DQUOTE (escapeQuotes text)
  | Sep tab => String (separator tab) EmptyString
  end.

Fixpoint render (ts : list Token) : string :=
  match ts with
  | [] => EmptyString
  | t :: rest => renderToken t ++ render rest
  end.

(** The fields a token list stands for: a separator ends a field, the text
    of every other token, without its carriage returns, is added to the
    field it is in. *)
Fixpoint valuesOf_from (current : string) (ts : list Token) : list string :=
  match ts with
  | [] => [current]
  | Sep _ :: rest => current :: valuesOf_from EmptyString rest
  | Plain text :: rest | Span text :: rest | Open text :: rest =>
      valuesOf_from (current ++ stripCR text) rest
  end.

Definition valuesOf (ts : list Token) : list string := valuesOf_from EmptyString ts.

(** A token list that reads as it is written: text outside quotes holds no
    quote and no separator, no quote follows the closing quote of a span at
    once (inside the span it would be a doubled quote), and an open span is
    the last token. *)
Fixpoint wellFormed (ts : list Token) : bool :=
  match ts with
  | [] => true
  | Plain text :: rest => (bareText text && wellFormed rest)%bool
  | Span _ :: rest =>
      (negb (Js.startsWith (render rest) (String Js.DQUOTE EmptyString))
       && wellFormed rest)%bool
  | Open _ :: rest => match rest with [] => true | _ :: _ => false end
  | Sep _ :: rest => wellFormed rest
  end.

(** The tokens of a line: [text] is the text read since the last token
    ended, [inQuotes] tells whether a span is open. *)
Fixpoint tokens_from (line : string) (inQuotes : bool) (text : string) : list Token :=
  match line with
  | EmptyString => if inQuotes then [Open text] else [Plain text]
  | String c rest =>
      if inQuotes then
        if Ascii.eqb c Js.DQUOTE then
          match rest with
          | String next rest' =>
              if Ascii.eqb next Js.DQUOTE
              then tokens_from rest' true (text ++ String Js.DQUOTE EmptyString)
              else Span text :: tokens_from rest false EmptyString
          | EmptyString => Span text :: tokens_from rest false EmptyString
          end
        else tokens_from rest true (text ++ String c EmptyString)
      else if Ascii.eqb c Js.DQUOTE then Plain text :: tokens_from rest true EmptyString
      else if isSeparator c
      then Plain text :: Sep (Ascii.eqb c Js.TAB) :: tokens_from rest false EmptyString
      else tokens_from rest false (text ++ String c EmptyString)
  end.

Definition tokens (line : string) : list Token := tokens_from line false EmptyString.

(** What the text read since the last token ended is written as. *)
Definition pendingText (inQuotes : bool) (text : string) : string :=
  if inQuotes then String Js.DQUOTE (escapeQuotes text) else text.

(** A line [line.trim()] empties: white space only. *)
Definition blankLine (line : string) : bool := stringForall Js.isWhite line.

Definition noLineFeed (line : string) : bool :=
  stringForall (fun c => negb (Ascii.eqb c Js.LF)) line.

(** A key of one segment: no dot in it. *)
Definition dotless (s : string) : bool :=
  stringForall (fun c => negb (Ascii.eqb c Js.DOT)) s.

(** *** Quantities *)

(** What is stored for a quantity cell: the number [parseFloat] reads from
    it, and 1 when it reads none ([NaN]) or reads a zero, which is also what
    a number too small for binary64 is rounded to. *)
Definition quantityOf (value : string) : jsnum :=
  match parseFloat value with
  | S754_nan | S754_zero _ => JOne
  | S754_infinity neg => S754_infinity neg
  | S754_finite neg m e => S754_finite neg m e
  end.

(** The cells of a data row that are read as its quantity: the non-blank
    cells of the columns mapped to [quantity], in the order of the
    mappings. *)
Definition quantityCells (maps : list (nat * string)) (cs : list string) : list string :=
  List.filter (fun v => Js.truthy (Js.trim v))
    (List.map (fun e : nat * string => cellAt cs (fst e))
       (List.filter (fun e : nat * string => snd e =? "quantity") maps)).

(** The quantity stored for a data row: that of the last such cell, none
    when there is no such cell. *)
Definition storedQuantity (maps : list (nat * string)) (cs : list string) : option jsnum :=
  quantityOf <$> last (quantityCells maps cs).

(** The component of a child row: the child's item, when it is found, with
    the quantity of the row, and 1 when the row has none. *)
Definition componentOf (ns : string) (s : Store) (child : Row) : option Component :=
  (fun childInternalId =>
     mkComponent (itemid child) childInternalId (default JOne (quantity child)))
  <$> findItemByExternalId (itemExternalId ns (itemid child)) s.

(** No quantity of the rows is zero or [NaN]. *)
Definition truthyQuantities (rows : list Row) : Prop :=
  forall row q, In row rows -> quantity row = Some q -> num_truthy q = true.

(** No quantity of the rows is infinite. *)
Definition finiteQuantities (rows : list Row) : Prop :=
  forall row q, In row rows -> quantity row = Some q -> num_finite q = true.

(** *** What [summarize] reads of a row *)

(** The fields of a row the structure stage looks at. *)
Definition coreOf (r : Row)
    : nat * string * option string * option jsnum * bool * option string :=
  (r_rowNumber r, hierarchy r, itemFields r !! "itemid", quantity r, isAssembly r,
   parentHierarchy r).


(** Two mapped rows that agree on row number, hierarchy, quantity and item
    id. *)
Definition sameCore (m m' : MappedRow) : Prop :=
  m_rowNumber m = m_rowNumber m'
  /\ m_hierarchy m = m_hierarchy m'
  /\ m_quantity m = m_quantity m'
  /\ m_itemFields m !! "itemid" = m_itemFields m' !! "itemid".

(** *** Links and samples *)

(** The [billofmaterials] lines of an item of the store. *)
Definition linksOf (itemId : positive) (s : Store) : list BomLink :=
  match items s !! indexOf itemId with
  | Some it => it_boms it
  | None => []
  end.

(** At most one link per assembly and BOM. *)
Definition linksUnique (s : Store) : Prop :=
  Forall (fun it => NoDup (List.map bl_bom (it_boms it))) (items s).

Definition sampleMappings : list (nat * string) :=
  [(0, "hierarchy"); (1, "itemid"); (2, "quantity")].

(** A file of four lines: a header, an assembly and its two parts. *)
Definition sampleCsv : string :=
  Js.join (String Js.LF EmptyString) ["h,i,q"; "1,A,1"; "1.1,B,2"; "1.2,C,"].

Definition sampleEnv (ns : option string) (csvContent : string) : Env :=
  mkEnv (Some 5%positive)
        {[ 5%positive := mkConfig ns 9%positive (Some sampleMappings) None ]}
        {[ 9%positive := csvContent ]}.

(** *** Fatal errors *)

(** What makes [getInputData] throw: no script parameter, no configuration
    file under it, no CSV file under the configuration's [csvFileId], a CSV
    file with fewer than two lines that are not blank, or a configuration
    without mappings for a file that has a data row. *)
Definition inputMissing (env : Env) : Prop :=
  match scriptParameter env with
  | None => True
  | Some configFileId =>
      match configFiles env !! configFileId with
      | None => True
      | Some config =>
          match csvFiles env !! csvFileId config with
          | None => True
          | Some csvContent =>
              length (csvLines csvContent) < 2
              \/ (mappings config = None /\ dataRows (csvLines csvContent) <> [])
          end
      end
  end.

(** The tables of items, locations, BOMs and revisions. *)
Definition recordTables (s : Store)
    : list Item * list LocConfig * list Bom * list BomRevision :=
  (items s, locconfigs s, boms s, revisions s).

(** *** Shape of the store *)

(** What the stages test before they create a record: the type, external
    id and BOM links of every item, the item and location of every location
    configuration, the external ids of the BOMs and of the revisions. *)
Definition itemKey (it : Item) : RecordType * string * list BomLink :=
  (it_type it, it_externalid it, it_boms it).

Definition locKey (lc : LocConfig) : positive * positive := (lc_item lc, lc_location lc).

Definition shape (s : Store)
    : list (RecordType * string * list BomLink) * list (positive * positive)
      * list string * list string :=
  (List.map itemKey (items s), List.map locKey (locconfigs s),
   List.map bom_externalid (boms s), List.map rev_externalid (revisions s)).

(** Same shape and same refusals. *)
Definition sameShape (s s' : Store) : Prop :=
  shape s' = shape s /\ refuses s' = refuses s.

(** Where the configured locations of an item stand: each is there, or
    the store refuses the plain configuration [ensureItemLocations] would
    add for it. *)
Definition locationsSettled (itemId : positive) (d : Defaults) (s : Store) : Prop :=
  forall loc, In loc (locationIds d) ->
    In loc (getExistingItemLocations itemId s)
    \/ refuses s (SaveLocConfig (plainLocConfig itemId loc d)) = true.

(** The item of a row is there, or it cannot be created; when [strict],
    the locations of an item that is there are settled as well. *)
Definition itemSettled (strict : bool) (ns : string) (d : Defaults) (row : Row) (s : Store)
    : Prop :=
  match findItemByExternalId (itemExternalId ns (itemid row)) s with
  | Some itemId => strict = true -> locationsSettled itemId d s
  | None =>
      match recordType row with
      | Some ty => refuses s (SaveItem ty (itemExternalId ns (itemid row))) = true
      | None => True
      end
  end.

(** A policy under which a location that failed at creation fails again in
    the repair: when the store refuses a new location configuration, it
    also refuses the one for the same item and location that has no supply
    type and no lot sizing method. *)
Definition plainRefusedToo (policy : WriteOp -> bool) : Prop :=
  forall record plain : LocConfig,
    locKey plain = locKey record ->
    lc_supplytype plain = None -> lc_lotsizing plain = None ->
    policy (SaveLocConfig record) = true -> policy (SaveLocConfig plain) = true.



(** The BOM is linked with the master-default flag on its first line. *)
Definition linkSettled (bomId : positive) (lines : list BomLink) : Prop :=
  linkEdit bomId lines = None.

(** The structure of an assembly row is complete as far as the store lets
    it be. *)
Definition structureSettled (ns : string) (allRows : list Row) (assembly : Row)
    (s : Store) : Prop :=
  match findItemByExternalId (itemExternalId ns (itemid assembly)) s with
  | None => True
  | Some assemblyInternalId =>
      directChildrenOf allRows (hierarchy assembly) = []
      \/ componentsOf ns (directChildrenOf allRows (hierarchy assembly)) s = []
      \/ match findBOMByExternalId (bomExternalId ns (itemid assembly)) s with
         | None => refuses s (SaveBOM (bomExternalId ns (itemid assembly))) = true
         | Some bomId =>
             (findBOMRevisionByExternalId (revisionExternalId ns (itemid assembly)) s <> None
              \/ refuses s (SaveRevision (revisionExternalId ns (itemid assembly))) = true)
             /\ (loadItem (Some assemblyitem) assemblyInternalId s = None
                 \/ refuses s (SaveLink assemblyInternalId bomId) = true
                 \/ linkSettled bomId (linksOf assemblyInternalId s))
         end
  end.

(** Every search result names a record of the table with its key. *)
Definition resultsKeyed (results : list (positive * LocConfig)) (s : Store) : Prop :=
  forall configId lc, In (configId, lc) results ->
    locKey <$> locconfigs s !! indexOf configId = Some (locKey lc).

(** *** Growth of the store *)

(** A store that only gained location configurations. *)
Definition gainedLocations (s s' : Store) : Prop :=
  items s' = items s /\ boms s' = boms s /\ revisions s' = revisions s
  /\ refuses s' = refuses s
  /\ exists extra, locconfigs s' = (locconfigs s ++ extra)%list.

(** A store whose item and location tables only grew at the end. *)
Definition extends (s s' : Store) : Prop :=
  refuses s' = refuses s
  /\ (exists extra, List.map it_externalid (items s')
                    = (List.map it_externalid (items s) ++ extra)%list)
  /\ (exists extra, List.map locKey (locconfigs s')
                    = (List.map locKey (locconfigs s) ++ extra)%list).

(** What a step of [summarize] may do to a store: add BOMs it does not
    refuse, add revisions, and settle links. *)
Definition structuresGrow (s s' : Store) : Prop :=
  refuses s' = refuses s
  /\ List.map it_externalid (items s') = List.map it_externalid (items s)
  /\ List.map it_type (items s') = List.map it_type (items s)
  /\ List.map locKey (locconfigs s') = List.map locKey (locconfigs s)
  /\ (exists extra,
        List.map bom_externalid (boms s') = (List.map bom_externalid (boms s) ++ extra)%list
        /\ Forall (fun e => refuses s (SaveBOM e) = false) extra)
  /\ (exists extra,
        List.map rev_externalid (revisions s')
        = (List.map rev_externalid (revisions s) ++ extra)%list)
  /\ (forall id bomId, linkSettled bomId (linksOf id s) -> linkSettled bomId (linksOf id s')).

(* ===================================================================== *)
(** ** The suitelet [item_bom_create_sl.js] *)
(* ===================================================================== *)

Module Suitelet.

(** The [for] loop of the suitelet's own [parseRow]: the loop of the
    Map/Reduce script, except that a value is trimmed when it is pushed. *)
Fixpoint parseRow_loop (rowText : string) (values : list string)
    (current : string) (inQuotes : bool) : list string :=
  match rowText with
  | EmptyString => values ++ [Js.trim current]
  | String char rest =>
      if Ascii.eqb char Js.DQUOTE then
        match rest with
        | String nextChar rest' =>
            if (inQuotes && Ascii.eqb nextChar Js.DQUOTE)%bool
            then parseRow_loop rest' values (current ++ String Js.DQUOTE EmptyString) inQuotes
            else parseRow_loop rest values current (negb inQuotes)
        | EmptyString => parseRow_loop rest values current (negb inQuotes)
        end
      else if ((Ascii.eqb char Js.COMMA || Ascii.eqb char Js.TAB) && negb inQuotes)%bool
      then parseRow_loop rest (values ++ [Js.trim current]) EmptyString inQuotes
      else if negb (Ascii.eqb char Js.CR)
      then parseRow_loop rest values (current ++ String char EmptyString) inQuotes
      else parseRow_loop rest values current inQuotes
  end.

Definition parseRow (rowText : string) : list string :=
  parseRow_loop rowText [] EmptyString false.

(** The object [parseCSV] returns. *)
Record ParsedData : Type := mkParsedData {
  headers : list string;
  rows : list (list string)
}.

(** The [for] loop of [parseCSV] over the lines after the first: a row
    without a non-blank cell is not pushed. *)
Fixpoint parseCSV_rows (lines : list string) : list (list string) :=
  match lines with
  | [] => []
  | line :: more =>
      let row := parseRow line in
      if existsb (fun cell => Js.truthy (Js.trim cell)) row
      then row :: parseCSV_rows more
      else parseCSV_rows more
  end.

(** [parseCSV(content)] *)
Definition parseCSV (content : string) : ParsedData :=
  match List.filter (fun line => Js.truthy (Js.trim line)) (Js.split Js.LF content) with
  | [] => mkParsedData [] []
  | first :: more => mkParsedData (parseRow first) (parseCSV_rows more)
  end.

(** [handleFileUpload]: [uploadedFile] is the content of the uploaded file,
    [folderId] the script parameter.  The result tells whether the file was
    saved to the folder, and gives the parsed data the mapping form is shown
    with, or the error thrown. *)
Definition handleFileUpload (uploadedFile : option string) (folderId : option string)
    : bool * Outcome ParsedData :=
  match uploadedFile with
  | None => (false, Thrown "No file uploaded")
  | Some content =>
      if negb (Js.truthy (default EmptyString folderId))
      then (false, Thrown "Folder ID parameter not configured. Please set custscript_bom_suitelet_folder_id on the script deployment.")
      else
        let parsedData := parseCSV content in
        if Nat.eqb (length (rows parsedData)) 0
        then (true, Thrown "No data rows found in file")
        else (true, Returned parsedData)
  end.

(** [s.replace(/c/g, replacement)] for a pattern of one character and a
    replacement without [$]. *)
Fixpoint replaceAll (c : ascii) (replacement : string) (s : string) : string :=
  match s with
  | EmptyString => EmptyString
  | String x rest =>
      if Ascii.eqb x c then replacement ++ replaceAll c replacement rest
      else String x (replaceAll c replacement rest)
  end.

Definition AMP : ascii := "&"%char.
Definition LT : ascii := "<"%char.
Definition GT : ascii := ">"%char.
Definition APOS : ascii := "'"%char.

(** [escapeHtml(text)] on a string: the five replacements in the order of
    the source. *)
Definition escapeHtml (text : string) : string :=
  if negb (Js.truthy text) then EmptyString
  else
    replaceAll APOS "&#39;"
      (replaceAll Js.DQUOTE "&quot;"
         (replaceAll GT "&gt;"
            (replaceAll LT "&lt;"
               (replaceAll AMP "&amp;" text)))).

(** [toLowerCase] on a code unit below 256: the letters [A]-[Z] and the
    capital letters of Latin-1 ([U+00C0]-[U+00DE] without the
    multiplication sign) move up by 32. *)
Definition toLowerCase_char (c : ascii) : ascii :=
  let n := nat_of_ascii c in
  if ((Nat.leb 65 n && Nat.leb n 90)
      || (Nat.leb 192 n && Nat.leb n 222 && negb (Nat.eqb n 215)))%bool
  then ascii_of_nat (n + 32) else c.

Fixpoint toLowerCase (s : string) : string :=
  match s with
  | EmptyString => EmptyString
  | String c rest => String (toLowerCase_char c) (toLowerCase rest)
  end.

(** [h.includes(p)] *)
Fixpoint includes (h p : string) : bool :=
  (Js.startsWith h p
   || match h with
      | String _ rest => includes rest p
      | EmptyString => false
      end)%bool.

(** The [value]s of [FIELD_OPTIONS], in order. *)
Definition FIELD_OPTIONS : list string :=
  [EmptyString; "hierarchy"; "itemid"; "displayname"; "mpn"; "manufacturer"; "vendor";
   "vendorpartnumber"; "quantity"; "revision"; "custitem_pkg_info";
   "custitem_part_requirement"; "memo"].

(** [autoDetectMapping(header)]; [None] is [null]. *)
Definition autoDetectMapping (header : string) : option string :=
  if negb (Js.truthy header) then None
  else
    let h := Js.trim (toLowerCase header) in
    if (includes h "hierarchy" || includes h "bom structure" || includes h "level")%bool
    then Some "hierarchy"
    else if (includes h "part number" || includes h "part #" || includes h "itemid"
             || (h =? "part") || (h =? "item"))%bool
    then Some "itemid"
    else if (includes h "description" || includes h "name")%bool
    then Some "displayname"
    else if (includes h "qty" || includes h "quantity" || includes h "count")%bool
    then Some "quantity"
    else if (includes h "mpn" || includes h "mfg part" || includes h "manu"
             || includes h "manufacturer part")%bool
    then Some "mpn"
    else if (includes h "vendor" && includes h "number")%bool
    then Some "vendorpartnumber"
    else if includes h "vendor"
    then Some "vendor"
    else if (includes h "revision" || (h =? "rev"))%bool
    then Some "revision"
    else if (includes h "comment" || includes h "memo" || includes h "note")%bool
    then Some "memo"
    else None.

(** A hexadecimal digit. *)
Definition hexVal (c : ascii) : option Z :=
  let n := nat_of_ascii c in
  if (Nat.leb 48 n && Nat.leb n 57)%bool then Some (Z.of_nat (n - 48))
  else if (Nat.leb 97 n && Nat.leb n 102)%bool then Some (Z.of_nat (n - 87))
  else if (Nat.leb 65 n && Nat.leb n 70)%bool then Some (Z.of_nat (n - 55))
  else None.

(** Reads the longest run of hexadecimal digits: the accumulated value and
    the number of digits read. *)
Fixpoint readHexDigits (s : string) (acc : Z) (n : nat) : Z * nat :=
  match s with
  | String c rest =>
      match hexVal c with
      | Some d => readHexDigits rest (16 * acc + d)%Z (S n)
      | None => (acc, n)
      end
  | EmptyString => (acc, n)
  end.

(** [parseInt(s)] without a radix: leading white space is skipped, a sign
    is read, then the longest run of digits, hexadecimal after [0x] or
    [0X] and decimal otherwise; [NaN] when no digit is read.  The result is
    the binary64 value nearest to the integer read, an infinity when it is
    past the largest finite value, and [-0] for a negative zero. *)
Definition parseInt (s : string) : jsnum :=
  let '(neg, s1) := readSign (Js.trimStart s) in
  let '(v, n) :=
    match s1 with
    | String "0" (String x rest) =>
        if (Ascii.eqb x "x" || Ascii.eqb x "X")%bool then readHexDigits rest 0%Z 0
        else let '(v, n, _) := readDigits s1 0%Z 0 in (v, n)
    | _ => let '(v, n, _) := readDigits s1 0%Z 0 in (v, n)
    end in
  match n with
  | O => JNaN
  | S _ => ofDecimal neg v 0
  end.

(** [context.request.parameters]: a missing parameter is [undefined]. *)
Definition Parameters : Type := gmap string string.

(** [parseInt(params.name)] *)
Definition paramInt (params : Parameters) (name : string) : jsnum :=
  parseInt (strOf (params !! name)).

(** The number of rounds of [for (let i = 0; i < columnCount; i++)]: none
    when [columnCount] is [NaN] or not above zero; the least integer that
    is not below [columnCount] when that is at most [2^53]; and [None], the
    loop never ends, when [columnCount] is larger or infinite, since [i++]
    leaves [2^53] as it is. *)
Definition loopRounds (columnCount : jsnum) : option nat :=
  match columnCount with
  | S754_finite false m e =>
      let rounds :=
        (if 0 <=? e then Zpos m * 2 ^ e else - ((- Zpos m) / 2 ^ (- e)))%Z in
      if (rounds <=? 2 ^ 53)%Z then Some (Z.to_nat rounds) else None
  | S754_infinity false => None
  | _ => Some 0
  end.

(** The mapping loop of [handleMappingSubmit] from column [i] on, [count]
    columns to go: a column whose select field is empty or missing is not
    mapped. *)
Fixpoint collectMappings (params : Parameters) (i count : nat) : list (nat * string) :=
  match count with
  | O => []
  | S count' =>
      match params !! ("custpage_map_col_" ++ pretty i) with
      | Some mapValue =>
          if Js.truthy mapValue
          then (i, mapValue) :: collectMappings params (S i) count'
          else collectMappings params (S i) count'
      | None => collectMappings params (S i) count'
      end
  end.

(** [locationStr.split(',').map(id => parseInt(id.trim()))
     .filter(id => !isNaN(id) && id > 0)] *)
Definition parseLocationIds (locationStr : string) : list jsnum :=
  List.filter num_positive
    (List.map (fun id => parseInt (Js.trim id)) (Js.split Js.COMMA locationStr)).

Record ItemLocationDefaults : Type := mkItemLocationDefaults {
  preferredstocklevel : jsnum;
  reorderpoint : jsnum;
  safetystocklevel : jsnum;
  leadtime : jsnum
}.

(** The object [defaults] of [handleMappingSubmit]. *)
Record Defaults : Type := mkDefaults {
  setupMRP : bool;
  createVendors : bool;
  taxScheduleId : jsnum;
  vendorId : jsnum;
  purchasePrice : jsnum;
  locationIds : list jsnum;
  itemLocationDefaults : ItemLocationDefaults
}.

(** The object [configData] that [JSON.stringify] writes to the
    configuration file, without its [createdDate]; [mappings] lists the
    entries by ascending column.  In the file an infinite number is
    [null]. *)
Record ConfigData : Type := mkConfigData {
  prospectName : option string;
  csvFileId : option string;
  csvFileName : option string;
  mappings : list (nat * string);
  defaults : Defaults
}.

(** The script parameters [handleMappingSubmit] reads. *)
Record ScriptParameters : Type := mkScriptParameters {
  folderId : option string;
  mrScriptId : option string;
  mrDeploymentId : option string
}.

(** [fileName.replace(/\.csv$/i, '')] *)
Definition dropCsvSuffix (fileName : string) : string :=
  let n := String.length fileName in
  if (Nat.leb 4 n && (toLowerCase (substring (n - 4) 4 fileName) =? ".csv"))%bool
  then substring 0 (n - 4) fileName
  else fileName.

(** How [handleMappingSubmit] ends: the mapping loop never ends, it throws
    before the configuration file is written, it throws after the file is
    written and before the task is submitted, or it submits the Map/Reduce
    task. *)
Inductive SubmitResult : Type :=
| NeverReturns
| Rejected (message : string)
| ConfigOnly (configFileName : string) (configData : ConfigData) (message : string)
| Submitted (configFileName : string) (configData : ConfigData).

(** [handleMappingSubmit]; saving the file and submitting the task are
    taken to succeed. *)
Definition handleMappingSubmit (params : Parameters) (script : ScriptParameters)
    : SubmitResult :=
  let columnCount := paramInt params "custpage_column_count" in
  match loopRounds columnCount with
  | None => NeverReturns
  | Some rounds =>
      let mappings := collectMappings params 0 rounds in
      let hasHierarchy := existsb (fun e : nat * string => snd e =? "hierarchy") mappings in
      let hasItemId := existsb (fun e : nat * string => snd e =? "itemid") mappings in
      if negb hasHierarchy then Rejected "Hierarchy column must be mapped"
      else if negb hasItemId then Rejected "Item ID / Part Number column must be mapped"
      else
        let locationStr :=
          match params !! "custpage_locations" with
          | Some v => if Js.truthy v then v else "2,13"
          | None => "2,13"
          end in
        let defaults :=
          mkDefaults
            (bool_decide (params !! "custpage_setup_mrp" = Some "T"))
            (bool_decide (params !! "custpage_create_vendors" = Some "T"))
            (numOr (paramInt params "custpage_tax_schedule") (numOf 1))
            (numOr (paramInt params "custpage_vendor_id") (numOf 0))
            (orOne (parseFloat (strOf (params !! "custpage_purchase_price"))))
            (parseLocationIds locationStr)
            (mkItemLocationDefaults
               (numOr (paramInt params "custpage_pref_stock") (numOf 1000))
               (numOr (paramInt params "custpage_reorder_point") (numOf 600))
               (numOr (paramInt params "custpage_safety_stock") (numOf 100))
               (numOr (paramInt params "custpage_lead_time") (numOf 7))) in
        let configData :=
          mkConfigData (params !! "custpage_prospect_name") (params !! "custpage_file_id")
                       (params !! "custpage_file_name") mappings defaults in
        match params !! "custpage_file_name" with
        | None => Rejected "TypeError: fileName is undefined"
        | Some fileName =>
            let configFileName := dropCsvSuffix fileName ++ "_config.json" in
            if (Js.truthy (default EmptyString (mrScriptId script))
                && Js.truthy (default EmptyString (mrDeploymentId script)))%bool
            then Submitted configFileName configData
            else ConfigOnly configFileName configData
                   "Map/Reduce script ID and deployment ID must be configured in script parameters"
        end
  end.

End Suitelet.

(* ===================================================================== *)
(** ** The older Map/Reduce script (v2): row mapper and classifier *)
(* ===================================================================== *)

Module V2.

(** The body of [Object.keys(config.mappings).forEach] in the older
    [getInputData]: [vendor] and [displayname] are item fields like any
    other. *)
Definition mapCell (fieldName value : string) (m : MappedRow) : MappedRow :=
  if negb (Js.truthy (Js.trim value)) then m
  else if fieldName =? "hierarchy" then
    mkMapped (m_rowNumber m) (Some (Js.trim value)) (m_itemFields m)
             (m_quantity m) (m_memo m) (m_vendorName m)
  else if fieldName =? "quantity" then
    mkMapped (m_rowNumber m) (m_hierarchy m) (m_itemFields m)
             (Some (orOne (parseFloat value))) (m_memo m) (m_vendorName m)
  else if fieldName =? "memo" then
    mkMapped (m_rowNumber m) (m_hierarchy m) (m_itemFields m)
             (m_quantity m) (Some (Js.trim value)) (m_vendorName m)
  else setItemField fieldName (Js.trim value) m.

(** The classifying [forEach] of the older [getInputData]: no rotation
    index. *)
Definition classify (rows : list Row) : list Row :=
  let hierarchySet := hierarchySetOf rows in
  List.map (fun row =>
    let isAssembly := hasDescendant hierarchySet (hierarchy row) in
    mkRow (r_rowNumber row) (hierarchy row) (itemFields row) (quantity row)
          (memo row) (vendorName row) isAssembly
          (Some (if isAssembly then assemblyitem else inventoryitem))
          None (parentOf (hierarchy row))) rows.

(** The row list the older [getInputData] computes from the lines of the
    file. *)
Definition inputRows (maps : list (nat * string)) (lines : list string) : list Row :=
  classify (mappedRows mapCell maps (dataRows lines)).

End V2.

(* ===================================================================== *)
(** ** Vocabulary of the further statements *)
(* ===================================================================== *)

(** *** Escaped text *)

(** The entity [escapeHtml] writes for a character. *)
Definition escapeChar (c : ascii) : string :=
  if Ascii.eqb c Suitelet.AMP then "&amp;"
  else if Ascii.eqb c Suitelet.LT then "&lt;"
  else if Ascii.eqb c Suitelet.GT then "&gt;"
  else if Ascii.eqb c Js.DQUOTE then "&quot;"
  else if Ascii.eqb c Suitelet.APOS then "&#39;"
  else String c EmptyString.

(** A text escaped character by character, in one pass. *)
Fixpoint escapeEach (s : string) : string :=
  match s with
  | EmptyString => EmptyString
  | String c rest => escapeChar c ++ escapeEach rest
  end.

(** Reading an escaped text back: each of the five entities stands for its
    character. *)
Fixpoint unescapeHtml (s : string) : string :=
  match s with
  | String "&" (String "a" (String "m" (String "p" (String ";" rest)))) =>
      String Suitelet.AMP (unescapeHtml rest)
  | String "&" (String "l" (String "t" (String ";" rest))) =>
      String Suitelet.LT (unescapeHtml rest)
  | String "&" (String "g" (String "t" (String ";" rest))) =>
      String Suitelet.GT (unescapeHtml rest)
  | String "&" (String "q" (String "u" (String "o" (String "t" (String ";" rest))))) =>
      String Js.DQUOTE (unescapeHtml rest)
  | String "&" (String "#" (String "3" (String "9" (String ";" rest)))) =>
      String Suitelet.APOS (unescapeHtml rest)
  | String c rest => String c (unescapeHtml rest)
  | EmptyString => EmptyString
  end.

(** The characters that open or close markup or an attribute value. *)
Definition isMarkup (c : ascii) : bool :=
  (Ascii.eqb c Suitelet.LT || Ascii.eqb c Suitelet.GT
   || Ascii.eqb c Js.DQUOTE || Ascii.eqb c Suitelet.APOS)%bool.

(** *** The configuration the suitelet writes *)

(** The configuration [handleMappingSubmit] wrote to the file cabinet, if
    it wrote one. *)
Definition writtenConfig (r : Suitelet.SubmitResult) : option Suitelet.ConfigData :=
  match r with
  | Suitelet.NeverReturns | Suitelet.Rejected _ => None
  | Suitelet.ConfigOnly _ configData _ => Some configData
  | Suitelet.Submitted _ configData => Some configData
  end.

(** The request parameter of the select field of a column. *)
Definition columnParameter (params : Suitelet.Parameters) (i : nat) : option string :=
  params !! ("custpage_map_col_" ++ pretty i).

(** *** Mapped rows *)

(** A stored text: not empty, and trimmed. *)
Definition storedText (v : string) : Prop := v <> EmptyString /\ Js.trim v = v.

(** An item field the mappings can fill: a field a column is mapped to, or
    one of the two descriptions [displayname] fans out to. *)
Definition fieldMapped (maps : list (nat * string)) (f : string) : Prop :=
  In f (List.map snd maps)
  \/ ((f = "salesdescription" \/ f = "purchasedescription")
      /\ In "displayname" (List.map snd maps)).

(** What holds of the object [mapped] while the cells of a row are
    mapped. *)
Definition wellMapped (maps : list (nat * string)) (m : MappedRow) : Prop :=
  (forall h, m_hierarchy m = Some h -> storedText h /\ In "hierarchy" (List.map snd maps))
  /\ (forall f v, m_itemFields m !! f = Some v -> storedText v /\ fieldMapped maps f).

(** *** What a stage leaves alone *)

(** An item without its planning settings and the subsidiaries of its
    vendor lines. *)
Definition withoutPlanning (it : Item)
    : RecordType * string * gmap string string * list VendorRef * list BomLink :=
  (it_type it, it_externalid it, it_fields it, List.map vl_vendor (it_vendors it), it_boms it).

(** An item without its BOM links. *)
Definition withoutLinks (it : Item)
    : RecordType * string * gmap string string * option positive * option string
      * list VendorLine :=
  (it_type it, it_externalid it, it_fields it, it_planningitemcategory it,
   it_replenishment it, it_vendors it).

(** The type, external id and mapped fields of an item and the vendors of
    its vendor lines. *)
Definition itemIdentity (it : Item)
    : RecordType * string * gmap string string * list VendorRef :=
  (it_type it, it_externalid it, it_fields it, List.map vl_vendor (it_vendors it)).

(** The store beside its items, and beside its location configurations. *)
Definition besideItems (s : Store)
    : list LocConfig * list Bom * list BomRevision * list string * list string
      * (WriteOp -> bool) :=
  (locconfigs s, boms s, revisions s, categories s, vendors s, refuses s).

Definition besideLocConfigs (s : Store)
    : list Item * list Bom * list BomRevision * list string * list string
      * (WriteOp -> bool) :=
  (items s, boms s, revisions s, categories s, vendors s, refuses s).

(** The configured locations an existing item has no configuration for and
    the store accepts the plain one for. *)
Definition missingLocations (itemId : positive) (d : Defaults) (locs : list positive)
    (s : Store) : list positive :=
  List.filter (fun loc => (negb (existsb (Pos.eqb loc) (getExistingItemLocations itemId s))
                           && negb (refuses s (SaveLocConfig (plainLocConfig itemId loc d))))%bool)
              locs.

(** The records [createItemLocations] builds for the locations [locs], the
    first of them at index [locIndex], and the ones of them the store
    accepts. *)
Definition newLocConfigs (itemId : positive) (d : Defaults) (isAsm : bool)
    (rotationIndex locIndex : nat) (locs : list positive) : list LocConfig :=
  imap (fun i loc => newLocConfig itemId loc d isAsm rotationIndex (locIndex + i)) locs.

Definition acceptedConfigs (itemId : positive) (d : Defaults) (isAsm : bool)
    (rotationIndex locIndex : nat) (locs : list positive) (s : Store) : list LocConfig :=
  List.filter (fun record => negb (refuses s (SaveLocConfig record)))
              (newLocConfigs itemId d isAsm rotationIndex locIndex locs).

(** The store beside its items and its location configurations. *)
Definition besideItemsAndLocations (s : Store)
    : list Bom * list BomRevision * list string * list string * (WriteOp -> bool) :=
  (boms s, revisions s, categories s, vendors s, refuses s).

(** The store beside its items, BOMs and revisions. *)
Definition besideStructures (s : Store)
    : list LocConfig * list string * list string * (WriteOp -> bool) :=
  (locconfigs s, categories s, vendors s, refuses s).

(** The number of BOM links of the store. *)
Definition linkCount (s : Store) : nat := length (concat (List.map it_boms (items s))).

(** *** Growth without rewriting *)

(** A table that only grew at its end. *)
Definition grewFrom {A : Type} (t t' : list A) : Prop := exists extra, t' = (t ++ extra)%list.

(** From [s] to [s'] nothing was removed or rewritten: the tables only grew
    at their end, the items kept their identity, no BOM or revision changed,
    and no item lost a BOM link. *)
Definition neverRewritten (s s' : Store) : Prop :=
  grewFrom (List.map itemIdentity (items s)) (List.map itemIdentity (items s'))
  /\ grewFrom (List.map locKey (locconfigs s)) (List.map locKey (locconfigs s'))
  /\ grewFrom (boms s) (boms s')
  /\ grewFrom (revisions s) (revisions s')
  /\ grewFrom (categories s) (categories s')
  /\ grewFrom (vendors s) (vendors s')
  /\ refuses s' = refuses s
  /\ (forall id b, In b (List.map bl_bom (linksOf id s)) ->
                   In b (List.map bl_bom (linksOf id s'))).

(** No two records of a table share their external id or name. *)
Definition uniquelyKeyed (s : Store) : Prop :=
  NoDup (List.map it_externalid (items s))
  /\ NoDup (List.map bom_externalid (boms s))
  /\ NoDup (List.map rev_externalid (revisions s))
  /\ NoDup (categories s)
  /\ NoDup (vendors s).

(** Every location configuration belongs to an item of the store, and no
    item has two configurations for a location. *)
Definition locationsWellKeyed (s : Store) : Prop :=
  NoDup (List.map locKey (locconfigs s))
  /\ Forall (fun k : positive * positive => indexOf (fst k) < length (items s))
            (List.map locKey (locconfigs s)).

(** A file in which two rows name the same item. *)
Definition repeatedItemCsv : string :=
  Js.join (String Js.LF EmptyString) ["h,i,q"; "1,A,1"; "1.1,B,2"; "1.2,B,3"].

(** *** Vendors *)

(** Every entry of the cache names a vendor of the store by the name it is
    filed under. *)
Definition cacheSound (vendorCache : gmap string positive) (s : Store) : Prop :=
  forall name id, vendorCache !! name = Some id -> vendors s !! indexOf id = Some name.

(** The vendor a read of the cache gives is the id of a vendor record of
    that name, or a member of [Object.prototype] under its name. *)
Definition vendorRead (s : Store) (name : string) (vendor : VendorRef) : Prop :=
  match vendor with
  | VendorNumber id => exists v, id = Zpos v /\ vendors s !! indexOf v = Some name
  | PrototypeMember member => member = name /\ In name Js.objectPrototype
  end.

(** *** Search results read again *)

(** A search result with the record the store now holds under its id. *)
Definition refreshed (s : Store) (e : positive * LocConfig) : positive * LocConfig :=
  (fst e, default (snd e) (locconfigs s !! indexOf (fst e))).

(** *** Revisions *)

(** The revision [v] is the one [summarize] builds on the store [s] for
    the assembly row [a]: it has the revision id and name of the row, its
    BOM is the one found under the BOM id of the row, and it has one
    component line, item and quantity, for each direct child of the row
    whose item is found and whose line is committed, in the order of the
    rows. *)
Definition builtFor (ns : string) (allRows : list Row) (s : Store) (a : Row)
    (v : BomRevision) : Prop :=
  rev_externalid v = revisionExternalId ns (itemid a)
  /\ rev_name v = revisionName (itemid a)
  /\ findBOMByExternalId (bomExternalId ns (itemid a)) s = Some (rev_bom v)
  /\ rev_components v
     = List.map (fun c => (c_internalId c, c_quantity c))
         (List.filter
            (fun c => negb (refuses s (CommitComponent (c_internalId c) (c_quantity c))))
            (componentsOf ns (directChildrenOf allRows (hierarchy a)) s)).

(** *** Items *)


(* ===================================================================== *)
(** * Properties *)
(* ===================================================================== *)

(** ** Strings *)

Lemma append_nil (b : string) : EmptyString ++ b = b.
Proof. reflexivity. Qed.

Lemma append_cons (x : ascii) (a b : string) : String x a ++ b = String x (a ++ b).
Proof. reflexivity. Qed.

Lemma append_char_assoc (a : string) (c : ascii) (b : string) :
  (a ++ String c EmptyString) ++ b = a ++ String c b.
Proof.
  induction a as [|x a IH]; [reflexivity|].
  rewrite !append_cons. now rewrite IH.
Qed.

Lemma append_assoc_s (a b c : string) : (a ++ b) ++ c = a ++ (b ++ c).
Proof.
  induction a as [|x a IH]; [reflexivity|].
  rewrite !append_cons. now rewrite IH.
Qed.

Lemma append_empty_r (a : string) : a ++ EmptyString = a.
Proof.
  induction a as [|x a IH]; [reflexivity|].
  rewrite append_cons. now rewrite IH.
Qed.

Lemma ascii_eqb_true (a b : ascii) : Ascii.eqb a b = true -> a = b.
Proof. apply Ascii.eqb_eq. Qed.

(** ** The tokenizer *)

(** Characters that are neither quote nor active separator run into
    [current], carriage returns excepted. *)
Lemma parseRow_loop_run (s rest : string) (values : list string) (current : string)
    (inQuotes : bool) :
  stringForall (fun c => negb (Ascii.eqb c Js.DQUOTE || (isSeparator c && negb inQuotes))) s
    = true ->
  parseRow_loop (s ++ rest) values current inQuotes
  = parseRow_loop rest values (current ++ stripCR s) inQuotes.
Proof.
  revert current.
  induction s as [|c s IH]; intros current Hs.
  - cbn. now rewrite append_empty_r.
  - cbn in Hs. apply andb_prop in Hs as [Hc Hs].
    apply negb_true_iff, orb_false_iff in Hc as [Hq Hsep].
    rewrite append_cons. cbn [parseRow_loop stripCR].
    rewrite Hq. unfold isSeparator in Hsep. rewrite Hsep.
    destruct (Ascii.eqb c Js.CR); cbn [negb].
    + now apply IH.
    + rewrite IH by exact Hs. now rewrite append_char_assoc.
Qed.

(** A quote not followed by a quote, or met outside a quoted span, toggles
    [inQuotes]. *)
Lemma parseRow_loop_toggle (rest : string) (values : list string) (current : string)
    (inQuotes : bool) :
  (inQuotes && Js.startsWith rest (String Js.DQUOTE EmptyString))%bool = false ->
  parseRow_loop (String Js.DQUOTE rest) values current inQuotes
  = parseRow_loop rest values current (negb inQuotes).
Proof.
  intros H. cbn [parseRow_loop]. rewrite Ascii.eqb_refl.
  destruct rest as [|n rest']; [reflexivity|].
  destruct inQuotes; [|reflexivity].
  cbn [Js.startsWith andb] in H. rewrite (Ascii.eqb_sym n).
  destruct (Ascii.eqb Js.DQUOTE n); [destruct rest'; discriminate | reflexivity].
Qed.

(** A doubled quote inside a quoted span is one literal quote. *)
Lemma parseRow_loop_doubled (rest : string) (values : list string) (current : string) :
  parseRow_loop (String Js.DQUOTE (String Js.DQUOTE rest)) values current true
  = parseRow_loop rest values (current ++ String Js.DQUOTE EmptyString) true.
Proof. reflexivity. Qed.

(** Inside a quoted span any other character runs into [current], a
    carriage return excepted. *)
Lemma parseRow_loop_inside (c : ascii) (rest : string) (values : list string)
    (current : string) :
  Ascii.eqb c Js.DQUOTE = false ->
  parseRow_loop (String c rest) values current true
  = parseRow_loop rest values (current ++ stripCR (String c EmptyString)) true.
Proof.
  intros Hq. cbn [parseRow_loop stripCR]. rewrite Hq, andb_false_r.
  destruct (Ascii.eqb c Js.CR); cbn [negb]; [now rewrite append_empty_r | reflexivity].
Qed.

Lemma stripCR_cons_quote (text : string) :
  stripCR (String Js.DQUOTE text) = String Js.DQUOTE (stripCR text).
Proof. reflexivity. Qed.

Lemma stripCR_cons (c : ascii) (text : string) :
  stripCR (String c text) = stripCR (String c EmptyString) ++ stripCR text.
Proof. cbn [stripCR]. destruct (Ascii.eqb c Js.CR); reflexivity. Qed.

(** Inside a quoted span the escaped text is read back, up to the closing
    quote, provided no quote follows it. *)
Lemma parseRow_loop_quoted (text rest : string) (values : list string) (current : string) :
  Js.startsWith rest (String Js.DQUOTE EmptyString) = false ->
  parseRow_loop (escapeQuotes text ++ String Js.DQUOTE rest) values current true
  = parseRow_loop rest values (current ++ stripCR text) false.
Proof.
  intros Hrest. revert current.
  induction text as [|c text IH]; intros current.
  - cbn [escapeQuotes stripCR]. rewrite append_nil, append_empty_r.
    apply parseRow_loop_toggle. now rewrite Hrest.
  - cbn [escapeQuotes]. destruct (Ascii.eqb c Js.DQUOTE) eqn:Hq.
    + apply ascii_eqb_true in Hq. subst c.
      rewrite !append_cons, parseRow_loop_doubled, IH, stripCR_cons_quote.
      now rewrite append_char_assoc.
    + rewrite append_cons, parseRow_loop_inside, IH by exact Hq.
      now rewrite append_assoc_s, <- stripCR_cons.
Qed.

(** At the end of the line an open quoted span is pushed as it stands. *)
Lemma parseRow_loop_open (text : string) (values : list string) (current : string) :
  parseRow_loop (escapeQuotes text) values current true
  = (values ++ [(current ++ stripCR text)%string])%list.
Proof.
  revert current.
  induction text as [|c text IH]; intros current.
  - cbn. now rewrite append_empty_r.
  - cbn [escapeQuotes]. destruct (Ascii.eqb c Js.DQUOTE) eqn:Hq.
    + apply ascii_eqb_true in Hq. subst c.
      rewrite parseRow_loop_doubled, IH, stripCR_cons_quote.
      now rewrite append_char_assoc.
    + rewrite parseRow_loop_inside, IH by exact Hq.
      now rewrite append_assoc_s, <- stripCR_cons.
Qed.

Lemma stringForall_ext (p q : ascii -> bool) (s : string) :
  (forall c, p c = q c) -> stringForall p s = stringForall q s.
Proof.
  intros H. induction s as [|c s IH]; [reflexivity|].
  cbn. now rewrite H, IH.
Qed.

Lemma parseRow_loop_separator (tab : bool) (rest : string) (values : list string)
    (current : string) :
  parseRow_loop (String (separator tab) rest) values current false
  = parseRow_loop rest (values ++ [current]) EmptyString false.
Proof. destruct tab; reflexivity. Qed.

(** The state of the loop after the tokens of a line. *)
Lemma parseRow_loop_tokens (ts : list Token) :
  forall (values : list string) (current : string),
    wellFormed ts = true ->
    parseRow_loop (render ts) values current false
    = (values ++ valuesOf_from current ts)%list.
Proof.
  induction ts as [|t rest IH]; intros values current Hwf; [reflexivity|].
  destruct t as [text|text|text|tab]; cbn [render renderToken valuesOf_from wellFormed] in *.
  - apply andb_prop in Hwf as [Hb Hrest].
    rewrite parseRow_loop_run.
    + now apply IH.
    + rewrite <- Hb. apply stringForall_ext.
      intros c. now rewrite andb_true_r.
  - apply andb_prop in Hwf as [Hq Hrest]. apply negb_true_iff in Hq.
    rewrite append_cons, parseRow_loop_toggle by reflexivity.
    cbn [negb]. rewrite append_assoc_s, append_cons, append_nil.
    rewrite parseRow_loop_quoted by exact Hq.
    now apply IH.
  - destruct rest; [|discriminate Hwf].
    cbn [render]. rewrite append_empty_r.
    rewrite parseRow_loop_toggle by reflexivity.
    cbn [negb]. apply parseRow_loop_open.
  - rewrite append_cons, append_nil, parseRow_loop_separator.
    rewrite IH by exact Hwf. now rewrite <- app_assoc.
Qed.

Lemma escapeQuotes_app (a b : string) :
  escapeQuotes (a ++ b) = escapeQuotes a ++ escapeQuotes b.
Proof.
  induction a as [|c a IH]; [reflexivity|].
  rewrite append_cons. cbn [escapeQuotes].
  destruct (Ascii.eqb c Js.DQUOTE); rewrite ?append_cons; now rewrite IH.
Qed.

Lemma escapeQuotes_plain (c : ascii) :
  Ascii.eqb c Js.DQUOTE = false -> escapeQuotes (String c EmptyString) = String c EmptyString.
Proof. intros H. cbn [escapeQuotes]. now rewrite H. Qed.

Lemma stringForall_app (p : ascii -> bool) (a b : string) :
  stringForall p (a ++ b) = (stringForall p a && stringForall p b)%bool.
Proof.
  induction a as [|c a IH]; [reflexivity|].
  rewrite append_cons. cbn [stringForall]. now rewrite IH, andb_assoc.
Qed.

(** The tokens of a line are written as the line, and they are well
    formed. *)
Lemma tokens_from_spec (n : nat) :
  forall (line : string) (inQuotes : bool) (text : string),
    String.length line <= n ->
    (inQuotes = false -> bareText text = true) ->
    render (tokens_from line inQuotes text) = pendingText inQuotes text ++ line
    /\ wellFormed (tokens_from line inQuotes text) = true.
Proof.
  induction n as [|n IH]; intros line inQuotes text Hn Hbare.
  - destruct line; [|cbn in Hn; lia].
    destruct inQuotes; cbn; rewrite ?append_empty_r; [now split|].
    split; [reflexivity|]. now rewrite Hbare.
  - destruct line as [|c rest].
    { destruct inQuotes; cbn; rewrite ?append_empty_r; [now split|].
      split; [reflexivity|]. now rewrite Hbare. }
    cbn in Hn. cbn [tokens_from].
    destruct inQuotes.
    + destruct (Ascii.eqb c Js.DQUOTE) eqn:Hq.
      * apply ascii_eqb_true in Hq. subst c.
        assert (Hclose : forall tail, String.length tail <= n ->
                  Js.startsWith tail (String Js.DQUOTE EmptyString) = false ->
                  render (Span text :: tokens_from tail false EmptyString)
                  = pendingText true text ++ String Js.DQUOTE tail
                  /\ wellFormed (Span text :: tokens_from tail false EmptyString) = true).
        { intros tail Htail Hstart.
          destruct (IH tail false EmptyString Htail (fun _ => eq_refl)) as [Hr Hw].
          cbn [pendingText] in Hr. rewrite append_nil in Hr.
          cbn [render renderToken wellFormed pendingText]. rewrite Hr, Hw, Hstart.
          split; [|reflexivity].
          now rewrite !append_cons, append_assoc_s, append_cons, append_nil. }
        destruct rest as [|next rest']; [apply Hclose; [cbn; lia | reflexivity]|].
        destruct (Ascii.eqb next Js.DQUOTE) eqn:Hnext.
        -- apply ascii_eqb_true in Hnext. subst next.
           destruct (IH rest' true (text ++ String Js.DQUOTE EmptyString))
             as [Hr Hw]; [cbn in Hn; lia | discriminate |].
           split; [|exact Hw].
           rewrite Hr. cbn [pendingText]. rewrite escapeQuotes_app.
           cbn [escapeQuotes]. rewrite Ascii.eqb_refl.
           now rewrite !append_cons, append_assoc_s, !append_cons, append_nil.
        -- apply Hclose; [lia|].
           cbn [Js.startsWith]. rewrite (Ascii.eqb_sym Js.DQUOTE next), Hnext. reflexivity.
      * destruct (IH rest true (text ++ String c EmptyString)) as [Hr Hw];
          [lia | discriminate |].
        split; [|exact Hw].
        rewrite Hr. cbn [pendingText]. rewrite escapeQuotes_app, escapeQuotes_plain by exact Hq.
        now rewrite !append_cons, append_assoc_s, append_cons, append_nil.
    + specialize (Hbare eq_refl). cbn [pendingText].
      destruct (Ascii.eqb c Js.DQUOTE) eqn:Hq.
      * apply ascii_eqb_true in Hq. subst c.
        destruct (IH rest true EmptyString) as [Hr Hw]; [lia | discriminate |].
        cbn [render renderToken wellFormed]. rewrite Hr, Hw, Hbare.
        split; reflexivity.
      * destruct (isSeparator c) eqn:Hsep.
        -- destruct (IH rest false EmptyString) as [Hr Hw]; [lia | reflexivity |].
           cbn [render renderToken wellFormed]. rewrite Hr, Hw, Hbare.
           split; [|reflexivity].
           cbn [pendingText]. rewrite append_nil, append_cons, append_nil.
           f_equal. f_equal. unfold isSeparator in Hsep. unfold separator.
           destruct (Ascii.eqb c Js.TAB) eqn:Htab.
           ++ now apply ascii_eqb_true in Htab.
           ++ rewrite orb_false_r in Hsep. now apply ascii_eqb_true in Hsep.
        -- destruct (IH rest false (text ++ String c EmptyString)) as [Hr Hw]; [lia| |].
           { intros _. unfold bareText. rewrite stringForall_app.
             fold (bareText text). rewrite Hbare. cbn. now rewrite Hq, Hsep. }
           split; [|exact Hw].
           rewrite Hr. cbn [pendingText]. now rewrite append_char_assoc.
Qed.

Lemma tokens_render (line : string) : render (tokens line) = line.
Proof.
  unfold tokens.
  now destruct (tokens_from_spec (String.length line) line false EmptyString
                  (Nat.le_refl _) (fun _ => eq_refl)) as [H _].
Qed.

Lemma tokens_wellFormed (line : string) : wellFormed (tokens line) = true.
Proof.
  unfold tokens.
  now destruct (tokens_from_spec (String.length line) line false EmptyString
                  (Nat.le_refl _) (fun _ => eq_refl)) as [_ H].
Qed.

Lemma parseRow_tokens (line : string) : parseRow line = valuesOf (tokens line).
Proof.
  unfold parseRow. rewrite <- (tokens_render line) at 1.
  rewrite parseRow_loop_tokens by apply tokens_wellFormed. reflexivity.
Qed.

(** The loop ends on every input and only ever adds fields. *)
Lemma parseRow_loop_length (n : nat) :
  forall (rowText : string) (values : list string) (current : string) (inQuotes : bool),
    String.length rowText <= n ->
    length values < length (parseRow_loop rowText values current inQuotes).
Proof.
  induction n as [|n IH]; intros rowText values current inQuotes Hn.
  - destruct rowText; [|cbn in Hn; lia].
    cbn. rewrite length_app. cbn. lia.
  - destruct rowText as [|c rest].
    { cbn. rewrite length_app. cbn. lia. }
    cbn in Hn. cbn [parseRow_loop].
    destruct (Ascii.eqb c Js.DQUOTE).
    + destruct rest as [|next rest']; [apply IH; cbn; lia|].
      destruct (inQuotes && Ascii.eqb next Js.DQUOTE)%bool; apply IH; cbn in *; lia.
    + destruct ((Ascii.eqb c Js.COMMA || Ascii.eqb c Js.TAB) && negb inQuotes)%bool.
      * specialize (IH rest (values ++ [current])%list EmptyString inQuotes).
        rewrite length_app in IH. cbn in IH. lia.
      * destruct (negb (Ascii.eqb c Js.CR)); apply IH; lia.
Qed.

Lemma parseRow_nonempty (rowText : string) : parseRow rowText <> [].
Proof.
  unfold parseRow.
  pose proof (parseRow_loop_length (String.length rowText) rowText [] EmptyString false
                (Nat.le_refl _)) as H.
  intros E. rewrite E in H. cbn in H. lia.
Qed.

(** *** Lines *)

Lemma split_no_separator (sep : ascii) (s : string) :
  stringForall (fun c => negb (Ascii.eqb c sep)) s = true ->
  Js.split sep s = [s].
Proof.
  induction s as [|c s IH]; intros H; [reflexivity|].
  cbn in H. apply andb_prop in H as [Hc Hs].
  apply negb_true_iff in Hc. cbn [Js.split]. rewrite Hc, IH by exact Hs. reflexivity.
Qed.

Lemma split_piece (sep : ascii) (s rest : string) :
  stringForall (fun c => negb (Ascii.eqb c sep)) s = true ->
  Js.split sep (s ++ String sep rest) = s :: Js.split sep rest.
Proof.
  induction s as [|c s IH]; intros H.
  - rewrite append_nil. cbn [Js.split]. now rewrite Ascii.eqb_refl.
  - cbn in H. apply andb_prop in H as [Hc Hs].
    apply negb_true_iff in Hc. rewrite append_cons. cbn [Js.split].
    rewrite Hc, IH by exact Hs. reflexivity.
Qed.

(** Splitting a text at the line feeds gives back the lines it was joined
    from. *)
Lemma split_join_lines (lines : list string) :
  lines <> [] ->
  forallb noLineFeed lines = true ->
  Js.split Js.LF (Js.join (String Js.LF EmptyString) lines) = lines.
Proof.
  induction lines as [|l more IH]; intros Hne Hlf; [congruence|].
  cbn in Hlf. apply andb_prop in Hlf as [Hl Hmore].
  destruct more as [|l' more'].
  - cbn [Js.join]. now apply split_no_separator.
  - cbn [Js.join]. rewrite append_cons, append_nil.
    rewrite split_piece by exact Hl.
    f_equal. apply IH; [discriminate | exact Hmore].
Qed.

Lemma trimEnd_nonempty (c : ascii) (s : string) :
  Js.isWhite c = false -> Js.truthy (Js.trimEnd (String c s)) = true.
Proof.
  intros Hc. cbn [Js.trimEnd]. destruct (Js.trimEnd s); [now rewrite Hc | reflexivity].
Qed.

(** [line.trim()] is empty exactly for a line of white space. *)
Lemma trim_truthy (line : string) :
  Js.truthy (Js.trim line) = negb (blankLine line).
Proof.
  unfold Js.trim, blankLine.
  induction line as [|c s IH]; [reflexivity|].
  cbn [Js.trimStart stringForall].
  destruct (Js.isWhite c) eqn:Hc; [exact IH|].
  now rewrite trimEnd_nonempty.
Qed.

Lemma csvLines_join (lines : list string) :
  lines <> [] ->
  forallb noLineFeed lines = true ->
  csvLines (Js.join (String Js.LF EmptyString) lines)
  = List.filter (fun line => negb (blankLine line)) lines.
Proof.
  intros Hne Hlf. unfold csvLines. rewrite split_join_lines by assumption.
  apply filter_ext. intros line. apply trim_truthy.
Qed.

(** *** The tokenizer's contract *)

(** C8.  Every line is written as a well-formed list of tokens (text
    outside quotes, quoted spans in which a doubled quote stands for one
    quote, a last span whose quote is never closed, commas and tabs outside
    quotes), and on the line any such list is written as, [parseRow] returns
    the fields the list stands for: the line is cut at the commas and tabs
    outside quotes and nowhere else, the text of a span keeps its commas and
    tabs and has one quote for each doubled quote, carriage returns are
    dropped, and an open span runs to the end of the line.  [parseRow]
    returns at least one field on every input; of the lines of a text the
    blank ones are dropped.  The two sample lines of the specification are
    tokenized as it says. *)
Theorem tokenizer_contract (line rawText : string) (ts : list Token) :
  (wellFormed (tokens line) = true /\ render (tokens line) = line)
  /\ (wellFormed ts = true -> parseRow (render ts) = valuesOf ts)
  /\ parseRow line = valuesOf (tokens line)
  /\ parseRow line <> []
  /\ tokenize rawText
     = List.map parseRow
         (List.filter (fun l => negb (blankLine l)) (Js.split Js.LF rawText))
  /\ tokenize ("a," ++ String Js.DQUOTE "b,c" ++ String Js.DQUOTE ",d")
     = [["a"; "b,c"; "d"]]
  /\ tokenize ("a," ++ String Js.DQUOTE "b" ++ String Js.DQUOTE
                 (String Js.DQUOTE "c" ++ String Js.DQUOTE ",d"))
     = [["a"; "b" ++ String Js.DQUOTE "c"; "d"]].
Proof.
  split; [split; [apply tokens_wellFormed | apply tokens_render]|].
  split.
  { intros Hwf. unfold parseRow. now rewrite parseRow_loop_tokens by exact Hwf. }
  split; [apply parseRow_tokens|].
  split; [apply parseRow_nonempty|].
  split; [|split; reflexivity].
  unfold tokenize, csvLines. f_equal. apply filter_ext. intros l. apply trim_truthy.
Qed.

Lemma tokenizer_contract_witness :
  parseRow ("x " ++ String Js.DQUOTE "a,b" ++ String Js.DQUOTE ("y" ++ String Js.TAB
              (String Js.DQUOTE "z,") ++ String Js.CR "w"))
  = ["x a,by"; "z,w"]
  /\ tokenize ("a,b" ++ String Js.LF (" " ++ String Js.TAB (String Js.LF "c")))
     = [["a"; "b"]; ["c"]].
Proof.
  pose proof (tokenizer_contract EmptyString
                ("a,b" ++ String Js.LF (" " ++ String Js.TAB (String Js.LF "c")))
                [Plain "x "; Span "a,b"; Plain "y"; Sep true;
                 Open ("z," ++ String Js.CR "w")])
    as (_ & H1 & _ & _ & H2 & _).
  split; [exact (H1 eq_refl) | exact H2].
Defined.

(** ** The hierarchy classifier *)

Lemma startsWith_spec (h p : string) :
  Js.startsWith h p = true <-> exists suffix, h = p ++ suffix.
Proof.
  revert h. induction p as [|a p IH]; intros h.
  - split; [intros _; now exists h | intros _; now destruct h].
  - destruct h as [|b h]; cbn [Js.startsWith].
    + split; [discriminate | intros [suffix E]; discriminate E].
    + destruct (Ascii.eqb a b) eqn:Eab.
      * apply ascii_eqb_true in Eab. subst b. rewrite IH.
        split; intros [suffix E]; exists suffix.
        -- rewrite append_cons. now f_equal.
        -- rewrite append_cons in E. now injection E.
      * split; [discriminate|].
        intros [suffix E]. rewrite append_cons in E. injection E as E1 _.
        subst b. now rewrite Ascii.eqb_refl in Eab.
Qed.

Lemma length_append (a b : string) :
  String.length (a ++ b) = String.length a + String.length b.
Proof.
  induction a as [|x a IH]; [reflexivity|].
  rewrite append_cons. cbn. now rewrite IH.
Qed.

(** A key is not a proper extension of itself. *)
Lemma no_self_extension (key tail : string) (c : ascii) : key ++ String c tail <> key.
Proof.
  intros E. apply (f_equal String.length) in E.
  rewrite length_append in E. cbn in E. lia.
Qed.

Lemma existsb_eqb_In (k : string) (seen : list string) :
  existsb (String.eqb k) seen = true <-> In k seen.
Proof.
  rewrite existsb_exists. split.
  - intros (x & Hin & E). apply String.eqb_eq in E. now subst.
  - intros Hin. exists k. split; [exact Hin | apply String.eqb_refl].
Qed.

(** The set built from the keys holds exactly the keys. *)
Lemma In_setFrom (keys : list string) :
  forall (seen : list string) (h : string),
    In h (setFrom seen keys) <-> In h keys /\ ~ In h seen.
Proof.
  induction keys as [|k more IH]; intros seen h; cbn [setFrom].
  - cbn. tauto.
  - destruct (existsb (String.eqb k) seen) eqn:Ek.
    + apply existsb_eqb_In in Ek. rewrite IH. cbn.
      split; [tauto|]. intros [[->|Hin] Hn]; tauto.
    + assert (Hk : ~ In k seen).
      { intros Hin. apply existsb_eqb_In in Hin. congruence. }
      cbn. rewrite IH, in_app_iff. cbn.
      destruct (String.eqb_spec k h) as [->|Hne]; [tauto|].
      split; [intros [E|(Hin & Hn)]; [congruence | tauto] | tauto].
Qed.

Lemma hasDescendant_spec (keys : list string) (key : string) :
  hasDescendant (setFrom [] keys) key = true
  <-> exists h suffix, In h keys /\ h = key ++ "." ++ suffix.
Proof.
  unfold hasDescendant. rewrite existsb_exists. split.
  - intros (h & Hin & Hh). apply In_setFrom in Hin as [Hin _].
    apply andb_prop in Hh as [_ Hs]. apply startsWith_spec in Hs as [suffix E].
    exists h, suffix. split; [exact Hin|]. now rewrite E, append_assoc_s.
  - intros (h & suffix & Hin & E). exists h. split.
    + apply In_setFrom. split; [exact Hin | intros []].
    + apply andb_true_intro. split.
      * apply negb_true_iff, String.eqb_neq. rewrite E.
        rewrite append_cons, append_nil. apply no_self_extension.
      * apply startsWith_spec. exists suffix. now rewrite E, append_assoc_s.
Qed.

(** What the classifying loop leaves in a row. *)
Lemma classify_loop_In (hierarchySet : list string) (rows : list Row) :
  forall (inventoryIndex : nat) (row : Row),
    In row (classify_loop hierarchySet inventoryIndex rows) ->
    exists row0, In row0 rows
      /\ hierarchy row = hierarchy row0
      /\ itemFields row = itemFields row0
      /\ quantity row = quantity row0
      /\ isAssembly row = hasDescendant hierarchySet (hierarchy row0)
      /\ recordType row = Some (if isAssembly row then assemblyitem else inventoryitem)
      /\ parentHierarchy row = parentOf (hierarchy row0).
Proof.
  induction rows as [|r more IH]; intros inventoryIndex row Hin; [destruct Hin|].
  cbn [classify_loop] in Hin. destruct Hin as [<-|Hin].
  - exists r. cbn. repeat split; auto.
  - apply IH in Hin as (row0 & Hin0 & H). exists row0. split; [now right | exact H].
Qed.

Lemma classify_hierarchies (hierarchySet : list string) (rows : list Row) :
  forall inventoryIndex,
    List.map hierarchy (classify_loop hierarchySet inventoryIndex rows)
    = List.map hierarchy rows.
Proof.
  induction rows as [|r more IH]; intros inventoryIndex; [reflexivity|].
  cbn [classify_loop List.map]. now rewrite IH.
Qed.

Lemma classify_isAssembly (rows : list Row) (row : Row) :
  In row (classify rows) ->
  isAssembly row = hasDescendant (hierarchySetOf rows) (hierarchy row).
Proof.
  intros Hin. apply classify_loop_In in Hin as (row0 & _ & Hh & _ & _ & Ha & _).
  now rewrite Ha, Hh.
Qed.

(** C2, as the code has it.  A row is an assembly exactly when a key of
    the row set is the row's key followed by a dot and any text, the empty
    text included; otherwise it is an inventory item.  No key starts with
    itself followed by a dot, and rows with the same key get the same
    kind. *)
Theorem classification_by_prefix (rows : list Row) (row other : Row) :
  In row (classify rows) ->
  In other (classify rows) ->
  (isAssembly row = true
   <-> exists h suffix, In h (List.map hierarchy rows) /\ h = hierarchy row ++ "." ++ suffix)
  /\ recordType row = Some (if isAssembly row then assemblyitem else inventoryitem)
  /\ Js.startsWith (hierarchy row) (hierarchy row ++ ".") = false
  /\ (hierarchy other = hierarchy row -> isAssembly other = isAssembly row).
Proof.
  intros Hrow Hother. repeat split.
  - rewrite (classify_isAssembly _ _ Hrow). apply hasDescendant_spec.
  - rewrite (classify_isAssembly _ _ Hrow). apply hasDescendant_spec.
  - now apply classify_loop_In in Hrow as (row0 & _ & _ & _ & _ & _ & Ht & _).
  - apply not_true_is_false. intros Hs.
    apply startsWith_spec in Hs as [suffix E].
    rewrite append_assoc_s, append_cons, append_nil in E.
    symmetry in E. now apply no_self_extension in E.
  - intros E. rewrite (classify_isAssembly _ _ Hrow), (classify_isAssembly _ _ Hother).
    now rewrite E.
Qed.

Lemma classification_by_prefix_witness :
  let rows := mappedRows mapCell [(0, "hierarchy"); (1, "itemid")]
                (dataRows ["h,i"; "1,A"; "1.1,B"; "1.1,C"]) in
  exists row, In row (classify rows) /\ hierarchy row = "1" /\ isAssembly row = true.
Proof.
  intros rows.
  pose (row := hd (mkRow 0 EmptyString ∅ None None None false None None None)
                  (classify rows)).
  assert (Hin : In row (classify rows)) by (vm_compute; left; reflexivity).
  destruct (classification_by_prefix rows row row Hin Hin) as (H & _).
  exists row. split; [exact Hin|]. split; [reflexivity|].
  apply H. exists "1.1", "1". split; [vm_compute; tauto | reflexivity].
Defined.

(** C2, as the specification words it, fails: with the keys [1] and [1.]
    the row [1] is an assembly, though no key is [1] followed by a dot and a
    non-empty text. *)
Lemma classification_counterexample :
  let rows := inputRows [(0, "hierarchy"); (1, "itemid")] ["h,i"; "1,A"; "1.,B"] in
  List.map (fun r => (hierarchy r, isAssembly r)) rows = [("1", true); ("1.", false)]
  /\ ~ (exists h suffix, In h (List.map hierarchy rows) /\ h <> "1"
          /\ suffix <> EmptyString /\ h = "1" ++ "." ++ suffix).
Proof.
  split; [vm_compute; reflexivity|].
  intros (h & suffix & Hin & Hne & Hs & E).
  vm_compute in Hin. destruct Hin as [<-|[<-|[]]]; [exact (Hne eq_refl)|].
  rewrite !append_cons, append_nil in E. injection E as E.
  exact (Hs (eq_sym E)).
Qed.

(** *** Parent keys *)

Lemma split_nonempty (sep : ascii) (s : string) : Js.split sep s <> [].
Proof.
  destruct s as [|c s]; cbn [Js.split]; [discriminate|].
  destruct (Ascii.eqb c sep); [discriminate|].
  destruct (Js.split sep s); discriminate.
Qed.

Lemma split_app (sep : ascii) (a b : string) :
  Js.split sep (a ++ String sep b) = (Js.split sep a ++ Js.split sep b)%list.
Proof.
  induction a as [|c a IH].
  - rewrite append_nil. cbn [Js.split]. now rewrite Ascii.eqb_refl.
  - rewrite append_cons. cbn [Js.split]. rewrite IH.
    destruct (Ascii.eqb c sep); [reflexivity|].
    pose proof (split_nonempty sep a) as Hne.
    destruct (Js.split sep a); [congruence | reflexivity].
Qed.

Lemma join_snoc (sep : string) (parts : list string) (x : string) :
  parts <> [] ->
  Js.join sep (parts ++ [x]) = Js.join sep parts ++ sep ++ x.
Proof.
  induction parts as [|p more IH]; intros Hne; [congruence|].
  destruct more as [|q more'].
  - reflexivity.
  - change (Js.join sep ((p :: q :: more') ++ [x]))
      with (p ++ sep ++ Js.join sep ((q :: more') ++ [x])).
    rewrite IH by discriminate.
    change (Js.join sep (p :: q :: more')) with (p ++ sep ++ Js.join sep (q :: more')).
    now rewrite !append_assoc_s.
Qed.

(** Joining the pieces of a split gives the string back. *)
Lemma join_split (s : string) : Js.join "." (Js.split Js.DOT s) = s.
Proof.
  induction s as [|c s IH]; [reflexivity|].
  cbn [Js.split]. destruct (Ascii.eqb c Js.DOT) eqn:Ec.
  - apply ascii_eqb_true in Ec. subst c.
    pose proof (split_nonempty Js.DOT s) as Hne.
    destruct (Js.split Js.DOT s) as [|p more] eqn:Es; [congruence|].
    change (Js.join "." (EmptyString :: p :: more))
      with (EmptyString ++ "." ++ Js.join "." (p :: more)).
    now rewrite IH.
  - pose proof (split_nonempty Js.DOT s) as Hne.
    destruct (Js.split Js.DOT s) as [|p more] eqn:Es; [congruence|].
    destruct more as [|q more'].
    + cbn [Js.join] in *. now rewrite IH.
    + change (Js.join "." (String c p :: q :: more'))
        with (String c p ++ "." ++ Js.join "." (q :: more')).
      change (Js.join "." (p :: q :: more'))
        with (p ++ "." ++ Js.join "." (q :: more')) in IH.
      rewrite append_cons. now rewrite IH.
Qed.

(** The pieces of a split hold no dot. *)
Lemma split_dotless (s : string) : Forall (fun p => dotless p = true) (Js.split Js.DOT s).
Proof.
  induction s as [|c s IH]; [repeat constructor|].
  cbn [Js.split]. destruct (Ascii.eqb c Js.DOT) eqn:Ec.
  - constructor; [reflexivity | exact IH].
  - destruct (Js.split Js.DOT s) as [|p more].
    + repeat constructor. unfold dotless. cbn. now rewrite Ec.
    + inversion IH as [|? ? Hp Hmore]; subst.
      constructor; [|exact Hmore].
      unfold dotless in *. cbn. now rewrite Ec, Hp.
Qed.

Lemma parentOf_extend (p seg : string) :
  dotless seg = true -> parentOf (p ++ "." ++ seg) = Some p.
Proof.
  intros Hseg. unfold parentOf.
  rewrite append_cons, append_nil, split_app.
  rewrite (split_no_separator _ seg) by exact Hseg.
  rewrite length_app. cbn [length].
  change (Js.split "." p) with (Js.split Js.DOT p).
  pose proof (split_nonempty Js.DOT p) as Hne.
  destruct (Js.split Js.DOT p) as [|x xs] eqn:Es; [congruence|].
  replace (Nat.ltb 1 (length (x :: xs) + 1)) with true
    by (symmetry; apply Nat.ltb_lt; cbn; lia).
  unfold Js.pop. rewrite removelast_last, <- Es. now rewrite join_split.
Qed.

Lemma parentOf_root (key : string) : dotless key = true -> parentOf key = None.
Proof.
  intros H. unfold parentOf. now rewrite (split_no_separator Js.DOT key) by exact H.
Qed.

(** Every key is a dotless key or a parent, a dot and a dotless segment. *)
Lemma key_shape (key : string) :
  dotless key = true \/ exists p seg, dotless seg = true /\ key = p ++ "." ++ seg.
Proof.
  pose proof (join_split key) as Hj.
  pose proof (split_dotless key) as Hd.
  pose proof (split_nonempty Js.DOT key) as Hne.
  destruct (exists_last Hne) as (front & x & E). rewrite E in Hj. rewrite E in Hd.
  apply Forall_app in Hd as [_ Hx]. apply Forall_inv in Hx as Hxd.
  destruct front as [|f front'].
  - left. cbn in Hj. now rewrite <- Hj.
  - right. exists (Js.join "." (f :: front')), x. split; [exact Hxd|].
    rewrite <- Hj at 1. now apply join_snoc.
Qed.

(** C3, as the code has it.  The parent key is the key without its last
    dot segment, and null exactly when the key holds no dot; every row gets
    the parent key of its own key.  The parent of [1.1.1] is [1.1], and [1]
    has none. *)
Theorem parentKey_last_segment (rows : list Row) (row : Row) (key : string) :
  In row (classify rows) ->
  parentHierarchy row = parentOf (hierarchy row)
  /\ (parentOf key = None <-> dotless key = true)
  /\ (forall p, parentOf key = Some p
                <-> exists seg, dotless seg = true /\ key = p ++ "." ++ seg)
  /\ parentOf "1.1.1" = Some "1.1"
  /\ parentOf "1" = None.
Proof.
  intros Hrow. repeat split; try reflexivity.
  - apply classify_loop_In in Hrow as (row0 & _ & Hh & _ & _ & _ & _ & Hp).
    now rewrite Hp, Hh.
  - intros Hnone. destruct (key_shape key) as [Hd|(p & seg & Hseg & E)]; [exact Hd|].
    rewrite E, parentOf_extend in Hnone by exact Hseg. discriminate.
  - apply parentOf_root.
  - intros Hsome. destruct (key_shape key) as [Hd|(p' & seg & Hseg & E)].
    + rewrite parentOf_root in Hsome by exact Hd. discriminate.
    + exists seg. split; [exact Hseg|].
      rewrite E, parentOf_extend in Hsome by exact Hseg.
      injection Hsome as <-. exact E.
  - intros (seg & Hseg & E). rewrite E. now apply parentOf_extend.
Qed.

Lemma parentKey_last_segment_witness :
  exists row,
    In row (inputRows [(0, "hierarchy"); (1, "itemid")] ["h,i"; "1.1.1,A"])
    /\ parentHierarchy row = Some "1.1".
Proof.
  pose (rows := mappedRows mapCell [(0, "hierarchy"); (1, "itemid")]
                  (dataRows ["h,i"; "1.1.1,A"])).
  pose (row := hd (mkRow 0 EmptyString ∅ None None None false None None None)
                  (classify rows)).
  assert (Hin : In row (classify rows)) by (vm_compute; left; reflexivity).
  destruct (parentKey_last_segment rows row "1" Hin) as (H & _).
  exists row. split; [exact Hin|]. rewrite H. reflexivity.
Defined.

(** C3, as the specification words it, fails on its second example: the
    row with key [1.0] gets the parent key [1], not null.  The header of the
    older script calls [1.0] the top-level assembly; the code of both
    scripts gives it a parent. *)
Lemma parentKey_counterexample :
  List.map (fun r => (hierarchy r, parentHierarchy r))
    (inputRows [(0, "hierarchy"); (1, "itemid")] ["h,i"; "1.0,A"])
  = [("1.0", Some "1")]
  /\ parentOf "1.0" <> None.
Proof. split; [vm_compute; reflexivity | discriminate]. Qed.

(** The notation of the older script's header, [1.0] with the direct
    children [1.1] and [1.2]: in the code the rows [1.1] and [1.2] get the
    parent [1], as [1.0] does, and [1.0] has no descendant, so it is an
    inventory item and no row is its child. *)
Example header_notation :
  List.map (fun r => (hierarchy r, isAssembly r, parentHierarchy r))
    (inputRows [(0, "hierarchy"); (1, "itemid")]
       ["h,i"; "1.0,A"; "1.1,B"; "1.1.1,C"; "1.2,D"])
  = [("1.0", false, Some "1"); ("1.1", true, Some "1");
     ("1.1.1", false, Some "1.1"); ("1.2", false, Some "1")].
Proof. vm_compute. reflexivity. Qed.

(** ** External identities *)

Lemma append_inj_l (a b c : string) : a ++ b = a ++ c -> b = c.
Proof.
  induction a as [|x a IH]; [trivial|].
  rewrite !append_cons. intros E. injection E as E. now apply IH.
Qed.

Lemma append_inj_r (a b t : string) : a ++ t = b ++ t -> a = b.
Proof.
  revert b. induction a as [|x a IH]; intros [|y b] E.
  - reflexivity.
  - apply (f_equal String.length) in E. rewrite !length_append in E. cbn in E. lia.
  - apply (f_equal String.length) in E. rewrite !length_append in E. cbn in E. lia.
  - rewrite !append_cons in E. injection E as -> E. f_equal. now apply IH.
Qed.

(** C6.  The identity of an entity is the namespace, an underscore, the
    natural id, and for a BOM or a revision the suffix of its role; under
    one namespace and role, different natural ids give different
    identities, and equal inputs equal ones. *)
Theorem externalIdentity_deterministic_injective
    (ns naturalId otherId : string) (role : EntityRole) :
  naturalId <> otherId ->
  externalIdentity ns naturalId RoleItem = ns ++ "_" ++ naturalId
  /\ externalIdentity ns naturalId RoleBOM = ns ++ "_" ++ naturalId ++ "_BOM"
  /\ externalIdentity ns naturalId RoleRevision = ns ++ "_" ++ naturalId ++ "_REV_A"
  /\ externalIdentity ns naturalId role <> externalIdentity ns otherId role
  /\ (forall ns' id' role', ns' = ns -> id' = naturalId -> role' = role ->
        externalIdentity ns' id' role' = externalIdentity ns naturalId role).
Proof.
  intros Hne. repeat split.
  - intros E. apply Hne. destruct role; cbn in E;
      unfold itemExternalId, bomExternalId, revisionExternalId, bomName, revisionName in E;
      apply append_inj_l, append_inj_l in E.
    + exact E.
    + now apply append_inj_r in E.
    + now apply append_inj_r in E.
  - intros ns' id' role' -> -> ->. reflexivity.
Qed.

Lemma externalIdentity_witness :
  externalIdentity "ACME" "P-100" RoleBOM <> externalIdentity "ACME" "P-200" RoleBOM.
Proof.
  apply (externalIdentity_deterministic_injective "ACME" "P-100" "P-200" RoleBOM).
  discriminate.
Defined.

(** ** Quantities *)

Lemma orOne_truthy (x : jsnum) : num_truthy (orOne x) = true.
Proof. unfold orOne. destruct (num_truthy x) eqn:E; [exact E | reflexivity]. Qed.

Lemma orOne_idem (x : jsnum) : num_truthy x = true -> orOne x = x.
Proof. intros H. unfold orOne. now rewrite H. Qed.

(** What [parseFloat(value) || 1] stores. *)
Lemma orOne_parse (value : string) : orOne (parseFloat value) = quantityOf value.
Proof. unfold quantityOf, orOne. now destruct (parseFloat value). Qed.

Lemma quantityOf_truthy (value : string) : num_truthy (quantityOf value) = true.
Proof. rewrite <- orOne_parse. apply orOne_truthy. Qed.

Lemma mapCell_quantity (fieldName value : string) (m : MappedRow) :
  m_quantity (mapCell fieldName value m)
  = if (Js.truthy (Js.trim value) && (fieldName =? "quantity"))%bool
    then Some (quantityOf value) else m_quantity m.
Proof.
  rewrite <- orOne_parse.
  unfold mapCell. destruct (Js.truthy (Js.trim value)); [|reflexivity]. cbn [negb andb].
  destruct (String.eqb_spec fieldName "hierarchy") as [->|_]; [reflexivity|].
  destruct (fieldName =? "quantity"); [reflexivity|].
  destruct (fieldName =? "memo"); [reflexivity|].
  destruct (fieldName =? "vendor"); [reflexivity|].
  destruct (fieldName =? "displayname"); reflexivity.
Qed.

Lemma mapCell_rowNumber (fieldName value : string) (m : MappedRow) :
  m_rowNumber (mapCell fieldName value m) = m_rowNumber m.
Proof.
  unfold mapCell. destruct (negb _); [reflexivity|].
  repeat (match goal with |- context [if ?b then _ else _] => destruct b end;
          [reflexivity|]).
  reflexivity.
Qed.

Lemma quantityCells_snoc (maps : list (nat * string)) (e : nat * string) (cs : list string) :
  quantityCells (maps ++ [e]) cs
  = (quantityCells maps cs
     ++ (if (Js.truthy (Js.trim (cellAt cs (fst e))) && (snd e =? "quantity"))%bool
         then [cellAt cs (fst e)] else []))%list.
Proof.
  unfold quantityCells. rewrite List.filter_app, List.map_app, List.filter_app.
  f_equal. cbn [List.filter]. destruct (snd e =? "quantity"); cbn [List.map List.filter].
  - rewrite andb_true_r. now destruct (Js.truthy _).
  - now rewrite andb_false_r.
Qed.

(** The mapped row of a data row has its row number, and the quantity of
    the last non-blank cell mapped to [quantity]. *)
Lemma mapRow_quantity (maps : list (nat * string)) (raw : RawRow) :
  m_rowNumber (mapRowWith mapCell maps raw) = rowNumber raw
  /\ m_quantity (mapRowWith mapCell maps raw) = storedQuantity maps (cells raw).
Proof.
  unfold mapRowWith, storedQuantity.
  induction maps as [|e maps IH] using rev_ind; [now split|].
  rewrite fold_left_app. cbn [fold_left].
  rewrite mapCell_rowNumber, mapCell_quantity, quantityCells_snoc.
  destruct IH as [IHn IHq]. split; [exact IHn|].
  destruct (Js.truthy _ && _)%bool.
  - now rewrite last_snoc.
  - now rewrite app_nil_r.
Qed.

Lemma In_mappedRows (cell : string -> string -> MappedRow -> MappedRow)
    (maps : list (nat * string)) (raws : list RawRow) (row : Row) :
  In row (mappedRows cell maps raws)
  <-> exists raw, In raw raws /\ keepMapped (mapRowWith cell maps raw) = Some row.
Proof.
  unfold mappedRows. rewrite <- list_elem_of_In, list_elem_of_omap.
  split; intros (raw & Hin & E); exists raw; (split; [|exact E]);
    now apply list_elem_of_In.
Qed.

Lemma keepMapped_quantity (m : MappedRow) (row : Row) :
  keepMapped m = Some row ->
  r_rowNumber row = m_rowNumber m /\ quantity row = m_quantity m.
Proof.
  unfold keepMapped. destruct (m_hierarchy m); [|discriminate].
  destruct (m_itemFields m !! "itemid"); [|discriminate].
  destruct (Js.truthy _ && Js.truthy _)%bool; [|discriminate].
  intros E. injection E as <-. now split.
Qed.

Lemma classify_loop_rowNumber (hierarchySet : list string) (rows : list Row) :
  forall (inventoryIndex : nat) (row : Row),
    In row (classify_loop hierarchySet inventoryIndex rows) ->
    exists row0, In row0 rows
      /\ r_rowNumber row = r_rowNumber row0 /\ quantity row = quantity row0.
Proof.
  induction rows as [|r more IH]; intros inventoryIndex row Hin; [destruct Hin|].
  cbn [classify_loop] in Hin. destruct Hin as [<-|Hin].
  - exists r. split; [now left | now split].
  - apply IH in Hin as (row0 & Hin0 & H). exists row0. split; [now right | exact H].
Qed.

Lemma dataRows_from_In (lines : list string) :
  forall (i : nat) (raw : RawRow),
    In raw (dataRows_from i lines) ->
    i < rowNumber raw <= i + length lines
    /\ exists line, lines !! (rowNumber raw - 1 - i) = Some line
         /\ cells raw = parseRow line
         /\ existsb (fun cell => Js.truthy (Js.trim cell)) (cells raw) = true.
Proof.
  induction lines as [|line more IH]; intros i raw Hin; [destruct Hin|].
  cbn [dataRows_from] in Hin.
  assert (Hmore : In raw (dataRows_from (S i) more) ->
                  i < rowNumber raw <= i + length (line :: more)
                  /\ exists l, (line :: more) !! (rowNumber raw - 1 - i) = Some l
                       /\ cells raw = parseRow l
                       /\ existsb (fun cell => Js.truthy (Js.trim cell)) (cells raw) = true).
  { intros H. apply IH in H as (Hr & l & Hl & Hc). cbn [length]. split; [lia|].
    exists l. split; [|exact Hc].
    replace (rowNumber raw - 1 - i) with (S (rowNumber raw - 1 - S i)) by lia. exact Hl. }
  destruct (existsb _ (parseRow line)) eqn:E; [|now apply Hmore].
  destruct Hin as [<-|Hin]; [|now apply Hmore].
  cbn [rowNumber cells length]. split; [lia|].
  exists line. replace (i + 1 - 1 - i) with 0 by lia. now repeat split.
Qed.

(** A data row is known by its row number. *)
Lemma dataRows_number_inj (lines : list string) (raw raw' : RawRow) :
  In raw (dataRows lines) -> In raw' (dataRows lines) ->
  rowNumber raw' = rowNumber raw -> raw' = raw.
Proof.
  unfold dataRows. intros H H' E.
  apply dataRows_from_In in H as (_ & line & Hl & Hc & _).
  apply dataRows_from_In in H' as (_ & line' & Hl' & Hc' & _).
  rewrite E, Hl in Hl'. injection Hl' as <-.
  destruct raw, raw'. cbn in *. congruence.
Qed.

(** Every row of the row list has the quantity of its own data row. *)
Lemma inputRows_quantity (maps : list (nat * string)) (lines : list string) (row : Row) :
  In row (inputRows maps lines) ->
  exists raw, In raw (dataRows lines)
    /\ rowNumber raw = r_rowNumber row
    /\ quantity row = storedQuantity maps (cells raw).
Proof.
  intros Hin. unfold inputRows, classify in Hin.
  apply classify_loop_rowNumber in Hin as (row0 & Hin0 & Hn & Hq).
  apply In_mappedRows in Hin0 as (raw & Hraw & Hkeep).
  apply keepMapped_quantity in Hkeep as [Hn0 Hq0].
  destruct (mapRow_quantity maps raw) as [Hn1 Hq1].
  exists raw. split; [exact Hraw|]. split; congruence.
Qed.

Lemma storedQuantity_truthy (maps : list (nat * string)) (cs : list string) (q : jsnum) :
  storedQuantity maps cs = Some q -> num_truthy q = true.
Proof.
  unfold storedQuantity. destruct (last _) as [v|]; [|discriminate].
  cbn. intros E. injection E as <-. apply quantityOf_truthy.
Qed.

Lemma inputRows_truthy (maps : list (nat * string)) (lines : list string) :
  truthyQuantities (inputRows maps lines).
Proof.
  intros row q Hin Hq. apply inputRows_quantity in Hin as (raw & _ & _ & E).
  rewrite Hq in E. symmetry in E. now apply storedQuantity_truthy in E.
Qed.

Lemma jsonNumber_truthy (q q' : jsnum) :
  num_truthy q = true -> jsonNumber q = Some q' -> q' = q /\ num_finite q = true.
Proof. destruct q; cbn; intros Ht E; try discriminate; injection E as <-; now split. Qed.

Lemma jsonRow_truthy (rows : list Row) :
  truthyQuantities rows -> truthyQuantities (List.map jsonRow rows).
Proof.
  intros H row q Hin Hq. apply in_map_iff in Hin as (r & <- & Hr).
  cbn in Hq. destruct (quantity r) as [q0|] eqn:E; [|discriminate].
  cbn in Hq. pose proof (H r q0 Hr E) as Ht.
  apply (jsonNumber_truthy _ _ Ht) in Hq as [-> _]. exact Ht.
Qed.

Lemma In_componentsOf (ns : string) (children : list Row) (s : Store) (c : Component) :
  In c (componentsOf ns children s) ->
  exists child childId,
    In child children
    /\ findItemByExternalId (itemExternalId ns (itemid child)) s = Some childId
    /\ c = mkComponent (itemid child) childId (componentQuantity child).
Proof.
  unfold componentsOf. rewrite <- list_elem_of_In, list_elem_of_omap.
  intros (child & Hin & E). apply list_elem_of_In in Hin.
  destruct (findItemByExternalId _ s) as [childId|] eqn:Ef; [|discriminate].
  injection E as <-. now exists child, childId.
Qed.

Lemma In_directChildrenOf (allRows : list Row) (key : string) (child : Row) :
  In child (directChildrenOf allRows key)
  <-> In child allRows /\ parentHierarchy child = Some key.
Proof.
  unfold directChildrenOf. rewrite filter_In. now rewrite bool_decide_eq_true.
Qed.

(** On rows whose quantities are neither zero nor [NaN] a component has the
    quantity of its child row, or 1 when the row has none. *)
Lemma componentsOf_default (ns : string) (s : Store) (children : list Row) :
  truthyQuantities children ->
  componentsOf ns children s = omap (componentOf ns s) children.
Proof.
  unfold componentsOf, componentOf.
  induction children as [|child more IH]; intros H; [reflexivity|].
  cbn [omap list_omap].
  rewrite IH by (intros r q Hr; apply H; now right).
  assert (E : componentQuantity child = default JOne (quantity child)).
  { unfold componentQuantity. destruct (quantity child) as [q|] eqn:Eq; [|reflexivity].
    cbn. apply orOne_idem. apply (H child q); [now left | exact Eq]. }
  rewrite E. now destruct (findItemByExternalId _ s).
Qed.

Lemma truthyQuantities_children (allRows : list Row) (key : string) :
  truthyQuantities allRows -> truthyQuantities (directChildrenOf allRows key).
Proof. intros H row q Hin. apply In_directChildrenOf in Hin as [Hin _]. now apply H. Qed.

(** ** The fallback parse of [summarize] *)

(** Reading a plain object after an assignment. *)
Lemma lookup_setProperty_ne {A : Type} (f k : string) (v : A) (obj : gmap string A) :
  f <> k -> Js.setProperty f v obj !! k = obj !! k.
Proof.
  intros Hne. unfold Js.setProperty. destruct (f =? Js.PROTO); [reflexivity|].
  now rewrite lookup_insert_ne.
Qed.

Lemma lookup_setProperty_eq {A : Type} (f : string) (v : A) (obj : gmap string A) :
  f <> Js.PROTO -> Js.setProperty f v obj !! f = Some v.
Proof.
  intros Hne. unfold Js.setProperty.
  destruct (String.eqb_spec f Js.PROTO) as [->|_]; [congruence|].
  now rewrite lookup_insert_eq.
Qed.

Lemma lookup_setProperty {A : Type} (f k : string) (v x : A) (obj : gmap string A) :
  Js.setProperty f v obj !! k = Some x ->
  (k = f /\ x = v /\ f <> Js.PROTO) \/ obj !! k = Some x.
Proof.
  unfold Js.setProperty. destruct (String.eqb_spec f Js.PROTO) as [->|Hne]; [now right|].
  destruct (decide (f = k)) as [<-|Hk].
  - rewrite lookup_insert_eq. intros E. injection E as <-. now left.
  - rewrite lookup_insert_ne by exact Hk. now right.
Qed.

Lemma setItemField_other (f v : string) (m : MappedRow) :
  f <> "itemid" ->
  m_itemFields (setItemField f v m) !! "itemid" = m_itemFields m !! "itemid".
Proof.
  intros Hne. unfold setItemField. cbn [m_itemFields]. now rewrite lookup_setProperty_ne.
Qed.

(** One mapped cell keeps the two parses in step. *)
Lemma mapCell_sameCore (fieldName value : string) (m m' : MappedRow) :
  sameCore m m' ->
  sameCore (mapCell fieldName value m) (mapCell_reparse fieldName value m').
Proof.
  intros (Hn & Hh & Hq & Hi). unfold mapCell, mapCell_reparse.
  destruct (negb (Js.truthy (Js.trim value))); [now repeat split|].
  destruct (String.eqb_spec fieldName "hierarchy") as [->|Hh'].
  { now repeat split. }
  destruct (String.eqb_spec fieldName "quantity") as [->|Hq'].
  { now repeat split. }
  destruct (String.eqb_spec fieldName "memo") as [->|Hm'].
  { now repeat split. }
  destruct (String.eqb_spec fieldName "vendor") as [->|Hv'].
  { now repeat split. }
  destruct (String.eqb_spec fieldName "displayname") as [->|Hd'].
  { repeat split; try assumption. cbn [String.eqb Ascii.eqb Bool.eqb].
    now rewrite !setItemField_other by discriminate. }
  destruct (String.eqb_spec fieldName "itemid") as [->|Hi'].
  - repeat split; try assumption. unfold setItemField. cbn [m_itemFields].
    now rewrite !lookup_setProperty_eq by discriminate.
  - repeat split; try assumption. now rewrite setItemField_other.
Qed.

Lemma mapRow_sameCore (maps : list (nat * string)) (raw : RawRow) :
  sameCore (mapRowWith mapCell maps raw) (mapRowWith mapCell_reparse maps raw).
Proof.
  unfold mapRowWith.
  assert (H : sameCore (newMapped (rowNumber raw)) (newMapped (rowNumber raw)))
    by now repeat split.
  revert H. generalize (newMapped (rowNumber raw)) at 1 3.
  generalize (newMapped (rowNumber raw)).
  induction maps as [|[col f] maps IH]; intros m' m H; [exact H|].
  cbn [fold_left]. apply IH. now apply mapCell_sameCore.
Qed.

Lemma keepMapped_sameCore (m m' : MappedRow) :
  sameCore m m' ->
  coreOf <$> keepMapped m = coreOf <$> keepMapped m'.
Proof.
  intros (Hn & Hh & Hq & Hi). unfold keepMapped. rewrite <- Hh, <- Hi.
  destruct (m_hierarchy m) as [h|]; [|reflexivity].
  destruct (m_itemFields m !! "itemid") as [i|] eqn:Ei; [|reflexivity].
  destruct (Js.truthy h && Js.truthy i)%bool; [|reflexivity].
  cbn. unfold coreOf. cbn. now rewrite Hn, Hq, Ei, <- Hi.
Qed.

Lemma mappedRows_core (maps : list (nat * string)) (raws : list RawRow) :
  List.map coreOf (mappedRows mapCell_reparse maps raws)
  = List.map coreOf (mappedRows mapCell maps raws).
Proof.
  unfold mappedRows. induction raws as [|raw raws IH]; [reflexivity|].
  cbn [omap list_omap].
  pose proof (keepMapped_sameCore _ _ (mapRow_sameCore maps raw)) as H.
  destruct (keepMapped (mapRowWith mapCell maps raw)) as [r|],
           (keepMapped (mapRowWith mapCell_reparse maps raw)) as [r'|];
    cbn [fmap option_fmap option_map] in H; try discriminate H.
  - assert (Hc : coreOf r = coreOf r') by congruence.
    cbn [List.map]. now rewrite IH, Hc.
  - exact IH.
Qed.

Lemma core_hierarchies (rows rows' : list Row) :
  List.map coreOf rows = List.map coreOf rows' ->
  List.map hierarchy rows = List.map hierarchy rows'.
Proof.
  revert rows'. induction rows as [|r rows IH]; intros [|r' rows'] H;
    try discriminate H; [reflexivity|].
  cbn in H. injection H as _ Hh _ _ _ _ Hrest. cbn. now rewrite Hh, (IH _ Hrest).
Qed.

(** The two classifying loops give the same kinds and parents. *)
Lemma classify_core (hierarchySet : list string) (rows rows' : list Row) :
  forall inventoryIndex,
    List.map coreOf rows' = List.map coreOf rows ->
    List.map coreOf
      (List.map (fun row =>
         mkRow (r_rowNumber row) (hierarchy row) (itemFields row) (quantity row)
               (memo row) (vendorName row) (hasDescendant hierarchySet (hierarchy row))
               None None (parentOf (hierarchy row))) rows')
    = List.map coreOf (classify_loop hierarchySet inventoryIndex rows).
Proof.
  revert rows'. induction rows as [|r rows IH]; intros [|r' rows'] inventoryIndex H;
    try discriminate H; [reflexivity|].
  cbn in H. injection H as Hn Hh Hi Hq _ _ Hrest.
  cbn [List.map classify_loop]. f_equal; [|now apply IH].
  unfold coreOf. cbn. congruence.
Qed.

Lemma reParse_core (maps : list (nat * string)) (csvContent : string) :
  List.map coreOf (reParseCSVForSummarize maps csvContent)
  = List.map coreOf (inputRows maps (csvLines csvContent)).
Proof.
  unfold reParseCSVForSummarize, inputRows, classify, classify_reparse.
  pose proof (mappedRows_core maps (dataRows (csvLines csvContent))) as H.
  unfold hierarchySetOf. rewrite (core_hierarchies _ _ H).
  now apply classify_core.
Qed.

(** *** [summarize] reads nothing else of a row *)

Lemma core_itemid (r r' : Row) : coreOf r = coreOf r' -> itemid r = itemid r'.
Proof. unfold coreOf, itemid. intros H. injection H as _ _ Hi _ _ _. now rewrite Hi. Qed.

Lemma core_filter (p : Row -> bool) (rows rows' : list Row) :
  (forall r r', coreOf r = coreOf r' -> p r = p r') ->
  List.map coreOf rows = List.map coreOf rows' ->
  List.map coreOf (List.filter p rows) = List.map coreOf (List.filter p rows').
Proof.
  intros Hp. revert rows'. induction rows as [|r rows IH]; intros [|r' rows'] H;
    try discriminate H; [reflexivity|].
  cbn in H. injection H as Hn Hh Hi Hq Ha Hpar Hrest.
  assert (Hc : coreOf r = coreOf r') by (unfold coreOf; congruence).
  cbn [List.filter]. rewrite (Hp _ _ Hc).
  destruct (p r'); cbn [List.map]; rewrite (IH _ Hrest); [now rewrite Hc | reflexivity].
Qed.

Lemma core_componentsOf (ns : string) (s : Store) (children children' : list Row) :
  List.map coreOf children = List.map coreOf children' ->
  componentsOf ns children s = componentsOf ns children' s.
Proof.
  revert children'. induction children as [|r rows IH]; intros [|r' rows'] H;
    try discriminate H; [reflexivity|].
  cbn in H. injection H as Hn Hh Hi Hq Ha Hpar Hrest.
  unfold componentsOf in *. cbn [omap list_omap].
  assert (Hid : itemid r = itemid r') by (unfold itemid; now rewrite Hi).
  assert (Hcq : componentQuantity r = componentQuantity r')
    by (unfold componentQuantity; now rewrite Hq).
  rewrite Hid, Hcq, (IH _ Hrest). reflexivity.
Qed.

Lemma core_summarizeAssembly (ns : string) (d : Defaults) (rows rows' : list Row)
    (a a' : Row) (acc : SummaryStats * Store) :
  List.map coreOf rows = List.map coreOf rows' ->
  coreOf a = coreOf a' ->
  summarizeAssembly ns d rows a acc = summarizeAssembly ns d rows' a' acc.
Proof.
  intros Hrows Ha. unfold summarizeAssembly. destruct acc as [st s].
  rewrite (core_itemid _ _ Ha).
  assert (Hh : hierarchy a = hierarchy a') by (unfold coreOf in Ha; congruence).
  assert (Hch : List.map coreOf (directChildrenOf rows (hierarchy a))
                = List.map coreOf (directChildrenOf rows' (hierarchy a'))).
  { rewrite Hh. apply core_filter; [|exact Hrows].
    intros r r' Hr. unfold coreOf in Hr. injection Hr as _ _ _ _ _ Hp. now rewrite Hp. }
  rewrite (core_componentsOf ns s _ _ Hch).
  apply (f_equal (@length _)) in Hch. rewrite !length_map in Hch. now rewrite Hch.
Qed.

Lemma core_summarizeRows (ns : string) (d : Defaults) (rows rows' : list Row) (s : Store) :
  List.map coreOf rows = List.map coreOf rows' ->
  summarizeRows ns d rows s = summarizeRows ns d rows' s.
Proof.
  intros Hrows. unfold summarizeRows.
  assert (Hf : List.map coreOf (List.filter isAssembly rows)
               = List.map coreOf (List.filter isAssembly rows')).
  { apply core_filter; [|exact Hrows].
    intros r r' Hr. unfold coreOf in Hr. congruence. }
  revert Hf. generalize (noSummaryStats, s).
  generalize (List.filter isAssembly rows') as l'.
  induction (List.filter isAssembly rows) as [|a l IH]; intros [|a' l'] acc Hf;
    try discriminate Hf; [reflexivity|].
  cbn in Hf. injection Hf as Hn Hh Hi Hq Ha Hpar Hrest.
  cbn [fold_left].
  rewrite (core_summarizeAssembly ns d rows rows' a a' acc Hrows)
    by (unfold coreOf; congruence).
  now apply IH.
Qed.

Lemma core_truthy (rows rows' : list Row) :
  List.map coreOf rows = List.map coreOf rows' ->
  truthyQuantities rows' -> truthyQuantities rows.
Proof.
  intros Hcore H row q Hin Hq.
  apply (in_map coreOf) in Hin. rewrite Hcore in Hin.
  apply in_map_iff in Hin as (row' & Hc & Hin').
  apply (H row' q Hin'). unfold coreOf in Hc. congruence.
Qed.

Lemma reParse_truthy (maps : list (nat * string)) (csvContent : string) :
  truthyQuantities (reParseCSVForSummarize maps csvContent).
Proof. apply (core_truthy _ _ (reParse_core maps csvContent)), inputRows_truthy. Qed.

(** What the JSON text of a row keeps of a quantity that is neither zero
    nor [NaN]. *)
Lemma jsonRow_quantity (rows : list Row) (r : Row) (q : jsnum) :
  truthyQuantities rows -> In r rows -> quantity r = Some q ->
  quantity (jsonRow r) = if num_finite q then Some q else None.
Proof.
  intros H Hin Hq. cbn. rewrite Hq. cbn.
  pose proof (H r q Hin Hq) as Ht. now destruct q.
Qed.

Lemma jsonRow_core (rows : list Row) :
  truthyQuantities rows -> finiteQuantities rows ->
  List.map coreOf (List.map jsonRow rows) = List.map coreOf rows.
Proof.
  intros Ht Hf. rewrite List.map_map. apply map_ext_in. intros r Hin.
  unfold coreOf. cbn [r_rowNumber hierarchy itemFields quantity isAssembly
                      parentHierarchy jsonRow].
  destruct (quantity r) as [q|] eqn:Hq; [|reflexivity].
  pose proof (Ht r q Hin Hq). pose proof (Hf r q Hin Hq). now destruct q.
Qed.

(** C9, as the code has it.  A non-blank cell mapped to [quantity] is
    stored as the binary64 number [parseFloat] reads from it, with 1 in its
    place when it reads no number or reads a zero: [abc] and [1e-400] are
    stored as 1, [1e400] as [Infinity].  Every row of the row list has the
    quantity of its own data row, the one with its row number: that of the
    last non-blank cell of that row in a column mapped to [quantity], and
    none when there is no such cell.  The JSON text of a row keeps its
    quantity unless it is infinite, and then holds none.  In the rows
    [summarize] works on, from the cache or parsed again, a component
    carries its child row's quantity, or 1 when the child row has none; and
    the lines of a new revision carry, item and quantity, the components
    whose commit is not refused. *)
Theorem quantity_parsed_with_default (maps : list (nat * string)) (lines : list string)
    (csvContent value : string) (m : MappedRow) (ns key : string) (s : Store)
    (bomId : positive) (assemblyItemId : string) (components : list Component) :
  Js.truthy (Js.trim value) = true ->
  m_quantity (mapCell "quantity" value m) = Some (quantityOf value)
  /\ (quantityOf "2.5" = S754_finite false 5629499534213120 (-51)
      /\ quantityOf "abc" = JOne
      /\ quantityOf "1e-400" = JOne
      /\ quantityOf "1e400" = S754_infinity false)
  /\ (forall row, In row (inputRows maps lines) ->
        exists raw, In raw (dataRows lines)
          /\ rowNumber raw = r_rowNumber row
          /\ (forall raw', In raw' (dataRows lines) ->
                rowNumber raw' = r_rowNumber row -> raw' = raw)
          /\ quantity row = storedQuantity maps (cells raw))
  /\ (forall row q, In row (inputRows maps lines) -> quantity row = Some q ->
        quantity (jsonRow row) = if num_finite q then Some q else None)
  /\ (forall allRows,
        allRows = List.map jsonRow (inputRows maps lines)
        \/ allRows = reParseCSVForSummarize maps csvContent ->
        componentsOf ns (directChildrenOf allRows key) s
        = omap (componentOf ns s) (directChildrenOf allRows key))
  /\ (forall s', createOrGetBOMRevision bomId assemblyItemId components ns s
                 = (mkRevisionResult (Some (idOf (length (revisions s)))) true false, s') ->
        exists rev, revisions s' = (revisions s ++ [rev])%list
          /\ rev_components rev
             = List.map (fun c => (c_internalId c, c_quantity c))
                 (List.filter
                    (fun c => negb (refuses s (CommitComponent (c_internalId c) (c_quantity c))))
                    components)).
Proof.
  intros Hvalue.
  split; [rewrite mapCell_quantity, Hvalue; reflexivity|].
  split; [repeat split; vm_compute; reflexivity|].
  split.
  { intros row Hin. destruct (inputRows_quantity _ _ _ Hin) as (raw & Hraw & Hn & Hq).
    exists raw. repeat split; try assumption.
    intros raw' Hraw' Hn'. apply (dataRows_number_inj lines); [assumption..|congruence]. }
  split.
  { intros row q. apply jsonRow_quantity, inputRows_truthy. }
  split.
  { intros allRows [->| ->]; apply componentsOf_default, truthyQuantities_children.
    - apply jsonRow_truthy, inputRows_truthy.
    - apply reParse_truthy. }
  intros s' E. unfold createOrGetBOMRevision in E.
  destruct (findBOMRevisionByExternalId _ s); [discriminate E|].
  destruct (refuses s (SaveRevision _)); [discriminate E|].
  injection E as <-. eexists. split; reflexivity.
Qed.

Lemma quantity_parsed_with_default_witness :
  let maps := [(0, "hierarchy"); (1, "itemid"); (2, "quantity")] in
  let lines := ["h,i,q"; "1,A,"; "1.1,B,2.5"] in
  let s := snd (reduce (mkContext (Some "N") None None ∅) (inputRows maps lines) emptyStore) in
  m_quantity (mapCell "quantity" "2.5" (newMapped 3))
  = Some (S754_finite false 5629499534213120 (-51))
  /\ List.map c_quantity
       (componentsOf "N" (directChildrenOf (List.map jsonRow (inputRows maps lines)) "1") s)
     = [S754_finite false 5629499534213120 (-51)].
Proof.
  intros maps lines s.
  destruct (quantity_parsed_with_default maps lines EmptyString "2.5" (newMapped 3) "N" "1" s
              1%positive "A" [] eq_refl) as (H & _ & _ & _ & Hc & _).
  split; [exact H|]. rewrite (Hc _ (or_introl eq_refl)). vm_compute. reflexivity.
Defined.

(** C9, as the specification words it, fails: the cell [0] parses to the
    number zero, which is no parse failure, and 1 is stored. *)
Lemma quantity_counterexample :
  parseFloat "0" = S754_zero false
  /\ List.map quantity
       (inputRows [(0, "hierarchy"); (1, "itemid"); (2, "quantity")] ["h,i,q"; "1,A,0"])
     = [Some JOne].
Proof. split; vm_compute; reflexivity. Qed.

(** C10, as the code has it.  On every CSV content and column mapping the
    fallback parse and the parse of [getInputData] agree, row for row, on row
    number, hierarchy key, item id, quantity, kind and parent key, and
    [summarize] reads nothing else of a row.  The cache holds the rows as
    JSON text, which keeps every quantity but an infinite one, for which it
    holds none.  So when no quantity is infinite [summarize] does the same
    from a given store whether it reads the rows from the cache or parses
    the file again. *)
Theorem reparse_agrees_with_input (env : Env) (s0 s1 s : Store) (rows : list Row)
    (ctx : Context) (maps : list (nat * string)) (csvContent : string) :
  getInputData env s0 = (Returned (rows, ctx), s1) ->
  finiteQuantities rows ->
  List.map coreOf (reParseCSVForSummarize maps csvContent)
    = List.map coreOf (inputRows maps (csvLines csvContent))
  /\ (forall row q, In row rows -> quantity row = Some q ->
        quantity (jsonRow row) = if num_finite q then Some q else None)
  /\ List.map coreOf (List.map jsonRow rows) = List.map coreOf rows
  /\ summarize env None s = summarize env (Some rows) s.
Proof.
  intros Hget Hfinite. split; [apply reParse_core|].
  unfold getInputData in Hget. unfold summarize.
  destruct (scriptParameter env) as [configFileId|]; [|discriminate Hget].
  cbn [mbind option_bind].
  destruct (configFiles env !! configFileId) as [config|]; [|discriminate Hget].
  destruct (if setupMRP (applyDefaults config) then _ else _) as [cat sa].
  destruct (if createVendors (applyDefaults config) then _ else _) as [vc sb].
  destruct (csvFiles env !! csvFileId config) as [content|]; [|discriminate Hget].
  destruct (Nat.ltb _ 2); [discriminate Hget|].
  assert (Htruthy : truthyQuantities rows).
  { destruct (mappings config) as [ms|].
    - injection Hget as <- _ _. apply inputRows_truthy.
    - destruct (dataRows (csvLines content)); [|discriminate Hget].
      injection Hget as <- _ _. intros row q []. }
  split; [intros row q; now apply jsonRow_quantity|].
  split; [now apply jsonRow_core|].
  cbn [mbind option_bind]. unfold reParse.
  destruct (mappings config) as [ms|].
  - injection Hget as <- _ _.
    transitivity (summarizeRows (strOf (prospectName config))
                    (default DEFAULT_CONFIG (defaults config))
                    (inputRows ms (csvLines content)) s).
    + apply core_summarizeRows, reParse_core.
    + symmetry. apply core_summarizeRows. now apply jsonRow_core.
  - destruct (dataRows (csvLines content)); [|discriminate Hget].
    now injection Hget as <- _ _.
Qed.

Lemma reparse_agrees_with_input_witness :
  let env := sampleEnv (Some "ACME") sampleCsv in
  let run := getInputData env emptyStore in
  let s := snd (reduce (mkContext (Some "ACME") None None ∅)
                       (inputRows sampleMappings (csvLines sampleCsv)) (snd run)) in
  summarize env None s
  = summarize env (Some (inputRows sampleMappings (csvLines sampleCsv))) s.
Proof.
  intros env run s.
  refine (proj2 (proj2 (proj2 (reparse_agrees_with_input env emptyStore (snd run) s
                   (inputRows sampleMappings (csvLines sampleCsv))
                   (mkContext (Some "ACME") (Some DEFAULT_CONFIG) (Some 1%positive) ∅)
                   sampleMappings sampleCsv _ _)))).
  - vm_compute. reflexivity.
  - intros row q Hin. vm_compute in Hin.
    repeat (destruct Hin as [<-|Hin]; [cbn; intros E; injection E as <-; reflexivity|]);
      try (destruct Hin as [<-|Hin]; [cbn; discriminate|]); destruct Hin.
Defined.

(** C10, as the specification words it, fails: a quantity cell [1e400] is
    read as [Infinity] when [summarize] parses the file again, and the
    component gets it; the cache holds no quantity for the row, and the
    component gets 1. *)
Lemma cache_counterexample :
  let env := sampleEnv (Some "ACME")
               (Js.join (String Js.LF EmptyString) ["h,i,q"; "1,A,1"; "1.1,B,1e400"]) in
  exists rows ctx s1,
    getInputData env emptyStore = (Returned (rows, ctx), s1)
    /\ let s := snd (reducePhase ctx (List.map jsonRow rows) s1) in
       List.map rev_components (revisions (snd (summarize env None s)))
       = [[(1%positive, S754_infinity false)]]
       /\ List.map rev_components (revisions (snd (summarize env (Some rows) s)))
          = [[(1%positive, JOne)]].
Proof.
  intros env. eexists _, _, _. split; [vm_compute; reflexivity|].
  split; vm_compute; reflexivity.
Qed.

(** ** Linking a BOM to its assembly *)

Lemma findLinkLine_Some (bomId : positive) (lines : list BomLink) :
  forall i j l,
    findLinkLine bomId i lines = Some (j, l) ->
    exists k, j = i + k /\ lines !! k = Some l /\ bl_bom l = bomId.
Proof.
  induction lines as [|x lines IH]; intros i j l H; [discriminate H|].
  cbn [findLinkLine] in H. destruct (Pos.eqb (bl_bom x) bomId) eqn:E.
  - injection H as <- <-. exists 0. apply Pos.eqb_eq in E.
    repeat split; [lia | exact E].
  - apply IH in H as (k & -> & Hk & Hb). exists (S k). repeat split; [lia | exact Hk | exact Hb].
Qed.

Lemma findLinkLine_None (bomId : positive) (lines : list BomLink) :
  forall i, findLinkLine bomId i lines = None ->
            forall l, In l lines -> bl_bom l <> bomId.
Proof.
  induction lines as [|x lines IH]; intros i H l Hin; [destruct Hin|].
  cbn [findLinkLine] in H. destruct (Pos.eqb (bl_bom x) bomId) eqn:E; [discriminate H|].
  destruct Hin as [<-|Hin]; [now apply Pos.eqb_neq | now apply (IH (S i))].
Qed.

Lemma findLinkLine_absent (bomId : positive) (lines : list BomLink) :
  (forall l, In l lines -> bl_bom l <> bomId) ->
  forall i, findLinkLine bomId i lines = None.
Proof.
  induction lines as [|x lines IH]; intros H i; [reflexivity|].
  cbn [findLinkLine]. destruct (Pos.eqb (bl_bom x) bomId) eqn:E.
  - apply Pos.eqb_eq in E. exfalso. apply (H x); [now left | exact E].
  - apply IH. intros l Hl. apply H. now right.
Qed.

(** With one line per BOM, a line is determined by its BOM. *)
Lemma unique_line (lines : list BomLink) (x y : BomLink) :
  NoDup (List.map bl_bom lines) -> In x lines -> In y lines ->
  bl_bom x = bl_bom y -> x = y.
Proof.
  induction lines as [|z lines IH]; intros Hnd Hx Hy E; [destruct Hx|].
  cbn in Hnd. apply NoDup_cons in Hnd as [Hz Hnd].
  rewrite list_elem_of_In in Hz.
  destruct Hx as [<-|Hx], Hy as [<-|Hy]; [reflexivity | | | now apply IH].
  - exfalso. apply Hz. rewrite E. now apply in_map.
  - exfalso. apply Hz. rewrite <- E. now apply in_map.
Qed.

(** The edit keeps one line per BOM. *)
Lemma linkEdit_unique (bomId : positive) (lines lines' : list BomLink) :
  NoDup (List.map bl_bom lines) ->
  linkEdit bomId lines = Some lines' ->
  NoDup (List.map bl_bom lines').
Proof.
  intros Hnd. unfold linkEdit.
  destruct (findLinkLine bomId 0 lines) as [[j l]|] eqn:Ef.
  - apply findLinkLine_Some in Ef as (k & -> & Hk & Hb).
    destruct (bl_masterdefault l); [discriminate|].
    intros E. injection E as <-. cbn [Nat.add].
    change (List.map bl_bom (<[k:=mkBomLink (bl_bom l) true]> lines))
      with (bl_bom <$> <[k:=mkBomLink (bl_bom l) true]> lines).
    rewrite list_fmap_insert. cbn [bl_bom].
    rewrite list_insert_id; [exact Hnd|].
    now rewrite list_lookup_fmap, Hk.
  - intros E. injection E as <-. rewrite map_app. cbn [List.map bl_bom].
    apply NoDup_app. repeat split; [exact Hnd | | apply NoDup_singleton].
    intros b Hb Hb'. apply list_elem_of_singleton in Hb'. subst b.
    apply list_elem_of_In, in_map_iff in Hb as (l & Hl & Hin).
    now apply (findLinkLine_None _ _ _ Ef l Hin).
Qed.

Lemma loadItem_lookup (ty : option RecordType) (id : positive) (s : Store) (it : Item) :
  loadItem ty id s = Some it -> items s !! indexOf id = Some it.
Proof.
  unfold loadItem. destruct ty; [|discriminate].
  destruct (items s !! indexOf id) as [x|]; [|discriminate].
  destruct (RecordType_eqb _ _); [congruence | discriminate].
Qed.

Lemma linksOf_saved (id : positive) (s : Store) (it : Item) (lines : list BomLink) :
  items s !! indexOf id = Some it ->
  linksOf id (withItems (fun t => <[indexOf id := setItemBoms it lines]> t) s) = lines.
Proof.
  intros H. unfold linksOf. cbn.
  rewrite list_lookup_insert_eq; [reflexivity|].
  apply lookup_lt_Some in H. exact H.
Qed.

(** When the record cannot be loaded or saved, nothing is linked. *)
Lemma ensureBOMLinkedToAssembly_failure (assemblyId bomId : positive) (s : Store) :
  loadItem (Some assemblyitem) assemblyId s = None
  \/ refuses s (SaveLink assemblyId bomId) = true ->
  ensureBOMLinkedToAssembly assemblyId bomId s = (false, s).
Proof.
  unfold ensureBOMLinkedToAssembly. intros [H|H].
  - now rewrite H.
  - destruct (loadItem _ _ s); [|reflexivity].
    destruct (linkEdit _ _); [|reflexivity]. now rewrite H.
Qed.

(** The operation keeps one line per BOM on every item. *)
Lemma ensureBOMLinkedToAssembly_unique (assemblyId bomId : positive) (s : Store) :
  linksUnique s -> linksUnique (snd (ensureBOMLinkedToAssembly assemblyId bomId s)).
Proof.
  intros Hu. unfold ensureBOMLinkedToAssembly.
  destruct (loadItem (Some assemblyitem) assemblyId s) as [rec|] eqn:El; [|exact Hu].
  destruct (linkEdit bomId (it_boms rec)) as [lines|] eqn:Ee; [|exact Hu].
  destruct (refuses s (SaveLink assemblyId bomId)); [exact Hu|].
  apply loadItem_lookup in El. unfold linksUnique in *. cbn.
  apply Forall_insert; [exact Hu|]. cbn.
  apply (linkEdit_unique bomId (it_boms rec)); [|exact Ee].
  rewrite Forall_lookup in Hu. now apply (Hu _ _ El).
Qed.

(** C5.  In a store with at most one link line per assembly and BOM, for
    an assembly record that loads and saves: a line of the BOM with the
    master-default flag leaves the store as it is and [false] is returned; a
    line without the flag gets the flag in place, no line is added, and
    [true] is returned; with no line of the BOM one flagged line is appended
    and [true] is returned.  Afterwards the store still has at most one
    line per assembly and BOM. *)
Theorem link_reconciliation (s : Store) (assemblyId bomId : positive) (assemblyRec : Item) :
  loadItem (Some assemblyitem) assemblyId s = Some assemblyRec ->
  refuses s (SaveLink assemblyId bomId) = false ->
  linksUnique s ->
  let lines := it_boms assemblyRec in
  let updated := fst (ensureBOMLinkedToAssembly assemblyId bomId s) in
  let s' := snd (ensureBOMLinkedToAssembly assemblyId bomId s) in
  (In (mkBomLink bomId true) lines -> updated = false /\ s' = s)
  /\ (In (mkBomLink bomId false) lines ->
        updated = true
        /\ exists i, lines !! i = Some (mkBomLink bomId false)
             /\ linksOf assemblyId s' = <[i := mkBomLink bomId true]> lines)
  /\ ((forall l, In l lines -> bl_bom l <> bomId) ->
        updated = true /\ linksOf assemblyId s' = (lines ++ [mkBomLink bomId true])%list)
  /\ linksUnique s'
  /\ length (List.filter (fun l => Pos.eqb (bl_bom l) bomId) (linksOf assemblyId s')) <= 1.
Proof.
  intros Hload Hsave Hu lines updated s'.
  pose proof (loadItem_lookup _ _ _ _ Hload) as Hitem.
  assert (Hnd : NoDup (List.map bl_bom lines)).
  { unfold linksUnique in Hu. rewrite Forall_lookup in Hu. now apply (Hu _ _ Hitem). }
  assert (Hlines : linksOf assemblyId s = lines) by (unfold linksOf; now rewrite Hitem).
  assert (Hu' : linksUnique s') by now apply ensureBOMLinkedToAssembly_unique.
  assert (Hunique : NoDup (List.map bl_bom (linksOf assemblyId s'))).
  { unfold linksOf. destruct (items s' !! indexOf assemblyId) as [it|] eqn:Ei; [|constructor].
    unfold linksUnique in Hu'. rewrite Forall_lookup in Hu'. now apply (Hu' _ _ Ei). }
  split; [|split; [|split; [|split]]]; [| | |exact Hu'|].
  - intros Hin. subst updated s'. unfold ensureBOMLinkedToAssembly, linkEdit.
    rewrite Hload. fold lines.
    destruct (findLinkLine bomId 0 lines) as [[j l]|] eqn:Ef.
    + apply findLinkLine_Some in Ef as (k & -> & Hk & Hb).
      assert (l = mkBomLink bomId true) as ->.
      { apply (unique_line lines); [exact Hnd | | exact Hin | exact Hb].
        apply list_elem_of_In, list_elem_of_lookup. now exists k. }
      cbn. now split.
    + exfalso. now apply (findLinkLine_None _ _ _ Ef _ Hin).
  - intros Hin. subst updated s'. unfold ensureBOMLinkedToAssembly, linkEdit.
    rewrite Hload. fold lines.
    destruct (findLinkLine bomId 0 lines) as [[j l]|] eqn:Ef.
    + apply findLinkLine_Some in Ef as (k & -> & Hk & Hb).
      assert (l = mkBomLink bomId false) as ->.
      { apply (unique_line lines); [exact Hnd | | exact Hin | exact Hb].
        apply list_elem_of_In, list_elem_of_lookup. now exists k. }
      cbn [bl_masterdefault bl_bom Nat.add]. rewrite Hsave. cbn [fst snd].
      split; [reflexivity|]. exists k. split; [exact Hk|].
      now apply linksOf_saved.
    + exfalso. now apply (findLinkLine_None _ _ _ Ef _ Hin).
  - intros Hnone. subst updated s'. unfold ensureBOMLinkedToAssembly, linkEdit.
    rewrite Hload. fold lines. rewrite (findLinkLine_absent _ _ Hnone).
    rewrite Hsave. cbn [fst snd]. split; [reflexivity|]. now apply linksOf_saved.
  - clear -Hunique. induction (linksOf assemblyId s') as [|x l IH]; [cbn; lia|].
    cbn in Hunique. apply NoDup_cons in Hunique as [Hx Hl].
    cbn [List.filter]. destruct (Pos.eqb (bl_bom x) bomId) eqn:E; [|now apply IH].
    apply Pos.eqb_eq in E. cbn [length].
    assert (List.filter (fun l0 => Pos.eqb (bl_bom l0) bomId) l = []) as ->; [|cbn; lia].
    destruct (List.filter _ l) as [|y ys] eqn:Ef; [reflexivity|]. exfalso.
    assert (Hy : In y (List.filter (fun l0 => Pos.eqb (bl_bom l0) bomId) l))
      by (rewrite Ef; now left).
    apply filter_In in Hy as [Hy Hb]. apply Pos.eqb_eq in Hb.
    apply Hx. rewrite E, <- Hb. now apply list_elem_of_In, in_map.
Qed.

Lemma link_reconciliation_witness :
  let rec := mkItem assemblyitem "N_A" ∅ None None [] [mkBomLink 3%positive false] in
  let s := withItems (fun _ => [rec]) emptyStore in
  ensureBOMLinkedToAssembly 1%positive 3%positive s
  = (true, withItems (fun _ => [setItemBoms rec [mkBomLink 3%positive true]]) emptyStore).
Proof.
  intros rec s.
  assert (Hu : linksUnique s).
  { unfold linksUnique. cbn. repeat constructor. intros H. inversion H. }
  destruct (link_reconciliation s 1%positive 3%positive rec eq_refl eq_refl Hu)
    as (_ & H & _).
  destruct (H (or_introl eq_refl)) as [Hup _].
  rewrite (surjective_pairing (ensureBOMLinkedToAssembly 1%positive 3%positive s)).
  fold rec s in Hup. rewrite Hup. vm_compute. reflexivity.
Defined.

(** ** The structure stage, one assembly at a time *)

Lemma componentsOf_none (ns : string) (children : list Row) (s : Store) :
  (forall child, In child children ->
     findItemByExternalId (itemExternalId ns (itemid child)) s = None) ->
  componentsOf ns children s = [].
Proof.
  unfold componentsOf. induction children as [|c children IH]; intros H; [reflexivity|].
  cbn [omap list_omap]. rewrite (H c) by now left.
  apply IH. intros child Hin. apply H. now right.
Qed.

(** C4, as the code has it.  An assembly row whose own item is found: with
    no direct child in the row list it is skipped, counters and store
    untouched; with direct children of which none is found it is counted as
    a failed BOM and nothing is written, so no structure gets a component.
    An assembly row whose own item is not found is counted as a failed BOM
    whatever its children. *)
Theorem structure_step_outcomes (ns : string) (d : Defaults) (allRows : list Row)
    (assembly : Row) (st : SummaryStats) (s : Store) (assemblyInternalId : positive) :
  findItemByExternalId (itemExternalId ns (itemid assembly)) s = Some assemblyInternalId ->
  (directChildrenOf allRows (hierarchy assembly) = [] ->
     summarizeAssembly ns d allRows assembly (st, s) = (st, s))
  /\ (directChildrenOf allRows (hierarchy assembly) <> [] ->
      (forall child, In child (directChildrenOf allRows (hierarchy assembly)) ->
         findItemByExternalId (itemExternalId ns (itemid child)) s = None) ->
      summarizeAssembly ns d allRows assembly (st, s) = (bomFailure st, s))
  /\ (forall s0, findItemByExternalId (itemExternalId ns (itemid assembly)) s0 = None ->
        summarizeAssembly ns d allRows assembly (st, s0) = (bomFailure st, s0))
  /\ bomsFailed (bomFailure st) = S (bomsFailed st).
Proof.
  intros Hown. repeat split.
  - intros Hnone. unfold summarizeAssembly. now rewrite Hown, Hnone.
  - intros Hsome Hunresolved. unfold summarizeAssembly. rewrite Hown.
    destruct (directChildrenOf allRows (hierarchy assembly)) as [|c cs] eqn:Ec; [congruence|].
    cbn [length Nat.eqb]. now rewrite (componentsOf_none _ _ _ Hunresolved).
  - intros s0 Hnone. unfold summarizeAssembly. now rewrite Hnone.
Qed.

Lemma structure_step_outcomes_witness :
  let rows := inputRows sampleMappings ["h,i,q"; "1,A,"; "1.1.1,B,"; "2,C,"; "2.1,D,"] in
  let s := withItems (fun _ => [mkItem assemblyitem "N_A" ∅ None None [] [];
                                 mkItem assemblyitem "N_C" ∅ None None [] []]) emptyStore in
  summarizeRows "N" DEFAULT_CONFIG rows s
  = (mkSummaryStats 0 1 0 0 0, s).
Proof.
  intros rows s.
  pose (a := hd (mkRow 0 EmptyString ∅ None None None false None None None) rows).
  pose (c := nth 2 rows a).
  destruct (structure_step_outcomes "N" DEFAULT_CONFIG rows a noSummaryStats s 1%positive
              eq_refl) as (Hskip & _).
  destruct (structure_step_outcomes "N" DEFAULT_CONFIG rows c noSummaryStats s 2%positive
              eq_refl) as (_ & Hfail & _).
  unfold summarizeRows.
  change (List.filter isAssembly rows) with [a; c].
  cbn [fold_left]. rewrite (Hskip eq_refl). rewrite Hfail; [reflexivity | discriminate |].
  intros child Hin. vm_compute in Hin. destruct Hin as [<-|[]]. reflexivity.
Defined.

(** C4, as the specification words it, fails: an assembly row without a
    direct child in the row list is counted as a failure when its own item
    is not in the store, as in a run on a store that refuses every item. *)
Lemma structure_step_counterexample :
  let csvContent := Js.join (String Js.LF EmptyString) ["h,i,q"; "1,A,"; "1.1.1,B,"] in
  let rows := inputRows sampleMappings (csvLines csvContent) in
  let refusing :=
    mkStore [] [] [] [] [] []
            (fun op => match op with SaveItem _ _ => true | _ => false end) in
  List.map (fun r => (hierarchy r, isAssembly r)) rows = [("1", true); ("1.1.1", false)]
  /\ directChildrenOf rows "1" = []
  /\ summarizeRows "N" DEFAULT_CONFIG rows emptyStore = (mkSummaryStats 0 1 0 0 0, emptyStore)
  /\ fst (runPipeline (sampleEnv (Some "N") csvContent) true refusing)
     = Completed (mkReduceStats 0 0 1 0 0 0 0) (mkReduceStats 0 0 1 0 0 0 0)
                 (mkSummaryStats 0 1 0 0 0).
Proof. repeat split; vm_compute; reflexivity. Qed.

(** ** Fatal errors *)

Lemma createOrGetPlanningItemCategory_tables (name : option string) (s : Store) :
  recordTables (snd (createOrGetPlanningItemCategory name s)) = recordTables s.
Proof.
  unfold createOrGetPlanningItemCategory. destruct name as [n|]; [|reflexivity].
  destruct (findFirst _ n (categories s)); [reflexivity|].
  now destruct (refuses s (SaveCategory n)).
Qed.

Lemma createVendors_loop_tables (names : list string) :
  forall (vendorCache : gmap string positive) (s : Store),
    recordTables (snd (createVendors_loop names vendorCache s)) = recordTables s.
Proof.
  induction names as [|n names IH]; intros vendorCache s; [reflexivity|].
  cbn [createVendors_loop].
  destruct (findFirst _ n (vendors s)); [apply IH|].
  destruct (refuses s (SaveVendor n)); [apply IH|].
  now rewrite IH.
Qed.

Lemma createVendorsFromCSV_tables (env : Env) (csvFile : positive)
    (maps : option (list (nat * string))) (s : Store) :
  recordTables (snd (createVendorsFromCSV env csvFile maps s)) = recordTables s.
Proof.
  unfold createVendorsFromCSV. destruct (maps ≫= vendorColumn); [|reflexivity].
  destruct (csvFiles env !! csvFile); [|reflexivity].
  apply createVendors_loop_tables.
Qed.

(** [getInputData] writes no item, location, BOM or revision. *)
Lemma getInputData_tables (env : Env) (s : Store) :
  recordTables (snd (getInputData env s)) = recordTables s.
Proof.
  unfold getInputData.
  destruct (scriptParameter env) as [configFileId|]; [|reflexivity].
  destruct (configFiles env !! configFileId) as [config|]; [|reflexivity].
  destruct (if setupMRP (applyDefaults config) then _ else _) as [cat sa] eqn:Ea.
  destruct (if createVendors (applyDefaults config) then _ else _) as [vc sb] eqn:Eb.
  assert (Hb : recordTables sb = recordTables s).
  { transitivity (recordTables sa).
    - destruct (createVendors (applyDefaults config)).
      + rewrite <- (createVendorsFromCSV_tables env (csvFileId config) (mappings config) sa).
        now rewrite Eb.
      + now injection Eb as _ <-.
    - destruct (setupMRP (applyDefaults config)).
      + rewrite <- (createOrGetPlanningItemCategory_tables (prospectName config) s).
        now rewrite Ea.
      + now injection Ea as _ <-. }
  destruct (csvFiles env !! csvFileId config); [|exact Hb].
  destruct (Nat.ltb _ 2); [exact Hb|].
  destruct (mappings config); [exact Hb|].
  now destruct (dataRows _).
Qed.

Lemma getInputData_thrown (env : Env) (s : Store) :
  (exists message, fst (getInputData env s) = Thrown message) <-> inputMissing env.
Proof.
  unfold getInputData, inputMissing.
  destruct (scriptParameter env) as [configFileId|]; [|split; eauto].
  destruct (configFiles env !! configFileId) as [config|]; [|split; eauto].
  destruct (if setupMRP (applyDefaults config) then _ else _) as [cat sa].
  destruct (if createVendors (applyDefaults config) then _ else _) as [vc sb].
  destruct (csvFiles env !! csvFileId config) as [content|]; [|split; eauto].
  destruct (Nat.ltb_spec (length (csvLines content)) 2) as [Hlt|Hge]; cbn [fst].
  - split; eauto.
  - destruct (mappings config) as [maps|]; cbn [fst].
    + split; [intros [message E]; discriminate E|].
      intros [Hlt|[Hmaps _]]; [lia | discriminate Hmaps].
    + destruct (dataRows (csvLines content)) as [|raw more]; cbn [fst].
      * split; [intros [message E]; discriminate E|].
        intros [Hlt|[_ Hrows]]; [lia | congruence].
      * split; [|eauto]. intros _. right. split; [reflexivity | discriminate].
Qed.

(** C7, as the code has it.  [getInputData] throws exactly when the script
    parameter, the configuration file or the CSV file is missing, the CSV
    file has fewer than two lines that are not blank, or the configuration
    has no mappings while the file has a data row; whether the namespace is
    there plays no part.  When the parameter or the
    configuration file is missing the store is untouched; in every case no
    item, location, BOM or revision has been written when it throws.  A run
    aborts only when [getInputData] throws: failures on single rows are
    counted and the run completes. *)
Theorem fatal_only_on_missing_input (env : Env) (cacheHit : bool) (s : Store) :
  ((exists message, fst (getInputData env s) = Thrown message) <-> inputMissing env)
  /\ (scriptParameter env ≫= (fun configFileId => configFiles env !! configFileId) = None ->
        snd (getInputData env s) = s)
  /\ recordTables (snd (getInputData env s)) = recordTables s
  /\ ((exists message, fst (runPipeline env cacheHit s) = Aborted message)
      <-> inputMissing env).
Proof.
  split; [apply getInputData_thrown|].
  split; [|split; [apply getInputData_tables|]].
  - unfold getInputData. destruct (scriptParameter env) as [configFileId|]; [|reflexivity].
    cbn [mbind option_bind]. intros ->. reflexivity.
  - rewrite <- (getInputData_thrown env s). unfold runPipeline.
    destruct (getInputData env s) as [[[rows ctx]|message] s1]; cbn [fst].
    + destruct (reducePhase ctx _ s1) as [[st1 st2] s2].
      destruct (summarize env _ s2) as [st3 s3]. cbn [fst].
      split; intros [message E]; discriminate E.
    + split; intros _; eauto.
Qed.

(** C7, as the specification words it, fails: a configuration without a
    namespace aborts nothing; the abort for a file without a data line comes
    after the planning item category has been written; and so does the
    abort of a run whose configuration has no mappings. *)
Lemma fatal_counterexample :
  (exists st1 st2 st3,
     fst (runPipeline (sampleEnv None sampleCsv) true emptyStore) = Completed st1 st2 st3)
  /\ (exists message,
        fst (getInputData (sampleEnv (Some "ACME") "h,i,q") emptyStore) = Thrown message)
  /\ categories (snd (getInputData (sampleEnv (Some "ACME") "h,i,q") emptyStore)) = ["ACME"]
  /\ (let env := mkEnv (Some 5%positive)
                   {[ 5%positive := mkConfig (Some "ACME") 9%positive None None ]}
                   {[ 9%positive := sampleCsv ]} in
      fst (getInputData env emptyStore) = Thrown MAPPINGS_MISSING
      /\ categories (snd (getInputData env emptyStore)) = ["ACME"]).
Proof.
  split; [|split; [|split; [|split]]].
  - vm_compute. do 3 eexists. reflexivity.
  - vm_compute. eexists. reflexivity.
  - vm_compute. reflexivity.
  - vm_compute. reflexivity.
  - vm_compute. reflexivity.
Qed.

(** A store that refuses every write: every row fails, the run completes. *)
Example refusing_store_completes :
  fst (runPipeline (sampleEnv (Some "ACME") sampleCsv) true
         (mkStore [] [] [] [] [] [] (fun _ => true)))
  = Completed (mkReduceStats 0 0 2 0 0 0 0) (mkReduceStats 0 0 1 0 0 0 0)
              (mkSummaryStats 0 1 0 0 0).
Proof. vm_compute. reflexivity. Qed.

(** ** Idempotence of a run *)

(** *** Searches and shapes *)

Lemma indexOf_idOf (i : nat) : indexOf (idOf i) = i.
Proof. unfold indexOf, idOf. rewrite SuccNat2Pos.id_succ. reflexivity. Qed.

Lemma findFirst_from_keys {A B : Type} (key : A -> string) (key' : B -> string)
    (e : string) (t : list A) (t' : list B) :
  List.map key t = List.map key' t' ->
  forall i, findFirst_from key e i t = findFirst_from key' e i t'.
Proof.
  revert t'. induction t as [|x t IH]; intros [|y t'] H i; try discriminate H; [reflexivity|].
  cbn in H. injection H as Hx Ht. cbn [findFirst_from]. rewrite Hx.
  destruct (String.eqb (key' y) e); [reflexivity | now apply IH].
Qed.

Lemma findFirst_from_app {A : Type} (key : A -> string) (e : string) (t t' : list A) :
  forall i,
    findFirst_from key e i (t ++ t')
    = match findFirst_from key e i t with
      | Some id => Some id
      | None => findFirst_from key e (i + length t) t'
      end.
Proof.
  induction t as [|x t IH]; intros i; cbn [findFirst_from app length].
  - now rewrite Nat.add_0_r.
  - destruct (String.eqb (key x) e); [reflexivity|].
    rewrite IH. now replace (S i + length t) with (i + S (length t)) by lia.
Qed.

Lemma findFirst_from_Some {A : Type} (key : A -> string) (e : string) (t : list A) :
  forall i id,
    findFirst_from key e i t = Some id ->
    exists k x, t !! k = Some x /\ key x = e /\ id = idOf (i + k).
Proof.
  induction t as [|x t IH]; intros i id H; [discriminate H|].
  cbn [findFirst_from] in H. destruct (String.eqb_spec (key x) e) as [E|_].
  - injection H as <-. exists 0, x. now rewrite Nat.add_0_r.
  - apply IH in H as (k & y & Hk & Hy & ->). exists (S k), y.
    repeat split; [exact Hk | exact Hy | f_equal; lia].
Qed.

Lemma findFirst_from_None {A : Type} (key : A -> string) (e : string) (t : list A) :
  forall i, findFirst_from key e i t = None -> forall x, In x t -> key x <> e.
Proof.
  induction t as [|y t IH]; intros i H x Hin; [destruct Hin|].
  cbn [findFirst_from] in H. destruct (String.eqb_spec (key y) e) as [_|Hne]; [discriminate H|].
  destruct Hin as [<-|Hin]; [exact Hne | now apply (IH (S i))].
Qed.

Section ShapeFacts.
Variables s s' : Store.
Hypothesis Hshape : shape s' = shape s.

Lemma shape_itemKeys : List.map itemKey (items s') = List.map itemKey (items s).
Proof. unfold shape in Hshape. congruence. Qed.

Lemma shape_locKeys : List.map locKey (locconfigs s') = List.map locKey (locconfigs s).
Proof. unfold shape in Hshape. congruence. Qed.

Lemma shape_boms : List.map bom_externalid (boms s') = List.map bom_externalid (boms s).
Proof. unfold shape in Hshape. congruence. Qed.

Lemma shape_revisions :
  List.map rev_externalid (revisions s') = List.map rev_externalid (revisions s).
Proof. unfold shape in Hshape. congruence. Qed.

Lemma shape_externalids :
  List.map it_externalid (items s') = List.map it_externalid (items s).
Proof.
  pose proof shape_itemKeys as H.
  apply (f_equal (List.map (fun k : RecordType * string * list BomLink => snd (fst k)))) in H.
  now rewrite !List.map_map in H.
Qed.

Lemma shape_item_lookup (i : nat) :
  itemKey <$> items s' !! i = itemKey <$> items s !! i.
Proof.
  rewrite <- !list_lookup_fmap.
  change (itemKey <$> items s') with (List.map itemKey (items s')).
  change (itemKey <$> items s) with (List.map itemKey (items s)).
  now rewrite shape_itemKeys.
Qed.

Lemma shape_findItem (e : string) : findItemByExternalId e s' = findItemByExternalId e s.
Proof.
  unfold findItemByExternalId, findFirst.
  apply findFirst_from_keys, shape_externalids.
Qed.



Lemma shape_linksOf (id : positive) : linksOf id s' = linksOf id s.
Proof.
  unfold linksOf. pose proof (shape_item_lookup (indexOf id)) as H.
  destruct (items s' !! indexOf id) as [x|], (items s !! indexOf id) as [y|];
    cbn in H; try discriminate H; [|reflexivity].
  unfold itemKey in H. congruence.
Qed.


Lemma shape_existingLocations (id : positive) :
  getExistingItemLocations id s' = getExistingItemLocations id s.
Proof.
  unfold getExistingItemLocations. pose proof shape_locKeys as H.
  revert H. generalize (locconfigs s) as l. generalize (locconfigs s') as l'.
  induction l' as [|x l' IH]; intros [|y l] H; try discriminate H; [reflexivity|].
  cbn in H. injection H as Hi Hl Hrest. cbn [List.filter]. rewrite Hi.
  destruct (Pos.eqb (lc_item y) id); cbn [List.map]; rewrite (IH _ Hrest); congruence.
Qed.


End ShapeFacts.

Lemma sameShape_refl (s : Store) : sameShape s s.
Proof. now split. Qed.

Lemma sameShape_trans (s1 s2 s3 : Store) :
  sameShape s1 s2 -> sameShape s2 s3 -> sameShape s1 s3.
Proof. intros [H1 R1] [H2 R2]. split; congruence. Qed.

Lemma itemSettled_shape (strict : bool) (ns : string) (d : Defaults) (row : Row)
    (s s' : Store) :
  sameShape s s' -> itemSettled strict ns d row s -> itemSettled strict ns d row s'.
Proof.
  intros [Hs Hr]. unfold itemSettled, locationsSettled.
  rewrite (shape_findItem s s' Hs), Hr.
  destruct (findItemByExternalId _ s) as [itemId|]; [|trivial].
  now rewrite (shape_existingLocations s s' Hs).
Qed.




(** *** Updates that keep the shape *)

Lemma map_insert_same {A B : Type} (f : A -> B) (l : list A) (i : nat) (x y : A) :
  l !! i = Some y -> f x = f y -> List.map f (<[i := x]> l) = List.map f l.
Proof.
  intros Hi Hf.
  change (f <$> <[i := x]> l = f <$> l).
  rewrite list_fmap_insert. apply list_insert_id.
  now rewrite list_lookup_fmap, Hi, Hf.
Qed.

(** Saving a loaded item back with its type, external id and links
    unchanged. *)
Lemma saveItem_sameShape (s : Store) (id : positive) (old new : Item) :
  items s !! indexOf id = Some old ->
  itemKey new = itemKey old ->
  sameShape s (withItems (fun t => <[indexOf id := new]> t) s).
Proof.
  intros Hold Hkey. split; [|reflexivity].
  unfold shape. cbn. now rewrite (map_insert_same itemKey _ _ _ _ Hold Hkey).
Qed.

Lemma saveLocConfig_sameShape (s : Store) (i : nat) (old new : LocConfig) :
  locconfigs s !! i = Some old ->
  locKey new = locKey old ->
  sameShape s (withLocConfigs (fun t => <[i := new]> t) s).
Proof.
  intros Hold Hkey. split; [|reflexivity].
  unfold shape. cbn. now rewrite (map_insert_same locKey _ _ _ _ Hold Hkey).
Qed.

Lemma ensureMRPSettings_sameShape (itemId : positive) (ctx : Context) (row : Row)
    (s : Store) :
  sameShape s (snd (ensureMRPSettings itemId ctx row s)).
Proof.
  unfold ensureMRPSettings.
  destruct (negb (setupMRP (defaultsOf ctx))); [apply sameShape_refl|].
  destruct (loadItem (recordType row) itemId s) as [itemRec|] eqn:El; [|apply sameShape_refl].
  apply loadItem_lookup in El.
  match goal with |- context [if ?b then _ else (false, s)] => destruct b end;
    [|apply sameShape_refl].
  destruct (refuses s (SaveItemUpdate itemId)); [apply sameShape_refl|].
  cbn [snd]. now apply (saveItem_sameShape s itemId itemRec).
Qed.

Lemma ensureVendorSubsidiary_sameShape (itemId : positive) (ty : option RecordType)
    (ctx : Context) (s : Store) :
  sameShape s (snd (ensureVendorSubsidiary itemId ty ctx s)).
Proof.
  unfold ensureVendorSubsidiary.
  destruct (vendorSubsidiaryOf (defaultsOf ctx)); [|apply sameShape_refl].
  destruct (loadItem ty itemId s) as [itemRec|] eqn:El; [|apply sameShape_refl].
  apply loadItem_lookup in El.
  destruct (existsb _ (it_vendors itemRec)); [|apply sameShape_refl].
  destruct (refuses s (SaveItemUpdate itemId)); [apply sameShape_refl|].
  cbn [snd]. now apply (saveItem_sameShape s itemId itemRec).
Qed.

Lemma resultsKeyed_shape (results : list (positive * LocConfig)) (s s' : Store) :
  sameShape s s' -> resultsKeyed results s -> resultsKeyed results s'.
Proof.
  intros [Hs _] H configId lc Hin. rewrite <- (H configId lc Hin).
  rewrite <- !list_lookup_fmap.
  change (locKey <$> locconfigs s') with (List.map locKey (locconfigs s')).
  change (locKey <$> locconfigs s) with (List.map locKey (locconfigs s)).
  now rewrite (shape_locKeys s s' Hs).
Qed.

Lemma ensureLocationMRPSettings_loop_sameShape (isAsm : bool) (rotationIndex : nat)
    (results : list (positive * LocConfig)) :
  forall (locIndex updated : nat) (s : Store),
    resultsKeyed results s ->
    sameShape s
      (snd (ensureLocationMRPSettings_loop isAsm rotationIndex locIndex results updated s)).
Proof.
  induction results as [|[configId lc] results IH]; intros locIndex updated s Hk;
    [apply sameShape_refl|].
  cbn [ensureLocationMRPSettings_loop].
  assert (Hrest : resultsKeyed results s) by (intros c l Hin; apply Hk; now right).
  destruct (negb (needsUpdate isAsm rotationIndex locIndex lc)); [now apply IH|].
  destruct (refuses s (SaveLocConfigUpdate configId)); [now apply IH|].
  pose proof (Hk configId lc (or_introl eq_refl)) as Hc.
  destruct (locconfigs s !! indexOf configId) as [old|] eqn:Eold; [|discriminate Hc].
  cbn in Hc. injection Hc as Hc1 Hc2.
  assert (Hstep : sameShape s
            (withLocConfigs
               (fun t => <[indexOf configId :=
                  mkLocConfig (lc_item lc) (lc_location lc) (Some (expectedSupplyType isAsm))
                              (expectedLotSizing rotationIndex)
                              (expectedLeadTime rotationIndex locIndex)]> t) s)).
  { apply (saveLocConfig_sameShape s _ old); [exact Eold|].
    unfold locKey. cbn. congruence. }
  eapply sameShape_trans; [exact Hstep|].
  apply IH. now apply (resultsKeyed_shape results s).
Qed.

Lemma locConfigsOf_keyed (itemId : positive) (s : Store) :
  resultsKeyed (locConfigsOf itemId s) s.
Proof.
  intros configId lc Hin. unfold locConfigsOf in Hin.
  apply filter_In in Hin as [Hin _].
  apply list_elem_of_In, list_elem_of_lookup in Hin as [i Hi].
  rewrite list_lookup_imap in Hi.
  destruct (locconfigs s !! i) as [x|] eqn:Ex; [|discriminate Hi].
  cbn in Hi. injection Hi as <- <-. now rewrite indexOf_idOf, Ex.
Qed.

Lemma ensureLocationMRPSettings_sameShape (itemId : positive) (ctx : Context) (row : Row)
    (s : Store) :
  sameShape s (snd (ensureLocationMRPSettings itemId ctx row s)).
Proof.
  unfold ensureLocationMRPSettings.
  destruct (negb (setupMRP (defaultsOf ctx))); [apply sameShape_refl|].
  apply ensureLocationMRPSettings_loop_sameShape, locConfigsOf_keyed.
Qed.

(** *** Locations of an item *)

Lemma existingLocations_app (itemId : positive) (s : Store) (extra : list LocConfig) :
  getExistingItemLocations itemId (withLocConfigs (fun t => (t ++ extra)%list) s)
  = (getExistingItemLocations itemId s
     ++ List.map lc_location (List.filter (fun lc => Pos.eqb (lc_item lc) itemId) extra))%list.
Proof. unfold getExistingItemLocations. cbn. now rewrite List.filter_app, map_app. Qed.

Lemma gainedLocations_refl (s : Store) : gainedLocations s s.
Proof. repeat split. exists []. now rewrite app_nil_r. Qed.

Lemma gainedLocations_trans (s1 s2 s3 : Store) :
  gainedLocations s1 s2 -> gainedLocations s2 s3 -> gainedLocations s1 s3.
Proof.
  intros (Hi & Hb & Hr & Hf & x & Hx) (Hi' & Hb' & Hr' & Hf' & y & Hy).
  repeat split; try congruence.
  exists (x ++ y)%list. now rewrite Hy, Hx, app_assoc.
Qed.

Lemma gainedLocations_add (s : Store) (lc : LocConfig) :
  gainedLocations s (withLocConfigs (fun t => (t ++ [lc])%list) s).
Proof. repeat split. now exists [lc]. Qed.

Lemma gainedLocations_existing (s s' : Store) (id loc : positive) :
  gainedLocations s s' ->
  In loc (getExistingItemLocations id s) -> In loc (getExistingItemLocations id s').
Proof.
  intros (_ & _ & _ & _ & extra & Hx). unfold getExistingItemLocations.
  rewrite Hx, List.filter_app, map_app, in_app_iff. tauto.
Qed.

Lemma existsb_Pos_In (loc : positive) (l : list positive) :
  existsb (Pos.eqb loc) l = true <-> In loc l.
Proof.
  rewrite existsb_exists. split.
  - intros (x & Hin & E). apply Pos.eqb_eq in E. now subst.
  - intros Hin. exists loc. split; [exact Hin | apply Pos.eqb_refl].
Qed.

Lemma existing_added (s : Store) (itemId loc : positive) (a b : option string)
    (c : option Z) :
  In loc (getExistingItemLocations itemId
            (withLocConfigs (fun t => (t ++ [mkLocConfig itemId loc a b c])%list) s)).
Proof.
  rewrite existingLocations_app, in_app_iff. right.
  cbn. rewrite Pos.eqb_refl. now left.
Qed.

Lemma ensureItemLocations_loop_spec (itemId : positive) (d : Defaults)
    (existing : list positive) (locs : list positive) :
  forall (added : nat) (s : Store),
    let r := ensureItemLocations_loop itemId d existing locs added s in
    gainedLocations s (snd r)
    /\ length (locconfigs (snd r)) + added = length (locconfigs s) + fst r
    /\ forall loc, In loc locs ->
         In loc existing
         \/ refuses s (SaveLocConfig (plainLocConfig itemId loc d)) = true
         \/ In loc (getExistingItemLocations itemId (snd r)).
Proof.
  induction locs as [|l locs IH]; intros added s r.
  - split; [apply gainedLocations_refl | split; [reflexivity | intros loc []]].
  - subst r. cbn [ensureItemLocations_loop].
    destruct (existsb (Pos.eqb l) existing) eqn:Ee.
    + destruct (IH added s) as (Hg & Hn & Hl). split; [exact Hg|]. split; [exact Hn|].
      intros loc [<-|Hin]; [left; now apply existsb_Pos_In | now apply Hl].
    + destruct (refuses s (SaveLocConfig (plainLocConfig itemId l d))) eqn:Er.
      * destruct (IH added s) as (Hg & Hn & Hl). split; [exact Hg|]. split; [exact Hn|].
        intros loc [<-|Hin]; [now right; left | now apply Hl].
      * match goal with |- context [ensureItemLocations_loop _ _ _ _ _ ?s1] =>
          destruct (IH (S added) s1) as (Hg & Hn & Hl);
          pose proof (gainedLocations_add s (plainLocConfig itemId l d)) as Hadd
        end.
        split; [eapply gainedLocations_trans; eassumption|].
        split.
        { cbn [locconfigs withLocConfigs] in Hn. rewrite length_app in Hn. cbn in Hn. lia. }
        intros loc [<-|Hin].
        -- right; right. eapply gainedLocations_existing; [exact Hg|]. apply existing_added.
        -- destruct (Hl loc Hin) as [H|[H|H]]; auto.
Qed.

Lemma ensureItemLocations_spec (itemId : positive) (ctx : Context) (s : Store) :
  let r := ensureItemLocations itemId ctx s in
  gainedLocations s (snd r)
  /\ length (locconfigs (snd r)) = length (locconfigs s) + fst r
  /\ locationsSettled itemId (defaultsOf ctx) (snd r).
Proof.
  unfold ensureItemLocations.
  destruct (ensureItemLocations_loop_spec itemId (defaultsOf ctx)
              (getExistingItemLocations itemId s) (locationIds (defaultsOf ctx)) 0 s)
    as (Hg & Hn & Hl).
  split; [exact Hg|]. split; [lia|]. intros loc Hin.
  pose proof Hg as (_ & _ & _ & Hf & _). rewrite Hf.
  destruct (Hl loc Hin) as [H|[H|H]]; auto.
  left. eapply gainedLocations_existing; [exact Hg | exact H].
Qed.

(** When the locations are settled, nothing is added. *)
Lemma ensureItemLocations_loop_stable (itemId : positive) (d : Defaults)
    (existing : list positive) (locs : list positive) (added : nat) (s : Store) :
  (forall loc, In loc locs ->
     In loc existing \/ refuses s (SaveLocConfig (plainLocConfig itemId loc d)) = true) ->
  ensureItemLocations_loop itemId d existing locs added s = (added, s).
Proof.
  induction locs as [|l locs IH]; intros H; [reflexivity|].
  cbn [ensureItemLocations_loop].
  assert (Hrest : forall loc, In loc locs ->
            In loc existing
            \/ refuses s (SaveLocConfig (plainLocConfig itemId loc d)) = true)
    by (intros loc Hin; apply H; now right).
  destruct (H l (or_introl eq_refl)) as [Hin|Href].
  - apply existsb_Pos_In in Hin. rewrite Hin. now apply IH.
  - destruct (existsb (Pos.eqb l) existing); [now apply IH|].
    rewrite Href. now apply IH.
Qed.

Lemma ensureItemLocations_stable (itemId : positive) (ctx : Context) (s : Store) :
  locationsSettled itemId (defaultsOf ctx) s ->
  ensureItemLocations itemId ctx s = (0, s).
Proof. intros H. unfold ensureItemLocations. now apply ensureItemLocations_loop_stable. Qed.

Lemma createItemLocations_loop_spec (itemId : positive) (d : Defaults) (isAsm : bool)
    (rotationIndex : nat) (locs : list positive) :
  forall (locIndex : nat) (s : Store),
    let s' := createItemLocations_loop itemId d isAsm rotationIndex locIndex locs s in
    gainedLocations s s'
    /\ forall loc, In loc locs ->
         (exists record, locKey record = (itemId, loc)
                         /\ refuses s (SaveLocConfig record) = true)
         \/ In loc (getExistingItemLocations itemId s').
Proof.
  induction locs as [|l locs IH]; intros locIndex s s'.
  - split; [apply gainedLocations_refl | intros loc []].
  - subst s'. cbn [createItemLocations_loop].
    assert (Hkey : locKey (newLocConfig itemId l d isAsm rotationIndex locIndex) = (itemId, l))
      by (unfold newLocConfig; now destruct (setupMRP d)).
    destruct (refuses s (SaveLocConfig _)) eqn:Er.
    + destruct (IH (S locIndex) s) as [Hg Hl]. split; [exact Hg|].
      intros loc [<-|Hin]; [left; eexists; split; [exact Hkey | exact Er] | now apply Hl].
    + match goal with |- context [createItemLocations_loop _ _ _ _ _ _ ?s1] =>
        destruct (IH (S locIndex) s1) as [Hg Hl];
        assert (Hadd : gainedLocations s s1) by apply gainedLocations_add
      end.
      split; [eapply gainedLocations_trans; eassumption|].
      intros loc [<-|Hin].
      * right. eapply gainedLocations_existing; [exact Hg|].
        unfold newLocConfig. destruct (setupMRP d); apply existing_added.
      * destruct (Hl loc Hin) as [H|H]; auto.
Qed.

(** *** One row of [reduce] *)

Lemma extends_refl (s : Store) : extends s s.
Proof. repeat split; exists []; now rewrite app_nil_r. Qed.

Lemma extends_trans (s1 s2 s3 : Store) : extends s1 s2 -> extends s2 s3 -> extends s1 s3.
Proof.
  intros (Hf & [x Hx] & [y Hy]) (Hf' & [x' Hx'] & [y' Hy']).
  split; [congruence|]. split.
  - exists (x ++ x')%list. now rewrite Hx', Hx, app_assoc.
  - exists (y ++ y')%list. now rewrite Hy', Hy, app_assoc.
Qed.

Lemma sameShape_extends (s s' : Store) : sameShape s s' -> extends s s'.
Proof.
  intros [Hs Hf]. split; [exact Hf|]. split; exists [].
  - now rewrite app_nil_r, (shape_externalids s s' Hs).
  - now rewrite app_nil_r, (shape_locKeys s s' Hs).
Qed.

Lemma gainedLocations_extends (s s' : Store) : gainedLocations s s' -> extends s s'.
Proof.
  intros (Hi & _ & _ & Hf & extra & Hx). split; [exact Hf|]. split.
  - exists []. now rewrite app_nil_r, Hi.
  - exists (List.map locKey extra). now rewrite Hx, map_app.
Qed.

Lemma extends_findItem (s s' : Store) (e : string) (id : positive) :
  extends s s' -> findItemByExternalId e s = Some id -> findItemByExternalId e s' = Some id.
Proof.
  intros (_ & [extra Hx] & _) H. unfold findItemByExternalId, findFirst in *.
  rewrite (findFirst_from_keys it_externalid (fun x : string => x) e (items s')
             (List.map it_externalid (items s) ++ extra)%list)
    by now rewrite List.map_id.
  rewrite findFirst_from_app.
  rewrite <- (findFirst_from_keys it_externalid (fun x : string => x) e (items s)
                (List.map it_externalid (items s))) by now rewrite List.map_id.
  now rewrite H.
Qed.

Lemma existing_keys (id : positive) (s : Store) :
  getExistingItemLocations id s
  = List.map snd (List.filter (fun k : positive * positive => Pos.eqb (fst k) id)
                              (List.map locKey (locconfigs s))).
Proof.
  unfold getExistingItemLocations. induction (locconfigs s) as [|lc l IH]; [reflexivity|].
  cbn [List.map List.filter locKey fst].
  destruct (Pos.eqb (lc_item lc) id); cbn [List.map snd]; now rewrite IH.
Qed.

Lemma extends_existing (s s' : Store) (id loc : positive) :
  extends s s' ->
  In loc (getExistingItemLocations id s) -> In loc (getExistingItemLocations id s').
Proof.
  intros (_ & _ & [extra Hx]). rewrite !existing_keys, Hx.
  rewrite List.filter_app, map_app, in_app_iff. tauto.
Qed.

(** A row stays settled while other rows are processed. *)
Lemma itemSettled_step (strict : bool) (ns : string) (d : Defaults) (row row' : Row)
    (s s' : Store) :
  extends s s' ->
  (List.map it_externalid (items s') = List.map it_externalid (items s)
   \/ List.map it_externalid (items s')
      = (List.map it_externalid (items s) ++ [itemExternalId ns (itemid row)])%list) ->
  itemSettled strict ns d row s' ->
  itemSettled strict ns d row' s ->
  itemSettled strict ns d row' s'.
Proof.
  intros Hext Hids Hrow Hrow'. unfold itemSettled in Hrow' |- *.
  pose proof Hext as (Hf & _).
  destruct (findItemByExternalId (itemExternalId ns (itemid row')) s) as [id|] eqn:Ef.
  - rewrite (extends_findItem s s' _ id Hext Ef).
    intros Hstrict loc Hin. rewrite Hf.
    destruct (Hrow' Hstrict loc Hin) as [H|H]; [left | now right].
    now apply (extends_existing s s').
  - destruct (findItemByExternalId (itemExternalId ns (itemid row')) s') as [id'|] eqn:Ef';
      [|now rewrite Hf].
    assert (E : itemExternalId ns (itemid row') = itemExternalId ns (itemid row)).
    { unfold findItemByExternalId, findFirst in Ef, Ef'.
      destruct Hids as [Hids|Hids].
      - rewrite (findFirst_from_keys it_externalid it_externalid _ _ _ Hids) in Ef'.
        congruence.
      - rewrite (findFirst_from_keys it_externalid (fun x : string => x) _ (items s')
                   (List.map it_externalid (items s) ++ [itemExternalId ns (itemid row)])%list)
          in Ef' by now rewrite List.map_id.
        rewrite findFirst_from_app in Ef'.
        rewrite <- (findFirst_from_keys it_externalid (fun x : string => x) _ (items s)
                      (List.map it_externalid (items s))) in Ef' by now rewrite List.map_id.
        rewrite Ef in Ef'. cbn [findFirst_from] in Ef'.
        destruct (String.eqb_spec (itemExternalId ns (itemid row))
                                  (itemExternalId ns (itemid row'))) as [E|_];
          [now symmetry | discriminate Ef']. }
    unfold itemSettled in Hrow. rewrite <- E, Ef' in Hrow. exact Hrow.
Qed.

Lemma createItem_spec (ctx : Context) (row : Row) (s : Store) :
  let ns := strOf (c_prospectName ctx) in
  let r := createItem ctx row s in
  match fst r with
  | None =>
      snd r = s
      /\ match recordType row with
         | Some ty => refuses s (SaveItem ty (itemExternalId ns (itemid row))) = true
         | None => True
         end
  | Some itemId =>
      itemId = idOf (length (items s))
      /\ refuses (snd r) = refuses s
      /\ boms (snd r) = boms s /\ revisions (snd r) = revisions s
      /\ (exists rec, items (snd r) = (items s ++ [rec])%list
            /\ it_externalid rec = itemExternalId ns (itemid row)
            /\ it_boms rec = [])
      /\ (exists extra, locconfigs (snd r) = (locconfigs s ++ extra)%list)
      /\ (plainRefusedToo (refuses s) ->
          locationsSettled itemId (defaultsOf ctx) (snd r))
  end.
Proof.
  intros ns r. subst r. unfold createItem.
  destruct (recordType row) as [ty|]; [|now split].
  fold ns. destruct (refuses s (SaveItem ty (itemExternalId ns (itemid row)))) eqn:Er;
    [now split|].
  cbn [fst snd]. unfold createItemLocations.
  match goal with |- context [createItemLocations_loop ?i ?d ?a ?ro ?li ?lo ?s0] =>
    destruct (createItemLocations_loop_spec i d a ro lo li s0)
      as [(Hi & Hb & Hr & Hf & extra & Hx) Hl]
  end.
  cbn [items boms revisions refuses locconfigs withItems] in Hi, Hb, Hr, Hf, Hx.
  split; [reflexivity|]. split; [exact Hf|]. split; [exact Hb|]. split; [exact Hr|].
  split; [|split].
  - eexists. split; [exact Hi|]. now split.
  - now exists extra.
  - intros Hplain loc Hin. rewrite Hf.
    destruct (Hl loc Hin) as [(record & Hkey & Href)|H]; [right | now left].
    cbn [refuses withItems] in Href.
    apply (Hplain record); [now rewrite Hkey | reflexivity | reflexivity | exact Href].
Qed.

(** The three repairs of an existing item keep the shape. *)
Lemma repairs_sameShape (itemId : positive) (ctx : Context) (row : Row) (s1 : Store) :
  sameShape s1
    (snd (ensureVendorSubsidiary itemId (recordType row) ctx
            (snd (ensureLocationMRPSettings itemId ctx row
                    (snd (ensureMRPSettings itemId ctx row s1)))))).
Proof.
  eapply sameShape_trans; [apply ensureMRPSettings_sameShape|].
  eapply sameShape_trans; [apply ensureLocationMRPSettings_sameShape|].
  apply ensureVendorSubsidiary_sameShape.
Qed.

(** The store after one row of [reduce], whatever the counters. *)
Lemma reduceRow_store (ctx : Context) (row : Row) (st : ReduceStats) (s : Store) :
  snd (reduceRow ctx row (st, s))
  = match findItemByExternalId
            (itemExternalId (strOf (c_prospectName ctx)) (itemid row)) s with
    | Some itemId =>
        snd (ensureVendorSubsidiary itemId (recordType row) ctx
               (snd (ensureLocationMRPSettings itemId ctx row
                       (snd (ensureMRPSettings itemId ctx row
                               (snd (ensureItemLocations itemId ctx s)))))))
    | None => snd (createItem ctx row s)
    end.
Proof.
  unfold reduceRow.
  destruct (findItemByExternalId _ s) as [itemId|].
  - destruct (ensureItemLocations itemId ctx s) as [n s1]. cbn [snd].
    destruct (ensureMRPSettings itemId ctx row s1) as [b s2]. cbn [snd].
    destruct (ensureLocationMRPSettings itemId ctx row s2) as [m s3]. cbn [snd].
    destruct (ensureVendorSubsidiary itemId (recordType row) ctx s3) as [v s4].
    reflexivity.
  - destruct (createItem ctx row s) as [[id|] s1]; reflexivity.
Qed.

Lemma reduceRow_post (strict : bool) (ctx : Context) (row : Row) (st : ReduceStats)
    (s : Store) :
  (strict = true -> plainRefusedToo (refuses s)) ->
  let ns := strOf (c_prospectName ctx) in
  let s' := snd (reduceRow ctx row (st, s)) in
  extends s s'
  /\ (List.map it_externalid (items s') = List.map it_externalid (items s)
      \/ List.map it_externalid (items s')
         = (List.map it_externalid (items s) ++ [itemExternalId ns (itemid row)])%list)
  /\ itemSettled strict ns (defaultsOf ctx) row s'.
Proof.
  intros Hp ns s'. subst s'. rewrite reduceRow_store. fold ns.
  destruct (findItemByExternalId (itemExternalId ns (itemid row)) s) as [itemId|] eqn:Ef.
  - destruct (ensureItemLocations_spec itemId ctx s) as (Hg & _ & Hl).
    set (s1 := snd (ensureItemLocations itemId ctx s)) in *.
    pose proof (repairs_sameShape itemId ctx row s1) as Hs.
    set (s4 := snd (ensureVendorSubsidiary _ _ _ _)) in *.
    assert (Hext : extends s s4).
    { eapply extends_trans; [apply gainedLocations_extends, Hg|].
      now apply sameShape_extends. }
    split; [exact Hext|]. split.
    + left. destruct Hs as [Hs _]. rewrite (shape_externalids s1 s4 Hs).
      destruct Hg as (Hi & _). now rewrite Hi.
    + apply (itemSettled_shape strict ns _ row s1 s4 Hs). unfold itemSettled.
      rewrite (extends_findItem s s1 _ itemId (gainedLocations_extends _ _ Hg) Ef).
      intros _. exact Hl.
  - pose proof (createItem_spec ctx row s) as H. cbn zeta in H. fold ns in H.
    destruct (createItem ctx row s) as [[itemId|] s1]; cbn [fst snd] in H |- *.
    + destruct H as (-> & Hf & Hb & Hr & (rec & Hi & He & _) & [extra Hx] & Hl).
      assert (Hids : List.map it_externalid (items s1)
                     = (List.map it_externalid (items s)
                        ++ [itemExternalId ns (itemid row)])%list).
      { now rewrite Hi, map_app, <- He. }
      split; [|split; [now right|]].
      * split; [exact Hf|]. split; [eexists; exact Hids|].
        exists (List.map locKey extra). now rewrite Hx, map_app.
      * unfold itemSettled.
        assert (Ef' : findItemByExternalId (itemExternalId ns (itemid row)) s1
                      = Some (idOf (length (items s)))).
        { unfold findItemByExternalId, findFirst in Ef |- *.
          rewrite Hi, findFirst_from_app, Ef. cbn [findFirst_from Nat.add].
          now rewrite He, String.eqb_refl. }
        rewrite Ef'. intros Hstrict. apply Hl, Hp, Hstrict.
    + destruct H as [-> H].
      split; [apply extends_refl|]. split; [now left|].
      unfold itemSettled. now rewrite Ef.
Qed.




(** *** The whole of [reduce] *)

Lemma reduce_fold_post (strict : bool) (ctx : Context) (records : list Row) :
  forall (st : ReduceStats) (s : Store),
    (strict = true -> plainRefusedToo (refuses s)) ->
    let ns := strOf (c_prospectName ctx) in
    let d := defaultsOf ctx in
    let s' := snd (fold_left (fun acc rowData => reduceRow ctx rowData acc) records (st, s)) in
    extends s s'
    /\ (forall row, In row records -> itemSettled strict ns d row s')
    /\ (forall row, itemSettled strict ns d row s -> itemSettled strict ns d row s').
Proof.
  induction records as [|row more IH]; intros st s Hp ns d s'.
  - subst s'. cbn. split; [apply extends_refl|]. split; [intros row []|auto].
  - subst s'. cbn [fold_left].
    destruct (reduceRow_post strict ctx row st s Hp) as (Hext & Hids & Hset).
    destruct (reduceRow ctx row (st, s)) as [st1 s1]. cbn [snd] in Hext, Hids, Hset.
    destruct (IH st1 s1) as (Hext' & Hin' & Hkeep').
    { destruct Hext as (Hf & _). now rewrite Hf. }
    split; [eapply extends_trans; eassumption|]. split.
    + intros r [<-|Hr]; [now apply Hkeep' | now apply Hin'].
    + intros r Hr. apply Hkeep'. now apply (itemSettled_step strict ns d row r s s1).
Qed.



Lemma mapStage_In (rows : list Row) (row : Row) :
  In row rows <-> In row (fst (mapStage rows)) \/ In row (snd (mapStage rows)).
Proof.
  unfold mapStage. cbn [fst snd]. rewrite !filter_In.
  destruct (isAssembly row); cbn; tauto.
Qed.

Lemma reducePhase_post (strict : bool) (ctx : Context) (rows : list Row) (s : Store) :
  (strict = true -> plainRefusedToo (refuses s)) ->
  let s' := snd (reducePhase ctx rows s) in
  extends s s'
  /\ forall row, In row rows ->
       itemSettled strict (strOf (c_prospectName ctx)) (defaultsOf ctx) row s'.
Proof.
  intros Hp s'. subst s'. unfold reducePhase, reduce.
  pose proof (mapStage_In rows) as Hin.
  destruct (mapStage rows) as [inventory assembly]. cbn [fst snd] in Hin.
  destruct (reduce_fold_post strict ctx inventory noReduceStats s Hp) as (He1 & Hi1 & _).
  destruct (fold_left _ inventory _) as [st1 s1]. cbn [snd] in He1, Hi1.
  destruct (reduce_fold_post strict ctx assembly noReduceStats s1) as (He2 & Hi2 & Hk2).
  { destruct He1 as (Hf & _). now rewrite Hf. }
  destruct (fold_left _ assembly _) as [st2 s2]. cbn [snd] in He2, Hi2, Hk2 |- *.
  split; [eapply extends_trans; eassumption|].
  intros row Hrow. apply Hin in Hrow as [Hrow|Hrow]; [apply Hk2, Hi1, Hrow | now apply Hi2].
Qed.



(** [reduce] reads no quantity: the JSON text of a row serves it as the row
    does. *)
Lemma reduceRow_json (ctx : Context) (row : Row) (acc : ReduceStats * Store) :
  reduceRow ctx (jsonRow row) acc = reduceRow ctx row acc.
Proof. reflexivity. Qed.

Lemma reduce_json (ctx : Context) (rows : list Row) (s : Store) :
  reduce ctx (List.map jsonRow rows) s = reduce ctx rows s.
Proof.
  unfold reduce. generalize (noReduceStats, s).
  induction rows as [|row rows IH]; intros acc; [reflexivity|].
  cbn [List.map fold_left]. now rewrite reduceRow_json, IH.
Qed.

Lemma filter_json (p : Row -> bool) (rows : list Row) :
  (forall row, p (jsonRow row) = p row) ->
  List.filter p (List.map jsonRow rows) = List.map jsonRow (List.filter p rows).
Proof.
  intros Hp. induction rows as [|row rows IH]; [reflexivity|].
  cbn [List.map List.filter]. rewrite Hp, IH. now destruct (p row).
Qed.

Lemma reducePhase_json (ctx : Context) (rows : list Row) (s : Store) :
  reducePhase ctx (List.map jsonRow rows) s = reducePhase ctx rows s.
Proof.
  unfold reducePhase, mapStage.
  rewrite !filter_json by reflexivity. rewrite !reduce_json.
  destruct (reduce ctx _ s) as [st1 s1]. now rewrite reduce_json.
Qed.

(** *** Link lines *)

Lemma findLinkLine_app_Some (bomId : positive) (lines more : list BomLink) :
  forall i r, findLinkLine bomId i lines = Some r ->
              findLinkLine bomId i (lines ++ more) = Some r.
Proof.
  induction lines as [|x lines IH]; intros i r H; [discriminate H|].
  cbn [findLinkLine app] in *. destruct (Pos.eqb (bl_bom x) bomId); [exact H | now apply IH].
Qed.

Lemma findLinkLine_app_None (bomId : positive) (lines : list BomLink) (x : BomLink) :
  forall i, findLinkLine bomId i lines = None ->
            findLinkLine bomId i (lines ++ [x])
            = if Pos.eqb (bl_bom x) bomId then Some (i + length lines, x) else None.
Proof.
  induction lines as [|y lines IH]; intros i H.
  - cbn. now rewrite Nat.add_0_r.
  - cbn [findLinkLine app length] in *.
    destruct (Pos.eqb (bl_bom y) bomId); [discriminate H|].
    rewrite (IH (S i) H). now replace (S i + length lines) with (i + S (length lines)) by lia.
Qed.

Lemma findLinkLine_insert_other (bomId : positive) (x : BomLink) (lines : list BomLink) :
  forall i k y,
    lines !! k = Some y -> bl_bom y <> bomId -> bl_bom x <> bomId ->
    findLinkLine bomId i (<[k := x]> lines) = findLinkLine bomId i lines.
Proof.
  induction lines as [|z lines IH]; intros i k y Hk Hy Hx; [reflexivity|].
  destruct k as [|k]; cbn in Hk |- *.
  - injection Hk as ->.
    apply Pos.eqb_neq in Hy, Hx. now rewrite Hy, Hx.
  - destruct (Pos.eqb (bl_bom z) bomId); [reflexivity | now apply (IH (S i) k y)].
Qed.

Lemma findLinkLine_insert_hit (bomId : positive) (x : BomLink) (lines : list BomLink) :
  forall i j l,
    findLinkLine bomId i lines = Some (j, l) -> bl_bom x = bomId ->
    findLinkLine bomId i (<[j - i := x]> lines) = Some (j, x).
Proof.
  induction lines as [|z lines IH]; intros i j l H Hx; [discriminate H|].
  cbn [findLinkLine] in H. destruct (Pos.eqb (bl_bom z) bomId) eqn:Ez.
  - injection H as <- <-. rewrite Nat.sub_diag. cbn.
    apply Pos.eqb_eq in Hx. now rewrite Hx.
  - pose proof (findLinkLine_Some _ _ _ _ _ H) as (k & -> & _).
    replace (S i + k - i) with (S k) by lia. cbn. rewrite Ez.
    specialize (IH (S i) (S i + k) l H Hx).
    now replace (S i + k - S i) with k in IH by lia.
Qed.

(** After the edit the BOM is linked with the flag. *)
Lemma linkEdit_settles (bomId : positive) (lines lines' : list BomLink) :
  linkEdit bomId lines = Some lines' -> linkSettled bomId lines'.
Proof.
  unfold linkSettled, linkEdit.
  destruct (findLinkLine bomId 0 lines) as [[j l]|] eqn:Ef.
  - destruct (bl_masterdefault l); [discriminate|]. intros E. injection E as <-.
    pose proof (findLinkLine_Some _ _ _ _ _ Ef) as (k & _ & _ & Hb).
    pose proof (findLinkLine_insert_hit bomId (mkBomLink (bl_bom l) true) lines 0 j l Ef Hb)
      as H.
    rewrite Nat.sub_0_r in H. now rewrite H.
  - intros E. injection E as <-.
    rewrite (findLinkLine_app_None _ _ _ _ Ef). cbn. now rewrite Pos.eqb_refl.
Qed.

Lemma linkSettled_iff (bomId : positive) (lines : list BomLink) :
  linkSettled bomId lines
  <-> exists i l, findLinkLine bomId 0 lines = Some (i, l) /\ bl_masterdefault l = true.
Proof.
  unfold linkSettled, linkEdit.
  destruct (findLinkLine bomId 0 lines) as [[j l]|].
  - destruct (bl_masterdefault l) eqn:E.
    + split; [intros _; now exists j, l | reflexivity].
    + split; [discriminate | intros (i & l' & H & Hm); congruence].
  - split; [discriminate | intros (i & l' & H & _); discriminate H].
Qed.

(** An edit for one BOM leaves the links of the other BOMs settled. *)
Lemma linkEdit_keeps (bomId other : positive) (lines lines' : list BomLink) :
  linkSettled bomId lines ->
  linkEdit other lines = Some lines' ->
  linkSettled bomId lines'.
Proof.
  intros Hset Hedit.
  destruct (Pos.eq_dec other bomId) as [->|Hne]; [unfold linkSettled in Hset; congruence|].
  apply linkSettled_iff in Hset as (i & l0 & Hfind & Hflag).
  apply linkSettled_iff. exists i, l0. split; [|exact Hflag].
  unfold linkEdit in Hedit.
  destruct (findLinkLine other 0 lines) as [[j l]|] eqn:Ef.
  - destruct (bl_masterdefault l); [discriminate|]. injection Hedit as <-.
    pose proof (findLinkLine_Some _ _ _ _ _ Ef) as (k & -> & Hk & Hb).
    cbn [Nat.add].
    rewrite (findLinkLine_insert_other bomId _ lines 0 k l Hk); [exact Hfind | | ];
      cbn; congruence.
  - injection Hedit as <-. now apply findLinkLine_app_Some.
Qed.

(** *** Growth of the structures *)

Lemma structuresGrow_refl (s : Store) : structuresGrow s s.
Proof.
  split; [reflexivity|]. split; [reflexivity|]. split; [reflexivity|].
  split; [reflexivity|]. split; [|split].
  - exists []. split; [now rewrite app_nil_r | constructor].
  - exists []. now rewrite app_nil_r.
  - auto.
Qed.

Lemma structuresGrow_trans (s1 s2 s3 : Store) :
  structuresGrow s1 s2 -> structuresGrow s2 s3 -> structuresGrow s1 s3.
Proof.
  intros (Hf & Hi & Ht & Hl & (x & Hx & Fx) & (y & Hy) & Hk)
         (Hf' & Hi' & Ht' & Hl' & (x' & Hx' & Fx') & (y' & Hy') & Hk').
  split; [congruence|]. split; [congruence|]. split; [congruence|].
  split; [congruence|]. split; [|split].
  - exists (x ++ x')%list. split; [now rewrite Hx', Hx, app_assoc|].
    apply Forall_app. split; [exact Fx|]. now rewrite <- Hf.
  - exists (y ++ y')%list. now rewrite Hy', Hy, app_assoc.
  - intros id b H. now apply Hk', Hk.
Qed.

Lemma sameShape_structuresGrow (s s' : Store) : sameShape s s' -> structuresGrow s s'.
Proof.
  intros [Hs Hf]. split; [exact Hf|].
  split; [apply (shape_externalids s s' Hs)|]. split.
  - pose proof (shape_itemKeys s s' Hs) as H.
    apply (f_equal (List.map (fun k : RecordType * string * list BomLink => fst (fst k)))) in H.
    now rewrite !List.map_map in H.
  - split; [apply (shape_locKeys s s' Hs)|]. split; [|split].
    + exists []. split; [now rewrite app_nil_r, (shape_boms s s' Hs) | constructor].
    + exists []. now rewrite app_nil_r, (shape_revisions s s' Hs).
    + intros id b. now rewrite (shape_linksOf s s' Hs).
Qed.

Lemma loadItem_None_types (ty : option RecordType) (id : positive) (s s' : Store) :
  List.map it_type (items s') = List.map it_type (items s) ->
  loadItem ty id s' = None <-> loadItem ty id s = None.
Proof.
  intros H. unfold loadItem. destruct ty as [t|]; [|tauto].
  assert (Hi : it_type <$> items s' !! indexOf id = it_type <$> items s !! indexOf id).
  { rewrite <- !list_lookup_fmap.
    change (it_type <$> items s') with (List.map it_type (items s')).
    change (it_type <$> items s) with (List.map it_type (items s)).
    now rewrite H. }
  destruct (items s' !! indexOf id) as [x|], (items s !! indexOf id) as [y|];
    cbn in Hi; try discriminate Hi; [|tauto].
  injection Hi as ->.
  destruct (RecordType_eqb (it_type y) t); [split; discriminate | tauto].
Qed.

Section Growth.
Variables s s' : Store.
Hypothesis Hgrow : structuresGrow s s'.

Lemma grow_findItem (e : string) : findItemByExternalId e s' = findItemByExternalId e s.
Proof.
  destruct Hgrow as (_ & Hi & _). unfold findItemByExternalId, findFirst.
  now apply findFirst_from_keys.
Qed.

Lemma grow_componentsOf (ns : string) (children : list Row) :
  componentsOf ns children s' = componentsOf ns children s.
Proof.
  unfold componentsOf. induction children as [|c children IH]; [reflexivity|].
  cbn [omap list_omap]. now rewrite grow_findItem, IH.
Qed.

Lemma grow_findBOM (e : string) :
  match findBOMByExternalId e s with
  | Some bomId => findBOMByExternalId e s' = Some bomId
  | None => refuses s (SaveBOM e) = true -> findBOMByExternalId e s' = None
  end.
Proof.
  destruct Hgrow as (_ & _ & _ & _ & (extra & Hx & Fx) & _).
  unfold findBOMByExternalId, findFirst.
  rewrite (findFirst_from_keys bom_externalid (fun x : string => x) e (boms s')
             (List.map bom_externalid (boms s) ++ extra)%list) by now rewrite List.map_id.
  rewrite findFirst_from_app.
  rewrite <- (findFirst_from_keys bom_externalid (fun x : string => x) e (boms s)
                (List.map bom_externalid (boms s))) by now rewrite List.map_id.
  destruct (findFirst_from bom_externalid e 0 (boms s)) as [b|]; [reflexivity|].
  intros Href.
  destruct (findFirst_from (fun x : string => x) e _ extra) as [b|] eqn:Ef; [|reflexivity].
  apply findFirst_from_Some in Ef as (k & x & Hk & Hxe & _).
  rewrite Forall_forall in Fx. specialize (Fx x). rewrite Hxe in Fx.
  rewrite Fx in Href; [discriminate Href|].
  apply list_elem_of_lookup. exists k. now rewrite <- Hxe.
Qed.

Lemma grow_findRevision (e : string) :
  findBOMRevisionByExternalId e s <> None -> findBOMRevisionByExternalId e s' <> None.
Proof.
  destruct Hgrow as (_ & _ & _ & _ & _ & (extra & Hx) & _).
  unfold findBOMRevisionByExternalId, findFirst.
  rewrite (findFirst_from_keys rev_externalid (fun x : string => x) e (revisions s')
             (List.map rev_externalid (revisions s) ++ extra)%list) by now rewrite List.map_id.
  rewrite findFirst_from_app.
  rewrite <- (findFirst_from_keys rev_externalid (fun x : string => x) e (revisions s)
                (List.map rev_externalid (revisions s))) by now rewrite List.map_id.
  now destruct (findFirst_from rev_externalid e 0 (revisions s)).
Qed.


(** A settled structure stays settled. *)
Lemma grow_structureSettled (ns : string) (allRows : list Row) (assembly : Row) :
  structureSettled ns allRows assembly s -> structureSettled ns allRows assembly s'.
Proof.
  unfold structureSettled. rewrite grow_findItem, grow_componentsOf.
  destruct (findItemByExternalId _ s) as [aid|]; [|trivial].
  intros [H|[H|H]]; [tauto | tauto |]. right. right.
  pose proof Hgrow as (Hf & _ & Ht & _ & _ & _ & Hk).
  pose proof (grow_findBOM (bomExternalId ns (itemid assembly))) as Hb.
  destruct (findBOMByExternalId _ s) as [b|].
  - rewrite Hb, Hf. destruct H as [Hrev Hlink]. split.
    + destruct Hrev as [Hrev|Hrev]; [left; now apply grow_findRevision | now right].
    + destruct Hlink as [Hl|[Hl|Hl]]; [left | right; now left | right; right; now apply Hk].
      now apply (loadItem_None_types _ _ s s' Ht).
  - rewrite (Hb H), Hf. exact H.
Qed.
End Growth.

(** *** The three writes of a structure *)

Lemma createOrGetBOM_spec (assemblyItemId ns : string) (d : Defaults) (s : Store) :
  let r := createOrGetBOM assemblyItemId ns d s in
  let e := bomExternalId ns assemblyItemId in
  structuresGrow s (snd r)
  /\ match fst (fst r) with
     | Some bomId => findBOMByExternalId e (snd r) = Some bomId
     | None => snd r = s /\ findBOMByExternalId e s = None /\ refuses s (SaveBOM e) = true
     end
  /\ (findBOMByExternalId e s <> None -> snd r = s /\ snd (fst r) = false)
  /\ (snd (fst r) = false -> snd r = s).
Proof.
  intros r e. subst r. unfold createOrGetBOM. fold e.
  destruct (findBOMByExternalId e s) as [b|] eqn:Ef.
  - cbn. split; [apply structuresGrow_refl|]. now repeat split.
  - destruct (refuses s (SaveBOM e)) eqn:Er.
    + cbn. split; [apply structuresGrow_refl|]. repeat split; congruence.
    + cbn [fst snd]. split; [|split; [|split; [congruence | discriminate]]].
      * split; [reflexivity|]. split; [reflexivity|]. split; [reflexivity|].
        split; [reflexivity|]. split; [|split].
        -- exists [e]. cbn. split; [now rewrite map_app | now repeat constructor].
        -- exists []. now rewrite app_nil_r.
        -- auto.
      * unfold findBOMByExternalId, findFirst in Ef |- *. cbn.
        rewrite findFirst_from_app, Ef. cbn. now rewrite String.eqb_refl.
Qed.

Lemma createOrGetBOMRevision_spec (bomId : positive) (assemblyItemId : string)
    (components : list Component) (ns : string) (s : Store) :
  let r := createOrGetBOMRevision bomId assemblyItemId components ns s in
  let e := revisionExternalId ns assemblyItemId in
  structuresGrow s (snd r)
  /\ boms (snd r) = boms s /\ items (snd r) = items s
  /\ (findBOMRevisionByExternalId e (snd r) <> None \/ refuses s (SaveRevision e) = true)
  /\ (findBOMRevisionByExternalId e s <> None \/ refuses s (SaveRevision e) = true ->
        snd r = s /\ rr_created (fst r) = false).
Proof.
  intros r e. subst r. unfold createOrGetBOMRevision. fold e.
  destruct (findBOMRevisionByExternalId e s) as [rev|] eqn:Ef.
  - cbn. split; [apply structuresGrow_refl|]. repeat split; auto. left. congruence.
  - destruct (refuses s (SaveRevision e)) eqn:Er.
    + cbn. split; [apply structuresGrow_refl|]. repeat split; auto.
    + cbn [fst snd]. split; [|split; [reflexivity|split; [reflexivity|split]]].
      * split; [reflexivity|]. split; [reflexivity|]. split; [reflexivity|].
        split; [reflexivity|]. split; [|split].
        -- exists []. split; [now rewrite app_nil_r | constructor].
        -- exists [e]. cbn. now rewrite map_app.
        -- auto.
      * left. unfold findBOMRevisionByExternalId, findFirst in Ef |- *. cbn.
        rewrite findFirst_from_app, Ef. cbn. now rewrite String.eqb_refl.
      * intros [H|H]; congruence.
Qed.

Lemma linksOf_loaded (ty : option RecordType) (id : positive) (s : Store) (it : Item) :
  loadItem ty id s = Some it -> linksOf id s = it_boms it.
Proof. intros H. apply loadItem_lookup in H. unfold linksOf. now rewrite H. Qed.

Lemma ensureBOMLinkedToAssembly_spec (assemblyId bomId : positive) (s : Store) :
  let r := ensureBOMLinkedToAssembly assemblyId bomId s in
  structuresGrow s (snd r)
  /\ boms (snd r) = boms s /\ revisions (snd r) = revisions s
  /\ (loadItem (Some assemblyitem) assemblyId (snd r) = None
      \/ refuses s (SaveLink assemblyId bomId) = true
      \/ linkSettled bomId (linksOf assemblyId (snd r)))
  /\ (loadItem (Some assemblyitem) assemblyId s = None
      \/ refuses s (SaveLink assemblyId bomId) = true
      \/ linkSettled bomId (linksOf assemblyId s) ->
      r = (false, s)).
Proof.
  intros r. subst r. unfold ensureBOMLinkedToAssembly.
  destruct (loadItem (Some assemblyitem) assemblyId s) as [rec|] eqn:El.
  2:{ cbn. split; [apply structuresGrow_refl|]. repeat split; auto. }
  pose proof (linksOf_loaded _ _ _ _ El) as Hlinks.
  pose proof (loadItem_lookup _ _ _ _ El) as Hitem.
  destruct (linkEdit bomId (it_boms rec)) as [lines|] eqn:Ee.
  2:{ cbn. split; [apply structuresGrow_refl|]. repeat split; auto.
      right. right. unfold linkSettled. now rewrite Hlinks. }
  destruct (refuses s (SaveLink assemblyId bomId)) eqn:Er.
  { cbn. split; [apply structuresGrow_refl|]. repeat split; auto. }
  cbn [fst snd]. split; [|split; [reflexivity|split; [reflexivity|split]]].
  - split; [reflexivity|]. split; [|split; [|split; [reflexivity|split; [|split]]]].
    + cbn. now apply (map_insert_same it_externalid _ _ _ rec).
    + cbn. now apply (map_insert_same it_type _ _ _ rec).
    + exists []. split; [now rewrite app_nil_r | constructor].
    + exists []. now rewrite app_nil_r.
    + intros id b Hset. unfold linksOf in *. cbn.
      destruct (Nat.eq_dec (indexOf assemblyId) (indexOf id)) as [E|Hne].
      * rewrite <- E in *. rewrite Hitem in Hset.
        rewrite list_lookup_insert_eq by (now apply lookup_lt_Some in Hitem).
        cbn. now apply (linkEdit_keeps b bomId (it_boms rec)).
      * now rewrite list_lookup_insert_ne.
  - right. right. rewrite (linksOf_saved _ _ _ _ Hitem). now apply (linkEdit_settles _ (it_boms rec)).
  - intros [H|[H|H]]; [discriminate H | discriminate H |].
    unfold linkSettled in H. rewrite Hlinks in H. congruence.
Qed.

(** *** One assembly of [summarize] *)

Lemma length_zero {A : Type} (l : list A) : Nat.eqb (length l) 0 = true <-> l = [].
Proof. destruct l; cbn; split; congruence. Qed.

Lemma summarizeAssembly_post (ns : string) (d : Defaults) (allRows : list Row)
    (assembly : Row) (st : SummaryStats) (s : Store) :
  let s' := snd (summarizeAssembly ns d allRows assembly (st, s)) in
  structuresGrow s s' /\ structureSettled ns allRows assembly s'.
Proof.
  intros s'. subst s'. unfold summarizeAssembly.
  destruct (findItemByExternalId (itemExternalId ns (itemid assembly)) s) as [aid|] eqn:Ef.
  2:{ cbn. split; [apply structuresGrow_refl|]. unfold structureSettled. now rewrite Ef. }
  destruct (Nat.eqb (length (directChildrenOf allRows (hierarchy assembly))) 0) eqn:Ech.
  { cbn. split; [apply structuresGrow_refl|]. unfold structureSettled. rewrite Ef.
    left. now apply length_zero. }
  destruct (Nat.eqb (length (componentsOf ns _ s)) 0) eqn:Eco.
  { cbn. split; [apply structuresGrow_refl|]. unfold structureSettled. rewrite Ef.
    right. left. now apply length_zero. }
  destruct (createOrGetBOM_spec (itemid assembly) ns d s) as (Hg1 & Hb1 & _).
  destruct (createOrGetBOM (itemid assembly) ns d s) as [[[bomId|] bomCreated] s1];
    cbn [fst snd] in Hg1, Hb1.
  2:{ destruct Hb1 as (-> & Hnone & Href). cbn. split; [apply structuresGrow_refl|].
      unfold structureSettled. rewrite Ef, Hnone. right. right. exact Href. }
  match goal with |- context [createOrGetBOMRevision bomId ?a ?c ns s1] =>
    destruct (createOrGetBOMRevision_spec bomId a c ns s1) as (Hg2 & Hb2 & Hi2 & Hr2 & _);
    destruct (createOrGetBOMRevision bomId a c ns s1) as [res s2]
  end.
  cbn [fst snd] in Hg2, Hb2, Hi2, Hr2.
  destruct (ensureBOMLinkedToAssembly_spec aid bomId s2) as (Hg3 & Hb3 & Hr3 & Hl3 & _).
  destruct (ensureBOMLinkedToAssembly aid bomId s2) as [linked s3].
  cbn [fst snd] in Hg3, Hb3, Hr3, Hl3 |- *.
  assert (Hg : structuresGrow s s3).
  { eapply structuresGrow_trans; [exact Hg1|].
    eapply structuresGrow_trans; [exact Hg2 | exact Hg3]. }
  split; [exact Hg|].
  unfold structureSettled. rewrite (grow_findItem s s3 Hg), Ef.
  right. right.
  assert (Hbom : findBOMByExternalId (bomExternalId ns (itemid assembly)) s3 = Some bomId).
  { unfold findBOMByExternalId in *. now rewrite Hb3, Hb2. }
  rewrite Hbom.
  pose proof Hg2 as (Hf2 & _). pose proof Hg3 as (Hf3 & _).
  split.
  - destruct Hr2 as [Hr2|Hr2]; [left | right; congruence].
    unfold findBOMRevisionByExternalId in *. now rewrite Hr3.
  - destruct Hl3 as [H|[H|H]]; [now left | right; left; congruence | now right; right].
Qed.


(** *** The whole of [summarize] *)

Lemma summarize_fold_post (ns : string) (d : Defaults) (allRows assemblies : list Row) :
  forall (st : SummaryStats) (s : Store),
    let s' := snd (fold_left (fun acc assembly => summarizeAssembly ns d allRows assembly acc)
                             assemblies (st, s)) in
    structuresGrow s s'
    /\ forall a, In a assemblies -> structureSettled ns allRows a s'.
Proof.
  induction assemblies as [|a more IH]; intros st s s'.
  - subst s'. cbn. split; [apply structuresGrow_refl | intros a []].
  - subst s'. cbn [fold_left].
    destruct (summarizeAssembly_post ns d allRows a st s) as (Hg & Hset).
    destruct (summarizeAssembly ns d allRows a (st, s)) as [st1 s1]. cbn [snd] in Hg, Hset.
    destruct (IH st1 s1) as (Hg' & Hin').
    split; [eapply structuresGrow_trans; eassumption|].
    intros x [<-|Hx]; [now apply (grow_structureSettled s1 _ Hg') | now apply Hin'].
Qed.


(** *** Two runs *)

Lemma createVendors_loop_refuses (names : list string) :
  forall (vendorCache : gmap string positive) (s : Store),
    refuses (snd (createVendors_loop names vendorCache s)) = refuses s.
Proof.
  induction names as [|n names IH]; intros vendorCache s; [reflexivity|].
  cbn [createVendors_loop].
  destruct (findFirst _ n (vendors s)); [apply IH|].
  destruct (refuses s (SaveVendor n)); [apply IH|].
  now rewrite IH.
Qed.

Lemma getInputData_refuses (env : Env) (s : Store) :
  refuses (snd (getInputData env s)) = refuses s.
Proof.
  unfold getInputData.
  destruct (scriptParameter env) as [configFileId|]; [|reflexivity].
  destruct (configFiles env !! configFileId) as [config|]; [|reflexivity].
  destruct (if setupMRP (applyDefaults config) then _ else _) as [cat sa] eqn:Ea.
  destruct (if createVendors (applyDefaults config) then _ else _) as [vc sb] eqn:Eb.
  assert (Hb : refuses sb = refuses s).
  { transitivity (refuses sa).
    - destruct (createVendors (applyDefaults config)); [|now injection Eb as _ <-].
      unfold createVendorsFromCSV in Eb.
      destruct (mappings config ≫= vendorColumn) as [col|]; [|now injection Eb as _ <-].
      destruct (csvFiles env !! csvFileId config) as [content|]; [|now injection Eb as _ <-].
      rewrite <- (createVendors_loop_refuses (vendorNamesOf col (csvLines content)) ∅ sa).
      now rewrite Eb.
    - destruct (setupMRP (applyDefaults config)); [|now injection Ea as _ <-].
      unfold createOrGetPlanningItemCategory in Ea.
      destruct (prospectName config) as [n|]; [|now injection Ea as _ <-].
      destruct (findFirst _ n (categories s)); [now injection Ea as _ <-|].
      destruct (refuses s (SaveCategory n)); now injection Ea as _ <-. }
  destruct (csvFiles env !! csvFileId config); [|exact Hb].
  destruct (Nat.ltb _ 2); [exact Hb|].
  destruct (mappings config); [exact Hb|].
  now destruct (dataRows _).
Qed.


(** Without mappings no row is mapped. *)
Lemma inputRows_unmapped (lines : list string) : inputRows [] lines = [].
Proof.
  unfold inputRows, mappedRows.
  assert (H : omap (fun raw => keepMapped (mapRowWith mapCell [] raw)) (dataRows lines) = [])
    by (induction (dataRows lines) as [|raw raws IH]; [reflexivity | exact IH]).
  now rewrite H.
Qed.

Lemma reParse_unmapped (csvContent : string) : reParseCSVForSummarize [] csvContent = [].
Proof.
  unfold reParseCSVForSummarize, mappedRows.
  assert (H : omap (fun raw => keepMapped (mapRowWith mapCell_reparse [] raw))
                   (dataRows (csvLines csvContent)) = [])
    by (induction (dataRows (csvLines csvContent)) as [|raw raws IH];
        [reflexivity | exact IH]).
  now rewrite H.
Qed.

(** What [getInputData] returns depends on the store only for the planning
    item category and the vendors it hands on. *)
Lemma getInputData_cases (env : Env) (s : Store) :
  (exists message, fst (getInputData env s) = Thrown message)
  \/ exists config csvContent planning vendorCache,
       scriptParameter env ≫= (fun configFileId => configFiles env !! configFileId)
         = Some config
       /\ csvFiles env !! csvFileId config = Some csvContent
       /\ fst (getInputData env s)
          = Returned (inputRows (mappingsOf config) (csvLines csvContent),
                      mkContext (prospectName config) (Some (applyDefaults config))
                                planning vendorCache).
Proof.
  unfold getInputData.
  destruct (scriptParameter env) as [configFileId|]; [|left; eauto].
  cbn [mbind option_bind].
  destruct (configFiles env !! configFileId) as [config|]; [|left; eauto].
  destruct (if setupMRP (applyDefaults config) then _ else _) as [cat sa].
  destruct (if createVendors (applyDefaults config) then _ else _) as [vc sb].
  destruct (csvFiles env !! csvFileId config) as [content|] eqn:Ec; [|left; eauto].
  destruct (Nat.ltb _ 2); [left; eauto|].
  unfold mappingsOf.
  destruct (mappings config) as [maps|] eqn:Em.
  - right. exists config, content, cat, vc. rewrite Em. cbn [fst default]. now rewrite Ec.
  - destruct (dataRows (csvLines content)); [|left; eauto].
    right. exists config, content, cat, vc. rewrite Em. cbn [fst default].
    now rewrite Ec, inputRows_unmapped.
Qed.

(** When [getInputData] returns, a configuration without mappings comes
    with a file without data rows. *)
Lemma returned_mapped (env : Env) (s : Store) (config : Config) (csvContent : string)
    (result : list Row * Context) :
  scriptParameter env ≫= (fun configFileId => configFiles env !! configFileId) = Some config ->
  csvFiles env !! csvFileId config = Some csvContent ->
  fst (getInputData env s) = Returned result ->
  mappings config = None -> dataRows (csvLines csvContent) = [].
Proof.
  intros Hc Hcsv Hret Hmaps.
  destruct (dataRows (csvLines csvContent)) as [|raw more] eqn:Erows; [reflexivity|].
  exfalso.
  assert (Hmiss : inputMissing env).
  { unfold inputMissing. destruct (scriptParameter env) as [configFileId|]; [|exact I].
    cbn [mbind option_bind] in Hc. rewrite Hc, Hcsv. right. split; [exact Hmaps|].
    rewrite Erows. discriminate. }
  apply (getInputData_thrown env s) in Hmiss as [message Hthrown]. congruence.
Qed.

Lemma rowsRead_unmapped (config : Config) (csvContent : string) (cacheHit : bool) :
  mappings config = None -> rowsRead config csvContent cacheHit = [].
Proof.
  intros Hmaps. unfold rowsRead, mappingsOf. rewrite Hmaps. cbn [default].
  destruct cacheHit; [now rewrite inputRows_unmapped | apply reParse_unmapped].
Qed.

Lemma summarize_of_rows (env : Env) (config : Config) (csvContent : string)
    (cacheHit : bool) (s : Store) :
  scriptParameter env ≫= (fun configFileId => configFiles env !! configFileId) = Some config ->
  csvFiles env !! csvFileId config = Some csvContent ->
  (mappings config = None -> dataRows (csvLines csvContent) = []) ->
  summarize env
    (if cacheHit then Some (inputRows (mappingsOf config) (csvLines csvContent)) else None) s
  = summarizeRows (strOf (prospectName config)) (default DEFAULT_CONFIG (defaults config))
      (rowsRead config csvContent cacheHit) s.
Proof.
  intros Hc Hcsv Hmaps. unfold summarize. rewrite Hc.
  destruct cacheHit; [reflexivity|]. rewrite Hcsv. cbn [mbind option_bind].
  unfold reParse, rowsRead, mappingsOf.
  destruct (mappings config) as [maps|]; [reflexivity|].
  rewrite (Hmaps eq_refl). cbn [default]. now rewrite reParse_unmapped.
Qed.

(** [summarize] works through a row list, or does nothing. *)
Lemma summarize_cases (env : Env) (cached : option (list Row)) (s : Store) :
  summarize env cached s = (noSummaryStats, s)
  \/ exists ns d allRows, summarize env cached s = summarizeRows ns d allRows s.
Proof.
  unfold summarize. destruct (scriptParameter env ≫= _) as [config|]; [|now left].
  cbv zeta.
  destruct (match cached with
            | Some rows => Some (List.map jsonRow rows)
            | None => csvFiles env !! csvFileId config ≫= reParse config
            end) as [rows|]; [right; eauto | now left].
Qed.

(** *** Rows that differ in their quantities *)









(** *** Two runs *)




Lemma runPipeline_returned (env : Env) (cacheHit : bool) (s : Store) (rows : list Row)
    (ctx : Context) :
  fst (getInputData env s) = Returned (rows, ctx) ->
  runPipeline env cacheHit s
  = (Completed (fst (fst (reducePhase ctx rows (snd (getInputData env s)))))
               (snd (fst (reducePhase ctx rows (snd (getInputData env s)))))
               (fst (summarize env (if cacheHit then Some rows else None)
                       (snd (reducePhase ctx rows (snd (getInputData env s)))))),
     snd (summarize env (if cacheHit then Some rows else None)
            (snd (reducePhase ctx rows (snd (getInputData env s)))))).
Proof.
  intros H. unfold runPipeline.
  destruct (getInputData env s) as [o sa]. cbn [fst snd] in H |- *. subst o.
  rewrite reducePhase_json.
  destruct (reducePhase ctx rows sa) as [[st1 st2] s2]. cbn [fst snd].
  now destruct (summarize env _ s2) as [st3 s3].
Qed.

Lemma runPipeline_thrown (env : Env) (cacheHit : bool) (s : Store) (message : string) :
  fst (getInputData env s) = Thrown message ->
  runPipeline env cacheHit s = (Aborted message, snd (getInputData env s)).
Proof.
  intros H. unfold runPipeline.
  destruct (getInputData env s) as [o sa]. cbn [fst snd] in H |- *. now subst o.
Qed.

Lemma runPipeline_refuses (env : Env) (cacheHit : bool) (s : Store) :
  refuses (snd (runPipeline env cacheHit s)) = refuses s.
Proof.
  destruct (getInputData_cases env s)
    as [[message Hthrown]|(config & csvContent & planning & vendorCache & Hc & Hcsv & Hret)].
  - rewrite (runPipeline_thrown env cacheHit s message Hthrown). apply getInputData_refuses.
  - rewrite (runPipeline_returned env cacheHit s _ _ Hret). cbn [snd].
    rewrite (summarize_of_rows env config csvContent cacheHit _ Hc Hcsv
               (returned_mapped env s config csvContent _ Hc Hcsv Hret)).
    match goal with |- context [reducePhase ?ctx ?rows ?sa] =>
      destruct (reducePhase_post false ctx rows sa ltac:(discriminate)) as ((Hf & _) & _);
      set (sb := snd (reducePhase ctx rows sa)) in *
    end.
    unfold summarizeRows.
    match goal with |- context [fold_left ?f ?l (noSummaryStats, sb)] =>
      destruct (summarize_fold_post (strOf (prospectName config))
                  (default DEFAULT_CONFIG (defaults config))
                  (rowsRead config csvContent cacheHit) l noSummaryStats sb) as ((Hg & _) & _)
    end.
    rewrite Hg, Hf. apply getInputData_refuses.
Qed.






(* ===================================================================== *)
(** * Further properties *)
(* ===================================================================== *)

(** ** Trimming *)

Lemma trimStart_head (s : string) :
  Js.trimStart s = EmptyString
  \/ exists c rest, Js.trimStart s = String c rest /\ Js.isWhite c = false.
Proof.
  induction s as [|c s IH]; [now left|].
  cbn [Js.trimStart]. destruct (Js.isWhite c) eqn:E; [exact IH|].
  right. now exists c, s.
Qed.

Lemma trimEnd_head (c : ascii) (rest : string) :
  Js.isWhite c = false -> exists kept, Js.trimEnd (String c rest) = String c kept.
Proof.
  intros Hc. cbn [Js.trimEnd]. destruct (Js.trimEnd rest) as [|k ks].
  - rewrite Hc. now exists EmptyString.
  - now exists (String k ks).
Qed.

Lemma trimEnd_idem (s : string) : Js.trimEnd (Js.trimEnd s) = Js.trimEnd s.
Proof.
  induction s as [|c s IH]; [reflexivity|].
  cbn [Js.trimEnd]. destruct (Js.trimEnd s) as [|k ks] eqn:E.
  - destruct (Js.isWhite c) eqn:Hc; [reflexivity|]. cbn [Js.trimEnd]. now rewrite Hc.
  - change (Js.trimEnd (String c (String k ks)))
      with (match Js.trimEnd (String k ks) with
            | EmptyString => if Js.isWhite c then EmptyString else String c EmptyString
            | kept => String c kept
            end).
    now rewrite IH.
Qed.

(** [trim] is idempotent: a trimmed text has no white space at its ends. *)
Lemma trim_idem (s : string) : Js.trim (Js.trim s) = Js.trim s.
Proof.
  unfold Js.trim. destruct (trimStart_head s) as [->|(c & rest & -> & Hc)]; [reflexivity|].
  destruct (trimEnd_head c rest Hc) as [kept E]. rewrite E.
  cbn [Js.trimStart]. rewrite Hc. rewrite <- E. apply trimEnd_idem.
Qed.

Lemma trim_empty : Js.trim EmptyString = EmptyString.
Proof. reflexivity. Qed.
(** ** The suitelet's tokenizer *)

Lemma suitelet_parseRow_loop (n : nat) :
  forall (rowText : string) (values : list string) (current : string) (inQuotes : bool),
    String.length rowText <= n ->
    Suitelet.parseRow_loop rowText (List.map Js.trim values) current inQuotes
    = List.map Js.trim (parseRow_loop rowText values current inQuotes).
Proof.
  induction n as [|n IH]; intros rowText values current inQuotes Hlen.
  - destruct rowText; [|cbn in Hlen; lia]. cbn. now rewrite List.map_app.
  - destruct rowText as [|char rest]; [cbn; now rewrite List.map_app|].
    cbn [String.length] in Hlen.
    cbn [Suitelet.parseRow_loop parseRow_loop].
    destruct (Ascii.eqb char Js.DQUOTE).
    + destruct rest as [|nextChar rest'].
      * apply IH. cbn. lia.
      * destruct (inQuotes && Ascii.eqb nextChar Js.DQUOTE)%bool.
        -- apply IH. cbn [String.length] in Hlen. lia.
        -- apply IH. lia.
    + destruct ((Ascii.eqb char Js.COMMA || Ascii.eqb char Js.TAB) && negb inQuotes)%bool.
      * rewrite <- (IH rest (values ++ [current])%list); [|lia].
        now rewrite List.map_app.
      * destruct (negb (Ascii.eqb char Js.CR)); apply IH; lia.
Qed.

Lemma suitelet_parseRow_map (rowText : string) :
  Suitelet.parseRow rowText = List.map Js.trim (parseRow rowText).
Proof.
  unfold Suitelet.parseRow, parseRow.
  now rewrite <- (suitelet_parseRow_loop (String.length rowText) rowText []).
Qed.

(** X1.  The suitelet's [parseRow] yields the fields of the Map/Reduce
    script's [parseRow], each trimmed: the same number of fields, cut at
    the same places. *)
Theorem suitelet_parseRow_trims (rowText : string) :
  Suitelet.parseRow rowText = List.map Js.trim (parseRow rowText)
  /\ length (Suitelet.parseRow rowText) = length (parseRow rowText)
  /\ Forall (fun v => Js.trim v = v) (Suitelet.parseRow rowText).
Proof.
  pose proof (suitelet_parseRow_map rowText) as H.
  split; [exact H|]. rewrite H. split; [now rewrite length_map|].
  apply Forall_forall. intros v Hv. apply list_elem_of_In, in_map_iff in Hv as (w & <- & _).
  apply trim_idem.
Qed.

Lemma existsb_trimmed (row : list string) :
  existsb (fun cell => Js.truthy (Js.trim cell)) (List.map Js.trim row)
  = existsb (fun cell => Js.truthy (Js.trim cell)) row.
Proof.
  induction row as [|c row IH]; [reflexivity|].
  cbn [List.map existsb]. now rewrite trim_idem, IH.
Qed.

Lemma parseCSV_rows_dataRows (lines : list string) :
  forall i,
    Suitelet.parseCSV_rows lines
    = List.map (fun raw => List.map Js.trim (cells raw)) (dataRows_from i lines).
Proof.
  induction lines as [|line more IH]; intros i; [reflexivity|].
  cbn [Suitelet.parseCSV_rows dataRows_from].
  rewrite (suitelet_parseRow_map line).
  rewrite existsb_trimmed.
  destruct (existsb _ (parseRow line)); cbn [List.map cells]; now rewrite (IH (S i)).
Qed.

Lemma parseCSV_dataRows (content : string) :
  Suitelet.rows (Suitelet.parseCSV content)
  = List.map (fun raw => List.map Js.trim (cells raw)) (dataRows (csvLines content)).
Proof.
  unfold Suitelet.parseCSV, dataRows, csvLines.
  destruct (List.filter _ (Js.split Js.LF content)) as [|first more]; [reflexivity|].
  cbn [Suitelet.rows tail]. apply parseCSV_rows_dataRows.
Qed.

(** X2.  A file the upload step accepts has a header line and a data row
    for the Map/Reduce script too: the check of [getInputData] on the
    number of lines passes, the preview's rows are the cells of the rows
    [getInputData] keeps, trimmed, one for one, and its headers are the
    trimmed fields of the first line. *)
Theorem upload_accepted_rows (content : string) (folderId : option string) (saved : bool)
    (parsedData : Suitelet.ParsedData) :
  Suitelet.handleFileUpload (Some content) folderId = (saved, Returned parsedData) ->
  saved = true
  /\ 2 <= length (csvLines content)
  /\ dataRows (csvLines content) <> []
  /\ Suitelet.rows parsedData
     = List.map (fun raw => List.map Js.trim (cells raw)) (dataRows (csvLines content))
  /\ Suitelet.headers parsedData
     = List.map Js.trim (parseRow (hd EmptyString (csvLines content))).
Proof.
  unfold Suitelet.handleFileUpload. intros H.
  destruct (negb (Js.truthy (default EmptyString folderId))); [discriminate|].
  pose proof (parseCSV_dataRows content) as Hrows.
  destruct (Nat.eqb (length (Suitelet.rows (Suitelet.parseCSV content))) 0) eqn:E;
    [discriminate|].
  injection H as <- <-. apply Nat.eqb_neq in E.
  split; [reflexivity|].
  assert (Hne : dataRows (csvLines content) <> []).
  { intros Hnil. rewrite Hrows, Hnil in E. now apply E. }
  split; [|split; [exact Hne|split; [exact Hrows|]]].
  - unfold dataRows in Hne. destruct (csvLines content) as [|first [|second more]];
      cbn in *; try congruence; lia.
  - unfold Suitelet.parseCSV, csvLines in *.
    destruct (List.filter _ (Js.split Js.LF content)) as [|first more].
    + exfalso. now apply Hne.
    + cbn [Suitelet.headers hd]. apply suitelet_parseRow_map.
Qed.

Lemma upload_accepted_rows_witness :
  Suitelet.rows (Suitelet.parseCSV ("h, i" ++ String Js.LF " 1 ,A"))
  = [["1"; "A"]].
Proof.
  destruct (upload_accepted_rows ("h, i" ++ String Js.LF " 1 ,A") (Some "12") true
              (Suitelet.parseCSV ("h, i" ++ String Js.LF " 1 ,A")) eq_refl)
    as (_ & _ & _ & H & _).
  rewrite H. reflexivity.
Defined.

(** ** Escaping for the pages *)

Lemma replaceAll_app (c : ascii) (r a b : string) :
  Suitelet.replaceAll c r (a ++ b) = Suitelet.replaceAll c r a ++ Suitelet.replaceAll c r b.
Proof.
  induction a as [|x a IH]; [reflexivity|].
  rewrite append_cons. cbn [Suitelet.replaceAll].
  destruct (Ascii.eqb x c); rewrite IH; [now rewrite append_assoc_s | now rewrite append_cons].
Qed.

Lemma escape_one (c : ascii) :
  Suitelet.replaceAll Suitelet.APOS "&#39;"
    (Suitelet.replaceAll Js.DQUOTE "&quot;"
       (Suitelet.replaceAll Suitelet.GT "&gt;"
          (Suitelet.replaceAll Suitelet.LT "&lt;"
             (Suitelet.replaceAll Suitelet.AMP "&amp;" (String c EmptyString)))))
  = escapeChar c.
Proof.
  unfold escapeChar. cbn [Suitelet.replaceAll].
  destruct (Ascii.eqb c Suitelet.AMP) eqn:E1; [reflexivity|].
  cbn [Suitelet.replaceAll].
  destruct (Ascii.eqb c Suitelet.LT) eqn:E2; [reflexivity|].
  cbn [Suitelet.replaceAll].
  destruct (Ascii.eqb c Suitelet.GT) eqn:E3; [reflexivity|].
  cbn [Suitelet.replaceAll].
  destruct (Ascii.eqb c Js.DQUOTE) eqn:E4; [reflexivity|].
  cbn [Suitelet.replaceAll].
  destruct (Ascii.eqb c Suitelet.APOS) eqn:E5; reflexivity.
Qed.

(** The five replacements in a row amount to one pass over the text. *)
Lemma escapeHtml_each (text : string) : Suitelet.escapeHtml text = escapeEach text.
Proof.
  unfold Suitelet.escapeHtml. destruct text as [|c0 text0]; [reflexivity|].
  cbn [Js.truthy negb]. generalize (String c0 text0). clear. intros text.
  induction text as [|c text IH]; [reflexivity|].
  change (String c text) with (String c EmptyString ++ text).
  rewrite !replaceAll_app, IH, escape_one. reflexivity.
Qed.

Lemma escapeChar_safe (c : ascii) :
  stringForall (fun x => negb (isMarkup x)) (escapeChar c) = true.
Proof.
  unfold escapeChar.
  destruct (Ascii.eqb c Suitelet.AMP); [reflexivity|].
  destruct (Ascii.eqb c Suitelet.LT) eqn:E2; [reflexivity|].
  destruct (Ascii.eqb c Suitelet.GT) eqn:E3; [reflexivity|].
  destruct (Ascii.eqb c Js.DQUOTE) eqn:E4; [reflexivity|].
  destruct (Ascii.eqb c Suitelet.APOS) eqn:E5; [reflexivity|].
  cbn [stringForall]. unfold isMarkup. now rewrite E2, E3, E4, E5.
Qed.

Lemma unescape_char (c : ascii) (rest : string) :
  unescapeHtml (escapeChar c ++ rest) = String c (unescapeHtml rest).
Proof.
  unfold escapeChar.
  destruct (Ascii.eqb c Suitelet.AMP) eqn:E1; [apply ascii_eqb_true in E1; now subst|].
  destruct (Ascii.eqb c Suitelet.LT) eqn:E2; [apply ascii_eqb_true in E2; now subst|].
  destruct (Ascii.eqb c Suitelet.GT) eqn:E3; [apply ascii_eqb_true in E3; now subst|].
  destruct (Ascii.eqb c Js.DQUOTE) eqn:E4; [apply ascii_eqb_true in E4; now subst|].
  destruct (Ascii.eqb c Suitelet.APOS) eqn:E5; [apply ascii_eqb_true in E5; now subst|].
  rewrite append_cons, append_nil. clear E2 E3 E4 E5.
  destruct c as [[] [] [] [] [] [] [] []]; try reflexivity; discriminate E1.
Qed.

Lemma unescape_each (text : string) : unescapeHtml (escapeEach text) = text.
Proof.
  induction text as [|c text IH]; [reflexivity|].
  cbn [escapeEach]. now rewrite unescape_char, IH.
Qed.

(** X3.  An escaped text holds none of the characters that open or close
    markup or an attribute value; it can be read back, so two texts are
    escaped alike only when they are the same; and a text without the five
    special characters is left as it is. *)
Theorem escapeHtml_safe_reversible (text other : string) :
  stringForall (fun c => negb (isMarkup c)) (Suitelet.escapeHtml text) = true
  /\ unescapeHtml (Suitelet.escapeHtml text) = text
  /\ (Suitelet.escapeHtml text = Suitelet.escapeHtml other -> text = other)
  /\ (stringForall (fun c => negb (isMarkup c || Ascii.eqb c Suitelet.AMP)) text = true ->
      Suitelet.escapeHtml text = text).
Proof.
  rewrite !escapeHtml_each. split; [|split; [|split]].
  - induction text as [|c text IH]; [reflexivity|].
    cbn [escapeEach]. now rewrite stringForall_app, escapeChar_safe, IH.
  - apply unescape_each.
  - intros H. apply (f_equal unescapeHtml) in H. now rewrite !unescape_each in H.
  - induction text as [|c text IH]; [reflexivity|].
    cbn [stringForall escapeEach]. intros H. apply andb_prop in H as [Hc Hrest].
    rewrite (IH Hrest). unfold escapeChar, isMarkup in *.
    apply negb_true_iff in Hc. repeat (apply orb_false_elim in Hc as [Hc ?]).
    now rewrite H, Hc, H0, H1, H2.
Qed.

(** ** Preselected mappings *)

(** X4.  What [autoDetectMapping] preselects for a column is one of nine
    field names, each an option of the select field and never the skip
    option; [manufacturer] and the custom fields are never preselected.  A
    header that contains [name] is preselected as hierarchy, item id or
    display name, whatever else it contains: never as a vendor column. *)
Theorem autoDetectMapping_range (header v : string) :
  Suitelet.autoDetectMapping header = Some v ->
  In v ["hierarchy"; "itemid"; "displayname"; "quantity"; "mpn"; "vendorpartnumber";
        "vendor"; "revision"; "memo"]
  /\ In v Suitelet.FIELD_OPTIONS
  /\ v <> EmptyString
  /\ (Suitelet.includes (Js.trim (Suitelet.toLowerCase header)) "name" = true ->
      In v ["hierarchy"; "itemid"; "displayname"]).
Proof.
  unfold Suitelet.autoDetectMapping.
  destruct (negb (Js.truthy header)); [discriminate|].
  set (h := Js.trim (Suitelet.toLowerCase header)). cbv zeta.
  destruct (Suitelet.includes h "hierarchy" || Suitelet.includes h "bom structure"
            || Suitelet.includes h "level")%bool;
    [intros [= <-]; repeat split; cbn; try discriminate; tauto|].
  destruct (Suitelet.includes h "part number" || Suitelet.includes h "part #"
            || Suitelet.includes h "itemid" || (h =? "part") || (h =? "item"))%bool;
    [intros [= <-]; repeat split; cbn; try discriminate; tauto|].
  destruct (Suitelet.includes h "description" || Suitelet.includes h "name")%bool eqn:Ename;
    [intros [= <-]; repeat split; cbn; try discriminate; tauto|].
  apply orb_false_elim in Ename as [_ Ename].
  repeat match goal with
         | |- (if ?c then _ else _) = _ -> _ =>
             destruct c;
             [intros [= <-]; repeat split; cbn; try discriminate; try tauto; congruence|]
         end.
  discriminate.
Qed.

Lemma autoDetectMapping_range_witness :
  Suitelet.autoDetectMapping "Vendor Name" = Some "displayname"
  /\ In "displayname" Suitelet.FIELD_OPTIONS.
Proof.
  split; [reflexivity|].
  apply (autoDetectMapping_range "Vendor Name" "displayname"). reflexivity.
Defined.

(** ** The configuration the suitelet writes *)

Lemma collectMappings_In (params : Suitelet.Parameters) (count : nat) :
  forall (i col : nat) (v : string),
    In (col, v) (Suitelet.collectMappings params i count)
    <-> i <= col < i + count /\ columnParameter params col = Some v /\ v <> EmptyString.
Proof.
  unfold columnParameter.
  induction count as [|count IH]; intros i col v; cbn [Suitelet.collectMappings].
  - split; [intros [] | intros ([? ?] & _); lia].
  - assert (Hrest : In (col, v) (Suitelet.collectMappings params (S i) count)
                    <-> S i <= col < i + S count
                        /\ params !! ("custpage_map_col_" ++ pretty col) = Some v
                        /\ v <> EmptyString).
    { rewrite IH. split; intros (? & ? & ?); (split; [lia|now split]). }
    destruct (params !! ("custpage_map_col_" ++ pretty i)) as [mapValue|] eqn:E.
    + destruct mapValue as [|c mapValue']; cbn [Js.truthy].
      * rewrite Hrest. split.
        -- intros (? & ? & ?). split; [lia|now split].
        -- intros (Hr & Hp & Hv). split; [|now split].
           destruct (Nat.eq_dec col i) as [->|]; [congruence|lia].
      * cbn [In]. rewrite Hrest. split.
        -- intros [[= <- <-]|(? & ? & ?)]; (split; [lia|]); (split; [assumption|]);
             try discriminate; assumption.
        -- intros (Hr & Hp & Hv).
           destruct (Nat.eq_dec col i) as [->|]; [left; congruence|right].
           split; [lia|now split].
    + rewrite Hrest. split.
      * intros (? & ? & ?). split; [lia|now split].
      * intros (Hr & Hp & Hv). split; [|now split].
        destruct (Nat.eq_dec col i) as [->|]; [congruence|lia].
Qed.

Lemma collectMappings_sorted (params : Suitelet.Parameters) (count : nat) :
  forall i, StronglySorted lt (List.map fst (Suitelet.collectMappings params i count)).
Proof.
  induction count as [|count IH]; intros i; cbn [Suitelet.collectMappings]; [constructor|].
  assert (Hcons : forall v,
            StronglySorted lt
              (List.map fst ((i, v) :: Suitelet.collectMappings params (S i) count))).
  { intros v. cbn [List.map fst]. constructor; [apply IH|].
    apply Forall_forall. intros col Hcol.
    apply list_elem_of_In, in_map_iff in Hcol as ([col' v'] & <- & Hin).
    apply collectMappings_In in Hin. cbn [fst]. lia. }
  destruct (params !! ("custpage_map_col_" ++ pretty i)) as [mapValue|]; [|apply IH].
  destruct (Js.truthy mapValue); [apply Hcons | apply IH].
Qed.

Lemma existsb_mapped (name : string) (maps : list (nat * string)) :
  existsb (fun e : nat * string => snd e =? name) maps = true
  <-> In name (List.map snd maps).
Proof.
  rewrite existsb_exists, in_map_iff. split.
  - intros (e & He & Heq). apply String.eqb_eq in Heq. now exists e.
  - intros (e & Heq & He). exists e. split; [exact He|]. now apply String.eqb_eq.
Qed.

Lemma num_positive_cases (id : jsnum) :
  num_positive id = true ->
  id = S754_infinity false \/ exists m e, id = S754_finite false m e.
Proof.
  destruct id as [[]|[]| |[] m e]; cbn; try discriminate; intros _; [now left | right; eauto].
Qed.

Lemma parseLocationIds_positive (locationStr : string) :
  Forall (fun id => num_positive id = true) (Suitelet.parseLocationIds locationStr).
Proof.
  unfold Suitelet.parseLocationIds. apply Forall_forall. intros id Hid.
  apply list_elem_of_In, filter_In in Hid as [_ H]. exact H.
Qed.

Lemma numOr_truthy (x fallback : jsnum) :
  num_truthy fallback = true -> num_truthy (numOr x fallback) = true.
Proof. intros Hf. unfold numOr. now destruct (num_truthy x) eqn:E. Qed.

(** X5.  A configuration [handleMappingSubmit] writes maps a column to
    [hierarchy] and a column to [itemid]; its mappings are the non-empty
    select fields of the columns the mapping loop visits, by ascending
    column; every location id in it is a number above zero, which the file
    holds as it is when it is finite and as [null] when it is [Infinity];
    and the tax schedule and the lead time are neither zero nor [NaN]. *)
Theorem written_config_valid (params : Suitelet.Parameters)
    (script : Suitelet.ScriptParameters) (configData : Suitelet.ConfigData) :
  writtenConfig (Suitelet.handleMappingSubmit params script) = Some configData ->
  let maps := Suitelet.mappings configData in
  let d := Suitelet.defaults configData in
  In "hierarchy" (List.map snd maps)
  /\ In "itemid" (List.map snd maps)
  /\ (exists rounds,
        Suitelet.loopRounds (Suitelet.paramInt params "custpage_column_count") = Some rounds
        /\ forall col v,
             In (col, v) maps
             <-> col < rounds /\ columnParameter params col = Some v /\ v <> EmptyString)
  /\ StronglySorted lt (List.map fst maps)
  /\ Forall (fun id =>
               num_positive id = true
               /\ match jsonNumber id with
                  | Some written => written = id /\ num_finite id = true
                  | None => id = S754_infinity false
                  end) (Suitelet.locationIds d)
  /\ num_truthy (Suitelet.taxScheduleId d) = true
  /\ num_truthy (Suitelet.leadtime (Suitelet.itemLocationDefaults d)) = true.
Proof.
  unfold Suitelet.handleMappingSubmit.
  destruct (Suitelet.loopRounds (Suitelet.paramInt params "custpage_column_count"))
    as [count|]; [|discriminate].
  set (maps0 := Suitelet.collectMappings params 0 count). cbv zeta.
  destruct (existsb (fun e : nat * string => snd e =? "hierarchy") maps0) eqn:Hh;
    [|discriminate].
  destruct (existsb (fun e : nat * string => snd e =? "itemid") maps0) eqn:Hi;
    [|discriminate].
  cbn [negb].
  destruct (params !! "custpage_file_name") as [fileName|]; [|discriminate].
  intros H.
  assert (Hcd : configData
                = Suitelet.mkConfigData (params !! "custpage_prospect_name")
                    (params !! "custpage_file_id") (Some fileName) maps0
                    (Suitelet.defaults configData)
                /\ Suitelet.locationIds (Suitelet.defaults configData)
                   = Suitelet.parseLocationIds
                       match params !! "custpage_locations" with
                       | Some v => if Js.truthy v then v else "2,13"
                       | None => "2,13"
                       end
                /\ Suitelet.taxScheduleId (Suitelet.defaults configData)
                   = numOr (Suitelet.paramInt params "custpage_tax_schedule") (numOf 1)
                /\ Suitelet.leadtime (Suitelet.itemLocationDefaults (Suitelet.defaults configData))
                   = numOr (Suitelet.paramInt params "custpage_lead_time") (numOf 7)).
  { destruct (Js.truthy (default EmptyString (Suitelet.mrScriptId script))
              && Js.truthy (default EmptyString (Suitelet.mrDeploymentId script)))%bool;
      cbn [writtenConfig] in H; injection H as <-; repeat split. }
  destruct Hcd as (Hcd & Hloc & Htax & Hlead).
  assert (Hmaps : Suitelet.mappings configData = maps0) by now rewrite Hcd.
  rewrite Hmaps, Hloc, Htax, Hlead.
  split; [now apply existsb_mapped|]. split; [now apply existsb_mapped|].
  split; [|split; [apply collectMappings_sorted|split]].
  - exists count. split; [reflexivity|].
    intros col v. unfold maps0. rewrite collectMappings_In. split.
    + intros (? & ? & ?). split; [lia|now split].
    + intros (? & ? & ?). split; [lia|now split].
  - eapply Forall_impl; [apply parseLocationIds_positive|].
    intros id Hid. split; [exact Hid|].
    destruct (num_positive_cases id Hid) as [->|(m & e & ->)]; [reflexivity|now split].
  - split; apply numOr_truthy; reflexivity.
Qed.

Lemma written_config_valid_witness :
  exists configData,
    writtenConfig
      (Suitelet.handleMappingSubmit
         {[ "custpage_column_count" := "3"; "custpage_map_col_0" := "hierarchy";
            "custpage_map_col_2" := "itemid"; "custpage_file_name" := "bom.csv";
            "custpage_locations" := "2, x, 0, 13" ]}
         (Suitelet.mkScriptParameters (Some "7") None None)) = Some configData
    /\ Suitelet.mappings configData = [(0, "hierarchy"); (2, "itemid")]
    /\ Suitelet.locationIds (Suitelet.defaults configData) = [numOf 2; numOf 13]
    /\ In "itemid" (List.map snd (Suitelet.mappings configData)).
Proof.
  set (params := ({[ "custpage_column_count" := "3"; "custpage_map_col_0" := "hierarchy";
                     "custpage_map_col_2" := "itemid"; "custpage_file_name" := "bom.csv";
                     "custpage_locations" := "2, x, 0, 13" ]} : Suitelet.Parameters)).
  set (script := Suitelet.mkScriptParameters (Some "7") None None).
  assert (E : exists configData,
             writtenConfig (Suitelet.handleMappingSubmit params script) = Some configData
             /\ Suitelet.mappings configData = [(0, "hierarchy"); (2, "itemid")]
             /\ Suitelet.locationIds (Suitelet.defaults configData) = [numOf 2; numOf 13]).
  { eexists. split; [vm_compute; reflexivity|]. split; reflexivity. }
  destruct E as (configData & E & Hm & Hl). exists configData.
  split; [exact E|]. split; [exact Hm|]. split; [exact Hl|].
  apply (written_config_valid params script configData E).
Defined.

(** Numbers past the range of binary64 or of the loop counter: a location
    id of 400 digits is kept as [Infinity], and with a column count above
    [2^53] the mapping loop never ends. *)
Example submit_large_numbers :
  Suitelet.parseLocationIds ("7,1" ++ String.concat EmptyString (repeat "0" 400))
  = [numOf 7; S754_infinity false]
  /\ jsonNumber (S754_infinity false) = None
  /\ Suitelet.handleMappingSubmit
       {[ "custpage_column_count" := "9007199254740996";
          "custpage_map_col_0" := "hierarchy"; "custpage_map_col_1" := "itemid";
          "custpage_file_name" := "bom.csv" ]}
       (Suitelet.mkScriptParameters (Some "7") None None)
     = Suitelet.NeverReturns.
Proof. repeat split; vm_compute; reflexivity. Qed.

(** ** The older script's parse *)

Lemma mapCell_V2_sameCore (fieldName value : string) (m m' : MappedRow) :
  sameCore m m' ->
  sameCore (V2.mapCell fieldName value m) (mapCell fieldName value m').
Proof.
  intros (Hn & Hh & Hq & Hi). unfold mapCell, V2.mapCell.
  destruct (negb (Js.truthy (Js.trim value))); [now repeat split|].
  destruct (String.eqb_spec fieldName "hierarchy") as [->|Hh'].
  { now repeat split. }
  destruct (String.eqb_spec fieldName "quantity") as [->|Hq'].
  { now repeat split. }
  destruct (String.eqb_spec fieldName "memo") as [->|Hm'].
  { now repeat split. }
  destruct (String.eqb_spec fieldName "vendor") as [->|Hv'].
  { repeat split; try assumption. now rewrite setItemField_other by discriminate. }
  destruct (String.eqb_spec fieldName "displayname") as [->|Hd'].
  { repeat split; try assumption. now rewrite !setItemField_other by discriminate. }
  destruct (String.eqb_spec fieldName "itemid") as [->|Hi'].
  - repeat split; try assumption. unfold setItemField. cbn [m_itemFields].
    now rewrite !lookup_setProperty_eq by discriminate.
  - repeat split; try assumption. now rewrite !setItemField_other.
Qed.

Lemma mapRow_V2_sameCore (maps : list (nat * string)) (raw : RawRow) :
  sameCore (mapRowWith V2.mapCell maps raw) (mapRowWith mapCell maps raw).
Proof.
  unfold mapRowWith.
  assert (H : sameCore (newMapped (rowNumber raw)) (newMapped (rowNumber raw)))
    by now repeat split.
  revert H. generalize (newMapped (rowNumber raw)) at 1 3.
  generalize (newMapped (rowNumber raw)).
  induction maps as [|[col f] maps IH]; intros m' m H; [exact H|].
  cbn [fold_left]. apply IH. now apply mapCell_V2_sameCore.
Qed.

Lemma mappedRows_V2_core (maps : list (nat * string)) (raws : list RawRow) :
  List.map coreOf (mappedRows V2.mapCell maps raws)
  = List.map coreOf (mappedRows mapCell maps raws).
Proof.
  unfold mappedRows. induction raws as [|raw raws IH]; [reflexivity|].
  cbn [omap list_omap].
  pose proof (keepMapped_sameCore _ _ (mapRow_V2_sameCore maps raw)) as H.
  destruct (keepMapped (mapRowWith mapCell maps raw)) as [r|],
           (keepMapped (mapRowWith V2.mapCell maps raw)) as [r'|];
    cbn [fmap option_fmap option_map] in H; try discriminate H.
  - assert (Hc : coreOf r' = coreOf r) by congruence.
    cbn [List.map]. now rewrite IH, Hc.
  - exact IH.
Qed.

Lemma classify_V2_core (hierarchySet : list string) (rows rows' : list Row) :
  forall inventoryIndex,
    List.map coreOf rows' = List.map coreOf rows ->
    List.map (fun r => (coreOf r, recordType r))
      (List.map (fun row =>
         mkRow (r_rowNumber row) (hierarchy row) (itemFields row) (quantity row)
               (memo row) (vendorName row) (hasDescendant hierarchySet (hierarchy row))
               (Some (if hasDescendant hierarchySet (hierarchy row)
                      then assemblyitem else inventoryitem))
               None (parentOf (hierarchy row))) rows')
    = List.map (fun r => (coreOf r, recordType r))
        (classify_loop hierarchySet inventoryIndex rows).
Proof.
  revert rows'. induction rows as [|r rows IH]; intros [|r' rows'] inventoryIndex H;
    try discriminate H; [reflexivity|].
  cbn in H. injection H as Hn Hh Hi Hq _ _ Hrest.
  cbn [List.map classify_loop]. f_equal; [|now apply IH].
  unfold coreOf. cbn. now rewrite Hn, Hh, Hi, Hq.
Qed.

(** X6.  The older script and the current one read the same rows out of
    a file: row for row the same row number, hierarchy, item id, quantity,
    kind, record type and parent hierarchy, whatever the mappings. *)
Theorem older_parse_agrees (maps : list (nat * string)) (lines : list string) :
  List.map (fun r => (coreOf r, recordType r)) (V2.inputRows maps lines)
  = List.map (fun r => (coreOf r, recordType r)) (inputRows maps lines).
Proof.
  unfold V2.inputRows, inputRows, classify, V2.classify.
  pose proof (mappedRows_V2_core maps (dataRows lines)) as H.
  unfold hierarchySetOf. rewrite (core_hierarchies _ _ H).
  now apply classify_V2_core.
Qed.

(** ** Row numbers *)

Lemma dataRows_from_sorted (lines : list string) :
  forall i, StronglySorted lt (List.map rowNumber (dataRows_from i lines)).
Proof.
  induction lines as [|line more IH]; intros i; [constructor|].
  cbn [dataRows_from]. destruct (existsb _ (parseRow line)); [|apply IH].
  cbn [List.map rowNumber]. constructor; [apply IH|].
  apply Forall_forall. intros n Hn.
  apply list_elem_of_In, in_map_iff in Hn as (raw & <- & Hraw).
  apply dataRows_from_In in Hraw. lia.
Qed.

(** X7.  The row number of a data row is the position of its line among
    the lines that are not blank, counted from 1 with the header line: it
    is at least 2 and at most the number of such lines, the row's cells are
    the fields of that line, one of them is not blank, and the rows come
    with strictly increasing numbers. *)
Theorem dataRows_rowNumbers (lines : list string) :
  StronglySorted lt (List.map rowNumber (dataRows lines))
  /\ forall raw, In raw (dataRows lines) ->
       2 <= rowNumber raw <= length lines
       /\ exists line, lines !! (rowNumber raw - 1) = Some line
            /\ cells raw = parseRow line
            /\ existsb (fun cell => Js.truthy (Js.trim cell)) (cells raw) = true.
Proof.
  unfold dataRows. split; [apply dataRows_from_sorted|].
  intros raw Hin. apply dataRows_from_In in Hin as (Hr & line & Hl & Hc).
  destruct lines as [|first more]; cbn [tail length] in *.
  - rewrite lookup_nil in Hl. discriminate.
  - split; [lia|]. exists line. split; [|exact Hc].
    replace (rowNumber raw - 1) with (S (rowNumber raw - 1 - 1)) by lia. exact Hl.
Qed.

(** ** Mapped rows *)

Lemma truthy_nonempty (s : string) : Js.truthy s = true -> s <> EmptyString.
Proof. now destruct s. Qed.

Lemma storedText_trim (value : string) :
  Js.truthy (Js.trim value) = true -> storedText (Js.trim value).
Proof. intros H. split; [now apply truthy_nonempty | apply trim_idem]. Qed.

Lemma wellMapped_set (maps : list (nat * string)) (f value : string) (m : MappedRow) :
  storedText value -> fieldMapped maps f ->
  wellMapped maps m -> wellMapped maps (setItemField f value m).
Proof.
  intros Hv Hf [Hh Hi]. split; [exact Hh|].
  intros g v. cbn [setItemField m_itemFields]. intros Hg.
  apply lookup_setProperty in Hg as [(-> & -> & _)|Hg]; [now split | now apply Hi].
Qed.

Lemma mapCell_wellMapped (maps : list (nat * string)) (fieldName value : string)
    (m : MappedRow) :
  In fieldName (List.map snd maps) ->
  wellMapped maps m -> wellMapped maps (mapCell fieldName value m).
Proof.
  intros Hin Hm. unfold mapCell.
  destruct (Js.truthy (Js.trim value)) eqn:Ev; cbn [negb]; [|exact Hm].
  pose proof (storedText_trim value Ev) as Hs.
  destruct (String.eqb_spec fieldName "hierarchy") as [->|_].
  { destruct Hm as [Hh Hi]. split; [|exact Hi]. cbn. intros h [= <-]. now split. }
  destruct (String.eqb_spec fieldName "quantity") as [->|_]; [exact Hm|].
  destruct (String.eqb_spec fieldName "memo") as [->|_]; [exact Hm|].
  destruct (String.eqb_spec fieldName "vendor") as [->|_]; [exact Hm|].
  destruct (String.eqb_spec fieldName "displayname") as [->|_].
  { apply wellMapped_set; [exact Hs | right; split; [now right | exact Hin] |].
    apply wellMapped_set; [exact Hs | right; split; [now left | exact Hin] |].
    apply wellMapped_set; [exact Hs | now left | exact Hm]. }
  apply wellMapped_set; [exact Hs | now left | exact Hm].
Qed.

Lemma fold_wellMapped (maps : list (nat * string)) (raw : RawRow)
    (suffix : list (nat * string)) :
  forall m,
    incl suffix maps ->
    wellMapped maps m ->
    wellMapped maps
      (fold_left (fun m (e : nat * string) => mapCell (snd e) (cellAt (cells raw) (fst e)) m)
                 suffix m).
Proof.
  induction suffix as [|[col f] suffix IH]; intros m Hincl Hm; [exact Hm|].
  cbn [fold_left]. apply IH.
  - intros e He. apply Hincl. now right.
  - apply mapCell_wellMapped; [|exact Hm].
    apply in_map_iff. exists (col, f). split; [reflexivity|]. apply Hincl. now left.
Qed.

Lemma mapRow_wellMapped (maps : list (nat * string)) (raw : RawRow) :
  wellMapped maps (mapRowWith mapCell maps raw).
Proof.
  unfold mapRowWith. apply fold_wellMapped; [apply incl_refl|].
  split; [discriminate|]. intros f v. cbn. now rewrite lookup_empty.
Qed.

(** X8.  Every row [getInputData] returns has a hierarchy and an item id
    that are not empty and are trimmed, and so is every item field it
    carries; each field comes from a column mapped to it, the two
    descriptions from a column mapped to [displayname].  So no row is
    returned unless a column is mapped to [hierarchy] and one to
    [itemid]. *)
Theorem inputRows_wellformed (maps : list (nat * string)) (lines : list string) :
  (forall row, In row (inputRows maps lines) ->
     storedText (hierarchy row)
     /\ (exists i, itemFields row !! "itemid" = Some i /\ itemid row = i)
     /\ (forall f v, itemFields row !! f = Some v -> storedText v /\ fieldMapped maps f))
  /\ (inputRows maps lines <> [] ->
      In "hierarchy" (List.map snd maps) /\ In "itemid" (List.map snd maps)).
Proof.
  assert (H : forall row, In row (inputRows maps lines) ->
            storedText (hierarchy row)
            /\ In "hierarchy" (List.map snd maps)
            /\ (exists i, itemFields row !! "itemid" = Some i /\ itemid row = i)
            /\ (forall f v, itemFields row !! f = Some v ->
                  storedText v /\ fieldMapped maps f)).
  { intros row Hrow. unfold inputRows, classify in Hrow.
    apply classify_loop_In in Hrow as (row0 & Hrow0 & Hh & Hf & _).
    apply In_mappedRows in Hrow0 as (raw & _ & Hkeep).
    destruct (mapRow_wellMapped maps raw) as [Hwh Hwf].
    unfold keepMapped in Hkeep.
    destruct (m_hierarchy (mapRowWith mapCell maps raw)) as [h|] eqn:Eh; [|discriminate].
    destruct (m_itemFields (mapRowWith mapCell maps raw) !! "itemid") as [i|] eqn:Ei;
      [|discriminate].
    destruct (Js.truthy h && Js.truthy i)%bool; [|discriminate].
    injection Hkeep as <-. cbn [hierarchy itemFields] in Hh, Hf.
    rewrite Hh. unfold itemid. rewrite Hf.
    destruct (Hwh h eq_refl) as [Hs Hm].
    split; [exact Hs|]. split; [exact Hm|]. split.
    - exists i. rewrite Ei. now split.
    - exact Hwf. }
  split.
  - intros row Hrow. destruct (H row Hrow) as (Hs & _ & Hi & Hf).
    split; [exact Hs|split; [exact Hi|exact Hf]].
  - intros Hne. destruct (inputRows maps lines) as [|row rows] eqn:E; [congruence|].
    destruct (H row (or_introl eq_refl)) as (_ & Hh & (i & Hi & _) & Hf).
    split; [exact Hh|]. destruct (Hf "itemid" i Hi) as [_ [Hin|[[Hc|Hc] _]]];
      [exact Hin | discriminate Hc | discriminate Hc].
Qed.

(** ** Rotation indices and kinds *)

Lemma classify_loop_rotation (hierarchySet : list string) (rows : list Row) :
  forall i,
    omap mrpRotationIndex (classify_loop hierarchySet i rows)
    = seq i (length (List.filter (fun r => negb (isAssembly r))
                                 (classify_loop hierarchySet i rows)))
    /\ forall row, In row (classify_loop hierarchySet i rows) ->
         (isAssembly row = true <-> mrpRotationIndex row = None).
Proof.
  induction rows as [|r rows IH]; intros i; [split; [reflexivity|intros _ []]|].
  cbn [classify_loop].
  destruct (hasDescendant hierarchySet (hierarchy r)) eqn:E.
  - destruct (IH i) as [Hseq Hrows]. split.
    + cbn [omap list_omap mrpRotationIndex List.filter isAssembly negb]. exact Hseq.
    + intros row [<-|Hrow]; [now cbn | now apply Hrows].
  - destruct (IH (S i)) as [Hseq Hrows]. split.
    + cbn [omap list_omap mrpRotationIndex List.filter isAssembly negb length seq].
      now rewrite Hseq.
    + intros row [<-|Hrow]; [now cbn | now apply Hrows].
Qed.

(** X9.  The inventory rows get the rotation indices 0, 1, 2, ... in the
    order of the file, the assembly rows get none: the indices of the rows
    are the numbers below the count of inventory rows that stage [map]
    writes under the inventory key. *)
Theorem rotation_indices (maps : list (nat * string)) (lines : list string) :
  let rows := inputRows maps lines in
  omap mrpRotationIndex rows = seq 0 (length (fst (mapStage rows)))
  /\ omap mrpRotationIndex (snd (mapStage rows)) = []
  /\ forall row, In row rows -> (isAssembly row = true <-> mrpRotationIndex row = None).
Proof.
  cbv zeta. unfold inputRows, classify, mapStage. cbn [fst snd].
  destruct (classify_loop_rotation
              (hierarchySetOf (mappedRows mapCell maps (dataRows lines))) 
              (mappedRows mapCell maps (dataRows lines)) 0) as [Hseq Hrows].
  split; [exact Hseq|]. split; [|exact Hrows].
  set (rows := classify_loop _ 0 _) in *. clearbody rows. clear Hseq.
  induction rows as [|r rows IH]; [reflexivity|].
  cbn [List.filter]. destruct (isAssembly r) eqn:E.
  - cbn [omap list_omap]. rewrite (proj1 (Hrows r (or_introl eq_refl)) E).
    apply IH. intros row Hrow. apply Hrows. now right.
  - apply IH. intros row Hrow. apply Hrows. now right.
Qed.

(** ** Parents *)

(** X10.  A row that is the parent of a row of the list is an assembly:
    whenever the parent hierarchy of a row is the hierarchy of a row, that
    row is classified as an assembly item.  So an inventory row never has
    direct children, and every component of a structure hangs under an
    assembly row. *)
Theorem parent_rows_are_assemblies (maps : list (nat * string)) (lines : list string) :
  let rows := inputRows maps lines in
  (forall parent child,
     In parent rows -> In child rows ->
     parentHierarchy child = Some (hierarchy parent) ->
     isAssembly parent = true /\ recordType parent = Some assemblyitem)
  /\ (forall row, In row rows -> isAssembly row = false ->
        directChildrenOf rows (hierarchy row) = []).
Proof.
  cbv zeta.
  assert (H : forall parent child,
            In parent (inputRows maps lines) -> In child (inputRows maps lines) ->
            parentHierarchy child = Some (hierarchy parent) ->
            isAssembly parent = true).
  { intros parent child Hparent Hchild Hp. unfold inputRows in *.
    set (rows0 := mappedRows mapCell maps (dataRows lines)) in *.
    rewrite (classify_isAssembly rows0 parent Hparent).
    apply hasDescendant_spec.
    assert (Hkey : In (hierarchy child) (List.map hierarchy rows0)).
    { unfold classify in Hchild.
      rewrite <- (classify_hierarchies (hierarchySetOf rows0) rows0 0).
      now apply in_map. }
    unfold classify in Hchild.
    apply classify_loop_In in Hchild as (row0 & _ & Hh & _ & _ & _ & _ & Hpar).
    rewrite <- Hh in Hpar. rewrite Hpar in Hp.
    destruct (key_shape (hierarchy child)) as [Hd|(p & seg & Hseg & E)].
    - rewrite (parentOf_root _ Hd) in Hp. discriminate.
    - rewrite E, (parentOf_extend p seg Hseg) in Hp. injection Hp as ->.
      exists (hierarchy child), seg. split; [exact Hkey|exact E]. }
  split.
  - intros parent child Hparent Hchild Hp.
    pose proof (H parent child Hparent Hchild Hp) as Hasm. split; [exact Hasm|].
    unfold inputRows, classify in Hparent.
    apply classify_loop_In in Hparent as (row0 & _ & _ & _ & _ & _ & Hty & _).
    now rewrite Hty, Hasm.
  - intros row Hrow Hinv.
    destruct (directChildrenOf (inputRows maps lines) (hierarchy row)) as [|child rest] eqn:E;
      [reflexivity|].
    assert (Hchild : In child (directChildrenOf (inputRows maps lines) (hierarchy row)))
      by (rewrite E; now left).
    apply In_directChildrenOf in Hchild as [Hin Hp].
    rewrite (H row child Hrow Hin Hp) in Hinv. discriminate.
Qed.

(** ** What the steps of stage [reduce] do to the store *)

Lemma ensureItemLocations_loop_effect (itemId : positive) (d : Defaults)
    (existing locs : list positive) :
  forall (added : nat) (s : Store),
    let r := ensureItemLocations_loop itemId d existing locs added s in
    let news := List.filter
                  (fun loc =>
                     (negb (existsb (Pos.eqb loc) existing)
                      && negb (refuses s (SaveLocConfig (plainLocConfig itemId loc d))))%bool)
                  locs in
    fst r = added + length news
    /\ locconfigs (snd r)
       = (locconfigs s ++ List.map (fun loc => plainLocConfig itemId loc d) news)%list
    /\ besideLocConfigs (snd r) = besideLocConfigs s.
Proof.
  induction locs as [|loc locs IH]; intros added s; cbn zeta.
  - cbn. now rewrite Nat.add_0_r, app_nil_r.
  - cbn [ensureItemLocations_loop List.filter].
    destruct (existsb (Pos.eqb loc) existing); cbn [negb andb]; [apply IH|].
    destruct (refuses s (SaveLocConfig (plainLocConfig itemId loc d))) eqn:Er;
      cbn [negb]; [apply IH|].
    destruct (IH (S added)
                (withLocConfigs (fun t => (t ++ [plainLocConfig itemId loc d])%list) s))
      as (Hn & Hl & Hb).
    cbn zeta in Hn, Hl, Hb. cbn [refuses withLocConfigs locconfigs] in Hn, Hl.
    rewrite Hn, Hl, Hb. cbn [length List.map]. split; [lia|].
    split; [now rewrite <- app_assoc|reflexivity].
Qed.

Lemma ensureItemLocations_effect (itemId : positive) (ctx : Context) (s : Store) :
  let r := ensureItemLocations itemId ctx s in
  let news := missingLocations itemId (defaultsOf ctx) (locationIds (defaultsOf ctx)) s in
  fst r = length news
  /\ locconfigs (snd r)
     = (locconfigs s
        ++ List.map (fun loc => plainLocConfig itemId loc (defaultsOf ctx)) news)%list
  /\ besideLocConfigs (snd r) = besideLocConfigs s.
Proof.
  unfold ensureItemLocations, missingLocations.
  apply (ensureItemLocations_loop_effect itemId (defaultsOf ctx)
           (getExistingItemLocations itemId s) (locationIds (defaultsOf ctx)) 0 s).
Qed.

Lemma newLocConfigs_cons (itemId : positive) (d : Defaults) (isAsm : bool)
    (rotationIndex locIndex : nat) (loc : positive) (locs : list positive) :
  newLocConfigs itemId d isAsm rotationIndex locIndex (loc :: locs)
  = newLocConfig itemId loc d isAsm rotationIndex locIndex
    :: newLocConfigs itemId d isAsm rotationIndex (S locIndex) locs.
Proof.
  unfold newLocConfigs. cbn [imap]. rewrite Nat.add_0_r. f_equal.
  apply imap_ext. intros i x _. cbn. f_equal. lia.
Qed.

Lemma newLocConfigs_keys (itemId : positive) (d : Defaults) (isAsm : bool)
    (rotationIndex : nat) (locs : list positive) :
  forall locIndex,
    List.map locKey (newLocConfigs itemId d isAsm rotationIndex locIndex locs)
    = List.map (pair itemId) locs.
Proof.
  induction locs as [|loc locs IH]; intros locIndex; [reflexivity|].
  rewrite newLocConfigs_cons. cbn [List.map]. rewrite IH. f_equal.
  unfold newLocConfig. now destruct (setupMRP d).
Qed.

Lemma createItemLocations_loop_effect (itemId : positive) (d : Defaults) (isAsm : bool)
    (rotationIndex : nat) (locs : list positive) :
  forall (locIndex : nat) (s : Store),
    let s' := createItemLocations_loop itemId d isAsm rotationIndex locIndex locs s in
    locconfigs s'
    = (locconfigs s ++ acceptedConfigs itemId d isAsm rotationIndex locIndex locs s)%list
    /\ besideLocConfigs s' = besideLocConfigs s.
Proof.
  unfold acceptedConfigs.
  induction locs as [|loc locs IH]; intros locIndex s; cbn zeta.
  - cbn. now rewrite app_nil_r.
  - rewrite newLocConfigs_cons. cbn [createItemLocations_loop List.filter].
    destruct (refuses s (SaveLocConfig _)) eqn:Er; cbn [negb]; [apply IH|].
    destruct (IH (S locIndex)
                (withLocConfigs
                   (fun t => (t ++ [newLocConfig itemId loc d isAsm rotationIndex locIndex])%list)
                   s)) as (Hl & Hb).
    cbn zeta in Hl, Hb. cbn [refuses withLocConfigs locconfigs] in Hl.
    rewrite Hl, Hb. split; [|reflexivity].
    now rewrite <- app_assoc.
Qed.

Lemma acceptedConfigs_length (itemId : positive) (d : Defaults) (isAsm : bool)
    (rotationIndex locIndex : nat) (locs : list positive) (s : Store) :
  length (acceptedConfigs itemId d isAsm rotationIndex locIndex locs s) <= length locs.
Proof.
  unfold acceptedConfigs, newLocConfigs.
  etransitivity; [apply List.filter_length_le|]. now rewrite length_imap.
Qed.

Lemma newLocConfigs_locations (itemId : positive) (d : Defaults) (isAsm : bool)
    (rotationIndex : nat) (locs : list positive) :
  forall locIndex,
    List.map lc_location (newLocConfigs itemId d isAsm rotationIndex locIndex locs) = locs.
Proof.
  induction locs as [|loc locs IH]; intros locIndex; [reflexivity|].
  rewrite newLocConfigs_cons. cbn [List.map]. rewrite IH. f_equal.
  unfold newLocConfig. now destruct (setupMRP d).
Qed.

Lemma acceptedConfigs_keys (itemId : positive) (d : Defaults) (isAsm : bool)
    (rotationIndex locIndex : nat) (locs : list positive) (s : Store) :
  List.map locKey (acceptedConfigs itemId d isAsm rotationIndex locIndex locs s)
  = List.map (pair itemId)
      (List.map lc_location (acceptedConfigs itemId d isAsm rotationIndex locIndex locs s)).
Proof.
  rewrite List.map_map. apply map_ext_in. intros record Hin.
  unfold acceptedConfigs in Hin. apply filter_In in Hin as [Hin _].
  apply (in_map locKey) in Hin. rewrite newLocConfigs_keys in Hin.
  apply in_map_iff in Hin as (loc & Hk & _).
  unfold locKey in *. injection Hk as Hi _. now rewrite <- Hi.
Qed.

Lemma map_vl_vendor (e : positive) (lines : list VendorLine) :
  List.map vl_vendor (List.map (fun l => mkVendorLine (vl_vendor l) (Some e)) lines)
  = List.map vl_vendor lines.
Proof. rewrite List.map_map. now apply map_ext. Qed.

Lemma saveItem_effect (s : Store) (id : positive) (old new : Item) :
  items s !! indexOf id = Some old ->
  withoutPlanning new = withoutPlanning old ->
  let s' := withItems (fun t => <[indexOf id := new]> t) s in
  besideItems s' = besideItems s
  /\ List.map withoutPlanning (items s') = List.map withoutPlanning (items s).
Proof.
  intros Hold Hkey. cbn zeta. split; [reflexivity|].
  cbn. now rewrite (map_insert_same withoutPlanning _ _ _ _ Hold Hkey).
Qed.

Lemma ensureMRPSettings_effect (itemId : positive) (ctx : Context) (row : Row) (s : Store) :
  let s' := snd (ensureMRPSettings itemId ctx row s) in
  besideItems s' = besideItems s
  /\ List.map withoutPlanning (items s') = List.map withoutPlanning (items s).
Proof.
  cbn zeta. unfold ensureMRPSettings.
  destruct (negb (setupMRP (defaultsOf ctx))); [now split|].
  destruct (loadItem (recordType row) itemId s) as [itemRec|] eqn:El; [|now split].
  apply loadItem_lookup in El.
  match goal with |- context [if ?b then _ else (false, s)] => destruct b end; [|now split].
  destruct (refuses s (SaveItemUpdate itemId)); [now split|].
  cbn [snd]. now apply (saveItem_effect s itemId itemRec).
Qed.

Lemma ensureVendorSubsidiary_effect (itemId : positive) (ty : option RecordType)
    (ctx : Context) (s : Store) :
  let s' := snd (ensureVendorSubsidiary itemId ty ctx s) in
  besideItems s' = besideItems s
  /\ List.map withoutPlanning (items s') = List.map withoutPlanning (items s).
Proof.
  cbn zeta. unfold ensureVendorSubsidiary.
  destruct (vendorSubsidiaryOf (defaultsOf ctx)) as [e|]; [|now split].
  destruct (loadItem ty itemId s) as [itemRec|] eqn:El; [|now split].
  apply loadItem_lookup in El.
  destruct (existsb _ (it_vendors itemRec)); [|now split].
  destruct (refuses s (SaveItemUpdate itemId)); [now split|].
  cbn [snd]. apply (saveItem_effect s itemId itemRec); [exact El|].
  unfold withoutPlanning. cbn. now rewrite map_vl_vendor.
Qed.

Lemma ensureLocationMRPSettings_loop_beside (isAsm : bool) (rotationIndex : nat)
    (results : list (positive * LocConfig)) :
  forall (locIndex updated : nat) (s : Store),
    besideLocConfigs
      (snd (ensureLocationMRPSettings_loop isAsm rotationIndex locIndex results updated s))
    = besideLocConfigs s.
Proof.
  induction results as [|[configId lc] results IH]; intros locIndex updated s; [reflexivity|].
  cbn [ensureLocationMRPSettings_loop].
  destruct (negb (needsUpdate isAsm rotationIndex locIndex lc)); [apply IH|].
  destruct (refuses s (SaveLocConfigUpdate configId)); [apply IH|].
  now rewrite IH.
Qed.

Lemma ensureLocationMRPSettings_effect (itemId : positive) (ctx : Context) (row : Row)
    (s : Store) :
  let s' := snd (ensureLocationMRPSettings itemId ctx row s) in
  besideLocConfigs s' = besideLocConfigs s
  /\ List.map locKey (locconfigs s') = List.map locKey (locconfigs s).
Proof.
  cbn zeta. split.
  - unfold ensureLocationMRPSettings.
    destruct (negb (setupMRP (defaultsOf ctx))); [reflexivity|].
    apply ensureLocationMRPSettings_loop_beside.
  - apply shape_locKeys. apply (ensureLocationMRPSettings_sameShape itemId ctx row s).
Qed.

Lemma besideItems_eq (s s' : Store) :
  besideItems s' = besideItems s ->
  locconfigs s' = locconfigs s /\ besideItemsAndLocations s' = besideItemsAndLocations s.
Proof.
  unfold besideItems, besideItemsAndLocations. intros [= -> -> -> -> -> ->]. now split.
Qed.

Lemma besideLocConfigs_eq (s s' : Store) :
  besideLocConfigs s' = besideLocConfigs s ->
  items s' = items s /\ besideItemsAndLocations s' = besideItemsAndLocations s.
Proof.
  unfold besideLocConfigs, besideItemsAndLocations. intros [= -> -> -> -> -> ->]. now split.
Qed.

Lemma beside_refuses (s s' : Store) :
  besideItemsAndLocations s' = besideItemsAndLocations s -> refuses s' = refuses s.
Proof. unfold besideItemsAndLocations. now intros [= _ _ _ _ ->]. Qed.

Lemma createItem_effect (ctx : Context) (row : Row) (s : Store) :
  let e := itemExternalId (strOf (c_prospectName ctx)) (itemid row) in
  let r := createItem ctx row s in
  match fst r with
  | None => snd r = s
  | Some itemId =>
      itemId = idOf (length (items s))
      /\ (exists ty rec,
            recordType row = Some ty
            /\ refuses s (SaveItem ty e) = false
            /\ items (snd r) = (items s ++ [rec])%list
            /\ it_type rec = ty /\ it_externalid rec = e
            /\ it_fields rec = acceptedFields ty (itemFields row) s /\ it_boms rec = [])
      /\ locconfigs (snd r)
         = (locconfigs s
            ++ acceptedConfigs itemId (defaultsOf ctx) (isAssembly row)
                 (default 0 (mrpRotationIndex row)) 0 (locationIds (defaultsOf ctx)) s)%list
      /\ besideItemsAndLocations (snd r) = besideItemsAndLocations s
  end.
Proof.
  cbn zeta. unfold createItem.
  destruct (recordType row) as [ty|]; [|reflexivity].
  destruct (refuses s (SaveItem ty _)) eqn:Er; [reflexivity|].
  cbn [fst snd]. unfold createItemLocations.
  match goal with
  | |- context [createItemLocations_loop ?i ?d ?a ?r ?l ?locs ?s0] =>
      destruct (createItemLocations_loop_effect i d a r locs l s0) as (Hl & Hb)
  end.
  cbn zeta in Hl, Hb. apply besideLocConfigs_eq in Hb as [Hi Hb].
  split; [reflexivity|]. split; [|split].
  - eexists ty, _. split; [reflexivity|]. split; [exact Er|].
    split; [rewrite Hi; reflexivity|]. now repeat split.
  - rewrite Hl. reflexivity.
  - rewrite Hb. reflexivity.
Qed.

(** What one row does in stage [reduce]. *)
Lemma reduceRow_effect (ctx : Context) (row : Row) (st : ReduceStats) (s : Store) :
  let e := itemExternalId (strOf (c_prospectName ctx)) (itemid row) in
  let d := defaultsOf ctx in
  let locs := locationIds d in
  let r := reduceRow ctx row (st, s) in
  besideItemsAndLocations (snd r) = besideItemsAndLocations s
  /\ match findItemByExternalId e s with
     | Some itemId =>
         created (fst r) = created st /\ skipped (fst r) = S (skipped st)
         /\ failed (fst r) = failed st
         /\ locationsCreated (fst r)
            = locationsCreated st + length (missingLocations itemId d locs s)
         /\ List.map withoutPlanning (items (snd r)) = List.map withoutPlanning (items s)
         /\ List.map locKey (locconfigs (snd r))
            = (List.map locKey (locconfigs s)
               ++ List.map (pair itemId) (missingLocations itemId d locs s))%list
     | None =>
         skipped (fst r) = skipped st /\ locationsCreated (fst r) = locationsCreated st
         /\ ((created (fst r) = created st /\ failed (fst r) = S (failed st) /\ snd r = s)
             \/ (created (fst r) = S (created st) /\ failed (fst r) = failed st
                 /\ (exists ty rec,
                       recordType row = Some ty
                       /\ refuses s (SaveItem ty e) = false
                       /\ items (snd r) = (items s ++ [rec])%list
                       /\ it_type rec = ty /\ it_externalid rec = e
                       /\ it_fields rec = acceptedFields ty (itemFields row) s
                       /\ it_boms rec = [])
                 /\ locconfigs (snd r)
                    = (locconfigs s
                       ++ acceptedConfigs (idOf (length (items s))) d (isAssembly row)
                            (default 0 (mrpRotationIndex row)) 0 locs s)%list))
     end.
Proof.
  cbn zeta. unfold reduceRow.
  destruct (findItemByExternalId _ s) as [itemId|] eqn:Ef.
  - destruct (ensureItemLocations_effect itemId ctx s) as (Hn & Hl1 & Hb1). cbn zeta in *.
    destruct (ensureItemLocations itemId ctx s) as [locsAdded s1]. cbn [fst snd] in *.
    destruct (ensureMRPSettings_effect itemId ctx row s1) as (Hb2 & Hi2). cbn zeta in *.
    destruct (ensureMRPSettings itemId ctx row s1) as [mrpUpdated s2]. cbn [fst snd] in *.
    destruct (ensureLocationMRPSettings_effect itemId ctx row s2) as (Hb3 & Hl3).
    cbn zeta in *.
    destruct (ensureLocationMRPSettings itemId ctx row s2) as [locsUpdated s3].
    cbn [fst snd] in *.
    destruct (ensureVendorSubsidiary_effect itemId (recordType row) ctx s3) as (Hb4 & Hi4).
    cbn zeta in *.
    destruct (ensureVendorSubsidiary itemId (recordType row) ctx s3) as [vendorUpdated s4].
    cbn [fst snd created skipped failed locationsCreated] in *.
    apply besideLocConfigs_eq in Hb1 as [Hi1 Hb1].
    apply besideItems_eq in Hb2 as [Hl2 Hb2].
    apply besideLocConfigs_eq in Hb3 as [Hi3 Hb3].
    apply besideItems_eq in Hb4 as [Hl4 Hb4].
    split; [congruence|].
    split; [reflexivity|]. split; [reflexivity|]. split; [reflexivity|].
    split; [now rewrite Hn|]. split.
    + now rewrite Hi4, Hi3, Hi2, Hi1.
    + rewrite Hl4, Hl3, Hl2, Hl1, map_app, List.map_map. reflexivity.
  - pose proof (createItem_effect ctx row s) as Hc. cbn zeta in Hc.
    destruct (createItem ctx row s) as [[newId|] s1]; cbn [fst snd] in *.
    + destruct Hc as (-> & Hrec & Hl & Hb).
      cbn [created skipped failed locationsCreated].
      split; [exact Hb|]. split; [reflexivity|]. split; [reflexivity|].
      right. split; [reflexivity|]. split; [reflexivity|]. split; [exact Hrec|exact Hl].
    + subst s1. cbn [created skipped failed locationsCreated].
      split; [reflexivity|]. split; [reflexivity|]. split; [reflexivity|].
      left. now repeat split.
Qed.

Lemma map_project {A B C : Type} (f : A -> B) (g : B -> C) (l l' : list A) :
  List.map f l' = List.map f l ->
  List.map (fun x => g (f x)) l' = List.map (fun x => g (f x)) l.
Proof. intros H. rewrite <- !(List.map_map f g). now rewrite H. Qed.

Lemma withoutPlanning_links (l l' : list Item) :
  List.map withoutPlanning l' = List.map withoutPlanning l ->
  List.map it_boms l' = List.map it_boms l.
Proof. apply (map_project withoutPlanning snd). Qed.

Lemma withoutPlanning_externalids (l l' : list Item) :
  List.map withoutPlanning l' = List.map withoutPlanning l ->
  List.map it_externalid l' = List.map it_externalid l.
Proof. apply (map_project withoutPlanning (fun k => snd (fst (fst (fst k))))). Qed.

Lemma withoutPlanning_identity (l l' : list Item) :
  List.map withoutPlanning l' = List.map withoutPlanning l ->
  List.map itemIdentity l' = List.map itemIdentity l.
Proof. apply (map_project withoutPlanning fst). Qed.

Lemma map_length_eq {A B : Type} (f : A -> B) (l l' : list A) :
  List.map f l' = List.map f l -> length l' = length l.
Proof. intros H. apply (f_equal (@length B)) in H. now rewrite !length_map in H. Qed.

Lemma filter_length_le {A : Type} (p : A -> bool) (l : list A) :
  length (List.filter p l) <= length l.
Proof.
  induction l as [|x l IH]; [cbn; lia|]. cbn. destruct (p x); cbn; lia.
Qed.

(** ** Accounting of stage [reduce] *)

Lemma reduce_fold_accounting (ctx : Context) (records : list Row) :
  forall (st : ReduceStats) (s : Store),
    let r := fold_left (fun acc rowData => reduceRow ctx rowData acc) records (st, s) in
    let n := length (locationIds (defaultsOf ctx)) in
    created (fst r) + skipped (fst r) + failed (fst r)
      = created st + skipped st + failed st + length records
    /\ length (items (snd r)) + created st = length (items s) + created (fst r)
    /\ created st <= created (fst r)
    /\ length (locconfigs s) + locationsCreated (fst r)
       <= length (locconfigs (snd r)) + locationsCreated st
    /\ length (locconfigs (snd r)) + locationsCreated st + created st * n
       <= length (locconfigs s) + locationsCreated (fst r) + created (fst r) * n
    /\ concat (List.map it_boms (items (snd r))) = concat (List.map it_boms (items s))
    /\ besideItemsAndLocations (snd r) = besideItemsAndLocations s.
Proof.
  induction records as [|row records IH]; intros st s; cbn zeta.
  - cbn [fold_left fst snd length]. repeat split; lia.
  - cbn [fold_left length].
    destruct (reduceRow_effect ctx row st s) as (Hb & Hrow). cbn zeta in Hb, Hrow.
    destruct (reduceRow ctx row (st, s)) as [st1 s1] eqn:E1. cbn [fst snd] in Hb, Hrow.
    destruct (IH st1 s1) as (Hc & Hi & Hm & Hl1 & Hl2 & Hk & Hbb). cbn zeta in *.
    set (r := fold_left _ records (st1, s1)) in *. clearbody r.
    set (n := length (locationIds (defaultsOf ctx))) in *.
    assert (Hstep :
      created st1 + skipped st1 + failed st1 = S (created st + skipped st + failed st)
      /\ length (items s1) + created st = length (items s) + created st1
      /\ created st <= created st1
      /\ length (locconfigs s) + locationsCreated st1
         <= length (locconfigs s1) + locationsCreated st
      /\ length (locconfigs s1) + locationsCreated st + created st * n
         <= length (locconfigs s) + locationsCreated st1 + created st1 * n
      /\ concat (List.map it_boms (items s1)) = concat (List.map it_boms (items s))).
    { destruct (findItemByExternalId _ s) as [itemId|].
      - destruct Hrow as (Hcr & Hsk & Hfa & Hlc & Hit & Hlk).
        pose proof (f_equal (@length _) Hlk) as Hlen. rewrite length_app, !length_map in Hlen.
        pose proof (map_length_eq _ _ _ Hit) as Hlen'.
        rewrite (withoutPlanning_links _ _ Hit).
        repeat split; lia.
      - destruct Hrow as (Hsk & Hlc & [(Hcr & Hfa & ->)|(Hcr & Hfa & Hrec & Hlk)]).
        + repeat split; lia.
        + destruct Hrec as (ty & rec & _ & _ & Hitems & _ & _ & _ & Hboms).
          pose proof (f_equal (@length _) Hlk) as Hlen. rewrite length_app in Hlen.
          pose proof (acceptedConfigs_length (idOf (length (items s))) (defaultsOf ctx)
                        (isAssembly row) (default 0 (mrpRotationIndex row)) 0
                        (locationIds (defaultsOf ctx)) s) as Hle.
          fold n in Hle.
          rewrite Hitems, length_app, map_app, concat_app. cbn [length List.map concat].
          rewrite Hboms, !app_nil_r.
          repeat split; lia. }
    destruct Hstep as (Hc0 & Hi0 & Hm0 & Hl10 & Hl20 & Hk0).
    repeat split; try lia; try congruence.
Qed.

(** X11.  Stage [reduce] counts every record once, as created, skipped or
    failed; the items table grows by the number it reports as created; the
    location configurations grow by at least the number it reports as added
    to existing items and at most that number plus one per configured
    location of a created item; and no BOM, revision, link, category or
    vendor is written. *)
Theorem reduce_accounting (ctx : Context) (records : list Row) (s : Store) :
  let st := fst (reduce ctx records s) in
  let s' := snd (reduce ctx records s) in
  created st + skipped st + failed st = length records
  /\ length (items s') = length (items s) + created st
  /\ length (locconfigs s) + locationsCreated st <= length (locconfigs s')
  /\ length (locconfigs s')
     <= length (locconfigs s) + locationsCreated st
        + created st * length (locationIds (defaultsOf ctx))
  /\ concat (List.map it_boms (items s')) = concat (List.map it_boms (items s))
  /\ besideItemsAndLocations s' = besideItemsAndLocations s.
Proof.
  cbn zeta. unfold reduce.
  destruct (reduce_fold_accounting ctx records noReduceStats s)
    as (Hc & Hi & _ & Hl1 & Hl2 & Hk & Hb).
  cbn zeta in *. cbn [noReduceStats created skipped failed locationsCreated] in *.
  repeat split; try lia; assumption.
Qed.

(** ** What the steps of stage [summarize] do to the store *)

Lemma concat_insert_length {A B : Type} (f : A -> list B) (l : list A) :
  forall (i : nat) (old new : A),
    l !! i = Some old ->
    length (concat (List.map f (<[i := new]> l))) + length (f old)
    = length (concat (List.map f l)) + length (f new).
Proof.
  induction l as [|x l IH]; intros i old new Hi; [rewrite lookup_nil in Hi; discriminate|].
  destruct i as [|i].
  - cbn in Hi. injection Hi as ->. cbn. rewrite !length_app. lia.
  - cbn in Hi. change (<[S i := new]> (x :: l)) with (x :: <[i := new]> l).
    cbn [List.map concat]. rewrite !length_app. pose proof (IH i old new Hi) as H. lia.
Qed.

Lemma linkEdit_effect (bomId : positive) (lines lines' : list BomLink) :
  linkEdit bomId lines = Some lines' ->
  length lines' <= S (length lines)
  /\ forall b, In b (List.map bl_bom lines) -> In b (List.map bl_bom lines').
Proof.
  unfold linkEdit. destruct (findLinkLine bomId 0 lines) as [[i l]|] eqn:Ef.
  - destruct (bl_masterdefault l); [discriminate|]. intros [= <-].
    apply findLinkLine_Some in Ef as (k & -> & Hk & Hb). cbn [Nat.add].
    split; [rewrite length_insert; lia|].
    intros b Hin. now rewrite (map_insert_same bl_bom lines k _ l Hk).
  - intros [= <-]. split; [rewrite length_app; cbn; lia|].
    intros b Hin. rewrite map_app. apply in_or_app. now left.
Qed.

Lemma linksOf_insert (s : Store) (id id' : positive) (it : Item) :
  indexOf id < length (items s) ->
  linksOf id' (withItems (fun t => <[indexOf id := it]> t) s)
  = if decide (indexOf id' = indexOf id) then it_boms it else linksOf id' s.
Proof.
  intros Hlt. unfold linksOf. cbn [items withItems].
  destruct (decide (indexOf id' = indexOf id)) as [->|Hne].
  - now rewrite list_lookup_insert_eq.
  - now rewrite list_lookup_insert_ne by congruence.
Qed.

Lemma ensureBOMLinkedToAssembly_effect (assemblyId bomId : positive) (s : Store) :
  let r := ensureBOMLinkedToAssembly assemblyId bomId s in
  besideItems (snd r) = besideItems s
  /\ List.map withoutLinks (items (snd r)) = List.map withoutLinks (items s)
  /\ (forall id b, In b (List.map bl_bom (linksOf id s)) ->
                   In b (List.map bl_bom (linksOf id (snd r))))
  /\ linkCount (snd r) <= linkCount s + (if fst r then 1 else 0).
Proof.
  cbn zeta. unfold ensureBOMLinkedToAssembly.
  destruct (loadItem (Some assemblyitem) assemblyId s) as [rec|] eqn:El;
    [|cbn [fst snd]; repeat split; [tauto|lia]].
  destruct (linkEdit bomId (it_boms rec)) as [lines'|] eqn:Ee;
    [|cbn [fst snd]; repeat split; [tauto|lia]].
  destruct (refuses s (SaveLink assemblyId bomId));
    [cbn [fst snd]; repeat split; [tauto|lia]|].
  cbn [fst snd]. apply loadItem_lookup in El.
  destruct (linkEdit_effect bomId _ _ Ee) as [Hlen Hkeep].
  split; [reflexivity|]. split; [|split].
  - cbn [items withItems]. now apply (map_insert_same withoutLinks _ _ _ rec).
  - intros id b Hin. rewrite linksOf_insert by (now apply lookup_lt_Some in El).
    destruct (decide (indexOf id = indexOf assemblyId)) as [E|_]; [|exact Hin].
    cbn [setItemBoms it_boms]. apply Hkeep.
    unfold linksOf in Hin. now rewrite E, El in Hin.
  - unfold linkCount. cbn [items withItems].
    pose proof (concat_insert_length it_boms (items s) (indexOf assemblyId) rec
                  (setItemBoms rec lines') El) as H.
    cbn [setItemBoms it_boms] in H. lia.
Qed.

(** What one assembly row does in stage [summarize]. *)
Lemma summarizeAssembly_effect (ns : string) (d : Defaults) (allRows : list Row)
    (assembly : Row) (st : SummaryStats) (s : Store) :
  let r := summarizeAssembly ns d allRows assembly (st, s) in
  let eB := bomExternalId ns (itemid assembly) in
  let eR := revisionExternalId ns (itemid assembly) in
  besideStructures (snd r) = besideStructures s
  /\ List.map withoutLinks (items (snd r)) = List.map withoutLinks (items s)
  /\ (exists newBoms,
        boms (snd r) = (boms s ++ newBoms)%list
        /\ bomsCreated (fst r) = bomsCreated st + length newBoms
        /\ (newBoms = []
            \/ exists b, newBoms = [b] /\ bom_externalid b = eB
                 /\ findBOMByExternalId eB s = None))
  /\ (exists newRevisions,
        revisions (snd r) = (revisions s ++ newRevisions)%list
        /\ revisionsCreated (fst r) = revisionsCreated st + length newRevisions
        /\ (newRevisions = []
            \/ exists v, newRevisions = [v] /\ rev_externalid v = eR
                 /\ findBOMRevisionByExternalId eR s = None))
  /\ (forall id b, In b (List.map bl_bom (linksOf id s)) ->
                   In b (List.map bl_bom (linksOf id (snd r))))
  /\ linkCount (snd r) + linksCreated st <= linkCount s + linksCreated (fst r)
  /\ linksCreated st <= linksCreated (fst r)
  /\ bomsFailed st <= bomsFailed (fst r)
  /\ revisionsFailed st <= revisionsFailed (fst r)
  /\ bomsCreated (fst r) + bomsFailed (fst r) <= S (bomsCreated st + bomsFailed st)
  /\ revisionsCreated (fst r) + revisionsFailed (fst r) + bomsFailed (fst r)
     <= S (revisionsCreated st + revisionsFailed st + bomsFailed st)
  /\ linksCreated (fst r) + bomsFailed (fst r) <= S (linksCreated st + bomsFailed st).
Proof.
  cbn zeta.
  assert (Hsame : forall st', 
            bomsCreated st' = bomsCreated st -> revisionsCreated st' = revisionsCreated st ->
            linksCreated st' = linksCreated st -> revisionsFailed st' = revisionsFailed st ->
            bomsFailed st <= bomsFailed st' <= S (bomsFailed st) ->
            let r := (st', s) in
            besideStructures (snd r) = besideStructures s
            /\ List.map withoutLinks (items (snd r)) = List.map withoutLinks (items s)
            /\ (exists newBoms,
                  boms (snd r) = (boms s ++ newBoms)%list
                  /\ bomsCreated (fst r) = bomsCreated st + length newBoms
                  /\ (newBoms = []
                      \/ exists b, newBoms = [b]
                           /\ bom_externalid b = bomExternalId ns (itemid assembly)
                           /\ findBOMByExternalId (bomExternalId ns (itemid assembly)) s = None))
            /\ (exists newRevisions,
                  revisions (snd r) = (revisions s ++ newRevisions)%list
                  /\ revisionsCreated (fst r) = revisionsCreated st + length newRevisions
                  /\ (newRevisions = []
                      \/ exists v, newRevisions = [v]
                           /\ rev_externalid v = revisionExternalId ns (itemid assembly)
                           /\ findBOMRevisionByExternalId
                                (revisionExternalId ns (itemid assembly)) s = None))
            /\ (forall id b, In b (List.map bl_bom (linksOf id s)) ->
                             In b (List.map bl_bom (linksOf id (snd r))))
            /\ linkCount (snd r) + linksCreated st <= linkCount s + linksCreated (fst r)
            /\ linksCreated st <= linksCreated (fst r)
            /\ bomsFailed st <= bomsFailed (fst r)
            /\ revisionsFailed st <= revisionsFailed (fst r)
            /\ bomsCreated (fst r) + bomsFailed (fst r) <= S (bomsCreated st + bomsFailed st)
            /\ revisionsCreated (fst r) + revisionsFailed (fst r) + bomsFailed (fst r)
               <= S (revisionsCreated st + revisionsFailed st + bomsFailed st)
            /\ linksCreated (fst r) + bomsFailed (fst r) <= S (linksCreated st + bomsFailed st)).
  { intros st' Hb Hr Hl Hrf Hf. cbn zeta. cbn [fst snd].
    split; [reflexivity|]. split; [reflexivity|].
    split; [exists []; rewrite app_nil_r; cbn; repeat split; [lia|now left]|].
    split; [exists []; rewrite app_nil_r; cbn; repeat split; [lia|now left]|].
    split; [tauto|]. repeat split; lia. }
  unfold summarizeAssembly.
  destruct (findItemByExternalId _ s) as [assemblyInternalId|];
    [|apply Hsame; cbn; try reflexivity; lia].
  destruct (Nat.eqb (length (directChildrenOf allRows (hierarchy assembly))) 0);
    [apply Hsame; try reflexivity; lia|].
  destruct (Nat.eqb (length (componentsOf ns _ s)) 0);
    [apply Hsame; cbn; try reflexivity; lia|].
  set (components := componentsOf ns _ s). clearbody components. clear Hsame.
  unfold createOrGetBOM.
  set (eB := bomExternalId ns (itemid assembly)).
  set (eR := revisionExternalId ns (itemid assembly)).
  assert (Hbom : exists bomResult bomCreated newBoms s1,
            match findBOMByExternalId eB s with
            | Some existingBom => (Some existingBom, false, s)
            | None =>
                if refuses s (SaveBOM eB) then (None, false, s)
                else (Some (idOf (length (boms s))), true,
                      withBoms (fun t => (t ++ [mkBom eB (bomName (itemid assembly))
                                                      (subsidiaryOf d)])%list) s)
            end = (bomResult, bomCreated, s1)
            /\ boms s1 = (boms s ++ newBoms)%list
            /\ length newBoms = (if bomCreated then 1 else 0)
            /\ (newBoms = []
                \/ exists b, newBoms = [b] /\ bom_externalid b = eB
                     /\ findBOMByExternalId eB s = None)
            /\ items s1 = items s /\ revisions s1 = revisions s
            /\ besideStructures s1 = besideStructures s
            /\ (bomResult = None -> s1 = s /\ bomCreated = false)).
  { destruct (findBOMByExternalId eB s) as [existingBom|] eqn:Ef.
    - exists (Some existingBom), false, [], s. rewrite app_nil_r.
      repeat split; try reflexivity; try discriminate; now left.
    - destruct (refuses s (SaveBOM eB)).
      + exists None, false, [], s. rewrite app_nil_r.
        repeat split; try reflexivity; now left.
      + eexists _, true, [_], _. split; [reflexivity|].
        repeat split; try reflexivity; try discriminate.
        right. eexists. now repeat split. }
  destruct Hbom as (bomResult & bomCreated & newBoms & s1 & -> & Hboms & Hnb & Hnew & Hi1
                    & Hr1 & Hb1 & Hnone).
  destruct bomResult as [bomId|].
  2:{ destruct (Hnone eq_refl) as [-> ->]. cbn [fst snd bomFailure bomsCreated bomsFailed
        revisionsCreated revisionsFailed linksCreated].
      split; [reflexivity|]. split; [reflexivity|].
      split; [exists []; rewrite app_nil_r; cbn; repeat split; [lia|now left]|].
      split; [exists []; rewrite app_nil_r; cbn; repeat split; [lia|now left]|].
      split; [tauto|]. repeat split; lia. }
  unfold createOrGetBOMRevision. fold eR.
  assert (Hrev : exists revisionResult newRevisions s2,
            match findBOMRevisionByExternalId eR s1 with
            | Some existingRevision => (mkRevisionResult (Some existingRevision) false true, s1)
            | None =>
                if refuses s1 (SaveRevision eR)
                then (mkRevisionResult None false false, s1)
                else
                  (mkRevisionResult (Some (idOf (length (revisions s1)))) true false,
                   withRevisions
                     (fun t => (t ++ [mkRevision eR (revisionName (itemid assembly)) bomId
                                        (List.map (fun c => (c_internalId c, c_quantity c))
                                           (List.filter
                                              (fun c => negb (refuses s1
                                                                (CommitComponent (c_internalId c) (c_quantity c))))
                                              components))])%list) s1)
            end = (revisionResult, s2)
            /\ revisions s2 = (revisions s ++ newRevisions)%list
            /\ length newRevisions = (if rr_created revisionResult then 1 else 0)
            /\ (newRevisions = []
                \/ exists v, newRevisions = [v] /\ rev_externalid v = eR
                     /\ findBOMRevisionByExternalId eR s = None)
            /\ items s2 = items s /\ boms s2 = boms s1
            /\ besideStructures s2 = besideStructures s).
  { assert (Hfind : findBOMRevisionByExternalId eR s1 = findBOMRevisionByExternalId eR s)
      by (unfold findBOMRevisionByExternalId; now rewrite Hr1).
    rewrite Hfind.
    destruct (findBOMRevisionByExternalId eR s) as [existingRevision|] eqn:Ef.
    - eexists _, [], s1. split; [reflexivity|]. rewrite app_nil_r.
      repeat split; try assumption; try reflexivity. now left.
    - destruct (refuses s1 (SaveRevision eR)).
      + eexists _, [], s1. split; [reflexivity|]. rewrite app_nil_r.
        repeat split; try assumption; try reflexivity. now left.
      + eexists _, [_], _. split; [reflexivity|]. cbn [revisions withRevisions].
        rewrite Hr1. repeat split; try assumption; try reflexivity.
        right. eexists. now repeat split. }
  destruct Hrev as (revisionResult & newRevisions & s2 & -> & Hrevs & Hnr & Hnewr & Hi2
                    & Hb2 & Hbs2).
  destruct (ensureBOMLinkedToAssembly_effect assemblyInternalId bomId s2)
    as (Hb3 & Hi3 & Hk3 & Hc3). cbn zeta in *.
  destruct (ensureBOMLinkedToAssembly assemblyInternalId bomId s2) as [linked s3].
  cbn [fst snd] in *.
  cbn [bomsCreated bomsFailed revisionsCreated revisionsFailed linksCreated].
  assert (Hparts : locconfigs s3 = locconfigs s2 /\ boms s3 = boms s2
                   /\ revisions s3 = revisions s2 /\ categories s3 = categories s2
                   /\ vendors s3 = vendors s2 /\ refuses s3 = refuses s2).
  { unfold besideItems in Hb3. injection Hb3 as -> -> -> -> -> ->. now repeat split. }
  destruct Hparts as (Hl3 & Hbo3 & Hre3 & Hca3 & Hve3 & Hrf3).
  assert (Hlinks2 : forall id, linksOf id s2 = linksOf id s)
    by (intros id; unfold linksOf; now rewrite Hi2).
  assert (Hcount2 : linkCount s2 = linkCount s) by (unfold linkCount; now rewrite Hi2).
  split.
  { unfold besideStructures in *. rewrite Hl3, Hca3, Hve3, Hrf3. exact Hbs2. }
  split; [now rewrite Hi3, Hi2|].
  split.
  { exists newBoms. rewrite Hbo3, Hb2, Hboms. split; [reflexivity|].
    split; [|exact Hnew]. rewrite Hnb. destruct bomCreated; lia. }
  split.
  { exists newRevisions. rewrite Hre3, Hrevs. split; [reflexivity|].
    split; [|exact Hnewr]. rewrite Hnr. destruct (rr_created revisionResult); lia. }
  split.
  { intros id b Hin. apply Hk3. now rewrite Hlinks2. }
  rewrite Hcount2 in Hc3.
  destruct linked, bomCreated, (rr_created revisionResult), (rr_exists revisionResult);
    repeat split; lia.
Qed.

(** ** Accounting of stage [summarize] *)

Lemma summarize_fold_effect (ns : string) (d : Defaults) (allRows assemblies : list Row) :
  forall (st : SummaryStats) (s : Store),
    let r := fold_left (fun acc assembly => summarizeAssembly ns d allRows assembly acc)
                       assemblies (st, s) in
    besideStructures (snd r) = besideStructures s
    /\ List.map withoutLinks (items (snd r)) = List.map withoutLinks (items s)
    /\ length (boms (snd r)) + bomsCreated st = length (boms s) + bomsCreated (fst r)
    /\ length (revisions (snd r)) + revisionsCreated st
       = length (revisions s) + revisionsCreated (fst r)
    /\ linkCount (snd r) + linksCreated st <= linkCount s + linksCreated (fst r)
    /\ linksCreated st <= linksCreated (fst r)
    /\ bomsFailed st <= bomsFailed (fst r)
    /\ revisionsFailed st <= revisionsFailed (fst r)
    /\ bomsCreated (fst r) + bomsFailed (fst r)
       <= bomsCreated st + bomsFailed st + length assemblies
    /\ revisionsCreated (fst r) + revisionsFailed (fst r) + bomsFailed (fst r)
       <= revisionsCreated st + revisionsFailed st + bomsFailed st + length assemblies
    /\ linksCreated (fst r) + bomsFailed (fst r)
       <= linksCreated st + bomsFailed st + length assemblies.
Proof.
  induction assemblies as [|a assemblies IH]; intros st s; cbn zeta.
  - cbn [fold_left fst snd length]. repeat split; lia.
  - cbn [fold_left length].
    destruct (summarizeAssembly_effect ns d allRows a st s)
      as (Hb & Hi & (newBoms & Hboms & Hbc & _) & (newRevs & Hrevs & Hrc & _) & _ & Hlc
          & Hl & Hbf & Hrf & H1 & H2 & H3).
    cbn zeta in *.
    destruct (summarizeAssembly ns d allRows a (st, s)) as [st1 s1]. cbn [fst snd] in *.
    destruct (IH st1 s1) as (Hb' & Hi' & Hbo' & Hre' & Hlc' & Hl' & Hbf' & Hrf' & H1' & H2' & H3').
    cbn zeta in *.
    set (r := fold_left _ assemblies (st1, s1)) in *. clearbody r.
    apply (f_equal (@length _)) in Hboms, Hrevs. rewrite length_app in Hboms, Hrevs.
    split; [congruence|]. split; [congruence|]. repeat split; lia.
Qed.

(** X12.  Stage [summarize] reports what it wrote: the BOM table grows by
    the number of BOMs it reports as created, the revision table by the
    number of revisions, and the links by at most the number of links it
    reports; of every assembly row it counts at most one BOM, one revision
    and one link, or a failure; it creates no item and no location
    configuration, and changes nothing of an item but its BOM links. *)
Theorem summarize_accounting (ns : string) (d : Defaults) (allRows : list Row) (s : Store) :
  let st := fst (summarizeRows ns d allRows s) in
  let s' := snd (summarizeRows ns d allRows s) in
  let n := length (List.filter isAssembly allRows) in
  length (boms s') = length (boms s) + bomsCreated st
  /\ length (revisions s') = length (revisions s) + revisionsCreated st
  /\ linkCount s' <= linkCount s + linksCreated st
  /\ bomsCreated st + bomsFailed st <= n
  /\ revisionsCreated st + revisionsFailed st + bomsFailed st <= n
  /\ linksCreated st + bomsFailed st <= n
  /\ List.map withoutLinks (items s') = List.map withoutLinks (items s)
  /\ besideStructures s' = besideStructures s.
Proof.
  cbn zeta. unfold summarizeRows.
  destruct (summarize_fold_effect ns d allRows (List.filter isAssembly allRows)
              noSummaryStats s)
    as (Hb & Hi & Hbo & Hre & Hlc & _ & _ & _ & H1 & H2 & H3).
  cbn zeta in *.
  cbn [noSummaryStats bomsCreated bomsFailed revisionsCreated revisionsFailed linksCreated] in *.
  repeat split; try lia; assumption.
Qed.

(** ** Growth without rewriting *)

Lemma grewFrom_refl {A : Type} (t : list A) : grewFrom t t.
Proof. exists []. now rewrite app_nil_r. Qed.

Lemma grewFrom_trans {A : Type} (t1 t2 t3 : list A) :
  grewFrom t1 t2 -> grewFrom t2 t3 -> grewFrom t1 t3.
Proof. intros [e1 ->] [e2 ->]. exists (e1 ++ e2)%list. now rewrite app_assoc. Qed.

Lemma grewFrom_eq {A : Type} (t t' : list A) : t' = t -> grewFrom t t'.
Proof. intros ->. apply grewFrom_refl. Qed.

Lemma grewFrom_map {A B : Type} (f : A -> B) (t t' : list A) :
  grewFrom t t' -> grewFrom (List.map f t) (List.map f t').
Proof. intros [e ->]. exists (List.map f e). now rewrite map_app. Qed.

Lemma grewFrom_project {A B C : Type} (f : A -> B) (g : B -> C) (t t' : list A) :
  grewFrom (List.map f t) (List.map f t') ->
  grewFrom (List.map (fun x => g (f x)) t) (List.map (fun x => g (f x)) t').
Proof.
  intros H. apply (grewFrom_map g) in H. now rewrite !List.map_map in H.
Qed.

Lemma neverRewritten_refl (s : Store) : neverRewritten s s.
Proof. repeat split; try apply grewFrom_refl. tauto. Qed.

Lemma neverRewritten_trans (s1 s2 s3 : Store) :
  neverRewritten s1 s2 -> neverRewritten s2 s3 -> neverRewritten s1 s3.
Proof.
  intros (A1 & A2 & A3 & A4 & A5 & A6 & A7 & A8) (B1 & B2 & B3 & B4 & B5 & B6 & B7 & B8).
  split; [eapply grewFrom_trans; eassumption|].
  split; [eapply grewFrom_trans; eassumption|].
  split; [eapply grewFrom_trans; eassumption|].
  split; [eapply grewFrom_trans; eassumption|].
  split; [eapply grewFrom_trans; eassumption|].
  split; [eapply grewFrom_trans; eassumption|].
  split; [congruence|]. intros id b Hin. now apply B8, A8.
Qed.

(** Items that keep their links, index by index, keep them by id. *)
Lemma links_kept (s s' : Store) :
  grewFrom (List.map it_boms (items s)) (List.map it_boms (items s')) ->
  forall id b, In b (List.map bl_bom (linksOf id s)) -> In b (List.map bl_bom (linksOf id s')).
Proof.
  intros [extra H] id b. unfold linksOf.
  destruct (items s !! indexOf id) as [it|] eqn:E; [|intros []].
  assert (Hl : List.map it_boms (items s') !! indexOf id = Some (it_boms it)).
  { rewrite H. apply lookup_app_l_Some.
    change (it_boms <$> items s) with (List.map it_boms (items s)).
    change ((it_boms <$> items s) !! indexOf id = Some (it_boms it)).
    now rewrite list_lookup_fmap, E. }
  change ((it_boms <$> items s') !! indexOf id = Some (it_boms it)) in Hl.
  rewrite list_lookup_fmap in Hl.
  destruct (items s' !! indexOf id) as [it'|]; [|discriminate Hl].
  cbn in Hl. injection Hl as ->. tauto.
Qed.

Lemma findFirst_None_notin {A : Type} (key : A -> string) (e : string) (t : list A) :
  findFirst key e t = None -> ~ In e (List.map key t).
Proof.
  intros H Hin. apply in_map_iff in Hin as (x & Hk & Hx).
  now apply (findFirst_from_None key e t 0 H x Hx).
Qed.

Lemma NoDup_snoc {A : Type} (l : list A) (x : A) :
  NoDup l -> ~ In x l -> NoDup (l ++ [x]).
Proof.
  intros Hl Hx. apply NoDup_app. split; [exact Hl|]. split.
  - intros y Hy Hyx. apply list_elem_of_In in Hy. apply list_elem_of_In in Hyx.
    destruct Hyx as [<-|[]]. now apply Hx.
  - apply NoDup_singleton.
Qed.

Lemma reduceRow_keeps (ctx : Context) (row : Row) (st : ReduceStats) (s : Store) :
  let s' := snd (reduceRow ctx row (st, s)) in
  neverRewritten s s' /\ (uniquelyKeyed s -> uniquelyKeyed s').
Proof.
  cbn zeta. destruct (reduceRow_effect ctx row st s) as (Hb & Hrow). cbn zeta in *.
  set (s' := snd (reduceRow ctx row (st, s))) in *. clearbody s'.
  assert (Hparts : boms s' = boms s /\ revisions s' = revisions s
                   /\ categories s' = categories s /\ vendors s' = vendors s
                   /\ refuses s' = refuses s).
  { unfold besideItemsAndLocations in Hb. injection Hb as -> -> -> -> ->. now repeat split. }
  destruct Hparts as (Hbo & Hre & Hca & Hve & Hrf).
  assert (Hitems :
    (List.map withoutPlanning (items s') = List.map withoutPlanning (items s)
     \/ exists rec, items s' = (items s ++ [rec])%list
          /\ it_boms rec = []
          /\ ~ In (it_externalid rec) (List.map it_externalid (items s)))
    /\ grewFrom (List.map locKey (locconfigs s)) (List.map locKey (locconfigs s'))).
  { destruct (findItemByExternalId _ s) as [itemId|] eqn:Ef.
    - destruct Hrow as (_ & _ & _ & _ & Hit & Hlk). split; [now left|]. eexists; exact Hlk.
    - destruct Hrow as (_ & _ & [(_ & _ & ->)|(_ & _ & Hrec & Hlk)]).
      + split; [now left|apply grewFrom_refl].
      + split; [|eexists; rewrite Hlk, map_app; reflexivity].
        destruct Hrec as (ty & rec & _ & _ & Hi & _ & He & _ & Hbl).
        right. exists rec. split; [exact Hi|]. split; [exact Hbl|].
        rewrite He. now apply findFirst_None_notin. }
  destruct Hitems as [Hitems Hlocs].
  split.
  - split.
    { destruct Hitems as [Hit|(rec & Hi & _)].
      - apply grewFrom_eq. now apply withoutPlanning_identity.
      - rewrite Hi, map_app. eexists; reflexivity. }
    split; [exact Hlocs|].
    split; [now apply grewFrom_eq|]. split; [now apply grewFrom_eq|].
    split; [now apply grewFrom_eq|]. split; [now apply grewFrom_eq|].
    split; [exact Hrf|]. apply links_kept.
    destruct Hitems as [Hit|(rec & Hi & _)].
    + apply grewFrom_eq. now apply withoutPlanning_links.
    + rewrite Hi, map_app. eexists; reflexivity.
  - intros (U1 & U2 & U3 & U4 & U5). unfold uniquelyKeyed.
    rewrite Hbo, Hre, Hca, Hve. split; [|now repeat split].
    destruct Hitems as [Hit|(rec & Hi & _ & Hnew)].
    + now rewrite (withoutPlanning_externalids _ _ Hit).
    + rewrite Hi, map_app. cbn [List.map]. now apply NoDup_snoc.
Qed.

Lemma reduce_fold_keeps (ctx : Context) (records : list Row) :
  forall (st : ReduceStats) (s : Store),
    let s' := snd (fold_left (fun acc rowData => reduceRow ctx rowData acc) records (st, s)) in
    neverRewritten s s' /\ (uniquelyKeyed s -> uniquelyKeyed s').
Proof.
  induction records as [|row records IH]; intros st s; cbn zeta.
  - cbn [fold_left snd]. split; [apply neverRewritten_refl|tauto].
  - cbn [fold_left]. destruct (reduceRow_keeps ctx row st s) as [Hk Hu]. cbn zeta in *.
    destruct (reduceRow ctx row (st, s)) as [st1 s1]. cbn [snd] in *.
    destruct (IH st1 s1) as [Hk' Hu']. cbn zeta in *.
    split; [eapply neverRewritten_trans; eassumption|]. intros U. now apply Hu', Hu.
Qed.

Lemma reducePhase_keeps (ctx : Context) (rows : list Row) (s : Store) :
  let s' := snd (reducePhase ctx rows s) in
  neverRewritten s s' /\ (uniquelyKeyed s -> uniquelyKeyed s').
Proof.
  cbn zeta. unfold reducePhase, mapStage, reduce.
  destruct (reduce_fold_keeps ctx (List.filter (fun r => negb (isAssembly r)) rows)
              noReduceStats s) as [Hk1 Hu1]. cbn zeta in *.
  destruct (fold_left _ (List.filter (fun r => negb (isAssembly r)) rows) (noReduceStats, s))
    as [st1 s1]. cbn [snd] in *.
  destruct (reduce_fold_keeps ctx (List.filter isAssembly rows) noReduceStats s1)
    as [Hk2 Hu2]. cbn zeta in *.
  destruct (fold_left _ (List.filter isAssembly rows) (noReduceStats, s1)) as [st2 s2].
  cbn [snd] in *.
  split; [eapply neverRewritten_trans; eassumption|]. intros U. now apply Hu2, Hu1.
Qed.

Lemma withoutLinks_identity (l l' : list Item) :
  List.map withoutLinks l' = List.map withoutLinks l ->
  List.map itemIdentity l' = List.map itemIdentity l.
Proof.
  apply (map_project withoutLinks
           (fun k => (fst (fst (fst (fst (fst k)))), snd (fst (fst (fst (fst k)))),
                      snd (fst (fst (fst k))), List.map vl_vendor (snd k)))).
Qed.

Lemma withoutLinks_externalids (l l' : list Item) :
  List.map withoutLinks l' = List.map withoutLinks l ->
  List.map it_externalid l' = List.map it_externalid l.
Proof. apply (map_project withoutLinks (fun k => snd (fst (fst (fst (fst k)))))). Qed.

Lemma summarizeAssembly_keeps (ns : string) (d : Defaults) (allRows : list Row)
    (assembly : Row) (st : SummaryStats) (s : Store) :
  let s' := snd (summarizeAssembly ns d allRows assembly (st, s)) in
  neverRewritten s s' /\ (uniquelyKeyed s -> uniquelyKeyed s').
Proof.
  cbn zeta.
  destruct (summarizeAssembly_effect ns d allRows assembly st s)
    as (Hb & Hi & (newBoms & Hboms & _ & Hnb) & (newRevs & Hrevs & _ & Hnr) & Hlinks & _).
  cbn zeta in *.
  set (s' := snd (summarizeAssembly ns d allRows assembly (st, s))) in *. clearbody s'.
  assert (Hparts : locconfigs s' = locconfigs s /\ categories s' = categories s
                   /\ vendors s' = vendors s /\ refuses s' = refuses s).
  { unfold besideStructures in Hb. injection Hb as -> -> -> ->. now repeat split. }
  destruct Hparts as (Hlo & Hca & Hve & Hrf).
  split.
  - split; [apply grewFrom_eq; now apply withoutLinks_identity|].
    split; [apply grewFrom_eq; now rewrite Hlo|].
    split; [now exists newBoms|]. split; [now exists newRevs|].
    split; [now apply grewFrom_eq|]. split; [now apply grewFrom_eq|].
    split; [exact Hrf|exact Hlinks].
  - intros (U1 & U2 & U3 & U4 & U5). unfold uniquelyKeyed. rewrite Hca, Hve.
    split; [now rewrite (withoutLinks_externalids _ _ Hi)|].
    split; [|split; [|now split]].
    + rewrite Hboms. destruct Hnb as [->|(b & -> & Hbe & Hfind)]; [now rewrite app_nil_r|].
      rewrite map_app. cbn [List.map]. apply NoDup_snoc; [exact U2|].
      rewrite Hbe. now apply findFirst_None_notin.
    + rewrite Hrevs. destruct Hnr as [->|(v & -> & Hve' & Hfind)]; [now rewrite app_nil_r|].
      rewrite map_app. cbn [List.map]. apply NoDup_snoc; [exact U3|].
      rewrite Hve'. now apply findFirst_None_notin.
Qed.

Lemma summarizeRows_keeps (ns : string) (d : Defaults) (allRows : list Row) (s : Store) :
  let s' := snd (summarizeRows ns d allRows s) in
  neverRewritten s s' /\ (uniquelyKeyed s -> uniquelyKeyed s').
Proof.
  cbn zeta. unfold summarizeRows.
  generalize noSummaryStats. generalize (List.filter isAssembly allRows). intros assemblies.
  revert s. induction assemblies as [|a assemblies IH]; intros s st.
  - cbn [fold_left snd]. split; [apply neverRewritten_refl|tauto].
  - cbn [fold_left]. destruct (summarizeAssembly_keeps ns d allRows a st s) as [Hk Hu].
    cbn zeta in *.
    destruct (summarizeAssembly ns d allRows a (st, s)) as [st1 s1]. cbn [snd] in *.
    destruct (IH s1 st1) as [Hk' Hu'].
    split; [eapply neverRewritten_trans; eassumption|]. intros U. now apply Hu', Hu.
Qed.

Lemma summarize_keeps (env : Env) (cached : option (list Row)) (s : Store) :
  let s' := snd (summarize env cached s) in
  neverRewritten s s' /\ (uniquelyKeyed s -> uniquelyKeyed s').
Proof.
  cbn zeta.
  destruct (summarize_cases env cached s) as [->|(ns & d & allRows & ->)];
    [split; [apply neverRewritten_refl|tauto] | apply summarizeRows_keeps].
Qed.

Lemma createOrGetPlanningItemCategory_keeps (name : option string) (s : Store) :
  let s' := snd (createOrGetPlanningItemCategory name s) in
  neverRewritten s s' /\ (uniquelyKeyed s -> uniquelyKeyed s').
Proof.
  cbn zeta. unfold createOrGetPlanningItemCategory.
  destruct name as [n|]; [|split; [apply neverRewritten_refl|tauto]].
  destruct (findFirst (fun c : string => c) n (categories s)) as [categoryId|] eqn:Ef;
    [split; [apply neverRewritten_refl|tauto]|].
  destruct (refuses s (SaveCategory n)); [split; [apply neverRewritten_refl|tauto]|].
  cbn [snd]. split.
  - repeat split; try apply grewFrom_refl; [|tauto]. now eexists.
  - intros (U1 & U2 & U3 & U4 & U5). repeat split; try assumption.
    cbn [categories withCategories]. apply NoDup_snoc; [exact U4|].
    apply findFirst_None_notin in Ef. now rewrite map_id in Ef.
Qed.

Lemma createVendors_loop_keeps (names : list string) :
  forall (vendorCache : gmap string positive) (s : Store),
    let s' := snd (createVendors_loop names vendorCache s) in
    neverRewritten s s' /\ (uniquelyKeyed s -> uniquelyKeyed s').
Proof.
  induction names as [|name names IH]; intros vendorCache s; cbn zeta.
  - split; [apply neverRewritten_refl|tauto].
  - cbn [createVendors_loop].
    destruct (findFirst (fun v : string => v) name (vendors s)) as [vendor|] eqn:Ef;
      [apply IH|].
    destruct (refuses s (SaveVendor name)); [apply IH|].
    destruct (IH (Js.setProperty name (idOf (length (vendors s))) vendorCache)
                (withVendors (fun t => (t ++ [name])%list) s)) as [Hk Hu].
    cbn zeta in *. split.
    + eapply neverRewritten_trans; [|exact Hk].
      repeat split; try apply grewFrom_refl; [|tauto]. now eexists.
    + intros (U1 & U2 & U3 & U4 & U5). apply Hu. repeat split; try assumption.
      cbn [vendors withVendors]. apply NoDup_snoc; [exact U5|].
      apply findFirst_None_notin in Ef. now rewrite map_id in Ef.
Qed.

Lemma getInputData_keeps (env : Env) (s : Store) :
  let s' := snd (getInputData env s) in
  neverRewritten s s' /\ (uniquelyKeyed s -> uniquelyKeyed s').
Proof.
  cbn zeta. unfold getInputData.
  destruct (scriptParameter env) as [configFileId|];
    [|split; [apply neverRewritten_refl|tauto]].
  destruct (configFiles env !! configFileId) as [config|];
    [|split; [apply neverRewritten_refl|tauto]].
  assert (H1 : let s1 := snd (if setupMRP (applyDefaults config)
                               then createOrGetPlanningItemCategory (prospectName config) s
                               else (None, s)) in
               neverRewritten s s1 /\ (uniquelyKeyed s -> uniquelyKeyed s1)).
  { destruct (setupMRP (applyDefaults config));
      [apply createOrGetPlanningItemCategory_keeps|split; [apply neverRewritten_refl|tauto]]. }
  cbn zeta in H1.
  destruct (if setupMRP (applyDefaults config) then _ else _) as [planning s1].
  cbn [snd] in H1.
  assert (H2 : let s2 := snd (if createVendors (applyDefaults config)
                               then createVendorsFromCSV env (csvFileId config)
                                      (mappings config) s1
                               else (∅, s1)) in
               neverRewritten s1 s2 /\ (uniquelyKeyed s1 -> uniquelyKeyed s2)).
  { destruct (createVendors (applyDefaults config));
      [|split; [apply neverRewritten_refl|tauto]].
    unfold createVendorsFromCSV.
    destruct (mappings config ≫= vendorColumn); [|split; [apply neverRewritten_refl|tauto]].
    destruct (csvFiles env !! csvFileId config);
      [apply createVendors_loop_keeps|split; [apply neverRewritten_refl|tauto]]. }
  cbn zeta in H2.
  destruct (if createVendors (applyDefaults config) then _ else _) as [vendorCache s2].
  cbn [snd] in H2.
  assert (H : neverRewritten s s2 /\ (uniquelyKeyed s -> uniquelyKeyed s2)).
  { destruct H1 as [K1 U1], H2 as [K2 U2].
    split; [eapply neverRewritten_trans; eassumption|]. intros U. now apply U2, U1. }
  destruct (csvFiles env !! csvFileId config) as [csvContent|]; [|exact H].
  destruct (Nat.ltb (length (csvLines csvContent)) 2); [exact H|].
  destruct (mappings config); [exact H|].
  destruct (dataRows _); exact H.
Qed.

Lemma runPipeline_keeps (env : Env) (cacheHit : bool) (s : Store) :
  let s' := snd (runPipeline env cacheHit s) in
  neverRewritten s s' /\ (uniquelyKeyed s -> uniquelyKeyed s').
Proof.
  cbn zeta. unfold runPipeline.
  destruct (getInputData_keeps env s) as [K1 U1]. cbn zeta in *.
  destruct (getInputData env s) as [[[rows ctx]|message] s1]; cbn [snd] in *;
    [|now split].
  destruct (reducePhase_keeps ctx (List.map jsonRow rows) s1) as [K2 U2]. cbn zeta in *.
  destruct (reducePhase ctx (List.map jsonRow rows) s1) as [[st1 st2] s2]. cbn [snd] in *.
  destruct (summarize_keeps env (if cacheHit then Some rows else None) s2) as [K3 U3].
  cbn zeta in *.
  destruct (summarize env (if cacheHit then Some rows else None) s2) as [st3 s3].
  cbn [snd] in *.
  split.
  - eapply neverRewritten_trans; [exact K1|].
    eapply neverRewritten_trans; [exact K2|exact K3].
  - intros U. now apply U3, U2, U1.
Qed.



(** X14.  A run removes nothing and rewrites no identity: every table
    only grows at its end; an item that was there keeps its type, external
    id, mapped fields and vendors, and loses no BOM link; a location
    configuration that was there keeps its item and location; a BOM or a
    revision that was there is left as it was, components included. *)
Theorem run_never_rewrites (env : Env) (cacheHit : bool) (s : Store) :
  let s' := snd (runPipeline env cacheHit s) in
  neverRewritten s s'
  /\ (forall i it, items s !! i = Some it ->
        exists it', items s' !! i = Some it' /\ itemIdentity it' = itemIdentity it)
  /\ (forall i b, boms s !! i = Some b -> boms s' !! i = Some b)
  /\ (forall i v, revisions s !! i = Some v -> revisions s' !! i = Some v).
Proof.
  cbn zeta. destruct (runPipeline_keeps env cacheHit s) as [K _]. cbn zeta in K.
  split; [exact K|].
  destruct K as ([e1 H1] & _ & [e3 H3] & [e4 H4] & _).
  split; [|split].
  - intros i it Hi.
    assert (Hl : List.map itemIdentity (items (snd (runPipeline env cacheHit s))) !! i
                 = Some (itemIdentity it)).
    { rewrite H1. apply lookup_app_l_Some.
      change ((itemIdentity <$> items s) !! i = Some (itemIdentity it)).
      now rewrite list_lookup_fmap, Hi. }
    change ((itemIdentity <$> items (snd (runPipeline env cacheHit s))) !! i
            = Some (itemIdentity it)) in Hl.
    rewrite list_lookup_fmap in Hl.
    destruct (items (snd (runPipeline env cacheHit s)) !! i) as [it'|]; [|discriminate Hl].
    exists it'. split; [reflexivity|]. cbn [fmap option_fmap option_map] in Hl. congruence.
  - intros i b Hi. rewrite H3. now apply lookup_app_l_Some.
  - intros i v Hi. rewrite H4. now apply lookup_app_l_Some.
Qed.

(** ** One configuration per item and location *)

Lemma findItem_valid (e : string) (s : Store) (id : positive) :
  findItemByExternalId e s = Some id -> indexOf id < length (items s).
Proof.
  unfold findItemByExternalId, findFirst. intros H.
  apply findFirst_from_Some in H as (k & x & Hk & _ & ->).
  rewrite indexOf_idOf. cbn. now apply lookup_lt_Some in Hk.
Qed.

Lemma pair_keys_NoDup (id : positive) (locs : list positive) :
  NoDup locs -> NoDup (List.map (pair id) locs).
Proof.
  intros H. induction H as [|loc locs Hnot Hnd IH]; [constructor|].
  cbn [List.map]. constructor; [|exact IH].
  intros Hin. apply Hnot. apply list_elem_of_In, in_map_iff in Hin as (l & [= ->] & Hl).
  now apply list_elem_of_In.
Qed.

Lemma NoDup_list_filter {A : Type} (p : A -> bool) (l : list A) :
  NoDup l -> NoDup (List.filter p l).
Proof.
  intros H. induction H as [|x l Hnot Hnd IH]; [constructor|].
  cbn [List.filter]. destruct (p x); [|exact IH].
  constructor; [|exact IH]. intros Hin. apply Hnot.
  apply list_elem_of_In, filter_In in Hin as [Hin _]. now apply list_elem_of_In.
Qed.

Lemma NoDup_map_filter {A B : Type} (f : A -> B) (p : A -> bool) (l : list A) :
  NoDup (List.map f l) -> NoDup (List.map f (List.filter p l)).
Proof.
  induction l as [|x l IH]; intros H; [exact H|].
  cbn [List.map] in H. apply NoDup_cons in H as [Hx Hl]. cbn [List.filter].
  destruct (p x); [|now apply IH].
  cbn [List.map]. apply NoDup_cons. split; [|now apply IH].
  intros Hin. apply Hx. apply list_elem_of_In in Hin. apply list_elem_of_In.
  apply in_map_iff in Hin as (y & Hy & Hin). apply filter_In in Hin as [Hin _].
  apply in_map_iff. now exists y.
Qed.

(** Adding the keys of one item, all new, keeps the keys well formed. *)
Lemma wellKeyed_add (keys : list (positive * positive)) (id : positive)
    (locs : list positive) (n n' : nat) :
  NoDup keys ->
  Forall (fun k : positive * positive => indexOf (fst k) < n) keys ->
  NoDup locs ->
  (forall loc, In loc locs -> ~ In (id, loc) keys) ->
  n <= n' -> indexOf id < n' ->
  NoDup (keys ++ List.map (pair id) locs)
  /\ Forall (fun k : positive * positive => indexOf (fst k) < n')
            (keys ++ List.map (pair id) locs).
Proof.
  intros Hnd Hv Hlocs Hnew Hn Hid. split.
  - apply NoDup_app. split; [exact Hnd|]. split; [|now apply pair_keys_NoDup].
    intros k Hk Hk'. apply list_elem_of_In in Hk.
    apply list_elem_of_In, in_map_iff in Hk' as (loc & <- & Hloc).
    now apply (Hnew loc Hloc).
  - apply Forall_app. split.
    + eapply Forall_impl; [exact Hv|]. cbn. intros k Hk. lia.
    + apply Forall_forall. intros k Hk.
      apply list_elem_of_In, in_map_iff in Hk as (loc & <- & _). exact Hid.
Qed.

Lemma reduceRow_wellKeyed (ctx : Context) (row : Row) (st : ReduceStats) (s : Store) :
  NoDup (locationIds (defaultsOf ctx)) ->
  locationsWellKeyed s -> locationsWellKeyed (snd (reduceRow ctx row (st, s))).
Proof.
  intros Hlocs [Hnd Hv].
  destruct (reduceRow_effect ctx row st s) as (_ & Hrow). cbn zeta in Hrow.
  set (s' := snd (reduceRow ctx row (st, s))) in *. clearbody s'.
  unfold locationsWellKeyed.
  destruct (findItemByExternalId _ s) as [itemId|] eqn:Ef.
  - destruct Hrow as (_ & _ & _ & _ & Hit & Hlk). rewrite Hlk.
    rewrite (map_length_eq _ _ _ Hit).
    apply (wellKeyed_add _ _ _ (length (items s))); try assumption; [| |lia|].
    + unfold missingLocations. now apply NoDup_list_filter.
    + intros loc Hloc Hin. unfold missingLocations in Hloc.
      apply filter_In in Hloc as [_ Hloc]. apply andb_prop in Hloc as [Hloc _].
      apply negb_true_iff in Hloc.
      assert (Hex : existsb (Pos.eqb loc) (getExistingItemLocations itemId s) = true);
        [|congruence].
      apply existsb_Pos_In. rewrite existing_keys.
      apply in_map_iff. exists (itemId, loc). split; [reflexivity|].
      apply filter_In. split; [exact Hin|]. cbn. apply Pos.eqb_refl.
    + exact (findItem_valid _ s itemId Ef).
  - destruct Hrow as (_ & _ & [(_ & _ & ->)|(_ & _ & Hrec & Hlk)]); [now split|].
    destruct Hrec as (ty & rec & _ & _ & Hi & _).
    rewrite Hlk, Hi, length_app, map_app, acceptedConfigs_keys.
    cbn [length].
    apply (wellKeyed_add _ _ _ (length (items s))); try assumption.
    + unfold acceptedConfigs. apply NoDup_map_filter.
      now rewrite newLocConfigs_locations.
    + intros loc _ Hin. rewrite Forall_forall in Hv.
      apply list_elem_of_In, Hv in Hin. cbn [fst] in Hin. rewrite indexOf_idOf in Hin. lia.
    + lia.
    + rewrite indexOf_idOf. lia.
Qed.

Lemma reduce_fold_wellKeyed (ctx : Context) (records : list Row) :
  NoDup (locationIds (defaultsOf ctx)) ->
  forall (st : ReduceStats) (s : Store),
    locationsWellKeyed s ->
    locationsWellKeyed
      (snd (fold_left (fun acc rowData => reduceRow ctx rowData acc) records (st, s))).
Proof.
  intros Hlocs. induction records as [|row records IH]; intros st s Hs; [exact Hs|].
  cbn [fold_left]. pose proof (reduceRow_wellKeyed ctx row st s Hlocs Hs) as H.
  destruct (reduceRow ctx row (st, s)) as [st1 s1]. now apply IH.
Qed.

Lemma reducePhase_wellKeyed (ctx : Context) (rows : list Row) (s : Store) :
  NoDup (locationIds (defaultsOf ctx)) ->
  locationsWellKeyed s -> locationsWellKeyed (snd (reducePhase ctx rows s)).
Proof.
  intros Hlocs Hs. unfold reducePhase, mapStage, reduce.
  pose proof (reduce_fold_wellKeyed ctx (List.filter (fun r => negb (isAssembly r)) rows)
                Hlocs noReduceStats s Hs) as H1.
  destruct (fold_left _ (List.filter (fun r => negb (isAssembly r)) rows) (noReduceStats, s))
    as [st1 s1]. cbn [snd] in H1.
  pose proof (reduce_fold_wellKeyed ctx (List.filter isAssembly rows)
                Hlocs noReduceStats s1 H1) as H2.
  destruct (fold_left _ (List.filter isAssembly rows) (noReduceStats, s1)) as [st2 s2].
  exact H2.
Qed.

Lemma wellKeyed_tables (s s' : Store) :
  locconfigs s' = locconfigs s -> length (items s') = length (items s) ->
  locationsWellKeyed s -> locationsWellKeyed s'.
Proof. unfold locationsWellKeyed. now intros -> ->. Qed.

(** X15.  When the configured location ids are distinct, a run keeps one
    location configuration per item and location: if every configuration
    of the store belongs to an item of the store and no item has two for a
    location, the same holds after the run. *)
Theorem run_keeps_locations_unique (env : Env) (cacheHit : bool) (s : Store) :
  (forall config,
     scriptParameter env ≫= (fun configFileId => configFiles env !! configFileId) = Some config ->
     NoDup (locationIds (applyDefaults config))) ->
  locationsWellKeyed s ->
  locationsWellKeyed (snd (runPipeline env cacheHit s)).
Proof.
  intros Hlocs Hs.
  assert (H1 : locationsWellKeyed (snd (getInputData env s))).
  { pose proof (getInputData_tables env s) as Ht. unfold recordTables in Ht.
    injection Ht as Hi Hl _ _. apply (wellKeyed_tables s); [exact Hl|now rewrite Hi|exact Hs]. }
  destruct (getInputData_cases env s)
    as [[message Hthrown]|(config & csvContent & planning & vendorCache & Hc & Hcsv & Hret)].
  { now rewrite (runPipeline_thrown env cacheHit s message Hthrown). }
  rewrite (runPipeline_returned env cacheHit s _ _ Hret). cbn [snd].
  set (ctx := mkContext (prospectName config) (Some (applyDefaults config))
                        planning vendorCache) in *.
  set (rows := inputRows (mappingsOf config) (csvLines csvContent)) in *.
  assert (H2 : locationsWellKeyed (snd (reducePhase ctx rows (snd (getInputData env s))))).
  { apply reducePhase_wellKeyed; [|exact H1]. apply (Hlocs config Hc). }
  set (s2 := snd (reducePhase ctx rows (snd (getInputData env s)))) in *. clearbody s2.
  assert (H3 : forall ns d allRows, locationsWellKeyed (snd (summarizeRows ns d allRows s2))).
  { intros ns d allRows.
    destruct (summarize_fold_effect ns d allRows (List.filter isAssembly allRows)
                noSummaryStats s2) as (Hb & Hi & _).
    cbn zeta in Hi, Hb. fold (summarizeRows ns d allRows s2) in Hi, Hb.
    apply (wellKeyed_tables s2); [|now apply map_length_eq in Hi|exact H2].
    unfold besideStructures in Hb. now injection Hb as -> _ _ _. }
  destruct (summarize_cases env (if cacheHit then Some rows else None) s2)
    as [->|(ns & d & allRows & ->)]; [exact H2 | apply H3].
Qed.

Lemma run_keeps_locations_unique_witness :
  let s' := snd (runPipeline (sampleEnv (Some "N") repeatedItemCsv) true emptyStore) in
  List.map locKey (locconfigs s')
  = [(1, 2); (1, 13); (2, 2); (2, 13)]%positive
  /\ locationsWellKeyed s'.
Proof.
  split; [vm_compute; reflexivity|].
  apply (run_keeps_locations_unique (sampleEnv (Some "N") repeatedItemCsv) true emptyStore).
  - intros config Hc. vm_compute in Hc. injection Hc as <-.
    vm_compute. repeat constructor; [intros H; inversion H as [|? ? ? H']; inversion H'|].
    intros H; inversion H.
  - split; constructor.
Defined.

(** ** The planning item category *)

Lemma findFirst_snoc_new {A : Type} (key : A -> string) (e : string) (t : list A) (x : A) :
  findFirst key e t = None -> key x = e ->
  findFirst key e (t ++ [x]) = Some (idOf (length t)).
Proof.
  unfold findFirst. intros Hnone Hk. rewrite findFirst_from_app, Hnone.
  cbn [findFirst_from Nat.add]. rewrite Hk, String.eqb_refl. reflexivity.
Qed.

Lemma findFirst_lookup {A : Type} (key : A -> string) (e : string) (t : list A)
    (id : positive) :
  findFirst key e t = Some id -> exists x, t !! indexOf id = Some x /\ key x = e.
Proof.
  unfold findFirst. intros H. apply findFirst_from_Some in H as (k & x & Hk & He & ->).
  rewrite indexOf_idOf. cbn [Nat.add]. now exists x.
Qed.

(** X16.  The planning item category of a namespace is created once: the
    id [createOrGetPlanningItemCategory] returns names a category of that
    name, and a second call returns the same id and writes nothing; it
    returns [null] only when the category is missing and its creation
    fails, and then it writes nothing. *)
Theorem planning_category_once (n : string) (s : Store) :
  let r := createOrGetPlanningItemCategory (Some n) s in
  (forall id, fst r = Some id ->
     categories (snd r) !! indexOf id = Some n
     /\ createOrGetPlanningItemCategory (Some n) (snd r) = (Some id, snd r))
  /\ (fst r = None ->
      snd r = s /\ refuses s (SaveCategory n) = true /\ ~ In n (categories s))
  /\ (In n (categories s) -> snd r = s /\ fst r <> None).
Proof.
  cbn zeta. unfold createOrGetPlanningItemCategory.
  destruct (findFirst (fun c : string => c) n (categories s)) as [categoryId|] eqn:Ef.
  - cbn [fst snd]. split; [|split; [discriminate|now split]].
    intros id [= <-]. rewrite Ef. split; [|reflexivity].
    apply findFirst_lookup in Ef as (x & Hx & ->). exact Hx.
  - pose proof (findFirst_None_notin _ _ _ Ef) as Hnot. rewrite map_id in Hnot.
    destruct (refuses s (SaveCategory n)) eqn:Er; cbn [fst snd].
    + split; [discriminate|]. split; [now repeat split|]. intros Hin. now destruct Hnot.
    + split; [|split; [discriminate|intros Hin; now destruct Hnot]].
      intros id [= <-]. cbn [categories withCategories].
      rewrite (findFirst_snoc_new _ n (categories s) n Ef eq_refl).
      split; [|reflexivity].
      rewrite indexOf_idOf. apply list_lookup_middle. reflexivity.
Qed.

(** ** Vendors from the file *)

Lemma cacheSound_grow (vendorCache : gmap string positive) (s : Store) (extra : list string) :
  cacheSound vendorCache s ->
  cacheSound vendorCache (withVendors (fun t => (t ++ extra)%list) s).
Proof.
  intros H name id Hn. cbn [vendors withVendors]. apply lookup_app_l_Some. now apply H.
Qed.

Lemma setProperty_proto {A : Type} (f : string) (v : A) (obj : gmap string A) :
  obj !! Js.PROTO = None -> Js.setProperty f v obj !! Js.PROTO = None.
Proof.
  intros H. unfold Js.setProperty. destruct (String.eqb_spec f Js.PROTO) as [->|Hne]; [exact H|].
  now rewrite lookup_insert_ne.
Qed.

Lemma setProperty_keeps {A : Type} (f k : string) (v : A) (obj : gmap string A) :
  is_Some (obj !! k) -> is_Some (Js.setProperty f v obj !! k).
Proof.
  intros H. unfold Js.setProperty. destruct (f =? Js.PROTO); [exact H|].
  destruct (decide (f = k)) as [->|Hne];
    [rewrite lookup_insert_eq; now eexists | now rewrite lookup_insert_ne].
Qed.

Lemma setProperty_dom {A : Type} (f k : string) (v : A) (obj : gmap string A) :
  is_Some (Js.setProperty f v obj !! k) -> is_Some (obj !! k) \/ k = f.
Proof.
  intros [x Hx]. apply lookup_setProperty in Hx as [(-> & _)|Hx]; [now right | left; eauto].
Qed.

Lemma createVendors_loop_sound (names : list string) :
  forall (vendorCache : gmap string positive) (s : Store),
    cacheSound vendorCache s ->
    vendorCache !! Js.PROTO = None ->
    let r := createVendors_loop names vendorCache s in
    cacheSound (fst r) (snd r)
    /\ fst r !! Js.PROTO = None
    /\ (forall name, is_Some (fst r !! name) -> is_Some (vendorCache !! name) \/ In name names)
    /\ (forall name, is_Some (vendorCache !! name) -> is_Some (fst r !! name))
    /\ (forall name, In name names -> name <> Js.PROTO ->
          In name (vendors s) \/ refuses s (SaveVendor name) = false ->
          is_Some (fst r !! name)).
Proof.
  induction names as [|name names IH]; intros vendorCache s Hs Hproto; cbn zeta.
  - cbn [createVendors_loop fst snd]. split; [exact Hs|]. split; [exact Hproto|].
    split; [now left|]. split; [trivial|]. intros name [].
  - cbn [createVendors_loop].
    assert (Hstep : forall cache' s',
              cacheSound cache' s' ->
              cache' !! Js.PROTO = None ->
              refuses s' = refuses s ->
              (forall x, In x (vendors s) -> In x (vendors s')) ->
              (forall x, is_Some (cache' !! x) -> is_Some (vendorCache !! x) \/ x = name) ->
              (forall x, is_Some (vendorCache !! x) -> is_Some (cache' !! x)) ->
              (name <> Js.PROTO ->
               In name (vendors s) \/ refuses s (SaveVendor name) = false ->
               is_Some (cache' !! name)) ->
              let r := createVendors_loop names cache' s' in
              cacheSound (fst r) (snd r)
              /\ fst r !! Js.PROTO = None
              /\ (forall x, is_Some (fst r !! x) ->
                            is_Some (vendorCache !! x) \/ In x (name :: names))
              /\ (forall x, is_Some (vendorCache !! x) -> is_Some (fst r !! x))
              /\ (forall x, In x (name :: names) -> x <> Js.PROTO ->
                    In x (vendors s) \/ refuses s (SaveVendor x) = false ->
                    is_Some (fst r !! x))).
    { intros cache' s' Hs' Hp' Hrf Hv Hdom Hkeep Hname. cbn zeta.
      destruct (IH cache' s' Hs' Hp') as (Hsound & Hpr & Hd & Hk & Hc). cbn zeta in *.
      split; [exact Hsound|]. split; [exact Hpr|]. split; [|split].
      - intros x Hx. apply Hd in Hx as [Hx|Hx]; [|right; now right].
        apply Hdom in Hx as [Hx| ->]; [now left|right; now left].
      - intros x Hx. now apply Hk, Hkeep.
      - intros x [<-|Hx] Hne Hok; [now apply Hk, Hname|].
        apply Hc; [exact Hx|exact Hne|]. rewrite Hrf.
        destruct Hok as [Hok|Hok]; [left|now right].
        now apply Hv. }
    destruct (findFirst (fun v : string => v) name (vendors s)) as [vendor|] eqn:Ef.
    + apply Hstep; [|now apply setProperty_proto|reflexivity|tauto| | |].
      * intros x id Hx. apply lookup_setProperty in Hx as [(-> & -> & _)|Hx]; [|now apply Hs].
        apply findFirst_lookup in Ef as (v & Hv & ->). exact Hv.
      * intros x. apply setProperty_dom.
      * intros x. apply setProperty_keeps.
      * intros Hne _. rewrite lookup_setProperty_eq by exact Hne. now eexists.
    + pose proof (findFirst_None_notin _ _ _ Ef) as Hnot. rewrite map_id in Hnot.
      destruct (refuses s (SaveVendor name)) eqn:Er.
      * apply (Hstep vendorCache s); [exact Hs|exact Hproto|reflexivity|tauto|tauto|tauto|].
        intros _ [Hin|Hrf]; [now destruct Hnot|discriminate].
      * apply Hstep; [|now apply setProperty_proto|reflexivity| | | |].
        -- intros x id Hx. apply lookup_setProperty in Hx as [(-> & -> & _)|Hx].
           ++ cbn [vendors withVendors]. rewrite indexOf_idOf. now apply list_lookup_middle.
           ++ exact (cacheSound_grow vendorCache s [name] Hs x id Hx).
        -- intros x Hx. cbn [vendors withVendors]. apply in_or_app. now left.
        -- intros x. apply setProperty_dom.
        -- intros x. apply setProperty_keeps.
        -- intros Hne _. rewrite lookup_setProperty_eq by exact Hne. now eexists.
Qed.

Lemma vendorNamesOf_In (col : nat) (lines : list string) (name : string) :
  In name (vendorNamesOf col lines)
  <-> exists line cell, In line (tail lines) /\ parseRow line !! col = Some cell
        /\ Js.truthy (Js.trim cell) = true /\ name = Js.trim cell.
Proof.
  unfold vendorNamesOf. rewrite In_setFrom. split.
  - intros [Hin _]. apply list_elem_of_In, list_elem_of_omap in Hin as (line & Hl & H).
    destruct (parseRow line !! col) as [cell|] eqn:Ec; [|discriminate].
    destruct (Js.truthy (Js.trim cell)) eqn:Et; [|discriminate].
    injection H as <-. exists line, cell. split; [now apply list_elem_of_In|now repeat split].
  - intros (line & cell & Hl & Hc & Ht & ->). split; [|intros []].
    apply list_elem_of_In, list_elem_of_omap. exists line.
    split; [now apply list_elem_of_In|]. now rewrite Hc, Ht.
Qed.

Lemma existsb_eqb_In_list (name : string) (l : list string) :
  existsb (String.eqb name) l = true -> In name l.
Proof.
  intros H. apply existsb_exists in H as (x & Hx & E). apply String.eqb_eq in E. now subst.
Qed.

(** X17.  The vendor cache [createVendorsFromCSV] returns is a plain object:
    every entry of its own gives, under a trimmed non-empty name read from
    the vendor column of a data line, the id of a vendor of that name, and
    [__proto__] is never an entry; every non-blank cell of the vendor
    column other than [__proto__] has its trimmed text in the cache when a
    vendor of that name exists or its creation is not refused; and a read
    of the cache yields the id of a vendor of the name read, or, for a name
    [Object.prototype] defines, the member it inherits. *)
Theorem vendor_cache_sound (env : Env) (csvFile : positive)
    (maps : option (list (nat * string))) (s : Store) :
  let r := createVendorsFromCSV env csvFile maps s in
  (forall name id, fst r !! name = Some id ->
     vendors (snd r) !! indexOf id = Some name
     /\ storedText name /\ name <> Js.PROTO
     /\ exists col csvContent line cell,
          maps ≫= vendorColumn = Some col /\ csvFiles env !! csvFile = Some csvContent
          /\ In line (tail (csvLines csvContent))
          /\ parseRow line !! col = Some cell /\ name = Js.trim cell)
  /\ (forall col csvContent line cell,
        maps ≫= vendorColumn = Some col -> csvFiles env !! csvFile = Some csvContent ->
        In line (tail (csvLines csvContent)) -> parseRow line !! col = Some cell ->
        Js.truthy (Js.trim cell) = true ->
        Js.trim cell <> Js.PROTO ->
        In (Js.trim cell) (vendors s) \/ refuses s (SaveVendor (Js.trim cell)) = false ->
        is_Some (fst r !! Js.trim cell))
  /\ (forall name vendor, cachedVendor (fst r) name = Some vendor ->
        vendorRead (snd r) name vendor)
  /\ cachedVendor (fst r) Js.PROTO = Some (PrototypeMember Js.PROTO).
Proof.
  cbn zeta.
  assert (Hgoal : let r := createVendorsFromCSV env csvFile maps s in
    cacheSound (fst r) (snd r) /\ fst r !! Js.PROTO = None
    /\ (forall name, is_Some (fst r !! name) ->
          storedText name
          /\ exists col csvContent line cell,
               maps ≫= vendorColumn = Some col /\ csvFiles env !! csvFile = Some csvContent
               /\ In line (tail (csvLines csvContent))
               /\ parseRow line !! col = Some cell /\ name = Js.trim cell)
    /\ (forall col csvContent line cell,
          maps ≫= vendorColumn = Some col -> csvFiles env !! csvFile = Some csvContent ->
          In line (tail (csvLines csvContent)) -> parseRow line !! col = Some cell ->
          Js.truthy (Js.trim cell) = true ->
          Js.trim cell <> Js.PROTO ->
          In (Js.trim cell) (vendors s) \/ refuses s (SaveVendor (Js.trim cell)) = false ->
          is_Some (fst r !! Js.trim cell))).
  { cbn zeta. unfold createVendorsFromCSV.
    destruct (maps ≫= vendorColumn) as [col|].
    2:{ cbn [fst snd]. split; [intros name id H; rewrite lookup_empty in H; discriminate|].
        split; [apply lookup_empty|]. split; [|discriminate].
        intros name [id H]. rewrite lookup_empty in H. discriminate. }
    destruct (csvFiles env !! csvFile) as [csvContent|].
    2:{ cbn [fst snd]. split; [intros name id H; rewrite lookup_empty in H; discriminate|].
        split; [apply lookup_empty|]. split; [|discriminate].
        intros name [id H]. rewrite lookup_empty in H. discriminate. }
    destruct (createVendors_loop_sound (vendorNamesOf col (csvLines csvContent)) ∅ s)
      as (Hsound & Hproto & Hdom & _ & Hcomplete).
    { intros name id H. rewrite lookup_empty in H. discriminate. }
    { apply lookup_empty. }
    cbn zeta in *. split; [exact Hsound|]. split; [exact Hproto|]. split.
    - intros name Hname.
      destruct (Hdom name Hname) as [[x Hx]|Hin];
        [rewrite lookup_empty in Hx; discriminate|].
      apply vendorNamesOf_In in Hin as (line & cell & Hl & Hc & Ht & ->).
      split; [now apply storedText_trim|]. now exists col, csvContent, line, cell.
    - intros col' csv' line cell [= <-] [= <-] Hl Hc Ht Hne Hok.
      apply Hcomplete; [|exact Hne|exact Hok]. apply vendorNamesOf_In. now exists line, cell. }
  cbn zeta in Hgoal. destruct Hgoal as (Hsound & Hproto & Hown & Hcomplete).
  split; [|split; [exact Hcomplete|split]].
  - intros name id H. split; [now apply Hsound|].
    destruct (Hown name (ex_intro _ id H)) as [Htext Hfrom].
    split; [exact Htext|]. split; [congruence | exact Hfrom].
  - intros name vendor. unfold cachedVendor.
    destruct (_ !! name) as [id|] eqn:E.
    + intros [= <-]. unfold vendorRead. exists id. split; [reflexivity | now apply Hsound].
    + destruct (existsb (String.eqb name) Js.objectPrototype) eqn:Ep; [|discriminate].
      intros [= <-]. unfold vendorRead. split; [reflexivity | now apply existsb_eqb_In_list].
  - unfold cachedVendor. now rewrite Hproto.
Qed.

(** ** Repairs of an existing item *)

Lemma loadItem_saved (ty : option RecordType) (id : positive) (s : Store) (old new : Item) :
  loadItem ty id s = Some old ->
  it_type new = it_type old ->
  loadItem ty id (withItems (fun t => <[indexOf id := new]> t) s) = Some new.
Proof.
  unfold loadItem. intros H Hty. destruct ty as [t|]; [|discriminate].
  destruct (items s !! indexOf id) as [it|] eqn:E; [|discriminate].
  cbn [items withItems]. rewrite list_lookup_insert_eq by (now apply lookup_lt_Some in E).
  destruct (RecordType_eqb (it_type it) t) eqn:Et; [|discriminate].
  injection H as <-. now rewrite Hty, Et.
Qed.

(** X18.  [ensureMRPSettings] settles an item in one call: a second call
    with the same row finds nothing to update and leaves the store as it
    is.  When the first call reports an update, the item has the
    replenishment method of its kind, [MPS] for an assembly and [MRP]
    otherwise, unless the set of the method was refused, and then it has
    the method it had; and it has a planning item category if the run has
    one, unless the set of the category was refused. *)
Theorem ensureMRPSettings_settles (itemId : positive) (ctx : Context) (row : Row)
    (s : Store) :
  let r := ensureMRPSettings itemId ctx row s in
  let expectedMethod := if isAssembly row then "MPS" else "MRP" in
  ensureMRPSettings itemId ctx row (snd r) = (false, snd r)
  /\ (fst r = true ->
      exists old itemRec,
        loadItem (recordType row) itemId s = Some old
        /\ loadItem (recordType row) itemId (snd r) = Some itemRec
        /\ (it_replenishment itemRec = Some expectedMethod
            \/ (refuses s (SetReplenishment (it_type old) expectedMethod) = true
                /\ it_replenishment itemRec = it_replenishment old))
        /\ (forall category, c_planningItemCategoryId ctx = Some category ->
              it_planningitemcategory itemRec <> None
              \/ refuses s (SetPlanningCategory (it_type old) category) = true))
  /\ (fst r = false -> snd r = s).
Proof.
  cbn zeta. unfold ensureMRPSettings at 2 3 4 5 6 7.
  destruct (negb (setupMRP (defaultsOf ctx))) eqn:Em.
  { cbn [fst snd]. unfold ensureMRPSettings. rewrite Em. now repeat split. }
  destruct (loadItem (recordType row) itemId s) as [itemRec|] eqn:El.
  2:{ cbn [fst snd]. unfold ensureMRPSettings. rewrite Em, El. now repeat split. }
  set (needsCategory := fun (policy : WriteOp -> bool) (rec : Item) =>
         match c_planningItemCategoryId ctx, it_planningitemcategory rec with
         | Some category, None => negb (policy (SetPlanningCategory (it_type rec) category))
         | _, _ => false
         end).
  set (expectedMethod := if isAssembly row then "MPS" else "MRP").
  set (needsMethod := fun (policy : WriteOp -> bool) (rec : Item) =>
         (match it_replenishment rec with
          | None => true
          | Some currentMethod =>
              ((currentMethod =? "REORDER_POINT")
               || negb (currentMethod =? expectedMethod))%bool
          end
          && negb (policy (SetReplenishment (it_type rec) expectedMethod)))%bool).
  change (match c_planningItemCategoryId ctx, it_planningitemcategory itemRec with
          | Some category, None =>
              negb (refuses s (SetPlanningCategory (it_type itemRec) category))
          | _, _ => false
          end) with (needsCategory (refuses s) itemRec).
  change (match it_replenishment itemRec with
          | None => true
          | Some currentMethod =>
              ((currentMethod =? "REORDER_POINT")
               || negb (currentMethod =? expectedMethod))%bool
          end
          && negb (refuses s (SetReplenishment (it_type itemRec) expectedMethod)))%bool
    with (needsMethod (refuses s) itemRec).
  assert (Hagain : forall s' rec,
            setupMRP (defaultsOf ctx) = true ->
            loadItem (recordType row) itemId s' = Some rec ->
            needsCategory (refuses s') rec = false ->
            needsMethod (refuses s') rec = false ->
            ensureMRPSettings itemId ctx row s' = (false, s')).
  { intros s' rec Hm Hl Hc Hme. unfold ensureMRPSettings. rewrite Hm, Hl. cbn [negb].
    fold expectedMethod.
    change (match c_planningItemCategoryId ctx, it_planningitemcategory rec with
            | Some category, None =>
                negb (refuses s' (SetPlanningCategory (it_type rec) category))
            | _, _ => false
            end) with (needsCategory (refuses s') rec).
    change (match it_replenishment rec with
            | None => true
            | Some currentMethod =>
                ((currentMethod =? "REORDER_POINT")
                 || negb (currentMethod =? expectedMethod))%bool
            end
            && negb (refuses s' (SetReplenishment (it_type rec) expectedMethod)))%bool
      with (needsMethod (refuses s') rec).
    now rewrite Hc, Hme. }
  apply negb_false_iff in Em.
  destruct (needsCategory (refuses s) itemRec || needsMethod (refuses s) itemRec)%bool eqn:En.
  2:{ cbn [fst snd]. apply orb_false_elim in En as [Hc Hme].
      split; [now apply (Hagain s itemRec)|]. now split. }
  destruct (refuses s (SaveItemUpdate itemId)) eqn:Er.
  { cbn [fst snd]. split; [|now split].
    unfold ensureMRPSettings. rewrite Em, El. cbn [negb]. fold expectedMethod.
    change (match c_planningItemCategoryId ctx, it_planningitemcategory itemRec with
            | Some category, None =>
                negb (refuses s (SetPlanningCategory (it_type itemRec) category))
            | _, _ => false
            end) with (needsCategory (refuses s) itemRec).
    change (match it_replenishment itemRec with
            | None => true
            | Some currentMethod =>
                ((currentMethod =? "REORDER_POINT")
                 || negb (currentMethod =? expectedMethod))%bool
            end
            && negb (refuses s (SetReplenishment (it_type itemRec) expectedMethod)))%bool
      with (needsMethod (refuses s) itemRec).
    now rewrite En, Er. }
  cbn [fst snd].
  set (saved := mkItem (it_type itemRec) (it_externalid itemRec) (it_fields itemRec)
                       (if needsCategory (refuses s) itemRec then c_planningItemCategoryId ctx
                        else it_planningitemcategory itemRec)
                       (if needsMethod (refuses s) itemRec then Some expectedMethod
                        else it_replenishment itemRec)
                       (it_vendors itemRec) (it_boms itemRec)).
  pose proof (loadItem_saved _ itemId s itemRec saved El eq_refl) as Hload.
  assert (Hexp : ((expectedMethod =? "REORDER_POINT")
                  || negb (expectedMethod =? expectedMethod))%bool = false)
    by (unfold expectedMethod; now destruct (isAssembly row)).
  assert (Hmethod : needsMethod (refuses s) saved = false
                    /\ (it_replenishment saved = Some expectedMethod
                        \/ (refuses s (SetReplenishment (it_type itemRec) expectedMethod) = true
                            /\ it_replenishment saved = it_replenishment itemRec))).
  { unfold needsMethod at 1. cbn [saved it_replenishment it_type].
    destruct (needsMethod (refuses s) itemRec) eqn:Eme.
    - rewrite Hexp. split; [reflexivity | now left].
    - unfold needsMethod in Eme. split; [exact Eme|].
      apply andb_false_iff in Eme as [Eme|Eme].
      + left. destruct (it_replenishment itemRec) as [currentMethod|]; [|discriminate Eme].
        apply orb_false_elim in Eme as [_ Eme]. apply negb_false_iff in Eme.
        apply String.eqb_eq in Eme. now subst.
      + right. apply negb_false_iff in Eme. now split. }
  assert (Hcategory : needsCategory (refuses s) saved = false
                      /\ (forall category, c_planningItemCategoryId ctx = Some category ->
                            it_planningitemcategory saved <> None
                            \/ refuses s (SetPlanningCategory (it_type itemRec) category) = true)).
  { unfold needsCategory at 1. cbn [saved it_planningitemcategory it_type].
    destruct (needsCategory (refuses s) itemRec) eqn:Eca.
    - unfold needsCategory in Eca.
      destruct (c_planningItemCategoryId ctx) as [c|]; [|discriminate Eca].
      split; [reflexivity|]. intros category _. now left.
    - unfold needsCategory in Eca. split; [exact Eca|].
      intros category Hcat. rewrite Hcat in Eca.
      destruct (it_planningitemcategory itemRec); [now left|].
      right. now apply negb_false_iff in Eca. }
  split; [|split; [|intros H; discriminate H]].
  - apply (Hagain _ saved Em Hload); [apply Hcategory | apply Hmethod].
  - intros _. exists itemRec, saved. split; [reflexivity|]. split; [exact Hload|].
    split; [apply Hmethod | apply Hcategory].
Qed.

(** X19.  [ensureVendorSubsidiary] settles an item in one call: a second
    call finds nothing to update and leaves the store as it is.  When the
    first call reports an update, every vendor line of the item has the
    expected subsidiary, and the same vendors in the same order. *)
Theorem ensureVendorSubsidiary_settles (itemId : positive) (ty : option RecordType)
    (ctx : Context) (s : Store) :
  let r := ensureVendorSubsidiary itemId ty ctx s in
  ensureVendorSubsidiary itemId ty ctx (snd r) = (false, snd r)
  /\ (fst r = true ->
      exists old itemRec,
        loadItem ty itemId s = Some old
        /\ loadItem ty itemId (snd r) = Some itemRec
        /\ List.map vl_vendor (it_vendors itemRec) = List.map vl_vendor (it_vendors old)
        /\ Forall (fun l => vl_subsidiary l = vendorSubsidiaryOf (defaultsOf ctx))
                  (it_vendors itemRec))
  /\ (fst r = false -> snd r = s).
Proof.
  cbn zeta. unfold ensureVendorSubsidiary at 2 3 4 5 6 7.
  destruct (vendorSubsidiaryOf (defaultsOf ctx)) as [e|] eqn:Ee.
  2:{ cbn [fst snd]. unfold ensureVendorSubsidiary. rewrite Ee. now repeat split. }
  destruct (loadItem ty itemId s) as [itemRec|] eqn:El.
  2:{ cbn [fst snd]. unfold ensureVendorSubsidiary. rewrite Ee, El. now repeat split. }
  destruct (existsb (fun l => negb (bool_decide (vl_subsidiary l = Some e)))
                    (it_vendors itemRec)) eqn:Ex.
  2:{ cbn [fst snd]. unfold ensureVendorSubsidiary. rewrite Ee, El, Ex. now repeat split. }
  destruct (refuses s (SaveItemUpdate itemId)) eqn:Er.
  { cbn [fst snd]. unfold ensureVendorSubsidiary. rewrite Ee, El, Ex, Er. now repeat split. }
  cbn [fst snd].
  set (saved := mkItem (it_type itemRec) (it_externalid itemRec) (it_fields itemRec)
                       (it_planningitemcategory itemRec) (it_replenishment itemRec)
                       (List.map (fun l => mkVendorLine (vl_vendor l) (Some e))
                                 (it_vendors itemRec))
                       (it_boms itemRec)).
  pose proof (loadItem_saved _ itemId s itemRec saved El eq_refl) as Hload.
  assert (Hall : Forall (fun l => vl_subsidiary l = Some e) (it_vendors saved)).
  { cbn [saved it_vendors]. apply Forall_forall. intros l Hl.
    apply list_elem_of_In, in_map_iff in Hl as (l0 & <- & _). reflexivity. }
  split; [|split; [|intros H; discriminate H]].
  - unfold ensureVendorSubsidiary. rewrite Ee, Hload.
    assert (Hno : existsb (fun l => negb (bool_decide (vl_subsidiary l = Some e)))
                          (it_vendors saved) = false).
    { apply not_true_is_false. intros Hex. apply existsb_exists in Hex as (l & Hl & Hd).
      rewrite Forall_forall in Hall. apply list_elem_of_In in Hl.
      rewrite (bool_decide_eq_true_2 _ (Hall l Hl)) in Hd. discriminate. }
    now rewrite Hno.
  - intros _. exists itemRec, saved. split; [reflexivity|]. split; [exact Hload|].
    split; [apply map_vl_vendor|exact Hall].
Qed.

(** ** Planning settings of the location configurations *)

Lemma expected_defined (rotationIndex locIndex : nat) :
  is_Some (expectedLotSizing rotationIndex)
  /\ is_Some (expectedLeadTime rotationIndex locIndex).
Proof.
  unfold expectedLotSizing, expectedLeadTime. split; apply lookup_lt_is_Some;
    apply Nat.mod_upper_bound; discriminate.
Qed.

Lemma saved_needs_no_update (isAsm : bool) (rotationIndex locIndex : nat)
    (item location : positive) :
  needsUpdate isAsm rotationIndex locIndex
    (mkLocConfig item location (Some (expectedSupplyType isAsm))
                 (expectedLotSizing rotationIndex)
                 (expectedLeadTime rotationIndex locIndex)) = false.
Proof.
  destruct (expected_defined rotationIndex locIndex) as [Hl Ht].
  unfold needsUpdate. cbn [lc_supplytype lc_lotsizing lc_leadtime].
  rewrite !bool_decide_eq_true_2 by (reflexivity || assumption). reflexivity.
Qed.

Lemma indexOf_inj (a b : positive) : indexOf a = indexOf b -> a = b.
Proof. unfold indexOf. lia. Qed.

(** The loop writes only under the ids of its results. *)
Lemma ensureLocationMRPSettings_loop_frame (isAsm : bool) (rotationIndex : nat)
    (results : list (positive * LocConfig)) :
  forall (locIndex updated : nat) (s : Store) (i : nat),
    (forall e, In e results -> indexOf (fst e) <> i) ->
    locconfigs
      (snd (ensureLocationMRPSettings_loop isAsm rotationIndex locIndex results updated s))
      !! i
    = locconfigs s !! i.
Proof.
  induction results as [|[configId lc] results IH]; intros locIndex updated s i Hi;
    [reflexivity|].
  cbn [ensureLocationMRPSettings_loop].
  assert (Hrest : forall e, In e results -> indexOf (fst e) <> i)
    by (intros e He; apply Hi; now right).
  destruct (negb (needsUpdate isAsm rotationIndex locIndex lc)); [now apply IH|].
  destruct (refuses s (SaveLocConfigUpdate configId)); [now apply IH|].
  rewrite IH by exact Hrest. cbn [locconfigs withLocConfigs].
  apply list_lookup_insert_ne. exact (Hi (configId, lc) (or_introl eq_refl)).
Qed.

(** Read again after the loop, the results need nothing more. *)
Lemma ensureLocationMRPSettings_loop_again (isAsm : bool) (rotationIndex : nat)
    (results : list (positive * LocConfig)) :
  forall (locIndex updated : nat) (s : Store),
    NoDup (List.map fst results) ->
    (forall configId lc, In (configId, lc) results ->
       locconfigs s !! indexOf configId = Some lc) ->
    let s' := snd (ensureLocationMRPSettings_loop isAsm rotationIndex locIndex results
                     updated s) in
    forall again,
      ensureLocationMRPSettings_loop isAsm rotationIndex locIndex
        (List.map (refreshed s') results) again s'
      = (again, s').
Proof.
  induction results as [|[configId lc] results IH]; intros locIndex updated s Hnd Hk;
    cbn zeta; [reflexivity|].
  apply NoDup_cons in Hnd as [Hnew Hnd].
  assert (Hother : forall e, In e results -> indexOf (fst e) <> indexOf configId).
  { intros e He Heq. apply indexOf_inj in Heq. apply Hnew.
    apply list_elem_of_In, in_map_iff. now exists e. }
  pose proof (Hk configId lc (or_introl eq_refl)) as Hhead.
  assert (Hlt : indexOf configId < length (locconfigs s)) by now apply lookup_lt_Some in Hhead.
  cbn [ensureLocationMRPSettings_loop].
  (* the store after the head, and the record it holds under the head's id *)
  assert (Hstep : exists s1 lc1,
            (if negb (needsUpdate isAsm rotationIndex locIndex lc)
             then ensureLocationMRPSettings_loop isAsm rotationIndex (S locIndex) results
                    updated s
             else if refuses s (SaveLocConfigUpdate configId)
             then ensureLocationMRPSettings_loop isAsm rotationIndex (S locIndex) results
                    updated s
             else ensureLocationMRPSettings_loop isAsm rotationIndex (S locIndex) results
                    (S updated)
                    (withLocConfigs
                       (fun t => <[indexOf configId :=
                          mkLocConfig (lc_item lc) (lc_location lc)
                                      (Some (expectedSupplyType isAsm))
                                      (expectedLotSizing rotationIndex)
                                      (expectedLeadTime rotationIndex locIndex)]> t) s))
            = ensureLocationMRPSettings_loop isAsm rotationIndex (S locIndex) results
                (if (needsUpdate isAsm rotationIndex locIndex lc
                     && negb (refuses s (SaveLocConfigUpdate configId)))%bool
                 then S updated else updated) s1
            /\ refuses s1 = refuses s
            /\ locconfigs s1 !! indexOf configId = Some lc1
            /\ (needsUpdate isAsm rotationIndex locIndex lc1 = false
                \/ refuses s (SaveLocConfigUpdate configId) = true)
            /\ (forall cid' lc', In (cid', lc') results ->
                  locconfigs s1 !! indexOf cid' = Some lc')).
  { destruct (needsUpdate isAsm rotationIndex locIndex lc) eqn:En; cbn [negb andb].
    - destruct (refuses s (SaveLocConfigUpdate configId)) eqn:Er; cbn [negb].
      + exists s, lc. repeat split; try assumption; [now right|].
        intros cid' lc' Hin. apply Hk. now right.
      + eexists _, _. split; [reflexivity|]. split; [reflexivity|].
        cbn [locconfigs withLocConfigs]. split; [now apply list_lookup_insert_eq|].
        split; [left; apply saved_needs_no_update|].
        intros cid' lc' Hin. rewrite list_lookup_insert_ne.
        * apply Hk. now right.
        * intros Heq. exact (Hother (cid', lc') Hin (eq_sym Heq)).
    - exists s, lc. repeat split; try assumption; [now left|].
      intros cid' lc' Hin. apply Hk. now right. }
  destruct Hstep as (s1 & lc1 & -> & Hrf & Hl1 & Hsettled & Hk1).
  set (u1 := if (needsUpdate isAsm rotationIndex locIndex lc
                 && negb (refuses s (SaveLocConfigUpdate configId)))%bool
             then S updated else updated).
  specialize (IH (S locIndex) u1 s1 Hnd Hk1). cbn zeta in IH.
  set (s' := snd (ensureLocationMRPSettings_loop isAsm rotationIndex (S locIndex) results
                    u1 s1)) in *.
  assert (Hl' : locconfigs s' !! indexOf configId = Some lc1).
  { unfold s'. rewrite ensureLocationMRPSettings_loop_frame by exact Hother. exact Hl1. }
  assert (Hrf' : refuses s' = refuses s).
  { pose proof (ensureLocationMRPSettings_loop_beside isAsm rotationIndex results
                  (S locIndex) u1 s1) as Hb.
    fold s' in Hb. apply besideLocConfigs_eq in Hb as [_ Hb].
    apply beside_refuses in Hb. congruence. }
  intros again. cbn [List.map]. unfold refreshed at 1. cbn [fst snd]. rewrite Hl'.
  change (default lc (Some lc1)) with lc1. cbn [ensureLocationMRPSettings_loop].
  destruct Hsettled as [Hn|Hr].
  - rewrite Hn. cbn [negb]. apply IH.
  - destruct (negb (needsUpdate isAsm rotationIndex locIndex lc1)); [apply IH|].
    rewrite Hrf', Hr. apply IH.
Qed.

Lemma imap_shift (k : nat) (l : list LocConfig) :
  imap ((fun i lc => (idOf (k + i), lc)) ∘ S) l
  = imap (fun i lc => (idOf (S k + i), lc)) l.
Proof.
  apply imap_ext. intros i x _. unfold compose.
  now replace (k + S i) with (S k + i) by lia.
Qed.

Lemma imap_ids (l : list LocConfig) :
  forall k, List.map fst (imap (fun i lc => (idOf (k + i), lc)) l)
            = List.map idOf (seq k (length l)).
Proof.
  induction l as [|x l IH]; intros k; [reflexivity|].
  cbn [imap List.map length seq fst]. rewrite imap_shift, IH. f_equal. f_equal. lia.
Qed.

Lemma NoDup_map_fst_filter {A B : Type} (p : A * B -> bool) (l : list (A * B)) :
  NoDup (List.map fst l) -> NoDup (List.map fst (List.filter p l)).
Proof.
  induction l as [|x l IH]; intros H; [constructor|].
  cbn [List.map] in H. apply NoDup_cons in H as [Hx Hl].
  cbn [List.filter]. destruct (p x); [|now apply IH].
  cbn [List.map]. apply NoDup_cons. split; [|now apply IH].
  intros Hin. apply Hx. apply list_elem_of_In, in_map_iff in Hin as (y & Hy & Hin).
  apply filter_In in Hin as [Hin _]. apply list_elem_of_In, in_map_iff. now exists y.
Qed.

Lemma idOf_inj (i j : nat) : idOf i = idOf j -> i = j.
Proof. unfold idOf. lia. Qed.

Lemma locConfigsOf_distinct (itemId : positive) (s : Store) :
  NoDup (List.map fst (locConfigsOf itemId s)).
Proof.
  unfold locConfigsOf. apply NoDup_map_fst_filter.
  change (imap (fun i lc => (idOf i, lc)) (locconfigs s))
    with (imap (fun i lc => (idOf (0 + i), lc)) (locconfigs s)).
  rewrite (imap_ids (locconfigs s) 0).
  change (NoDup (idOf <$> seq 0 (length (locconfigs s)))).
  apply NoDup_fmap_2; [|apply NoDup_seq].
  intros i j. apply idOf_inj.
Qed.

Lemma locConfigsOf_lookup (itemId : positive) (s : Store) (configId : positive)
    (lc : LocConfig) :
  In (configId, lc) (locConfigsOf itemId s) ->
  locconfigs s !! indexOf configId = Some lc.
Proof.
  unfold locConfigsOf. intros Hin. apply filter_In in Hin as [Hin _].
  apply list_elem_of_In, list_elem_of_lookup in Hin as [i Hi].
  rewrite list_lookup_imap in Hi.
  destruct (locconfigs s !! i) as [x|] eqn:Ex; [|discriminate Hi].
  cbn in Hi. injection Hi as <- <-. now rewrite indexOf_idOf.
Qed.

Lemma filter_imap_refreshed (itemId : positive) (s' : Store) (l : list LocConfig) :
  forall (l' : list LocConfig) (k : nat),
    List.map locKey l' = List.map locKey l ->
    (forall i, i < length l' -> locconfigs s' !! (k + i) = l' !! i) ->
    List.filter (fun e : positive * LocConfig => Pos.eqb (lc_item (snd e)) itemId)
                (imap (fun i lc => (idOf (k + i), lc)) l')
    = List.map (refreshed s')
        (List.filter (fun e : positive * LocConfig => Pos.eqb (lc_item (snd e)) itemId)
                     (imap (fun i lc => (idOf (k + i), lc)) l)).
Proof.
  induction l as [|x l IH]; intros [|x' l'] k Hkeys Hl'; try discriminate Hkeys;
    [reflexivity|].
  cbn [List.map] in Hkeys. injection Hkeys as Hitem Hloc Hkeys.
  cbn [imap]. rewrite !imap_shift. cbn [List.filter snd].
  rewrite Hitem.
  assert (Hrest : List.filter (fun e : positive * LocConfig => Pos.eqb (lc_item (snd e)) itemId)
                    (imap (fun i lc => (idOf (S k + i), lc)) l')
                  = List.map (refreshed s')
                      (List.filter
                         (fun e : positive * LocConfig => Pos.eqb (lc_item (snd e)) itemId)
                         (imap (fun i lc => (idOf (S k + i), lc)) l))).
  { apply IH; [exact Hkeys|]. intros i Hi.
    replace (S k + i) with (k + S i) by lia. rewrite Hl' by (cbn; lia). reflexivity. }
  destruct (Pos.eqb (lc_item x) itemId); [|exact Hrest].
  cbn [List.map]. rewrite Hrest. f_equal.
  unfold refreshed. cbn [fst snd]. rewrite indexOf_idOf.
  rewrite (Hl' 0) by (cbn; lia). reflexivity.
Qed.

Lemma locConfigsOf_refreshed (itemId : positive) (s s' : Store) :
  List.map locKey (locconfigs s') = List.map locKey (locconfigs s) ->
  locConfigsOf itemId s' = List.map (refreshed s') (locConfigsOf itemId s).
Proof.
  intros H. unfold locConfigsOf.
  apply (filter_imap_refreshed itemId s' (locconfigs s) (locconfigs s') 0 H).
  intros i _. reflexivity.
Qed.

(** X20.  [ensureLocationMRPSettings] settles the location configurations
    of an item in one call: a second call with the same row updates nothing
    and leaves the store as it is.  A call changes no table but the
    location configurations, and there neither the item nor the location
    of a record. *)
Theorem ensureLocationMRPSettings_settles (itemId : positive) (ctx : Context) (row : Row)
    (s : Store) :
  let r := ensureLocationMRPSettings itemId ctx row s in
  ensureLocationMRPSettings itemId ctx row (snd r) = (0, snd r)
  /\ besideLocConfigs (snd r) = besideLocConfigs s
  /\ List.map locKey (locconfigs (snd r)) = List.map locKey (locconfigs s).
Proof.
  cbn zeta. split; [|apply ensureLocationMRPSettings_effect].
  pose proof (ensureLocationMRPSettings_effect itemId ctx row s) as [_ Hkeys].
  cbn zeta in Hkeys. unfold ensureLocationMRPSettings in *.
  destruct (negb (setupMRP (defaultsOf ctx))) eqn:Em; [reflexivity|].
  rewrite (locConfigsOf_refreshed itemId s _ Hkeys).
  apply ensureLocationMRPSettings_loop_again.
  - apply locConfigsOf_distinct.
  - apply locConfigsOf_lookup.
Qed.

(** ** Locations of an existing item *)

(** X21.  [ensureItemLocations] adds to an existing item one plain
    configuration for each configured location it has none for and the
    store accepts one for, in the order of the configuration, and reports
    their number; it changes nothing else.  Afterwards every configured
    location is there or refused, and a second call adds nothing. *)
Theorem ensureItemLocations_settles (itemId : positive) (ctx : Context) (s : Store) :
  let r := ensureItemLocations itemId ctx s in
  let d := defaultsOf ctx in
  let news := missingLocations itemId d (locationIds d) s in
  fst r = length news
  /\ locconfigs (snd r)
     = (locconfigs s
        ++ List.map (fun loc => mkLocConfig itemId loc None None (Some (leadtimeOf d))) news)%list
  /\ besideLocConfigs (snd r) = besideLocConfigs s
  /\ (forall loc, In loc (locationIds d) ->
        In loc (getExistingItemLocations itemId (snd r))
        \/ refuses s (SaveLocConfig (mkLocConfig itemId loc None None (Some (leadtimeOf d))))
           = true)
  /\ ensureItemLocations itemId ctx (snd r) = (0, snd r).
Proof.
  cbn zeta.
  destruct (ensureItemLocations_effect itemId ctx s) as (Hn & Hl & Hb). cbn zeta in *.
  destruct (ensureItemLocations_spec itemId ctx s) as (Hg & _ & Hsettled). cbn zeta in *.
  split; [exact Hn|]. split; [exact Hl|]. split; [exact Hb|].
  apply besideLocConfigs_eq in Hb as [_ Hb]. apply beside_refuses in Hb.
  split.
  - intros loc Hloc. destruct (Hsettled loc Hloc) as [H|H]; [now left|right].
    now rewrite <- Hb.
  - now apply ensureItemLocations_stable.
Qed.

(** ** The revisions [summarize] creates *)

Lemma builtFor_grow (ns : string) (allRows : list Row) (s s' : Store) (a : Row)
    (v : BomRevision) :
  structuresGrow s s' -> builtFor ns allRows s a v -> builtFor ns allRows s' a v.
Proof.
  intros Hg (He & Hn & Hb & Hc).
  split; [exact He|]. split; [exact Hn|]. split.
  - pose proof (grow_findBOM s s' Hg (bomExternalId ns (itemid a))) as H.
    now rewrite Hb in H.
  - rewrite (grow_componentsOf s s' Hg). destruct Hg as (Hr & _). now rewrite Hr.
Qed.

Lemma summarizeAssembly_revisions (ns : string) (d : Defaults) (allRows : list Row)
    (assembly : Row) (st : SummaryStats) (s : Store) :
  let r := summarizeAssembly ns d allRows assembly (st, s) in
  revisions (snd r) = revisions s
  \/ exists v,
       revisions (snd r) = (revisions s ++ [v])%list
       /\ directChildrenOf allRows (hierarchy assembly) <> []
       /\ builtFor ns allRows (snd r) assembly v.
Proof.
  cbn zeta.
  pose proof (summarizeAssembly_post ns d allRows assembly st s) as [Hgrow _].
  cbn zeta in Hgrow. revert Hgrow.
  unfold summarizeAssembly.
  destruct (findItemByExternalId _ s) as [assemblyId|]; [|now left].
  destruct (Nat.eqb (length (directChildrenOf allRows (hierarchy assembly))) 0) eqn:En;
    [now left|].
  destruct (Nat.eqb (length (componentsOf ns _ s)) 0) eqn:Ec; [now left|].
  pose proof (createOrGetBOM_spec (itemid assembly) ns d s) as (HgB & HfB & _).
  assert (HrB : revisions (snd (createOrGetBOM (itemid assembly) ns d s)) = revisions s).
  { unfold createOrGetBOM. destruct (findBOMByExternalId _ s); [reflexivity|].
    now destruct (refuses s _). }
  destruct (createOrGetBOM (itemid assembly) ns d s) as [[[bomId|] bomCreated] s1];
    cbn [fst snd] in HgB, HfB, HrB; [|intros _; left; exact HrB].
  pose proof (ensureBOMLinkedToAssembly_spec assemblyId bomId) as HL.
  unfold createOrGetBOMRevision.
  destruct (findBOMRevisionByExternalId _ s1) as [existing|].
  - specialize (HL s1). cbn zeta in HL. destruct HL as (_ & _ & Hrev & _).
    destruct (ensureBOMLinkedToAssembly assemblyId bomId s1) as [linked s3].
    cbn [fst snd] in *. intros _. left. congruence.
  - destruct (refuses s1 (SaveRevision _)).
    + specialize (HL s1). cbn zeta in HL. destruct HL as (_ & _ & Hrev & _).
      destruct (ensureBOMLinkedToAssembly assemblyId bomId s1) as [linked s3].
      cbn [fst snd] in *. intros _. left. congruence.
    + match goal with
      | |- context [ensureBOMLinkedToAssembly assemblyId bomId ?s2] =>
          set (sv := s2); specialize (HL sv)
      end.
      cbn zeta in HL. destruct HL as (HgL & Hboms & Hrev & _).
      destruct (ensureBOMLinkedToAssembly assemblyId bomId sv) as [linked s3].
      cbn [fst snd] in *. intros Hgrow. right.
      eexists. split; [rewrite Hrev; subst sv; cbn; rewrite HrB; reflexivity|].
      split.
      { intros Hnil. rewrite Hnil in En. discriminate En. }
      split; [reflexivity|]. split; [reflexivity|]. cbn [rev_bom rev_components]. split.
      * unfold findBOMByExternalId. rewrite Hboms. subst sv. exact HfB.
      * rewrite (grow_componentsOf s s3 Hgrow).
        destruct Hgrow as (Hr3 & _). destruct HgB as (Hr1 & _).
        now rewrite Hr3, Hr1.
Qed.

Lemma summarize_fold_revisions (ns : string) (d : Defaults) (allRows assemblies : list Row) :
  forall (st : SummaryStats) (s : Store),
    let s' := snd (fold_left (fun acc assembly => summarizeAssembly ns d allRows assembly acc)
                             assemblies (st, s)) in
    exists created,
      revisions s' = (revisions s ++ created)%list
      /\ Forall (fun v => exists a,
                   In a assemblies
                   /\ directChildrenOf allRows (hierarchy a) <> []
                   /\ builtFor ns allRows s' a v) created.
Proof.
  induction assemblies as [|a more IH]; intros st s; cbn zeta.
  - exists []. cbn. now rewrite app_nil_r.
  - cbn [fold_left].
    pose proof (summarizeAssembly_revisions ns d allRows a st s) as Hstep.
    cbn zeta in Hstep.
    destruct (summarizeAssembly ns d allRows a (st, s)) as [st1 s1]. cbn [snd] in Hstep.
    destruct (IH st1 s1) as (created & Hrev & Hall). cbn zeta in Hrev, Hall.
    pose proof (summarize_fold_post ns d allRows more st1 s1) as [Hgrow _].
    cbn zeta in Hgrow.
    set (s' := snd (fold_left _ more (st1, s1))) in *.
    assert (Hall' : Forall (fun v => exists a0, In a0 (a :: more)
                              /\ directChildrenOf allRows (hierarchy a0) <> []
                              /\ builtFor ns allRows s' a0 v) created).
    { eapply Forall_impl; [exact Hall|]. intros v (a0 & Ha0 & H). exists a0.
      split; [now right|exact H]. }
    destruct Hstep as [Hsame|(v & Hv & Hch & Hb)].
    + exists created. now rewrite Hrev, Hsame.
    + exists (v :: created). split.
      * rewrite Hrev, Hv. now rewrite <- app_assoc.
      * constructor; [|exact Hall'].
        exists a. split; [now left|]. split; [exact Hch|].
        exact (builtFor_grow ns allRows s1 s' a v Hgrow Hb).
Qed.

(** X22.  Every revision [summarize] creates is the revision of an
    assembly row that has direct children: it has the revision id and
    name of that row, belongs to the BOM of that row, and lists the direct
    children of the row whose items exist, in the order of the rows, each
    with its item and quantity. *)
Theorem created_revisions_list_children (ns : string) (d : Defaults) (allRows : list Row)
    (s : Store) :
  let s' := snd (summarizeRows ns d allRows s) in
  exists created,
    revisions s' = (revisions s ++ created)%list
    /\ Forall (fun v => exists a,
                 In a allRows /\ isAssembly a = true
                 /\ directChildrenOf allRows (hierarchy a) <> []
                 /\ builtFor ns allRows s' a v) created.
Proof.
  cbn zeta. unfold summarizeRows.
  destruct (summarize_fold_revisions ns d allRows (List.filter isAssembly allRows)
              noSummaryStats s) as (created & Hrev & Hall).
  exists created. split; [exact Hrev|].
  eapply Forall_impl; [exact Hall|].
  intros v (a & Ha & Hch & Hb). apply filter_In in Ha as [Ha Hasm].
  exists a. tauto.
Qed.

(** ** A run on a store that refuses nothing *)











(** ** An item the script has just created *)

Lemma createItemLocations_loop_exact (itemId : positive) (d : Defaults) (isAsm : bool)
    (rotationIndex : nat) (locs : list positive) :
  forall (locIndex : nat) (s : Store),
    Forall (fun record => refuses s (SaveLocConfig record) = false)
           (newLocConfigs itemId d isAsm rotationIndex locIndex locs) ->
    let s' := createItemLocations_loop itemId d isAsm rotationIndex locIndex locs s in
    locconfigs s'
    = (locconfigs s ++ newLocConfigs itemId d isAsm rotationIndex locIndex locs)%list
    /\ besideLocConfigs s' = besideLocConfigs s.
Proof.
  induction locs as [|loc more IH]; intros locIndex s Hs; cbn zeta.
  - cbn. now rewrite app_nil_r.
  - rewrite newLocConfigs_cons in Hs |- *. apply Forall_cons in Hs as [Hloc Hs].
    cbn [createItemLocations_loop]. rewrite Hloc.
    match goal with
    | |- context [createItemLocations_loop _ _ _ _ _ more ?s1] => set (sn := s1)
    end.
    destruct (IH (S locIndex) sn) as [Hl Hb]; [exact Hs|].
    cbn zeta in Hl, Hb. rewrite Hl, Hb. subst sn. cbn [locconfigs withLocConfigs].
    split; [|reflexivity].
    now rewrite <- app_assoc.
Qed.

Lemma locConfigsOf_app_new (itemId : positive) (old : list LocConfig) (news : list LocConfig) :
  Forall (fun lc => lc_item lc <> itemId) old ->
  Forall (fun lc => lc_item lc = itemId) news ->
  List.filter (fun e : positive * LocConfig => Pos.eqb (lc_item (snd e)) itemId)
              (imap (fun i lc => (idOf i, lc)) (old ++ news))
  = imap (fun i lc => (idOf (length old + i), lc)) news.
Proof.
  intros Hold Hnew. rewrite imap_app, List.filter_app.
  assert (H1 : forall k,
             List.filter (fun e : positive * LocConfig => Pos.eqb (lc_item (snd e)) itemId)
                         (imap (fun i lc => (idOf (k + i), lc)) old) = []).
  { induction Hold as [|lc old Hlc Hold IH]; intros k; [reflexivity|].
    cbn [imap List.filter snd]. apply Pos.eqb_neq in Hlc. rewrite Hlc.
    rewrite imap_shift. apply IH. }
  specialize (H1 0). cbn [Nat.add] in H1. rewrite H1. cbn [app].
  assert (H2 : forall k,
             List.filter (fun e : positive * LocConfig => Pos.eqb (lc_item (snd e)) itemId)
                         (imap (fun i lc => (idOf (k + i), lc)) news)
             = imap (fun i lc => (idOf (k + i), lc)) news).
  { induction Hnew as [|lc news Hlc Hnew IH]; intros k; [reflexivity|].
    cbn [imap List.filter snd]. apply Pos.eqb_eq in Hlc. rewrite Hlc.
    rewrite imap_shift. f_equal. apply IH. }
  apply H2.
Qed.

Lemma ensureLocationMRPSettings_loop_settled (isAsm : bool) (rotationIndex : nat)
    (results : list (positive * LocConfig)) :
  forall (locIndex updated : nat) (s : Store),
    (forall i e, results !! i = Some e ->
       needsUpdate isAsm rotationIndex (locIndex + i) (snd e) = false) ->
    ensureLocationMRPSettings_loop isAsm rotationIndex locIndex results updated s
    = (updated, s).
Proof.
  induction results as [|[configId lc] more IH]; intros locIndex updated s H; [reflexivity|].
  cbn [ensureLocationMRPSettings_loop].
  pose proof (H 0 (configId, lc) eq_refl) as H0. cbn [snd] in H0.
  rewrite Nat.add_0_r in H0. rewrite H0. cbn [negb].
  apply IH. intros i e Hi. replace (S locIndex + i) with (locIndex + S i) by lia.
  now apply H.
Qed.

Lemma existing_none (itemId : positive) (s : Store) :
  getExistingItemLocations itemId s = [] ->
  Forall (fun lc => lc_item lc <> itemId) (locconfigs s).
Proof.
  unfold getExistingItemLocations. intros H. apply Forall_forall. intros lc Hlc Heq.
  apply list_elem_of_In in Hlc.
  assert (Hin : In lc (List.filter (fun lc => Pos.eqb (lc_item lc) itemId) (locconfigs s))).
  { apply filter_In. split; [exact Hlc|]. now apply Pos.eqb_eq. }
  apply (in_map lc_location) in Hin. rewrite H in Hin. exact Hin.
Qed.

Lemma filter_none {A : Type} (f : A -> bool) (l : list A) :
  (forall x, In x l -> f x = false) -> List.filter f l = [].
Proof.
  induction l as [|x l IH]; intros H; [reflexivity|].
  cbn [List.filter]. rewrite (H x (or_introl eq_refl)). apply IH.
  intros y Hy. apply H. now right.
Qed.

Lemma newLocConfig_key (itemId loc : positive) (d : Defaults) (isAsm : bool)
    (rotationIndex locIndex : nat) :
  lc_item (newLocConfig itemId loc d isAsm rotationIndex locIndex) = itemId
  /\ lc_location (newLocConfig itemId loc d isAsm rotationIndex locIndex) = loc.
Proof. unfold newLocConfig. now destruct (setupMRP d). Qed.

(** X24.  An item [createItem] has just created needs no repair: when
    no location save of the new item was refused, [ensureItemLocations],
    [ensureMRPSettings], [ensureLocationMRPSettings] and
    [ensureVendorSubsidiary], called for the same row, find nothing to add
    or update and leave the store as it is. *)
Theorem created_item_needs_no_repair (ctx : Context) (row : Row) (s s' : Store)
    (itemId : positive) :
  createItem ctx row s = (Some itemId, s') ->
  Forall (fun record => refuses s (SaveLocConfig record) = false)
         (newLocConfigs itemId (defaultsOf ctx) (isAssembly row)
            (default 0 (mrpRotationIndex row)) 0 (locationIds (defaultsOf ctx))) ->
  getExistingItemLocations itemId s = [] ->
  ensureItemLocations itemId ctx s' = (0, s')
  /\ ensureMRPSettings itemId ctx row s' = (false, s')
  /\ ensureLocationMRPSettings itemId ctx row s' = (0, s')
  /\ ensureVendorSubsidiary itemId (recordType row) ctx s' = (false, s').
Proof.
  intros Hcreate Hlocs Hnone. unfold createItem in Hcreate.
  destruct (recordType row) as [ty|] eqn:Ety; [|discriminate Hcreate].
  destruct (refuses s (SaveItem ty _)); [discriminate Hcreate|].
  injection Hcreate as Hid Hs'.
  unfold createItemLocations in Hs'.
  set (d := defaultsOf ctx) in *.
  match type of Hs' with
  | createItemLocations_loop _ _ _ _ _ _ (withItems (fun t => (t ++ [?r])%list) s) = _ =>
      set (itemRec := r) in *
  end.
  set (s0 := withItems (fun t => (t ++ [itemRec])%list) s) in *.
  destruct (createItemLocations_loop_exact (idOf (length (items s))) d (isAssembly row)
              (default 0 (mrpRotationIndex row)) (locationIds d) 0 s0) as [Hl Hb].
  { subst s0. cbn [refuses withItems]. rewrite Hid. exact Hlocs. }
  cbn zeta in Hl, Hb. rewrite Hs' in Hl, Hb.
  apply besideLocConfigs_eq in Hb as [Hitems Hbeside].
  assert (Hrf : refuses s' = refuses s) by (now apply beside_refuses in Hbeside).
  assert (Hload : forall t, t = ty -> loadItem (Some t) itemId s' = Some itemRec).
  { intros t ->. unfold loadItem. rewrite Hitems. subst s0. cbn [items withItems].
    rewrite <- Hid, indexOf_idOf, list_lookup_middle by reflexivity.
    subst itemRec. cbn [it_type]. now destruct ty. }
  assert (Hold : Forall (fun lc => lc_item lc <> itemId) (locconfigs s))
    by now apply existing_none.
  set (news := newLocConfigs (idOf (length (items s))) d (isAssembly row)
                 (default 0 (mrpRotationIndex row)) 0 (locationIds d)) in *.
  assert (Hnews : forall i,
            news !! i
            = (fun loc => newLocConfig (idOf (length (items s))) loc d (isAssembly row)
                            (default 0 (mrpRotationIndex row)) i) <$> locationIds d !! i).
  { intros i. subst news. unfold newLocConfigs. now rewrite list_lookup_imap. }
  assert (Hnew : Forall (fun lc => lc_item lc = itemId) news).
  { apply Forall_forall. intros lc Hlc.
    apply list_elem_of_lookup_1 in Hlc as [i Hi]. rewrite Hnews in Hi.
    destruct (locationIds d !! i) as [loc|]; [|discriminate Hi].
    injection Hi as <-. rewrite <- Hid. apply newLocConfig_key. }
  assert (Hlc : locconfigs s' = (locconfigs s ++ news)%list) by (subst s0; exact Hl).
  split; [|split; [|split]].
  - pose proof (ensureItemLocations_effect itemId ctx s') as (Hn & Hcfg & Hbs).
    cbn zeta in Hn, Hcfg, Hbs. fold d in Hn, Hcfg.
    assert (Hmiss : missingLocations itemId d (locationIds d) s' = []).
    { unfold missingLocations. apply filter_none. intros loc Hloc.
      assert (Hin : In loc (getExistingItemLocations itemId s')).
      { unfold getExistingItemLocations. rewrite Hlc, List.filter_app, List.map_app.
        apply in_or_app. right.
        apply list_elem_of_In in Hloc. apply list_elem_of_lookup_1 in Hloc as [i Hi].
        apply in_map_iff.
        exists (newLocConfig (idOf (length (items s))) loc d (isAssembly row)
                  (default 0 (mrpRotationIndex row)) i).
        split; [apply newLocConfig_key|]. apply filter_In. split.
        - apply list_elem_of_In. apply (list_elem_of_lookup_2 _ i).
          now rewrite Hnews, Hi.
        - apply Pos.eqb_eq. rewrite <- Hid. apply newLocConfig_key. }
      apply existsb_Pos_In in Hin. now rewrite Hin. }
    rewrite Hmiss in Hn, Hcfg. cbn in Hn, Hcfg. rewrite app_nil_r in Hcfg.
    apply besideLocConfigs_eq in Hbs as [Hi2 Hb2].
    destruct (ensureItemLocations itemId ctx s') as [n sN]. cbn [fst snd] in *.
    subst n. f_equal. destruct sN, s'. cbn in *.
    unfold besideItemsAndLocations in Hb2. cbn in Hb2. congruence.
  - unfold ensureMRPSettings. fold d.
    destruct (setupMRP d) eqn:Emrp; [|reflexivity]. cbn [negb].
    rewrite Ety, (Hload ty eq_refl), Hrf. subst itemRec.
    cbn [it_planningitemcategory it_replenishment it_type].
    unfold acceptedCategory, acceptedMethod.
    destruct (c_planningItemCategoryId ctx) as [category|].
    + destruct (refuses s (SetPlanningCategory ty category)) eqn:E1;
        destruct (isAssembly row);
        match goal with
        | |- context [refuses s (SetReplenishment ty ?m)] =>
            destruct (refuses s (SetReplenishment ty m)) eqn:E2
        end; cbn; rewrite ?E1, ?E2; reflexivity.
    + destruct (isAssembly row);
        match goal with
        | |- context [refuses s (SetReplenishment ty ?m)] =>
            destruct (refuses s (SetReplenishment ty m)) eqn:E2
        end; cbn; rewrite ?E2; reflexivity.
  - unfold ensureLocationMRPSettings. fold d.
    destruct (setupMRP d) eqn:Emrp; [|reflexivity]. cbn [negb].
    unfold locConfigsOf. rewrite Hlc, (locConfigsOf_app_new itemId _ news Hold Hnew).
    apply ensureLocationMRPSettings_loop_settled. intros i e Hi.
    rewrite list_lookup_imap, Hnews in Hi.
    destruct (locationIds d !! i) as [loc|]; [|discriminate Hi].
    cbn in Hi. injection Hi as <-. cbn [snd Nat.add]. unfold newLocConfig. rewrite Emrp.
    apply saved_needs_no_update.
  - unfold ensureVendorSubsidiary. fold d.
    destruct (vendorSubsidiaryOf d) as [expected|] eqn:Ev; [|reflexivity].
    rewrite (Hload ty eq_refl). subst itemRec. cbn [it_vendors].
    destruct (getVendorForItem ctx row d) as [vendor|]; [|reflexivity].
    destruct (RecordType_eqb ty inventoryitem); [|reflexivity].
    destruct (refuses s (AddVendorLine vendor (Some expected))); [reflexivity|].
    cbn [existsb vl_subsidiary]. rewrite bool_decide_eq_true_2 by reflexivity.
    reflexivity.
Qed.

Lemma created_item_needs_no_repair_witness :
  let ctx := mkContext (Some "N") None (Some 1%positive) ∅ in
  let row := mkRow 2 "1.1" {[ "itemid" := "B" ]} None None None false
                   (Some inventoryitem) (Some 0) (Some "1") in
  let s' := snd (createItem ctx row emptyStore) in
  length (locconfigs s') = 2
  /\ ensureLocationMRPSettings 1%positive ctx row s' = (0, s').
Proof.
  intros ctx row s'. split; [vm_compute; reflexivity|].
  assert (E : createItem ctx row emptyStore = (Some 1%positive, s')).
  { vm_compute. reflexivity. }
  refine (proj1 (proj2 (proj2 (created_item_needs_no_repair ctx row emptyStore s' 1%positive
                                 E _ eq_refl)))).
  repeat constructor.
Defined.

(** ** What an aborted run leaves behind *)





(** ** The items [reduce] creates *)









